(* ===== verification/_CoqProject ===== *)
-Q . S2P
Prelude.v
RustStr.v
HttpCrate.v
Body.v
Http.v
MethodFilter.v
MethodRouter.v
RouterPath.v
Router.v
Accept.v
StaticPath.v
StaticRange.v
StaticServe.v
StaticEmbed.v
Cors.v
Auth.v
Csrf.v
BodyLimit.v
IpAddr.v
F64.v
RateLimit.v
RateLimitRuns.v
Compression.v
SecurityHeaders.v
RequestId.v
Sse.v
ServerConfig.v
Server.v
AcceptWorkers.v
FileWatch.v
ConfigValue.v
Config.v
ConfigWatch.v
Responses.v
PathDe.v
Extract.v
Extractors.v
Validation.v
Cookies.v
Multipart.v
Adapters.v
WebSocket.v
Broadcast.v
Chat.v
SseDemo.v
Health.v
Probes.v
Metrics.v
Tls.v
Logging.v
TraceContext.v
Stack.v
Macros.v
TestClient.v
Telemetry.v
Serve.v
TestSession.v
