(* ===== verification/Prelude.v ===== *)
(** * A verification of the Arvik web framework

    Arvik (the crates [arvik-*] under [src/]) is an HTTP framework on [tower]
    services and [hyper] connections.  A server accepts connections; each
    request goes to a router, which picks a method router, whose handlers take
    their arguments from the request with extractors and turn their result into
    a response.  Layers wrap services: middleware, tracing, metrics.  Static file
    services, event streams and web socket upgrades are services and responses
    of the same kind, and a layered configuration, with hot reload, sets the
    server up.  This library models those crates' logic as executable
    definitions and proves what makes it correct.

    ** The model

    - A service ([Http.Service]) is a function from a request and a state [W]
      of the world to a response and the new state.  Awaiting a future is
      calling it.  [W] is a parameter of every theorem: that a layer returns
      the world it was given says that it called nothing, that it returns the
      inner service's says it called it once.  A layer is a function on
      services and [apply_layers] the code's fold over them.
    - What runs over time is a step function or relation on explicit states,
      and its theorems are about every interleaving of steps: the accept loop
      with its connection tasks, their hooks and draining ([Server]) and its
      accept workers ([AcceptWorkers]), an event stream polled with its timer
      ([Sse]), the hot reload watchers from the first file they load on
      ([ConfigWatch], [Tls]), the requests in flight under the
      metrics layer ([Metrics]), inside the rate limiter ([RateLimitRuns]) and
      in the readiness probe ([Probes]), the timeout's race ([RequestId]), the
      loggers and tracers a process installs ([Telemetry]), the participants of
      the chat ([Chat]) and the streams of the event stream example ([SseDemo]).
    - State that outlives a request is explicit: the folded stacks a
      [MethodRouter] caches, the buckets of the rate limiter's shards, the
      process-wide metadata cache of embedded assets, the cookie jar cached in
      a request, the readiness cache, the test client's shared jar, the cell
      TLS configurations share, the world the UUID generators draw from.
    - A Rust trait with several implementations is a class, an [impl] an
      instance ([IntoResponse], [IntoResponseParts], [FromRequestParts],
      [FromRequest]).
    - A panic is [None] where code can panic; [Result] is [Prelude.result].
    - Machine integers are [Z] with their bounds as hypotheses or their checks
      and wrap-around in the definitions; [f64] is the rational it stands for,
      rounded by every operation ([F64]); [f32] is the Standard Library's
      [SpecFloat] ([Accept]).  Durations are integral nanoseconds.
    - Text, bytes and header values are byte strings ([RustStr]).

    Code that is not in the repository is a class of operations, with a second
    class of the laws the framework relies on, and a concrete instance at which
    every theorem that uses the laws is instantiated: [HttpCrate]/[HttpLaws]
    and [HeaderIter]/[HeaderIterLaws] ([http]), [Matchit]/[MatchitLaws] (the
    radix trie), [Codecs]/[CodecLaws] ([async-compression]),
    [StaticDeps]/[StaticLaws] ([percent-encoding], [mime_guess], [httpdate]),
    [TempFs]/[TempFsLaws] (temporary files), [TsCode]/[TsCodeLaws] (close codes
    of [tungstenite]), [OtelIds]/[OtelIdsLaws] ([opentelemetry] identifiers),
    [ClientCookies]/[ClientCookiesLaws] (the client's [cookie] jar),
    [Broadcast]/[BroadcastLaws] ([tokio]'s broadcast channel); without laws
    [FileSystem], [Base64], [CsrfDeps], [UuidV4], [Hasher], [CoreCrates],
    [CookieCrate], [Multer], [Serde], [Tracing] and [Unicode].  The group of readiness
    checks run together is the parameter [join_all], with [join_all_lawful].

    ** The files

    - [Prelude], [RustStr], [F64], [IpAddr], [FileWatch]: results, tactics and
      the hint database [arvik]; Rust's [str] functions, [f64] operations, the
      text of IP and socket addresses, and paths by components with [notify]'s
      events, with the lemmas the components share.
    - [HttpCrate]: the interface to [http].
    - [arvik-core]: [Body] ([body.rs], [body_limit.rs]), [Http] ([request.rs],
      [response.rs], with [layer.rs] of the router), [MethodFilter]
      ([method_filter.rs]), [Accept] ([accept.rs]), [Responses]
      ([into_response.rs], [into_response_parts.rs], [stream_body.rs],
      [error.rs]), [Extract] ([extract.rs], [handler.rs], [request_parts.rs]).
    - [arvik-router]: [MethodRouter] ([method_router.rs]), [RouterPath]
      ([params.rs] and the path functions), [Router] ([router.rs],
      [service.rs]).
    - [arvik-extract]: [PathDe] ([path_de.rs]), [Extractors] (the rejections
      and the files of the single extractors), [Validation] ([validation.rs]),
      [Cookies] ([cookies.rs]), [Multipart] ([multipart.rs]).
    - [arvik-static/src/lib.rs]: [StaticPath] (paths, listings), [StaticRange]
      (ranges, validators), [StaticServe] ([ServeDir], [ServeFile]),
      [StaticEmbed] ([EmbeddedFileService]).
    - [arvik-middleware]: [Cors], [Auth], [Csrf], [BodyLimit], [RateLimit]
      (the bucket, the store, one request at a time) with [RateLimitRuns] (the
      same store under requests that interleave), [Compression], [SecurityHeaders],
      [RequestId] (with [timeout.rs]) and [Adapters] ([from_fn.rs],
      [middleware_fn.rs], [next.rs], [map_*.rs], [catch_panic.rs]); [trace.rs] is
      in [Logging].
    - [arvik-sse]: [Sse].  [arvik-ws]: [WebSocket].
    - [arvik-config/src/lib.rs]: [ConfigValue] (values, merging, environment),
      [Config] (sections, validation, loading, a reload at a time),
      [ConfigWatch] (hot reload step by step, with the files and the events).
    - [arvik-hyper]: [ServerConfig] ([config.rs], [runtime.rs], the settings of
      [graceful.rs]), [Server] (the accept loop of [server.rs], the hooks),
      [AcceptWorkers] (binding, the workers that accept and the channel that
      feeds the loop).
    - [Serve]: [serve.rs] and the [serve_*] entry points of [server.rs],
      the services of bare routers, [hyper]'s requests, the default signal.
    - [arvik-tls]: [Tls], both backends, reloading and the expiry warning.
    - [arvik-observe]: [Health] ([health.rs], a probe at a time) with [Probes]
      (probes that overlap), [Metrics] ([metrics.rs]), [Logging] ([logging.rs]),
      [TraceContext] ([trace.rs]), [Telemetry] (the installers of both).
    - [Stack]: the layers of [arvik-middleware] and [arvik-observe] together, and
      around a router, against the interface [OnePass].
    - [arvik-macros/src/lib.rs]: [Macros].  [arvik-test/src/lib.rs]:
      [TestClient] (cookies, [send]), [TestSession] (constructors, responses, the
      web socket).
    - [examples/]: [Chat] ([websocket_chat/src/main.rs]) and [SseDemo]
      ([sse_demo/src/main.rs]), programs on the framework, with [Broadcast], the
      channel both use.

    A definition has the name of the function it models, prefixed by its type
    where Rust has methods of one name on several types ([mr_] for
    [MethodRouter], [sd_] for [ServeDir], [sf_] for [ServeFile], [es_] for
    [EmbeddedFileService], [rb_] for [ResponseBuilder], [rl_], [cors_]).  A
    [Tower] layer's service is the function [<name>_layer].

    ** What is proved

    Routing.  [mr_call_refines] and [router_refines] are refinements: a method
    router, and a router, built by any sequence of the public operations
    ([mr_built], [built]), answer as the specifications [mr_spec] and
    [router_core] say, never panicking, whatever was served before, so the
    caches are invisible.  [nest_preserves_layers] says what nesting does to
    middleware, [mr_call_405] that [Allow] is exact, [stripped_path_boundary],
    [percent_decode_structure] and [route_conflict_count_spec] are about paths,
    and [collected_routes_merge] that the macros' compile-time check rules out
    the panic of a duplicate method; [shorthand_is_route] expands the macros'
    shorthands.  [serve_router_end_to_end] puts the server in front: what clients
    of a served router get, connection by connection, is the specification's.

    Handlers.  [handler_call_refines] and [from_fn_refines]: a handler, and a
    function middleware, is sequential extraction, stopping at the first
    rejection.  [json_handler_outcome] says what a JSON handler can be called
    with, [path_params_roundtrip] that path parameters read back what was
    written, [with_parts_first_value] what a header set does to a response,
    [validation_problem_complete] that a problem document is complete and
    quotes no input, [field_limit_enforced] that the multipart limit is exact,
    [cookie_cache_transparent] that the cached jar is the parsed one,
    [native_body_honest] that a body announces its true length and
    [stream_body_streams] that a streamed one announces none.

    Static files.  [relative_path_contained] and [relative_path_spec] say which
    paths are accepted and that they stay below the root;
    [serve_dir_contained] is the symlink check; [parse_range_correct],
    [serve_fs_asset_correct] and [serve_embedded_asset_correct] the range and
    validator logic with the exact bytes sent; [embedded_cache_transparent]
    that the metadata cache changes nothing for one embed type;
    [escape_html_safe] that listings cannot be injected into.

    Middleware.  [cors_credentials_only_for_listed], [cors_layer_correct],
    [authorization_gate], [csrf_double_submit], [csrf_safe_methods],
    [csrf_cookie_roundtrip], [body_limit_enforced], [bucket_burst],
    [store_isolation], [extract_ip_unforgeable], [rate_limit_gate],
    [compression_transparent], [decompression_decodes],
    [security_headers_complete], [set_response_header_modes],
    [request_id_consistent], [timeout_race] and [map_body_length_honest] each
    say which requests reach the service, in what form, and what the response
    becomes.  [limiter_rate] bounds what the rate limiter lets through in any
    interleaving of requests ([bucket_rate] is the bound of one bucket,
    [attempt_alone] that a request left alone is [store_try_consume]), and
    [peer_keys_distinct] that clients do not share a key.  Below them are
    [to_bytes_limited_correct] and [negotiate_parsed].

    Stacks.  [stack_calls_once]: any stack of the layers of [PassLayer] answers by
    itself or runs the service once, on the same target, whatever the service
    ([timeout], [catch_panic], [from_fn] and the metrics are not among them).
    [cors_outside_authorization] and [decompression_and_limit] say what two
    layers do in either order, [logged_id_is_answered] that the log and the
    client see one request id.

    Streams.  [event_stream_roundtrip]: the parser of the HTML standard reads
    from the bytes of any events exactly those events; [keep_alive_transparent]:
    comments between them are invisible.  [ws_handshake_correct] says which
    requests are upgraded and what the 101 says; [recv_answers_pings] and
    [message_ts_roundtrip] are about messages, [send_batch_refines] about
    batches of them.

    Configuration and server.  [merge_precedence] and [env_precedence] say which
    source wins, [loaded_server_ok] that what loads is valid and
    can be served,
    [bind_addr_roundtrip] that the address bound is the one configured.
    [config_watcher_converges]: no reload publishes an invalid configuration, and
    when the task comes to rest the published one is that of the files, unless
    they changed before their directories were watched
    ([config_watcher_settles] says it comes to rest, [reload_step_turn] ties the steps to
    [Config.watcher_turn]).
    [admission_bound], [hooks_balanced] and [accept_error_outcome] hold in every
    state the accept loop reaches, [drain_terminates] bounds the draining, of
    connections that never end too.
    [accept_workers_refine]: with workers, the loop sees a run of the single
    listener's.  [default_signal_first] is about the default shutdown signal.
    [tls_watcher_converges]: no certificate update an event tells of is lost;
    [watcher_task_reloads]: the task reloads as the operation does.

    Observability.  [metrics_balanced]: the metrics say of every request and
    response what happened to it, in every interleaving; [probes_honest]: a 200
    means that in a recent run every check then registered was healthy, whatever
    else was being probed ([probe_alone] ties it to [Health], [readiness_honest] is one probe);
    [structured_logging_correct]: one valid request id, logged and returned;
    [propagation_roundtrip]: trace contexts are read back; [telemetry_lifecycle]:
    one installation wins and every provider is shut down once.
    [client_keeps_session]: the test client sends back the cookies it was given,
    and [client_sends_as_served] that it sees what a connection would.

    Examples.  [room_is_a_log]: in every run of the chat a room is one log of
    what was posted in it, of which each participant receives a part in order, losing only what it was told it
    lost; [chat_catches_up]: one that keeps up receives all of it.
    [sanitize_room_bounded] and [rooms_list_canonical] are about names.
    [counter_client] and [notifications_client] say what the clients of the event
    streams read, from the counter's numbers or the messages posted through the
    channel, the keep-alive timer and the wire format to the parsed messages.

    Deviations.  Some theorems prove where the code does not do what it
    documents or means to:
    [not_found_content_type_twice], [index_symlink_escapes],
    [head_on_index_has_body], [embedded_cache_crosses_types],
    [if_range_subsecond_never], [idle_sweep_forgets_limit],
    [compression_drops_vary], [over_limit_encoded_body_is_400],
    [tls_connection_cut], [reject_response_no_content_length],
    [counted_cancel], [send_buf_unbounded], [poll_event_panics],
    [jar_response_first_cookie], [validation_content_type_twice],
    [empty_boundary_skipped], [map_body_hides_limit], [catch_panic_outcomes],
    [protocols_order_irrelevant], [reload_forgets_http2_only],
    [sensitive_headers_echoed], [route_meta_case_collision], [raw_ident_meta],
    [cached_readiness_ignores_new_check], [max_age_spelling],
    [served_connect_info_rejected], [served_clients_share_bucket],
    [failed_install_unpublishes], [unupgradable_never_rejected],
    [failed_handler_shuts_down], [reload_feeds_itself], [burst_runs_every_check],
    [late_store_hides_failure], [alpn_switch_undoes_reload],
    [nested_cors_loses_preflight], [unlogged_id_is_answered],
    [rooms_never_close], [hooks_unordered], [edit_before_watch_missed],
    [tls_change_before_watch_missed] and [first_forwarded_line_decides].
    [path_int128_refused] is a limit of the path parameters.

    ** Bounds

    Recursion is structural on the data.  Fuel appears in [digits_aux]
    ([log2 n + 1], at least the number of digits, [digits_aux_spec]), in
    [recv_all] (any number above that of the messages still to come) and in
    [drain_seq] and [drain_map], where it is the number of elements a visitor
    asks for.  [config_watcher_settles] takes as many steps as the system has work
    ([ConfigWatch.work]), and the channel of accepted connections holds 1024, the
    code's constant.  Lengths are assumed to fit [u64] where the code adds them
    ([in_u64]).  The rate theorems hold for every capacity and window up to the
    rounding error they state; the burst is exact up to 2^53 tokens, beyond
    which a double no longer counts by one.  Doubles are taken without exponent
    limits: the limiter's values stay within 2^-200 and 2^200.

    ** Not modelled

    Outside the transition systems named above a lock's critical section is one
    step and polling is seen at its ready results.  A service's readiness
    ([poll_ready]) is always immediate in this code.  The version field and the
    protocol-level extensions of a request are left out, as are [Debug], [Clone],
    constructors and builders that only set a field.

    Not modelled, because they only call third-party code: the TLS handshake,
    building exporters and the text encoding of metrics, socket options beyond
    the calls made, and [hyper]'s connection, which is its requests in order.
    [arvik/src/lib.rs] re-exports.  Of the examples the two built on a broadcast
    channel are modelled, without their HTML pages and their logging; the metric
    of the event stream example, a floating point formula of [sin] and [cos], is
    a parameter, its JSON.  The others and the benchmarks are handlers and routes
    over the operations modelled here. *)
From stdpp Require Import base list strings gmap.
From Stdlib Require Import ZArith Lia Ascii String.

(** ** Results: Rust's [Result<T, E>] *)

Inductive result (A E : Type) : Type :=
| Ok (a : A)
| Err (e : E).
Arguments Ok {A E} a.
Arguments Err {A E} e.

#[export] Instance result_eq_dec {A E} `{EqDecision A, EqDecision E} :
  EqDecision (result A E).
Proof. solve_decision. Defined.

Section ResultOps.
Context {A E : Type}.

(** [Result::ok]. *)
Definition result_ok (r : result A E) : option A :=
  match r with Ok a => Some a | Err _ => None end.

Definition is_ok (r : result A E) : bool :=
  match r with Ok _ => true | Err _ => false end.

Definition result_bind {B} (f : A -> result B E) (r : result A E) : result B E :=
  match r with Ok a => f a | Err e => Err e end.

Definition map_err {F} (f : E -> F) (r : result A E) : result A F :=
  match r with Ok a => Ok a | Err e => Err (f e) end.
End ResultOps.

Declare Scope rust_scope.
Delimit Scope rust_scope with rust.
Notation "'let?' x := r 'in' k" := (result_bind (fun x => k) r)
  (at level 200, x pattern, r at level 100, k at level 200, right associativity) : rust_scope.

(** ** Machine integers

    A [usize] or [u64] is a [Z] in [0, 2^64); the target is 64-bit.  The
    operations the code uses are written with their overflow behaviour. *)

Definition u64_max : Z := 18446744073709551615.
Definition usize_max : Z := u64_max.
Definition u16_max : Z := 65535.

Definition in_u64 (z : Z) : Prop := (0 <= z <= u64_max)%Z.

(** [saturating_sub], [saturating_add] on [u64]/[usize]. *)
Definition sat_sub (a b : Z) : Z := Z.max 0 (a - b).
Definition sat_add (a b : Z) : Z := Z.min u64_max (a + b).
(** [wrapping] reduction: what release-mode [+], [-] and [*] compute. *)
Definition wrap_u64 (a : Z) : Z := (a mod 2 ^ 64)%Z.

Lemma wrap_u64_id a : in_u64 a -> wrap_u64 a = a.
Proof. unfold in_u64, u64_max, wrap_u64. intros. apply Z.mod_small. lia. Qed.
Lemma wrap_u64_add_l a b : wrap_u64 (wrap_u64 a + b) = wrap_u64 (a + b).
Proof. apply Zplus_mod_idemp_l. Qed.
Lemma wrap_u64_wrap a : wrap_u64 (wrap_u64 a) = wrap_u64 a.
Proof. apply Zmod_mod. Qed.

Lemma sat_sub_le a b : (0 <= b)%Z -> (0 <= a)%Z -> (0 <= sat_sub a b <= a)%Z.
Proof. unfold sat_sub. lia. Qed.

(** A duration of one second, where durations are in nanoseconds. *)
Definition SECOND : Z := 1000000000.

(** ** Record update

    [r <| f := v |>] is [r] with the field [f] replaced, what a builder method
    [self.f = v; self] does.  A record type declares how a value is rebuilt from
    its fields; the update of one field is found by abstracting over it. *)

Class Rebuild (R : Type) := rebuild : R -> R.
Class Update {R T : Type} (field : R -> T) := update : (T -> T) -> R -> R.
Ltac find_update :=
  match goal with
  | |- @Update ?R ?T ?field =>
      let inst := constr:(_ : Rebuild R) in
      let whole := eval hnf in inst in
      match eval pattern field in whole with
      | ?body _ => exact (fun (g : T -> T) (r : R) => body (fun r' => g (field r')) r)
      end
  end.
#[export] Hint Extern 0 (Update _) => find_update : typeclass_instances.
Notation "r <| f := v |>" := (update (field := f) (fun _ => v) r)
  (at level 12, f at next level, left associativity, format "r  <| f  :=  v |>") : rust_scope.

(** ** Automation *)

Create HintDb arvik.

(** Destruct the scrutinee of a [match] or [if] in the goal or in [H]. *)
Ltac case_goal :=
  match goal with
  | |- context [match ?x with _ => _ end] => destruct x eqn:?
  end.
Ltac case_hyp H :=
  match type of H with
  | context [match ?x with _ => _ end] => destruct x eqn:?
  end.

(** Boolean tests as propositions. *)
Ltac bool_hyps :=
  repeat match goal with
  | H : (_ && _)%bool = true |- _ => apply andb_prop in H; destruct H
  | H : (_ || _)%bool = false |- _ => apply orb_false_elim in H; destruct H
  | H : negb _ = true |- _ => apply negb_true_iff in H
  | H : negb _ = false |- _ => apply negb_false_iff in H
  | H : (_ <? _)%Z = true |- _ => apply Z.ltb_lt in H
  | H : (_ <? _)%Z = false |- _ => apply Z.ltb_ge in H
  | H : (_ <=? _)%Z = true |- _ => apply Z.leb_le in H
  | H : (_ <=? _)%Z = false |- _ => apply Z.leb_gt in H
  | H : (_ =? _)%Z = true |- _ => apply Z.eqb_eq in H
  | H : (_ =? _)%Z = false |- _ => apply Z.eqb_neq in H
  | H : (_ >? _)%Z = true |- _ => rewrite Z.gtb_ltb in H
  | H : (_ >? _)%Z = false |- _ => rewrite Z.gtb_ltb in H
  | H : (_ =? _)%string = true |- _ => apply String.eqb_eq in H
  | H : (_ =? _)%string = false |- _ => apply String.eqb_neq in H
  | H : (_ =? _)%char = true |- _ => apply Ascii.eqb_eq in H
  | H : (_ =? _)%char = false |- _ => apply Ascii.eqb_neq in H
  end.

(** ** Lists *)

Lemma list_find_none_forallb {A} (f : A -> bool) l :
  existsb f l = false <-> forall x, x ∈ l -> f x = false.
Proof.
  induction l as [|a l IH]; simpl.
  - split; [set_solver | done].
  - rewrite orb_false_iff, IH. set_solver.
Qed.

Lemma existsb_elem {A} (f : A -> bool) l :
  existsb f l = true <-> exists x, x ∈ l /\ f x = true.
Proof.
  rewrite existsb_exists. setoid_rewrite list_elem_of_In. done.
Qed.

Lemma forallb_elem {A} (f : A -> bool) l :
  forallb f l = true <-> forall x, x ∈ l -> f x = true.
Proof.
  rewrite forallb_forall. setoid_rewrite list_elem_of_In. done.
Qed.

(** The first element a predicate accepts, and what precedes it. *)
Lemma find_some_split {A} (f : A -> bool) l x :
  List.find f l = Some x ->
  exists l1 l2, l = l1 ++ x :: l2 /\ f x = true /\ forall y, y ∈ l1 -> f y = false.
Proof.
  induction l as [|a l IH]; simpl; [done|].
  destruct (f a) eqn:Ha.
  - intros [= <-]. exists [], l. set_solver.
  - intros H. destruct (IH H) as (l1 & l2 & -> & Hx & Hl1).
    exists (a :: l1), l2. set_solver.
Qed.
