(* ===== verification/RustStr.v ===== *)
(** * Rust's [str] operations

    A Rust [str]/[String], a header value and a byte buffer are all a [string]
    of 8-bit characters: the UTF-8 bytes of the text.  This file models the
    functions of [core::str] the framework calls, on those bytes, with the
    lemmas the components share.  A pattern that is one ASCII character or a
    list of them is matched bytewise, which UTF-8's self-synchronisation makes
    exact. *)
From S2P Require Import Prelude.
From stdpp Require Import base list strings sets.
From Stdlib Require Import ZArith Lia Ascii String.
Open Scope string_scope.
Open Scope list_scope.

#[global] Arguments String.append !s1 s2 : simpl nomatch.

(** ** Bytes *)

Definition byte_val (a : ascii) : Z := Z.of_N (N_of_ascii a).
Definition byte_of_val (z : Z) : ascii := ascii_of_N (Z.to_N z).

Lemma byte_val_range a : (0 <= byte_val a < 256)%Z.
Proof. unfold byte_val. pose proof (N_ascii_bounded a). lia. Qed.

Lemma byte_of_val_val a : byte_of_val (byte_val a) = a.
Proof. unfold byte_of_val, byte_val. rewrite N2Z.id. apply ascii_N_embedding. Qed.

Lemma byte_val_inj a b : byte_val a = byte_val b -> a = b.
Proof. intros H. rewrite <- (byte_of_val_val a), H. apply byte_of_val_val. Qed.

Lemma byte_val_of_val z : (0 <= z < 256)%Z -> byte_val (byte_of_val z) = z.
Proof. intros H. unfold byte_val, byte_of_val. rewrite N_ascii_embedding; lia. Qed.

Definition in_range (lo hi : Z) (a : ascii) : bool :=
  (lo <=? byte_val a)%Z && (byte_val a <=? hi)%Z.

Definition is_ascii (a : ascii) : bool := (byte_val a <? 128)%Z.
Definition is_ascii_uppercase (a : ascii) : bool := in_range 65 90 a.
Definition is_ascii_digit (a : ascii) : bool := in_range 48 57 a.
Definition is_ascii_hexdigit (a : ascii) : bool :=
  in_range 48 57 a || in_range 65 70 a || in_range 97 102 a.

Definition to_ascii_lowercase_char (a : ascii) : ascii :=
  if is_ascii_uppercase a then byte_of_val (byte_val a + 32) else a.

(** ** Strings as sequences of bytes *)

Fixpoint str_forall (f : ascii -> bool) (s : string) : bool :=
  match s with
  | EmptyString => true
  | String a s => f a && str_forall f s
  end.

Fixpoint str_exists (f : ascii -> bool) (s : string) : bool :=
  match s with
  | EmptyString => false
  | String a s => f a || str_exists f s
  end.

Fixpoint str_map (f : ascii -> ascii) (s : string) : string :=
  match s with
  | EmptyString => EmptyString
  | String a s => String (f a) (str_map f s)
  end.

Definition str_len (s : string) : Z := Z.of_nat (String.length s).
Definition str_is_empty (s : string) : bool :=
  match s with EmptyString => true | _ => false end.

Definition to_ascii_lowercase : string -> string := str_map to_ascii_lowercase_char.
Definition eq_ignore_ascii_case (a b : string) : bool :=
  String.eqb (to_ascii_lowercase a) (to_ascii_lowercase b).

Definition contains_char (c : ascii) (s : string) : bool := str_exists (Ascii.eqb c) s.

Fixpoint str_rev_app (s acc : string) : string :=
  match s with
  | EmptyString => acc
  | String a s => str_rev_app s (String a acc)
  end.
Definition str_rev (s : string) : string := str_rev_app s "".

(** [&s[n..]] and [&s[..n]] at a boundary. *)
Fixpoint str_drop (n : nat) (s : string) : string :=
  match n, s with
  | O, _ => s
  | S n, String _ s => str_drop n s
  | S _, EmptyString => EmptyString
  end.
Fixpoint str_take (n : nat) (s : string) : string :=
  match n, s with
  | O, _ => EmptyString
  | S n, String a s => String a (str_take n s)
  | S _, EmptyString => EmptyString
  end.

(** [strip_prefix], [starts_with] with a string pattern. *)
Fixpoint str_strip_prefix (p s : string) : option string :=
  match p, s with
  | EmptyString, _ => Some s
  | String a p, String b s => if Ascii.eqb a b then str_strip_prefix p s else None
  | String _ _, EmptyString => None
  end.

Definition starts_with (p s : string) : bool :=
  match str_strip_prefix p s with Some _ => true | None => false end.

(** [ends_with] one character. *)
Fixpoint ends_with_char (c : ascii) (s : string) : bool :=
  match s with
  | EmptyString => false
  | String a EmptyString => Ascii.eqb a c
  | String _ s => ends_with_char c s
  end.

(** [contains] with a string pattern. *)
Fixpoint str_contains (p s : string) : bool :=
  starts_with p s ||
  match s with
  | EmptyString => false
  | String _ s => str_contains p s
  end.

(** ** Splitting *)

(** [split(c)], collected: always at least one piece. *)
Fixpoint str_split (c : ascii) (s : string) : list string :=
  match s with
  | EmptyString => [""]
  | String a s =>
      if Ascii.eqb a c then "" :: str_split c s
      else match str_split c s with
           | w :: ws => String a w :: ws
           | [] => [String a ""]
           end
  end.

(** [split_once(c)]. *)
Fixpoint split_once (c : ascii) (s : string) : option (string * string) :=
  match s with
  | EmptyString => None
  | String a s =>
      if Ascii.eqb a c then Some ("", s)
      else match split_once c s with
           | Some (l, r) => Some (String a l, r)
           | None => None
           end
  end.

(** [[..].join(sep)]. *)
Fixpoint str_join (sep : string) (l : list string) : string :=
  match l with
  | [] => ""
  | [w] => w
  | w :: ws => w +:+ sep +:+ str_join sep ws
  end.

(** [trim_start_matches(c)], [trim_end_matches(c)]. *)
Fixpoint trim_start_matches (c : ascii) (s : string) : string :=
  match s with
  | String a s' => if Ascii.eqb a c then trim_start_matches c s' else s
  | EmptyString => EmptyString
  end.

Fixpoint trim_end_matches (c : ascii) (s : string) : string :=
  match s with
  | EmptyString => EmptyString
  | String a s' =>
      match trim_end_matches c s' with
      | EmptyString => if Ascii.eqb a c then EmptyString else String a EmptyString
      | t => String a t
      end
  end.

(** ** [trim]: Unicode [White_Space] on UTF-8 bytes *)

Definition ws1 (a : ascii) : bool := in_range 9 13 a || Ascii.eqb a " ".
(** U+0085 and U+00A0. *)
Definition ws2 (a b : ascii) : bool :=
  (byte_val a =? 194)%Z && ((byte_val b =? 133)%Z || (byte_val b =? 160)%Z).
(** U+1680, U+2000..U+200A, U+2028, U+2029, U+202F, U+205F and U+3000. *)
Definition ws3 (a b c : ascii) : bool :=
  let x := byte_val a in let y := byte_val b in let z := byte_val c in
  ((x =? 225) && (y =? 154) && (z =? 128))%Z
  || ((x =? 226) && (y =? 128)
      && (((128 <=? z) && (z <=? 138)) || (z =? 168) || (z =? 169) || (z =? 175)))%Z
  || ((x =? 226) && (y =? 129) && (z =? 159))%Z
  || ((x =? 227) && (y =? 128) && (z =? 128))%Z.

Fixpoint trim_start (s : string) : string :=
  match s with
  | EmptyString => s
  | String a s1 =>
      if ws1 a then trim_start s1
      else match s1 with
           | EmptyString => s
           | String b s2 =>
               if ws2 a b then trim_start s2
               else match s2 with
                    | EmptyString => s
                    | String c s3 => if ws3 a b c then trim_start s3 else s
                    end
           end
  end.

(** The same on the reversed bytes, a multi-byte character last byte first. *)
Fixpoint trim_start_rev (s : string) : string :=
  match s with
  | EmptyString => s
  | String a s1 =>
      if ws1 a then trim_start_rev s1
      else match s1 with
           | EmptyString => s
           | String b s2 =>
               if ws2 b a then trim_start_rev s2
               else match s2 with
                    | EmptyString => s
                    | String c s3 => if ws3 c b a then trim_start_rev s3 else s
                    end
           end
  end.

Definition trim_end (s : string) : string := str_rev (trim_start_rev (str_rev s)).
Definition trim (s : string) : string := trim_end (trim_start s).

(** ** UTF-8 validity ([str::from_utf8]) *)

Definition utf8_cont (a : ascii) : bool := in_range 128 191 a.

Fixpoint utf8_valid (s : string) : bool :=
  match s with
  | EmptyString => true
  | String a s1 =>
      if in_range 0 127 a then utf8_valid s1
      else match s1 with
      | EmptyString => false
      | String b s2 =>
          if in_range 194 223 a then utf8_cont b && utf8_valid s2
          else match s2 with
          | EmptyString => false
          | String c s3 =>
              if in_range 224 239 a then
                (if (byte_val a =? 224)%Z then in_range 160 191 b
                 else if (byte_val a =? 237)%Z then in_range 128 159 b
                 else utf8_cont b) && utf8_cont c && utf8_valid s3
              else match s3 with
              | EmptyString => false
              | String d s4 =>
                  in_range 240 244 a &&
                  (if (byte_val a =? 240)%Z then in_range 144 191 b
                   else if (byte_val a =? 244)%Z then in_range 128 143 b
                   else utf8_cont b) && utf8_cont c && utf8_cont d && utf8_valid s4
              end
          end
      end
  end.

(** ** Integers as text *)

Definition digit_char (d : Z) : ascii :=
  byte_of_val (if (d <? 10)%Z then 48 + d else 87 + d).

(** Digits of [n] in [base], most significant first, in front of [acc]. *)
Fixpoint digits_aux (base : Z) (fuel : nat) (n : Z) (acc : string) : string :=
  match fuel with
  | O => acc
  | S fuel =>
      let acc := String (digit_char (n mod base)) acc in
      if (n / base =? 0)%Z then acc else digits_aux base fuel (n / base) acc
  end.

(** The double quote. *)
Definition dquote : string := String (byte_of_val 34) "".

(** [{:?}] of a plain string: quoted. *)
Definition quoted (s : string) : string := dquote +:+ s +:+ dquote.

(** [n.to_string()] and [format!("{n:x}")]; [log2 n + 1] digits always suffice. *)
Definition to_dec (n : Z) : string := digits_aux 10 (S (Z.to_nat (Z.log2 n))) n "".
Definition to_hex (n : Z) : string := digits_aux 16 (S (Z.to_nat (Z.log2 n))) n "".
(** [format!("{b:02x}")] of a byte. *)
Definition to_hex02 (b : Z) : string :=
  String (digit_char (b / 16)) (String (digit_char (b mod 16)) "").

(** [from_str_radix(s, 10)] on digits: [checked_mul] then [checked_add]. *)
Fixpoint parse_digits (max acc : Z) (s : string) : option Z :=
  match s with
  | EmptyString => Some acc
  | String a s =>
      if is_ascii_digit a then
        let acc := (acc * 10)%Z in
        if (max <? acc)%Z then None else
        let acc := (acc + (byte_val a - 48))%Z in
        if (max <? acc)%Z then None else parse_digits max acc s
      else None
  end.

(** [s.parse::<u64>()] for an unsigned type of maximum [max]: the empty
    string is an error, one leading [+] is accepted, a lone sign is not. *)
Definition parse_unsigned (max : Z) (s : string) : option Z :=
  match s with
  | EmptyString => None
  | String a s' =>
      if Ascii.eqb a "+" then
        match s' with EmptyString => None | _ => parse_digits max 0 s' end
      else parse_digits max 0 s
  end.
Definition parse_u64 : string -> option Z := parse_unsigned u64_max.
Definition parse_usize : string -> option Z := parse_unsigned usize_max.

(** ** Lemmas: append *)

Lemma sapp_nil_r s : s +:+ "" = s.
Proof. induction s; simpl; congruence. Qed.

Lemma sapp_assoc s t u : s +:+ (t +:+ u) = (s +:+ t) +:+ u.
Proof. induction s; simpl; congruence. Qed.

Lemma sapp_inj_l p s t : p +:+ s = p +:+ t -> s = t.
Proof. induction p; simpl; [done|]. intros [= ?]. auto. Qed.

Lemma length_sapp s t :
  String.length (s +:+ t) = (String.length s + String.length t)%nat.
Proof. induction s; simpl; congruence. Qed.

Lemma str_len_app s t : str_len (s +:+ t) = (str_len s + str_len t)%Z.
Proof. unfold str_len. rewrite length_sapp. lia. Qed.

Lemma str_len_nonneg s : (0 <= str_len s)%Z.
Proof. unfold str_len. lia. Qed.

Lemma str_is_empty_spec s : str_is_empty s = true <-> s = "".
Proof. by destruct s. Qed.

#[export] Hint Rewrite sapp_nil_r length_sapp str_len_app : arvik.
#[export] Hint Resolve str_len_nonneg byte_val_range : arvik.

(** ** Lemmas: quantifiers over bytes *)

Lemma str_forall_app f s t : str_forall f (s +:+ t) = str_forall f s && str_forall f t.
Proof. induction s; simpl; [done|]. by rewrite IHs, andb_assoc. Qed.

Lemma str_exists_app f s t : str_exists f (s +:+ t) = str_exists f s || str_exists f t.
Proof. induction s; simpl; [done|]. by rewrite IHs, orb_assoc. Qed.

Lemma str_forall_exists f s : str_forall f s = negb (str_exists (fun a => negb (f a)) s).
Proof.
  induction s; simpl; [done|]. rewrite IHs, negb_orb, negb_involutive. done.
Qed.

Lemma str_forall_impl (f g : ascii -> bool) s :
  (forall a, f a = true -> g a = true) -> str_forall f s = true -> str_forall g s = true.
Proof. intros Hfg. induction s; simpl; [done|]. intros. bool_hyps. rewrite Hfg; auto. Qed.

Lemma str_exists_impl (f g : ascii -> bool) s :
  (forall a, f a = true -> g a = true) -> str_exists f s = true -> str_exists g s = true.
Proof.
  intros Hfg. induction s as [|a s IH]; simpl; [done|].
  intros [H|H]%orb_true_iff; rewrite ?(Hfg a H), ?(IH H), ?orb_true_r; done.
Qed.

Lemma contains_char_app c s t :
  contains_char c (s +:+ t) = contains_char c s || contains_char c t.
Proof. apply str_exists_app. Qed.

Lemma contains_char_cons c a s :
  contains_char c (String a s) = Ascii.eqb c a || contains_char c s.
Proof. done. Qed.

Lemma str_map_app f s t : str_map f (s +:+ t) = str_map f s +:+ str_map f t.
Proof. induction s; simpl; congruence. Qed.

Lemma length_str_map f s : String.length (str_map f s) = String.length s.
Proof. induction s; simpl; congruence. Qed.

Lemma eq_ignore_ascii_case_refl s : eq_ignore_ascii_case s s = true.
Proof. apply String.eqb_refl. Qed.

(** ** Lemmas: prefixes *)

Lemma str_strip_prefix_spec p s r : str_strip_prefix p s = Some r <-> s = p +:+ r.
Proof.
  revert s; induction p as [|a p IH]; intros s; simpl.
  - split; congruence.
  - destruct s as [|b s]; [done|].
    destruct (Ascii.eqb_spec a b) as [->|Hne]; [|split; congruence].
    rewrite IH. split; congruence.
Qed.

Lemma starts_with_spec p s : starts_with p s = true <-> exists r, s = p +:+ r.
Proof.
  unfold starts_with. setoid_rewrite <- str_strip_prefix_spec.
  destruct (str_strip_prefix p s); naive_solver.
Qed.

Lemma starts_with_app p s : starts_with p (p +:+ s) = true.
Proof. apply starts_with_spec. eauto. Qed.

Lemma ends_with_char_app c s : ends_with_char c (s +:+ String c "") = true.
Proof.
  induction s as [|a s IH]; simpl; [apply Ascii.eqb_refl|].
  rewrite IH. by destruct (s +:+ String c "") eqn:E; [destruct s|].
Qed.

Lemma ends_with_char_spec c s :
  ends_with_char c s = true <-> exists t, s = t +:+ String c "".
Proof.
  split; [|intros [t ->]; apply ends_with_char_app].
  induction s as [|a s IH]; simpl; [done|].
  destruct s as [|b s].
  - intros H. bool_hyps. subst. by exists "".
  - intros H. destruct (IH H) as [t Ht]. exists (String a t). by rewrite Ht.
Qed.

(** ** Lemmas: splitting *)

Lemma str_split_nonempty c s : str_split c s <> [].
Proof. destruct s; simpl; [done|]. repeat case_goal; done. Qed.

Lemma str_join_cons sep w ws :
  ws <> [] -> str_join sep (w :: ws) = w +:+ sep +:+ str_join sep ws.
Proof. by destruct ws. Qed.

(** Joining the pieces gives the text back. *)
Lemma str_join_split c s : str_join (String c "") (str_split c s) = s.
Proof.
  induction s as [|a s IH]; simpl; [done|].
  destruct (Ascii.eqb_spec a c) as [->|].
  - rewrite str_join_cons by apply str_split_nonempty. simpl. by rewrite IH.
  - destruct (str_split c s) as [|w ws] eqn:E; [by apply str_split_nonempty in E|].
    destruct ws; simpl in *; congruence.
Qed.

(** No piece contains the separator. *)
Lemma str_split_free c s w : w ∈ str_split c s -> contains_char c w = false.
Proof.
  revert w; induction s as [|a s IH]; simpl; intros w Hw; [set_solver|].
  destruct (Ascii.eqb_spec a c) as [->|Hne]; [set_solver|].
  destruct (str_split c s) as [|v vs] eqn:E.
  - by apply str_split_nonempty in E.
  - apply elem_of_cons in Hw as [->|Hw]; [|set_solver].
    rewrite contains_char_cons, IH by set_solver.
    rewrite orb_false_r. apply Ascii.eqb_neq. congruence.
Qed.

Lemma str_split_free_id c s : contains_char c s = false -> str_split c s = [s].
Proof.
  induction s as [|a s IH]; simpl; [done|].
  rewrite contains_char_cons, orb_false_iff. intros [Ha Hs].
  rewrite Ascii.eqb_sym, Ha, (IH Hs). done.
Qed.

Lemma str_split_app c s t :
  contains_char c s = false ->
  str_split c (s +:+ String c t) = s :: str_split c t.
Proof.
  induction s as [|a s IH]; simpl; intros Hs.
  - by rewrite Ascii.eqb_refl.
  - rewrite contains_char_cons, orb_false_iff in Hs. destruct Hs as [Ha Hs].
    rewrite Ascii.eqb_sym, Ha, (IH Hs). done.
Qed.

(** Splitting what was joined from separator-free pieces gives the pieces. *)
Lemma str_split_join c l :
  l <> [] -> (forall w, w ∈ l -> contains_char c w = false) ->
  str_split c (str_join (String c "") l) = l.
Proof.
  induction l as [|w l IH]; intros Hne Hl; [done|].
  destruct l as [|v l].
  - simpl. apply str_split_free_id. set_solver.
  - rewrite str_join_cons by done.
    change (String c "" +:+ ?s) with (String c s).
    rewrite str_split_app, IH by set_solver. done.
Qed.

Lemma split_once_spec c s l r :
  split_once c s = Some (l, r) <-> s = l +:+ String c r /\ contains_char c l = false.
Proof.
  revert l r; induction s as [|a s IH]; intros l r; simpl.
  - split; [done|]. by intros [H _]; destruct l.
  - destruct (Ascii.eqb_spec a c) as [->|Hne].
    + split; [intros [= <- <-]; done|].
      intros [H Hl]. destruct l as [|b l]; simpl in H; [congruence|].
      injection H as -> ->. rewrite contains_char_cons, Ascii.eqb_refl in Hl. done.
    + destruct (split_once c s) as [[l' r']|] eqn:E.
      * split.
        -- intros [= <- <-]. destruct (proj1 (IH l' r') eq_refl) as [-> Hl].
           rewrite contains_char_cons, Hl, orb_false_r.
           split; [done|]. apply Ascii.eqb_neq. congruence.
        -- intros [H Hl]. destruct l as [|b l]; simpl in H; [congruence|].
           injection H as -> ->. rewrite contains_char_cons in Hl. bool_hyps.
           pose proof (proj2 (IH l r) (conj eq_refl ltac:(done))). congruence.
      * split; [done|]. intros [H Hl]. destruct l as [|b l]; simpl in H; [congruence|].
        injection H as -> ->. rewrite contains_char_cons in Hl. bool_hyps.
        pose proof (proj2 (IH l r) (conj eq_refl ltac:(done))). congruence.
Qed.

Lemma split_once_none c s : split_once c s = None <-> contains_char c s = false.
Proof.
  induction s as [|a s IH]; simpl; [done|].
  rewrite contains_char_cons, (Ascii.eqb_sym c a).
  destruct (Ascii.eqb a c); simpl; [done|]. rewrite <- IH.
  by destruct (split_once c s) as [[]|].
Qed.

(** What the trims leave does not start (end) with the trimmed character. *)
Lemma trim_start_matches_head c s t : trim_start_matches c s <> String c t.
Proof.
  induction s as [|a s IH]; simpl; [done|].
  destruct (Ascii.eqb_spec a c); [done|congruence].
Qed.

Lemma trim_end_matches_end c s : ends_with_char c (trim_end_matches c s) = false.
Proof.
  induction s as [|a s IH]; simpl; [done|].
  destruct (trim_end_matches c s) as [|b t] eqn:E.
  - destruct (Ascii.eqb a c) eqn:Ha; simpl; [done|by rewrite Ha].
  - rewrite <- IH. done.
Qed.

Lemma trim_end_matches_id c s : ends_with_char c s = false -> trim_end_matches c s = s.
Proof.
  induction s as [|a s IH]; [done|].
  destruct s as [|b s]; [simpl; by intros ->|].
  intros H. change (ends_with_char c (String b s) = false) in H.
  cbn [trim_end_matches] in *. rewrite (IH H). done.
Qed.

Lemma trim_end_matches_start c s :
  starts_with (trim_end_matches c s) s = true.
Proof.
  induction s as [|a s IH]; [done|]. cbn [trim_end_matches].
  destruct (trim_end_matches c s) as [|b t] eqn:E.
  - destruct (Ascii.eqb a c); unfold starts_with; simpl; [done|].
    by rewrite Ascii.eqb_refl.
  - revert IH. unfold starts_with. cbn [str_strip_prefix]. rewrite !Ascii.eqb_refl. done.
Qed.

(** ** Lemmas: decimal text *)

Lemma digit_char_dec d : (0 <= d < 10)%Z ->
  is_ascii_digit (digit_char d) = true /\ byte_val (digit_char d) = (48 + d)%Z.
Proof.
  intros Hd. unfold is_ascii_digit, in_range, digit_char.
  replace (d <? 10)%Z with true by (symmetry; apply Z.ltb_lt; lia).
  rewrite byte_val_of_val by lia. split; [|done].
  apply andb_true_intro. split; apply Z.leb_le; lia.
Qed.

Lemma parse_digits_one max a d rest :
  (0 <= a)%Z -> (0 <= d < 10)%Z -> (a * 10 + d <= max)%Z ->
  parse_digits max a (String (digit_char d) rest) = parse_digits max (a * 10 + d) rest.
Proof.
  intros Ha Hd Hmax. cbn [parse_digits].
  destruct (digit_char_dec d Hd) as [-> ->].
  replace (max <? a * 10)%Z with false by (symmetry; apply Z.ltb_ge; lia).
  replace (a * 10 + (48 + d - 48))%Z with (a * 10 + d)%Z by lia.
  by replace (max <? a * 10 + d)%Z with false by (symmetry; apply Z.ltb_ge; lia).
Qed.

Lemma digits_aux_spec fuel n acc :
  (0 <= n < 10 ^ Z.of_nat fuel)%Z -> (fuel <> 0)%nat ->
  exists ds, digits_aux 10 fuel n acc = ds +:+ acc /\ ds <> "" /\
    str_forall is_ascii_digit ds = true /\
    forall max a rest, (0 <= a)%Z -> (a * 10 ^ str_len ds + n <= max)%Z ->
      parse_digits max a (ds +:+ rest) = parse_digits max (a * 10 ^ str_len ds + n) rest.
Proof.
  revert n acc; induction fuel as [|fuel IH]; intros n acc Hn Hf; [done|].
  pose proof (Z.mod_pos_bound n 10 ltac:(lia)) as Hm.
  pose proof (Z.div_mod n 10 ltac:(lia)) as Hdm.
  destruct (digit_char_dec (n mod 10) Hm) as [Hdig _].
  cbn [digits_aux]. destruct (Z.eqb_spec (n / 10) 0) as [Hz|Hz].
  - exists (String (digit_char (n mod 10)) "").
    split; [done|]. split; [done|]. split; [cbn; by rewrite Hdig|].
    intros max a rest Ha Hmax. change (str_len (String _ "")) with 1%Z in *.
    change (String ?c "" +:+ rest) with (String c rest).
    rewrite parse_digits_one by lia. f_equal. lia.
  - assert (0 <= n / 10 < 10 ^ Z.of_nat fuel)%Z.
    { rewrite Nat2Z.inj_succ, Z.pow_succ_r in Hn by lia.
      split; [apply Z.div_pos; lia|apply Z.div_lt_upper_bound; lia]. }
    destruct fuel as [|fuel']; [cbn in *; lia|].
    destruct (IH (n / 10)%Z (String (digit_char (n mod 10)) acc) ltac:(done) ltac:(done))
      as (ds & -> & Hne & Hall & Hp).
    exists (ds +:+ String (digit_char (n mod 10)) "").
    split; [by rewrite <- sapp_assoc|]. split; [by destruct ds|].
    split; [rewrite str_forall_app, Hall; cbn; by rewrite Hdig|].
    intros max a rest Ha. rewrite <- sapp_assoc, str_len_app.
    change (str_len (String _ "")) with 1%Z.
    change (String ?c "" +:+ rest) with (String c rest).
    rewrite Z.pow_add_r by (pose proof (str_len_nonneg ds); lia).
    pose proof (Z.pow_pos_nonneg 10 (str_len ds) ltac:(lia) (str_len_nonneg ds)).
    assert (0 <= a * 10 ^ str_len ds)%Z by (apply Z.mul_nonneg_nonneg; lia).
    intros Hmax.
    replace (a * (10 ^ str_len ds * 10 ^ 1) + n)%Z
      with ((a * 10 ^ str_len ds + n / 10) * 10 + n mod 10)%Z in * by lia.
    rewrite Hp, parse_digits_one by lia. done.
Qed.

Lemma log2_lt_pow10 n : (0 <= n)%Z -> (n < 10 ^ Z.of_nat (S (Z.to_nat (Z.log2 n))))%Z.
Proof.
  intros Hn. destruct (Z.eq_dec n 0) as [->|]; [done|].
  pose proof (Z.log2_spec n ltac:(lia)) as [_ Hlt]. pose proof (Z.log2_nonneg n).
  eapply Z.lt_le_trans; [exact Hlt|].
  replace (Z.of_nat (S (Z.to_nat (Z.log2 n)))) with (Z.succ (Z.log2 n)) by lia.
  apply Z.pow_le_mono_l. lia.
Qed.

Lemma to_dec_spec n : (0 <= n)%Z ->
  to_dec n <> "" /\ str_forall is_ascii_digit (to_dec n) = true /\
  forall max rest, (n <= max)%Z ->
    parse_digits max 0 (to_dec n +:+ rest) = parse_digits max n rest.
Proof.
  intros Hn. unfold to_dec.
  destruct (digits_aux_spec (S (Z.to_nat (Z.log2 n))) n "") as (ds & -> & Hne & Hall & Hp).
  - split; [done|by apply log2_lt_pow10].
  - done.
  - rewrite sapp_nil_r. split; [done|]. split; [done|]. intros max rest Hmax.
    rewrite Hp by lia. f_equal.
Qed.

(** Printing a [u64] and parsing it gives it back. *)
Lemma parse_unsigned_to_dec max n : (0 <= n <= max)%Z -> parse_unsigned max (to_dec n) = Some n.
Proof.
  intros Hn. destruct (to_dec_spec n ltac:(lia)) as (Hne & Hall & Hp).
  specialize (Hp max "" ltac:(lia)). rewrite sapp_nil_r in Hp.
  unfold parse_unsigned. destruct (to_dec n) as [|a s] eqn:E; [done|].
  destruct (Ascii.eqb_spec a "+") as [->|]; [by cbn in Hall|].
  exact Hp.
Qed.

Lemma parse_digits_bound max a s n :
  (0 <= a <= max)%Z -> parse_digits max a s = Some n -> (a <= n <= max)%Z.
Proof.
  revert a; induction s as [|c s IH]; intros a Ha; cbn [parse_digits]; [naive_solver lia|].
  destruct (is_ascii_digit c) eqn:Hc; [|done].
  unfold is_ascii_digit, in_range in Hc. bool_hyps.
  case_match; [done|]. case_match; [done|]. bool_hyps.
  intros Hp. apply IH in Hp; lia.
Qed.

Lemma parse_unsigned_bound max s n :
  (0 <= max)%Z -> parse_unsigned max s = Some n -> (0 <= n <= max)%Z.
Proof.
  intros Hmax. unfold parse_unsigned. destruct s as [|a s]; [done|].
  repeat case_match; intros Hp; try done; by apply parse_digits_bound in Hp.
Qed.

Lemma parse_u64_bound s n : parse_u64 s = Some n -> in_u64 n.
Proof. apply parse_unsigned_bound. unfold u64_max. lia. Qed.

Lemma is_ascii_digit_ne c a : is_ascii_digit c = false -> is_ascii_digit a = true -> c <> a.
Proof. congruence. Qed.

Lemma digits_no_char c s :
  is_ascii_digit c = false -> str_forall is_ascii_digit s = true -> contains_char c s = false.
Proof.
  intros Hc. induction s as [|a s IH]; [done|]. cbn [str_forall]. intros H. bool_hyps.
  rewrite contains_char_cons, IH by done. rewrite orb_false_r.
  apply Ascii.eqb_neq. congruence.
Qed.

(** ** Trimming text without white space *)

(** Visible ASCII other than the space. *)
Definition graphic (a : ascii) : bool := in_range 33 126 a.

Lemma str_forall_rev_app f s acc :
  str_forall f (str_rev_app s acc) = str_forall f s && str_forall f acc.
Proof.
  revert acc; induction s as [|a s IH]; intros acc; cbn; [done|].
  rewrite IH. cbn. by destruct (f a), (str_forall f s).
Qed.

Lemma str_rev_app_rev_app s acc acc' :
  str_rev_app (str_rev_app s acc) acc' = str_rev_app acc (s +:+ acc').
Proof. revert acc; induction s as [|a s IH]; intros acc; cbn; [done|]. by rewrite IH. Qed.

Lemma str_rev_involutive s : str_rev (str_rev s) = s.
Proof. unfold str_rev. rewrite str_rev_app_rev_app. cbn. apply sapp_nil_r. Qed.

Lemma graphic_not_ws a :
  graphic a = true -> ws1 a = false /\ (forall b, ws2 a b = false /\ ws2 b a = false) /\
  (forall b c, ws3 a b c = false /\ ws3 b c a = false).
Proof.
  unfold graphic, ws1, ws2, ws3, in_range. intros. bool_hyps.
  assert (Hne : forall k, (126 < k)%Z -> (byte_val a =? k)%Z = false)
    by (intros; apply Z.eqb_neq; lia).
  split; [|split]; intros.
  - destruct (Ascii.eqb_spec a " ") as [->|]; [change (byte_val " ") with 32%Z in *; lia|].
    rewrite orb_false_r. apply andb_false_intro2, Z.leb_gt. lia.
  - rewrite !Hne by lia. cbn. by rewrite andb_false_r.
  - assert ((128 <=? byte_val a)%Z = false) as -> by (apply Z.leb_gt; lia).
    rewrite !Hne by lia. cbn. rewrite !andb_false_r. done.
Qed.

Lemma trim_start_graphic s : str_forall graphic s = true -> trim_start s = s.
Proof.
  destruct s as [|a s]; [done|]. cbn [str_forall trim_start]. intros. bool_hyps.
  destruct (graphic_not_ws a H) as (-> & H2 & H3).
  destruct s as [|b s]; [done|]. rewrite (proj1 (H2 b)).
  destruct s as [|c s]; [done|]. by rewrite (proj1 (H3 b c)).
Qed.

Lemma trim_start_rev_graphic s : str_forall graphic s = true -> trim_start_rev s = s.
Proof.
  destruct s as [|a s]; [done|]. cbn [str_forall trim_start_rev]. intros. bool_hyps.
  destruct (graphic_not_ws a H) as (-> & H2 & H3).
  destruct s as [|b s]; [done|]. rewrite (proj2 (H2 b)).
  destruct s as [|c s]; [done|]. by rewrite (proj2 (H3 c b)).
Qed.

Lemma trim_graphic s : str_forall graphic s = true -> trim s = s /\ trim (String " " s) = s.
Proof.
  intros Hs. assert (trim s = s) as He.
  { unfold trim, trim_end. rewrite trim_start_graphic by done.
    rewrite trim_start_rev_graphic, str_rev_involutive; [done|].
    unfold str_rev. by rewrite str_forall_rev_app, Hs. }
  split; [done|]. exact He.
Qed.
