(* ===== verification/HttpCrate.v ===== *)
(** * The [http] crate as an interface

    The framework is written against the [http] crate, whose source is not in
    the repository.  Its types that are plain data are data here ([Method],
    [Uri], a status code is a [Z], a header name its lowercase text, a header
    value its bytes); its operations are the fields of the class [HttpCrate],
    which every component takes as a parameter, and what the code relies on is
    the class [HttpLaws] of their documented behaviour.  [ListHttp] is a
    concrete implementation, a multimap as an association list, at which the
    development's theorems are instantiated. *)
From S2P Require Import Prelude RustStr.
From stdpp Require Import base list strings sets.
From Stdlib Require Import ZArith Lia Ascii String.
Open Scope string_scope.
Open Scope list_scope.

(** ** Plain data *)

(** [http::Method]: the nine standard methods and the extension methods. *)
Inductive Method : Type :=
| OPTIONS | GET | POST | PUT | DELETE | HEAD | TRACE | CONNECT | PATCH
| EXTENSION_METHOD (name : string).

#[export] Instance method_eq_dec : EqDecision Method.
Proof. solve_decision. Defined.

Definition method_eqb (a b : Method) : bool := bool_decide (a = b).

(** [Method::as_str]. *)
Definition method_as_str (m : Method) : string :=
  match m with
  | OPTIONS => "OPTIONS" | GET => "GET" | POST => "POST" | PUT => "PUT"
  | DELETE => "DELETE" | HEAD => "HEAD" | TRACE => "TRACE" | CONNECT => "CONNECT"
  | PATCH => "PATCH" | EXTENSION_METHOD n => n
  end.

(** [http::Uri]: its components ([path()], [query()], ...). *)
Record Uri := mkUri {
  uri_scheme : option string;
  uri_authority : option string;
  uri_path : string;
  uri_query : option string }.

(** The standard header names the code uses ([http::header]). *)
Definition ACCESS_CONTROL_ALLOW_CREDENTIALS := "access-control-allow-credentials".
Definition ACCESS_CONTROL_ALLOW_HEADERS := "access-control-allow-headers".
Definition ACCESS_CONTROL_ALLOW_METHODS := "access-control-allow-methods".
Definition ACCESS_CONTROL_ALLOW_ORIGIN := "access-control-allow-origin".
Definition ACCESS_CONTROL_EXPOSE_HEADERS := "access-control-expose-headers".
Definition ACCESS_CONTROL_MAX_AGE := "access-control-max-age".
Definition ACCESS_CONTROL_REQUEST_HEADERS := "access-control-request-headers".
Definition ACCESS_CONTROL_REQUEST_METHOD := "access-control-request-method".
Definition ACCEPT_ENCODING := "accept-encoding".
Definition ACCEPT_RANGES := "accept-ranges".
Definition ALLOW := "allow".
Definition AUTHORIZATION := "authorization".
Definition CACHE_CONTROL := "cache-control".
Definition CONTENT_ENCODING := "content-encoding".
Definition CONTENT_LENGTH := "content-length".
Definition CONTENT_RANGE := "content-range".
Definition CONTENT_TYPE := "content-type".
Definition COOKIE := "cookie".
Definition ETAG := "etag".
Definition IF_MODIFIED_SINCE := "if-modified-since".
Definition IF_NONE_MATCH := "if-none-match".
Definition IF_RANGE := "if-range".
Definition LAST_MODIFIED := "last-modified".
Definition LOCATION := "location".
Definition ORIGIN := "origin".
Definition RANGE := "range".
Definition SET_COOKIE := "set-cookie".
Definition VARY := "vary".

(** ** The operations *)

Class HttpCrate : Type := {
  HeaderMap : Type;
  hm_empty : HeaderMap;
  (** [get]: the first value; [get_all]: every value, in order. *)
  hm_get : HeaderMap -> string -> option string;
  hm_get_all : HeaderMap -> string -> list string;
  (** [insert] replaces every value of the name; [append] adds one. *)
  hm_insert : HeaderMap -> string -> string -> HeaderMap;
  hm_append : HeaderMap -> string -> string -> HeaderMap;
  hm_remove : HeaderMap -> string -> HeaderMap;
  (** [HeaderValue::to_str] and [HeaderValue::from_str]. *)
  hv_to_str : string -> option string;
  hv_from_str : string -> option string;
  (** [HeaderValue::try_from(String)]. *)
  hv_from_string : string -> option string;
  (** [str::parse::<PathAndQuery>] and [Uri::from_parts]. *)
  pq_parse : string -> option (string * option string);
  uri_from_parts : option string -> option string -> string * option string -> option Uri
}.

(** Visible ASCII, the bytes every header value may hold and [to_str] accepts. *)
Definition visible_ascii (a : ascii) : bool := in_range 32 126 a.

Lemma digit_visible a : is_ascii_digit a = true -> visible_ascii a = true.
Proof.
  unfold is_ascii_digit, visible_ascii, in_range. intros. bool_hyps.
  apply andb_true_intro. split; apply Z.leb_le; lia.
Qed.

Lemma to_dec_visible n : (0 <= n)%Z -> str_forall visible_ascii (to_dec n) = true.
Proof.
  intros Hn. destruct (to_dec_spec n Hn) as (_ & Hd & _).
  eapply str_forall_impl; [apply digit_visible|done].
Qed.

Section HeaderMapOps.
Context `{HttpCrate}.

(** [contains_key]. *)
Definition hm_contains (m : HeaderMap) (k : string) : bool :=
  match hm_get m k with Some _ => true | None => false end.

(** [entry(k).or_insert(v)]. *)
Definition hm_or_insert (m : HeaderMap) (k v : string) : HeaderMap :=
  if hm_contains m k then m else hm_insert m k v.

(** [headers.get(k).and_then(|v| v.to_str().ok())]. *)
Definition hm_get_str (m : HeaderMap) (k : string) : option string :=
  hm_get m k ≫= hv_to_str.
End HeaderMapOps.

Class HttpLaws `(H : HttpCrate) : Prop := {
  hm_get_head m k : hm_get m k = head (hm_get_all m k);
  hm_all_empty k : hm_get_all hm_empty k = [];
  hm_all_insert_eq m k v : hm_get_all (hm_insert m k v) k = [v];
  hm_all_insert_ne m k k' v : k <> k' -> hm_get_all (hm_insert m k v) k' = hm_get_all m k';
  hm_all_append_eq m k v : hm_get_all (hm_append m k v) k = hm_get_all m k ++ [v];
  hm_all_append_ne m k k' v : k <> k' -> hm_get_all (hm_append m k v) k' = hm_get_all m k';
  hm_all_remove_eq m k : hm_get_all (hm_remove m k) k = [];
  hm_all_remove_ne m k k' : k <> k' -> hm_get_all (hm_remove m k) k' = hm_get_all m k';
  hv_to_str_id v s : hv_to_str v = Some s -> s = v;
  hv_to_str_visible v : str_forall visible_ascii v = true -> hv_to_str v = Some v;
  hv_to_str_ascii v s : hv_to_str v = Some s -> str_forall is_ascii s = true;
  hv_str_roundtrip v s : hv_to_str v = Some s -> hv_from_str s = Some s;
  hv_from_str_id s v : hv_from_str s = Some v -> v = s;
  hv_from_str_visible s : str_forall visible_ascii s = true -> hv_from_str s = Some s;
  hv_from_string_id s v : hv_from_string s = Some v -> v = s;
  hv_from_string_visible s : str_forall visible_ascii s = true -> hv_from_string s = Some s
}.

(** ** Derived laws *)

Section Derived.
Context `{HL : HttpLaws}.

Lemma hm_get_empty k : hm_get hm_empty k = None.
Proof. by rewrite hm_get_head, hm_all_empty. Qed.
Lemma hm_get_insert_eq m k v : hm_get (hm_insert m k v) k = Some v.
Proof. by rewrite hm_get_head, hm_all_insert_eq. Qed.
Lemma hm_get_insert_ne m k k' v : k <> k' -> hm_get (hm_insert m k v) k' = hm_get m k'.
Proof. intros. by rewrite !hm_get_head, hm_all_insert_ne. Qed.
Lemma hm_get_append_ne m k k' v : k <> k' -> hm_get (hm_append m k v) k' = hm_get m k'.
Proof. intros. by rewrite !hm_get_head, hm_all_append_ne. Qed.
Lemma hm_get_append_none m k v : hm_get m k = None -> hm_get (hm_append m k v) k = Some v.
Proof.
  rewrite !hm_get_head, hm_all_append_eq. by destruct (hm_get_all m k).
Qed.
Lemma hm_get_remove_eq m k : hm_get (hm_remove m k) k = None.
Proof. by rewrite hm_get_head, hm_all_remove_eq. Qed.
Lemma hm_get_remove_ne m k k' : k <> k' -> hm_get (hm_remove m k) k' = hm_get m k'.
Proof. intros. by rewrite !hm_get_head, hm_all_remove_ne. Qed.

Lemma hm_contains_false m k : hm_contains m k = false <-> hm_get_all m k = [].
Proof.
  unfold hm_contains. rewrite hm_get_head. by destruct (hm_get_all m k).
Qed.

Lemma hm_get_str_some m k s : hm_get_str m k = Some s -> hm_get m k = Some s.
Proof.
  unfold hm_get_str. destruct (hm_get m k) as [v|]; simpl; [|done].
  intros Hv. by rewrite (hv_to_str_id v s Hv).
Qed.
End Derived.

(** Rewriting lookups through updates at distinct literal names. *)
#[export] Hint Rewrite @hm_get_empty @hm_get_insert_eq @hm_get_remove_eq
  @hm_all_empty @hm_all_insert_eq @hm_all_append_eq @hm_all_remove_eq
  using (typeclasses eauto) : headers.

Ltac headers :=
  repeat first
    [ rewrite hm_get_empty | rewrite hm_all_empty
    | rewrite hm_get_insert_eq | rewrite hm_all_insert_eq | rewrite hm_all_append_eq
    | rewrite hm_get_remove_eq | rewrite hm_all_remove_eq
    | rewrite hm_get_insert_ne by discriminate | rewrite hm_all_insert_ne by discriminate
    | rewrite hm_get_append_ne by discriminate | rewrite hm_all_append_ne by discriminate
    | rewrite hm_get_remove_ne by discriminate | rewrite hm_all_remove_ne by discriminate ].

(** ** A concrete implementation *)

Module ListHttp.
Definition get_all (m : list (string * string)) (k : string) : list string :=
  map snd (List.filter (fun kv => String.eqb (fst kv) k) m).
Definition remove (m : list (string * string)) (k : string) : list (string * string) :=
  List.filter (fun kv => negb (String.eqb (fst kv) k)) m.

(** [PathAndQuery]: split at the first [?]; the empty path is [/]. *)
Definition parse_pq (s : string) : option (string * option string) :=
  match split_once "?" s with
  | Some (p, q) => if starts_with "/" p then Some (p, Some q) else None
  | None => if starts_with "/" s then Some (s, None) else None
  end.

Lemma get_all_app m m' k : get_all (m ++ m') k = get_all m k ++ get_all m' k.
Proof. unfold get_all. by rewrite List.filter_app, map_app. Qed.

Lemma get_all_one k k' v :
  get_all [(k, v)] k' = if String.eqb k k' then [v] else [].
Proof. unfold get_all. simpl. by destruct (k =? k')%string. Qed.

Lemma get_all_remove m k k' :
  get_all (remove m k) k' = if String.eqb k k' then [] else get_all m k'.
Proof.
  unfold get_all, remove. induction m as [|[j v] m IH]; simpl; [by destruct (_ =? _)%string|].
  destruct (String.eqb_spec j k) as [->|]; simpl.
  - rewrite IH. by destruct (String.eqb_spec k k').
  - destruct (String.eqb_spec j k') as [->|]; simpl; rewrite IH; [|done].
    destruct (String.eqb_spec k k'); congruence.
Qed.
End ListHttp.

#[export] Instance ListHttp : HttpCrate := {
  HeaderMap := list (string * string);
  hm_empty := [];
  hm_get m k := head (ListHttp.get_all m k);
  hm_get_all := ListHttp.get_all;
  hm_insert m k v := ListHttp.remove m k ++ [(k, v)];
  hm_append m k v := m ++ [(k, v)];
  hm_remove := ListHttp.remove;
  hv_to_str v := if str_forall visible_ascii v then Some v else None;
  hv_from_str v := if str_forall visible_ascii v then Some v else None;
  hv_from_string v :=
    if str_forall (fun a => in_range 32 255 a && negb (byte_val a =? 127)%Z) v
    then Some v else None;
  pq_parse := ListHttp.parse_pq;
  uri_from_parts s a pq := Some (mkUri s a (fst pq) (snd pq))
}.

Lemma visible_is_ascii a : visible_ascii a = true -> is_ascii a = true.
Proof. unfold visible_ascii, is_ascii, in_range. intros. bool_hyps. apply Z.ltb_lt. lia. Qed.

Lemma visible_header_byte a :
  visible_ascii a = true -> in_range 32 255 a && negb (byte_val a =? 127)%Z = true.
Proof.
  unfold visible_ascii, in_range. intros. bool_hyps.
  repeat (apply andb_true_intro; split); [apply Z.leb_le; lia..|].
  apply negb_true_iff, Z.eqb_neq. lia.
Qed.

#[export] Instance ListHttpLaws : HttpLaws ListHttp.
Proof.
  split; intros; simpl in *;
    rewrite ?ListHttp.get_all_app, ?ListHttp.get_all_one, ?ListHttp.get_all_remove;
    rewrite ?String.eqb_refl, ?(proj2 (String.eqb_neq k k')), ?app_nil_r by done;
    repeat case_match; simplify_eq; try done; try congruence.
  - eapply str_forall_impl; [apply visible_is_ascii|done].
  - enough (str_forall (fun a => in_range 32 255 a && negb (byte_val a =? 127)%Z) s = true)
      by congruence.
    eapply str_forall_impl; [apply visible_header_byte|done].
Qed.
