(* ===== verification/Body.v ===== *)
(** * The body type and the buffered-body limit

    [arvik-core/src/body.rs] and [arvik-core/src/body_limit.rs]: the unified
    [Body], its frames, size hint and collectors, and the limit the buffering
    extractors resolve from the request extensions.

    Polling is modelled at its ready results: a body is what it will yield, the
    [Pending] results in between change nothing.  A boxed body (a trait object)
    is the list of results it will yield and its size hint as a function of
    those left. *)
From S2P Require Import Prelude RustStr HttpCrate.
From stdpp Require Import base list strings sets.
From Stdlib Require Import ZArith Lia Ascii String.
Open Scope string_scope.
Open Scope list_scope.

(** The errors a body can carry: [BodyTooLarge] is the one the code detects by
    downcast ([e.is::<BodyTooLarge>()]). *)
Inductive BoxError :=
| BodyTooLarge
| OtherError (msg : string).

Record SizeHint := mkHint { sh_lower : Z; sh_upper : option Z }.
Definition exact_hint (n : Z) : SizeHint := mkHint n (Some n).

Section Body.
Context `{HttpCrate}.

Inductive Frame :=
| DataFrame (data : string)
| TrailersFrame (trailers : HeaderMap).

Definition FrameResult : Type := result Frame BoxError.

(** [struct Body { kind: BodyKind }]. *)
Inductive Body :=
| BEmpty
| BFull (data : option string)
| BChunks (chunks : list string) (remaining : Z)
| BBoxed (frames : list FrameResult) (hint : list FrameResult -> SizeHint).

(** *** Constructors *)

Definition body_empty : Body := BEmpty.

(** [Full::new]: no chunk when there is nothing in it. *)
Definition body_from_bytes (b : string) : Body :=
  BFull (if str_is_empty b then None else Some b).

Definition body_from_chunks (chunks : list string) : Body :=
  let chunks := List.filter (fun c => negb (str_is_empty c)) chunks in
  match chunks with
  | [] => body_empty
  | _ => BChunks chunks (fold_right Z.add 0%Z (map str_len chunks))
  end.

(** [Body::from_stream]: data frames or errors, with the default size hint. *)
Definition body_from_stream (items : list (result string BoxError)) : Body :=
  BBoxed (map (fun r => match r with Ok b => Ok (DataFrame b) | Err e => Err e end) items)
         (fun _ => mkHint 0 None).

(** *** [http_body::Body for Body] *)

Definition poll_frame (b : Body) : option FrameResult * Body :=
  match b with
  | BEmpty => (None, BEmpty)
  | BFull None => (None, BFull None)
  | BFull (Some d) => (Some (Ok (DataFrame d)), BFull None)
  | BChunks [] remaining => (None, BChunks [] remaining)
  | BChunks (c :: chunks) remaining =>
      (Some (Ok (DataFrame c)), BChunks chunks (sat_sub remaining (str_len c)))
  | BBoxed [] hint => (None, BBoxed [] hint)
  | BBoxed (f :: frames) hint => (Some f, BBoxed frames hint)
  end.

Definition size_hint (b : Body) : SizeHint :=
  match b with
  | BEmpty | BFull None => exact_hint 0
  | BFull (Some d) => exact_hint (str_len d)
  | BChunks _ remaining => exact_hint remaining
  | BBoxed frames hint => hint frames
  end.

Definition is_empty_hint (b : Body) : bool :=
  (sh_lower (size_hint b) =? 0)%Z &&
  match sh_upper (size_hint b) with Some u => (u =? 0)%Z | None => false end.

(** The results a body yields until it ends. *)
Definition body_frames (b : Body) : list FrameResult :=
  match b with
  | BEmpty | BFull None => []
  | BFull (Some d) => [Ok (DataFrame d)]
  | BChunks chunks _ => map (fun c => Ok (DataFrame c)) chunks
  | BBoxed frames _ => frames
  end.

(** [body_frames] is what polling yields. *)
Lemma poll_frame_frames b :
  match poll_frame b with
  | (Some f, b') => body_frames b = f :: body_frames b'
  | (None, b') => body_frames b = [] /\ body_frames b' = []
  end.
Proof. destruct b as [|[d|]|[|c chunks] r|[|f frames] h]; simpl; done. Qed.

(** *** Collecting *)

(** [BodyExt::collect]: the data of every frame, or the first error. *)
Fixpoint collect_frames (fs : list FrameResult) : result string BoxError :=
  match fs with
  | [] => Ok ""
  | Ok (DataFrame d) :: fs =>
      match collect_frames fs with Ok r => Ok (d +:+ r) | Err e => Err e end
  | Ok (TrailersFrame _) :: fs => collect_frames fs
  | Err e :: _ => Err e
  end.

(** [Body::to_bytes]. *)
Definition to_bytes (b : Body) : result string BoxError := collect_frames (body_frames b).

(** [Body::to_string]; the text of a [FromUtf8Error] is a parameter. *)
Definition to_string (utf8_error : string -> string) (b : Body) : result string BoxError :=
  match to_bytes b with
  | Err e => Err e
  | Ok bytes => if utf8_valid bytes then Ok bytes else Err (OtherError (utf8_error bytes))
  end.

(** [is_end_stream]; a boxed body answers for itself. *)
Definition is_end_stream (boxed : list FrameResult -> bool) (b : Body) : bool :=
  match b with
  | BEmpty => true
  | BFull data => match data with None => true | Some _ => false end
  | BChunks chunks _ => match chunks with [] => true | _ => false end
  | BBoxed frames _ => boxed frames
  end.

(** [Body::new]: the frames of any body, its errors boxed by [MapErrorBody]. *)
Definition body_new {E} (into : E -> BoxError) (frames : list (result Frame E))
    (hint : list (result Frame E) -> SizeHint) : Body :=
  BBoxed (map (fun f => match f with Ok f => Ok f | Err e => Err (into e) end) frames)
    (fun left => hint (skipn (List.length frames - List.length left) frames)).

(** [enum BodyLimitError]. *)
Inductive BodyLimitError :=
| TooLarge
| ReadError (e : BoxError).

Definition is_payload_too_large (e : BodyLimitError) : bool :=
  match e with
  | TooLarge => true
  | ReadError BodyTooLarge => true
  | ReadError (OtherError _) => false
  end.

(** The loop of [to_bytes_limited]: [acc] are the frames kept so far, in
    order; [total] is a [usize]. *)
Fixpoint collect_limited (limit : Z) (fs : list FrameResult) (total : Z) (acc : list string)
  : result (list string) BodyLimitError :=
  match fs with
  | [] => Ok acc
  | Err e :: _ => Err (ReadError e)
  | Ok (TrailersFrame _) :: _ => Err (ReadError (OtherError "unexpected body trailer"))
  | Ok (DataFrame d) :: fs =>
      let total := wrap_u64 (total + str_len d) in
      if (limit <? total)%Z then Err TooLarge
      else collect_limited limit fs total (acc ++ [d])
  end.

Definition concat_bytes (fs : list string) : string := fold_right String.append "" fs.

(** [Body::to_bytes_limited]. *)
Definition to_bytes_limited (b : Body) (limit : Z) : result string BodyLimitError :=
  match sh_upper (size_hint b) with
  | Some upper =>
      if (limit <? upper)%Z then Err TooLarge
      else match collect_limited limit (body_frames b) 0 [] with
           | Ok fs => Ok (concat_bytes fs) | Err e => Err e end
  | None =>
      match collect_limited limit (body_frames b) 0 [] with
      | Ok fs => Ok (concat_bytes fs) | Err e => Err e end
  end.

(** *** The limit *)

Definition DEFAULT_BODY_LIMIT : Z := 2 * 1024 * 1024.

(** [resolve_limit], from the [DefaultBodyLimit] extension. *)
Definition resolve_limit (ext : option Z) : Z :=
  match ext with Some l => l | None => DEFAULT_BODY_LIMIT end.

(** *** Lemmas *)

(** The number of data bytes in a list of results. *)
Fixpoint data_len (fs : list FrameResult) : Z :=
  match fs with
  | [] => 0
  | Ok (DataFrame d) :: fs => str_len d + data_len fs
  | _ :: fs => data_len fs
  end.

(** The data read before the first error. *)
Definition all_data (fs : list FrameResult) : Prop :=
  forall f, f ∈ fs -> exists d, f = Ok (DataFrame d).

Lemma data_len_nonneg fs : (0 <= data_len fs)%Z.
Proof.
  induction fs as [|[[d|t]|e] fs IH]; simpl; try done.
  pose proof (str_len_nonneg d). lia.
Qed.

Lemma data_len_app fs gs : data_len (fs ++ gs) = (data_len fs + data_len gs)%Z.
Proof. induction fs as [|[[d|t]|e] fs IH]; simpl; lia. Qed.

Lemma concat_bytes_app xs ys : concat_bytes (xs ++ ys) = concat_bytes xs +:+ concat_bytes ys.
Proof. induction xs; simpl; [done|]. by rewrite IHxs, sapp_assoc. Qed.

Lemma collect_frames_len fs s : collect_frames fs = Ok s -> str_len s = data_len fs.
Proof.
  revert s; induction fs as [|[[d|t]|e] fs IH]; simpl; intros s Hs; simplify_eq; auto.
  case_match; simplify_eq. rewrite str_len_app, (IH _ eq_refl). lia.
Qed.

(** What the limited loop returns on an error-free run is what an unlimited
    collection returns, and it is within the limit. *)
Lemma collect_limited_ok limit fs total acc out :
  (0 <= total)%Z -> (total + data_len fs <= u64_max)%Z ->
  collect_limited limit fs total acc = Ok out ->
  (total <= limit)%Z ->
  exists rest, out = acc ++ rest /\ collect_frames fs = Ok (concat_bytes rest) /\
    (total + data_len fs <= limit)%Z.
Proof.
  revert total acc; induction fs as [|[[d|t]|e] fs IH]; simpl; intros total acc Ht Hmax Hc Hl;
    simplify_eq.
  - exists []. rewrite app_nil_r. simpl. split_and!; [done .. | lia].
  - pose proof (str_len_nonneg d). pose proof (data_len_nonneg fs).
    rewrite wrap_u64_id in Hc by (unfold in_u64; lia).
    destruct (limit <? total + str_len d)%Z eqn:E; [done|]. bool_hyps.
    destruct (IH (total + str_len d)%Z (acc ++ [d]) ltac:(lia) ltac:(lia) Hc ltac:(lia)) as (rest & -> & Hcf & Hle).
    exists (d :: rest). rewrite <- app_assoc. simpl. rewrite Hcf.
    split_and!; [done .. | lia].
Qed.

(** ... and conversely a body of data frames within the limit is returned. *)
Lemma collect_limited_complete limit fs total acc :
  (0 <= total)%Z -> (limit <= u64_max)%Z -> all_data fs ->
  (total + data_len fs <= limit)%Z ->
  exists rest, collect_limited limit fs total acc = Ok (acc ++ rest) /\
    collect_frames fs = Ok (concat_bytes rest).
Proof.
  revert total acc; induction fs as [|f fs IH]; intros total acc Ht Hl Hd Hle.
  - exists []. by rewrite app_nil_r.
  - destruct (Hd f ltac:(set_solver)) as [d ->]. cbn [data_len] in Hle.
    pose proof (str_len_nonneg d). pose proof (data_len_nonneg fs).
    destruct (IH (total + str_len d)%Z (acc ++ [d])) as (rest & Hc & Hf);
      [lia|done|intros g Hg; apply Hd; set_solver|lia|].
    exists (d :: rest). cbn [collect_limited collect_frames].
    rewrite wrap_u64_id by (unfold in_u64; lia).
    replace (limit <? total + str_len d)%Z with false by (symmetry; apply Z.ltb_ge; lia).
    rewrite Hc, Hf, <- app_assoc. done.
Qed.

(** A body of data frames over the limit is refused. *)
Lemma collect_limited_too_large limit fs total acc :
  (0 <= total <= limit)%Z -> (total + data_len fs <= u64_max)%Z -> all_data fs ->
  (limit < total + data_len fs)%Z ->
  collect_limited limit fs total acc = Err TooLarge.
Proof.
  revert total acc; induction fs as [|f fs IH]; intros total acc Ht Hm Hd Hgt.
  - simpl in Hgt. lia.
  - destruct (Hd f ltac:(set_solver)) as [d ->]. cbn [data_len] in *.
    pose proof (str_len_nonneg d). pose proof (data_len_nonneg fs).
    cbn [collect_limited]. rewrite wrap_u64_id by (unfold in_u64; lia).
    destruct (limit <? total + str_len d)%Z eqn:E; [done|]. bool_hyps.
    apply IH; [lia|lia|intros g Hg; apply Hd; set_solver|lia].
Qed.

Lemma chunks_data chunks r : all_data (body_frames (BChunks chunks r)).
Proof.
  intros f Hf. simpl in Hf. apply list_elem_of_fmap in Hf as (d & -> & _). eauto.
Qed.

Lemma chunks_data_len chunks r :
  data_len (body_frames (BChunks chunks r)) = fold_right Z.add 0%Z (map str_len chunks).
Proof. simpl. induction chunks; simpl; lia. Qed.

Lemma from_chunks_concat chunks :
  concat_bytes (List.filter (fun c => negb (str_is_empty c)) chunks) = concat_bytes chunks.
Proof. induction chunks as [|[|a c] chunks IH]; simpl; congruence. Qed.

Lemma collect_chunks chunks r :
  collect_frames (body_frames (BChunks chunks r)) = Ok (concat_bytes chunks).
Proof. simpl. induction chunks; simpl; [done|]. by rewrite IHchunks. Qed.

(** The exact size hint of the body kinds built from bytes is truthful. *)
Definition hint_exact (b : Body) : Prop :=
  size_hint b = exact_hint (data_len (body_frames b)).

Lemma from_bytes_hint s : hint_exact (body_from_bytes s).
Proof. unfold hint_exact, body_from_bytes. destruct s; simpl; [done|]. by rewrite Z.add_0_r. Qed.

Lemma to_bytes_from_bytes s : to_bytes (body_from_bytes s) = Ok s.
Proof. destruct s; simpl; [done|]. unfold to_bytes. simpl. by rewrite sapp_nil_r. Qed.

Lemma to_bytes_from_chunks chunks : to_bytes (body_from_chunks chunks) = Ok (concat_bytes chunks).
Proof.
  unfold body_from_chunks. rewrite <- from_chunks_concat.
  destruct (List.filter _ chunks) as [|c cs]; [done|].
  apply collect_chunks.
Qed.

(** A size hint whose upper bound, if any, is the number of bytes to come. *)
Definition truthful_upper (b : Body) : Prop :=
  match sh_upper (size_hint b) with
  | Some u => u = data_len (body_frames b)
  | None => True
  end.

(** A body the framework builds itself, polled any number of times. *)
Inductive native : Body -> Prop :=
| native_empty : native body_empty
| native_bytes b : native (body_from_bytes b)
| native_chunks chunks : native (body_from_chunks chunks)
| native_polled b : native b -> native (snd (poll_frame b)).

Definition total_len (chunks : list string) : Z := fold_right Z.add 0%Z (map str_len chunks).

Definition native_ok (b : Body) : Prop :=
  match b with
  | BEmpty | BFull None => True
  | BFull (Some d) => d <> ""
  | BChunks chunks remaining => remaining = total_len chunks /\ Forall (fun c => c <> "") chunks
  | BBoxed _ _ => False
  end.

Lemma total_len_nonneg chunks : (0 <= total_len chunks)%Z.
Proof.
  unfold total_len. induction chunks as [|c cs IH]; cbn; [done|]. pose proof (str_len_nonneg c). lia.
Qed.

Lemma native_is_ok b : native b -> native_ok b.
Proof.
  induction 1 as [|b|chunks|b _ IH]; [done|..].
  - unfold body_from_bytes. destruct b; cbn; done.
  - unfold body_from_chunks. destruct (List.filter _ chunks) as [|c cs] eqn:E; [done|].
    rewrite <- E. split; [done|]. apply Forall_forall. intros x Hx%list_elem_of_In.
    apply List.filter_In in Hx as [_ Hx]. by destruct x.
  - destruct b as [|[d|]|[|c cs] r|]; cbn in *; try done. destruct IH as [-> Hall].
    apply Forall_cons in Hall as [_ Hall]. split; [|done]. unfold sat_sub, total_len. cbn.
    pose proof (total_len_nonneg cs). unfold total_len in *. lia.
Qed.
End Body.

(** ** Properties *)

(** What hyper is told of a body the framework built is true, before every
    poll: the hint is exactly the number of bytes still to come, the end is
    announced exactly when nothing is left, and no frame is empty. *)
Theorem native_body_honest `{HttpCrate} boxed (b : Body) :
  native b ->
  (exists s, to_bytes b = Ok s /\ size_hint b = exact_hint (str_len s)) /\
  (is_end_stream boxed b = true <-> body_frames b = []) /\
  (forall f, f ∈ body_frames b -> exists d, f = Ok (DataFrame d) /\ d <> "").
Proof.
  intros Hb%native_is_ok. unfold to_bytes.
  destruct b as [|[d|]|chunks r|]; cbn in *; try done.
  - split_and!; [by exists ""|done|set_solver].
  - rewrite sapp_nil_r. split_and!; [by exists d|done|set_solver].
  - split_and!; [by exists ""|done|set_solver].
  - destruct Hb as [-> Hall]. split_and!.
    + clear Hall. unfold total_len. induction chunks as [|c cs (s & Hs & He)]; [by exists ""|].
      cbn. rewrite Hs. exists (c +:+ s). split; [done|].
      injection He as Hl _. by rewrite Hl, str_len_app.
    + by destruct chunks.
    + intros f (d & -> & Hd)%list_elem_of_fmap. rewrite Forall_forall in Hall. eauto.
Qed.

(** The buffered read is exact: whatever [to_bytes_limited] returns is the
    whole body, within the limit; and a body of data frames with a truthful
    size hint is returned when it fits and refused as too large when it does
    not. *)
Theorem to_bytes_limited_correct `{HttpCrate} (b : Body) limit :
  in_u64 limit -> (data_len (body_frames b) <= u64_max)%Z ->
  (forall s, to_bytes_limited b limit = Ok s -> to_bytes b = Ok s /\ (str_len s <= limit)%Z) /\
  (all_data (body_frames b) -> truthful_upper b ->
   if (data_len (body_frames b) <=? limit)%Z
   then exists s, to_bytes_limited b limit = Ok s /\ to_bytes b = Ok s
   else to_bytes_limited b limit = Err TooLarge).
Proof.
  intros Hl Hmax. unfold in_u64 in Hl.
  assert (Hok : forall out, collect_limited limit (body_frames b) 0 [] = Ok out ->
             to_bytes b = Ok (concat_bytes out) /\ (str_len (concat_bytes out) <= limit)%Z).
  { intros out Hc.
    destruct (collect_limited_ok limit (body_frames b) 0 [] out) as (rest & -> & Hcf & Hle);
      [lia..|done|lia|]. split; [done|]. cbn [app].
    by rewrite (collect_frames_len _ _ Hcf). }
  split.
  - intros s. unfold to_bytes_limited.
    destruct (collect_limited limit (body_frames b) 0 []) as [out|] eqn:Ec;
      [|repeat case_match; congruence].
    destruct (Hok out eq_refl) as [H1 H2]. repeat case_match; intros [= <-]; done.
  - unfold truthful_upper, to_bytes_limited. intros Hd Hu.
    destruct (data_len (body_frames b) <=? limit)%Z eqn:E; bool_hyps.
    + destruct (collect_limited_complete limit (body_frames b) 0 []) as (rest & -> & Hf);
        [lia|lia|done|lia|]. exists (concat_bytes rest). split; [|done].
      destruct (sh_upper (size_hint b)) as [u|]; [|done]. subst u.
      by rewrite (proj2 (Z.ltb_ge _ _)) by lia.
    + rewrite collect_limited_too_large by (done || lia).
      destruct (sh_upper (size_hint b)); [|done]. by case_match.
Qed.

Lemma to_bytes_limited_correct_witness :
  to_bytes_limited (body_from_chunks ["ab"; "c"]) 3 = Ok "abc" /\
  to_bytes_limited (body_from_chunks ["ab"; "c"]) 2 = Err TooLarge.
Proof.
  assert (Hd : all_data (body_frames (body_from_chunks ["ab"; "c"]))) by apply chunks_data.
  split.
  - destruct (proj2 (to_bytes_limited_correct (body_from_chunks ["ab"; "c"]) 3
      ltac:(split; vm_compute; discriminate) ltac:(vm_compute; discriminate)) Hd eq_refl)
      as (s & H1 & H2). vm_compute in H2. injection H2 as <-. exact H1.
  - exact (proj2 (to_bytes_limited_correct (body_from_chunks ["ab"; "c"]) 2
      ltac:(split; vm_compute; discriminate) ltac:(vm_compute; discriminate)) Hd eq_refl).
Defined.

Arguments BodyLimitError : clear implicits.
#[export] Hint Resolve data_len_nonneg from_bytes_hint : arvik.
#[export] Hint Rewrite @to_bytes_from_bytes @to_bytes_from_chunks : arvik.
