(* ===== verification/Http.v ===== *)
(** * Requests, responses, services and layers

    [arvik-core/src/request.rs], [arvik-core/src/response.rs] and
    [arvik-router/src/layer.rs].  A Tower service is a function from a request
    and the state [W] of the world it acts on to a response and the new state;
    awaiting a future is calling it.  The world is a parameter, so a theorem
    can say which calls a layer makes. *)
From S2P Require Import Prelude RustStr HttpCrate Body.
From stdpp Require Import base list strings sets.
From Stdlib Require Import ZArith Lia Ascii String.
Open Scope string_scope.
Open Scope list_scope.

(** ** Request extensions

    [http::Extensions] holds at most one value per type; the types the code
    inserts are the fields. *)

(** [std::net::IpAddr]: the octets of a v4, the segments of a v6 address. *)
Inductive IpAddr :=
| V4 (octets : list Z)
| V6 (segments : list Z).

#[export] Instance ip_eq_dec : EqDecision IpAddr.
Proof. solve_decision. Defined.

Record Extensions := mkExt {
  ext_original_uri : option Uri;                     (* OriginalUri *)
  ext_path_params : option (list (string * string)); (* PathParams *)
  ext_matched_path : option string;                  (* MatchedPathExt *)
  ext_body_limit : option Z;                         (* DefaultBodyLimit *)
  ext_peer : option (IpAddr * Z);                    (* SocketAddr *)
  ext_request_id : option string;                    (* RequestId *)
  ext_csrf : option string;                          (* CsrfToken *)
  ext_sensitive : option (list string) }.            (* SensitiveHeaders *)

Definition no_ext : Extensions := mkExt None None None None None None None None.

Section Http.
Context `{HttpCrate}.

Record Request := mkRequest {
  req_method : Method;
  req_uri : Uri;
  req_headers : HeaderMap;
  req_ext : Extensions;
  req_body : Body }.

Record Response := mkResponse {
  res_status : Z;
  res_headers : HeaderMap;
  res_matched_path : option string; (* the MatchedPathExt response extension *)
  res_body : Body }.

Definition set_uri (u : Uri) (r : Request) : Request :=
  mkRequest (req_method r) u (req_headers r) (req_ext r) (req_body r).
Definition set_req_headers (h : HeaderMap) (r : Request) : Request :=
  mkRequest (req_method r) (req_uri r) h (req_ext r) (req_body r).
Definition set_req_ext (e : Extensions) (r : Request) : Request :=
  mkRequest (req_method r) (req_uri r) (req_headers r) e (req_body r).
Definition set_req_body (b : Body) (r : Request) : Request :=
  mkRequest (req_method r) (req_uri r) (req_headers r) (req_ext r) b.

Definition set_res_headers (h : HeaderMap) (r : Response) : Response :=
  mkResponse (res_status r) h (res_matched_path r) (res_body r).
Definition set_matched_path (p : string) (r : Response) : Response :=
  mkResponse (res_status r) (res_headers r) (Some p) (res_body r).

Definition ext_with_original_uri (u : Uri) (e : Extensions) : Extensions :=
  mkExt (Some u) (ext_path_params e) (ext_matched_path e) (ext_body_limit e)
    (ext_peer e) (ext_request_id e) (ext_csrf e) (ext_sensitive e).
Definition ext_with_path_params (p : list (string * string)) (e : Extensions) : Extensions :=
  mkExt (ext_original_uri e) (Some p) (ext_matched_path e) (ext_body_limit e)
    (ext_peer e) (ext_request_id e) (ext_csrf e) (ext_sensitive e).
Definition ext_with_matched_path (p : string) (e : Extensions) : Extensions :=
  mkExt (ext_original_uri e) (ext_path_params e) (Some p) (ext_body_limit e)
    (ext_peer e) (ext_request_id e) (ext_csrf e) (ext_sensitive e).
Definition ext_with_body_limit (l : Z) (e : Extensions) : Extensions :=
  mkExt (ext_original_uri e) (ext_path_params e) (ext_matched_path e) (Some l)
    (ext_peer e) (ext_request_id e) (ext_csrf e) (ext_sensitive e).
Definition ext_with_request_id (i : string) (e : Extensions) : Extensions :=
  mkExt (ext_original_uri e) (ext_path_params e) (ext_matched_path e) (ext_body_limit e)
    (ext_peer e) (Some i) (ext_csrf e) (ext_sensitive e).
Definition ext_with_csrf (t : string) (e : Extensions) : Extensions :=
  mkExt (ext_original_uri e) (ext_path_params e) (ext_matched_path e) (ext_body_limit e)
    (ext_peer e) (ext_request_id e) (Some t) (ext_sensitive e).
Definition ext_with_sensitive (s : list string) (e : Extensions) : Extensions :=
  mkExt (ext_original_uri e) (ext_path_params e) (ext_matched_path e) (ext_body_limit e)
    (ext_peer e) (ext_request_id e) (ext_csrf e) (Some s).

(** ** [ResponseBuilder]

    [http::response::Builder] keeps the parts, or the first error. *)

Definition Builder : Type := option (Z * HeaderMap).

Definition rb_new : Builder := Some (200%Z, hm_empty).

Definition rb_status (s : Z) (b : Builder) : Builder :=
  match b with Some (_, h) => Some (s, h) | None => None end.

(** [header] with a [HeaderValue]: the builder appends. *)
Definition rb_header (k v : string) (b : Builder) : Builder :=
  match b with Some (s, h) => Some (s, hm_append h k v) | None => None end.

(** [header] with a [&str] or a [String]: [HeaderValue::try_from] may refuse it. *)
Definition rb_header_str (k v : string) (b : Builder) : Builder :=
  match hv_from_str v with Some v => rb_header k v b | None => None end.
Definition rb_header_string (k v : string) (b : Builder) : Builder :=
  match hv_from_string v with Some v => rb_header k v b | None => None end.

Definition opt_header (k : string) (v : option string) (b : Builder) : Builder :=
  match v with Some v => rb_header k v b | None => b end.

Definition TEXT_PLAIN_UTF8 := "text/plain; charset=utf-8".

Definition internal_error_response : Response :=
  mkResponse 500 (hm_append hm_empty CONTENT_TYPE TEXT_PLAIN_UTF8) None
    (body_from_bytes "Internal Server Error").

Definition rb_body (body : Body) (b : Builder) : Response :=
  match b with
  | Some (s, h) => mkResponse s h None body
  | None => internal_error_response
  end.

Definition rb_empty : Builder -> Response := rb_body body_empty.

(** [text] and [text_static]. *)
Definition rb_text (t : string) (b : Builder) : Response :=
  rb_body (body_from_bytes t) (rb_header CONTENT_TYPE TEXT_PLAIN_UTF8 b).

Definition rb_html (t : string) (b : Builder) : Response :=
  rb_body (body_from_bytes t) (rb_header CONTENT_TYPE "text/html; charset=utf-8" b).

(** [Redirect::to], [permanent], [temporary]. *)
Definition redirect_with (status : Z) (uri : string) : Response :=
  rb_empty (rb_header_str LOCATION uri (rb_status status rb_new)).
Definition redirect_to : string -> Response := redirect_with 303.
Definition redirect_permanent : string -> Response := redirect_with 301.
Definition redirect_temporary : string -> Response := redirect_with 307.

(** ** Services and layers *)

Section Services.
Context {W : Type}.

Definition Service : Type := Request -> W -> Response * W.
Definition LayerFn : Type := Service -> Service.

(** [apply_layers]: the first added is the innermost. *)
Definition apply_layers (base : Service) (layers : list LayerFn) : Service :=
  fold_left (fun svc (f : LayerFn) => f svc) layers base.

(** [oneshot]: services are always ready, then one call. *)
Definition oneshot (svc : Service) : Service := fun req w => svc req w.

Lemma apply_layers_app base l1 l2 :
  apply_layers base (l1 ++ l2) = apply_layers (apply_layers base l1) l2.
Proof. apply fold_left_app. Qed.

Lemma apply_layers_snoc base l f :
  apply_layers base (l ++ [f]) = f (apply_layers base l).
Proof. by rewrite apply_layers_app. Qed.
End Services.
End Http.

Arguments Service {_} W.
Arguments LayerFn {_} W.
#[global] Arguments apply_layers : simpl never.
#[export] Hint Rewrite @apply_layers_app @apply_layers_snoc : arvik.

(** ** Facts on built responses *)

Section Built.
Context `{HL : HttpLaws}.

Lemma redirect_with_valid status uri :
  str_forall visible_ascii uri = true ->
  res_status (redirect_with status uri) = status /\
  hm_get_all (res_headers (redirect_with status uri)) LOCATION = [uri].
Proof.
  intros Hv. unfold redirect_with, rb_header_str. rewrite hv_from_str_visible by done.
  cbn. by headers.
Qed.
End Built.

(** ** Concrete requests

    Requests over the list-based header map, a service that logs its calls and
    a layer that marks both ways, for the examples and witnesses. *)
Module Demo.
Definition request (m : Method) (path : string) : Request :=
  mkRequest m (mkUri None None path None) hm_empty no_ext body_empty.
Definition with_header (k v : string) (r : Request) : Request :=
  set_req_headers (hm_append (req_headers r) k v) r.

Definition respond (status : Z) (text : string) : Response :=
  rb_text text (rb_status status rb_new).

(** The world is the log of what happened. *)
Definition handler (name : string) : Service (list string) :=
  fun req w => (respond 200 name, w ++ [name +:+ " " +:+ uri_path (req_uri req)]).

Definition layer (name : string) : LayerFn (list string) :=
  fun inner req w =>
    let '(res, w) := inner req (w ++ ["enter " +:+ name]) in (res, w ++ ["leave " +:+ name]).
End Demo.
