(* ===== verification/MethodFilter.v ===== *)
(** * Method filters

    [arvik-core/src/method_filter.rs]: [MethodFilter] is a [u16] bit set. *)
From S2P Require Import Prelude RustStr HttpCrate.
From stdpp Require Import base list strings sets.
From Stdlib Require Import ZArith Lia Ascii String.
Open Scope string_scope.
Open Scope list_scope.

Module MethodFilter.
(** [struct MethodFilter(u16)]. *)
Definition t : Type := Z.

Definition GET : t := Z.shiftl 1 0.
Definition POST : t := Z.shiftl 1 1.
Definition PUT : t := Z.shiftl 1 2.
Definition DELETE : t := Z.shiftl 1 3.
Definition PATCH : t := Z.shiftl 1 4.
Definition HEAD : t := Z.shiftl 1 5.
Definition OPTIONS : t := Z.shiftl 1 6.
Definition TRACE : t := Z.shiftl 1 7.
Definition EXTENSION : t := Z.shiftl 1 8.
Definition ANY : t := Z.lor 255 (Z.shiftl 1 8).
Definition NONE : t := 0%Z.

Definition contains (self other : t) : bool := (Z.land self other =? other)%Z.
Definition bits (self : t) : Z := self.
Definition bitor (self rhs : t) : t := Z.lor self rhs.

Definition from_method (m : Method) : t :=
  match m with
  | HttpCrate.GET => GET
  | HttpCrate.POST => POST
  | HttpCrate.PUT => PUT
  | HttpCrate.DELETE => DELETE
  | HttpCrate.PATCH => PATCH
  | HttpCrate.HEAD => HEAD
  | HttpCrate.OPTIONS => OPTIONS
  | HttpCrate.TRACE => TRACE
  | HttpCrate.CONNECT | EXTENSION_METHOD _ => EXTENSION
  end.

Definition matches (self : t) (m : Method) : bool := contains self (from_method m).

(** The bit a method has. *)
Definition bit_of (m : Method) : Z :=
  match m with
  | HttpCrate.GET => 0 | HttpCrate.POST => 1 | HttpCrate.PUT => 2 | HttpCrate.DELETE => 3
  | HttpCrate.PATCH => 4 | HttpCrate.HEAD => 5 | HttpCrate.OPTIONS => 6
  | HttpCrate.TRACE => 7 | _ => 8
  end%Z.

Lemma from_method_bit m : from_method m = Z.shiftl 1 (bit_of m).
Proof. by destruct m. Qed.

Lemma bit_of_nonneg m : (0 <= bit_of m)%Z.
Proof. by destruct m. Qed.

(** A filter contains a one-bit filter exactly when it has the bit. *)
Lemma contains_bit f k : (0 <= k)%Z -> contains f (Z.shiftl 1 k) = Z.testbit f k.
Proof.
  intros Hk. unfold contains. rewrite Z.shiftl_1_l.
  destruct (Z.testbit f k) eqn:E.
  - apply Z.eqb_eq, Z.bits_inj'. intros n Hn.
    rewrite Z.land_spec, Z.pow2_bits_eqb by done.
    destruct (Z.eqb_spec k n) as [<-|]; [by rewrite E|by rewrite andb_false_r].
  - apply Z.eqb_neq. intros Heq.
    assert (Z.testbit (Z.land f (2 ^ k)) k = Z.testbit (2 ^ k) k) as Hb by by rewrite Heq.
    rewrite Z.land_spec, E, Z.pow2_bits_true in Hb; done.
Qed.

Lemma matches_bit f m : matches f m = Z.testbit f (bit_of m).
Proof. unfold matches. rewrite from_method_bit. apply contains_bit, bit_of_nonneg. Qed.

Lemma contains_from f m : contains f (from_method m) = Z.testbit f (bit_of m).
Proof. apply matches_bit. Qed.

Lemma contains_bitor f g k :
  (0 <= k)%Z ->
  contains (bitor f g) (Z.shiftl 1 k) = contains f (Z.shiftl 1 k) || contains g (Z.shiftl 1 k).
Proof. intros. unfold bitor. by rewrite !contains_bit, Z.lor_spec. Qed.

Lemma any_matches m : matches ANY m = true.
Proof. by destruct m. Qed.

Lemma none_matches m : matches NONE m = false.
Proof. rewrite matches_bit. apply Z.testbit_0_l. Qed.

(** Extension methods match no standard-method filter. *)
Lemma extension_not_standard m s :
  bit_of m <> 8%Z -> matches (from_method m) (EXTENSION_METHOD s) = false.
Proof. intros Hm. by destruct m. Qed.

(** Filters with a common bit, as the conflict tests see it. *)
Lemma land_zero_disjoint f g m :
  Z.land f g = 0%Z -> matches f m = true -> matches g m = false.
Proof.
  rewrite !matches_bit. intros Hz Hf.
  assert (Z.testbit (Z.land f g) (bit_of m) = false) as Hb by (rewrite Hz; apply Z.testbit_0_l).
  rewrite Z.land_spec, Hf in Hb. done.
Qed.
End MethodFilter.
