(* ===== verification/MethodRouter.v ===== *)
(** * The method router

    [arvik-router/src/method_router.rs]: one handler per method of a route,
    its layers, the cache of folded layer stacks and the dispatch. *)
From S2P Require Import Prelude RustStr HttpCrate Body Http MethodFilter.
From stdpp Require Import base list strings sets.
From Stdlib Require Import ZArith Lia Ascii String.
Open Scope string_scope.
Open Scope list_scope.

(** [Box<dyn ErasedHandler<S>>]. *)
Definition Handler `{HttpCrate} (S W : Type) : Type := Request -> S -> W -> Response * W.

Section Model.
Context `{HttpCrate} {W : Type}.

(** [struct MethodRouter<S>].  The [OnceLock] holding the folded stacks is an
    option the call may fill. *)
Record MethodRouter (S : Type) := mkMR {
  mr_handlers : list (MethodFilter.t * Handler S W);
  mr_allow : MethodFilter.t;
  mr_layers : list (LayerFn W);
  mr_baked : option (list (option (Service W)));
  mr_bakeable : bool }.
Arguments mkMR {S}.
Arguments mr_handlers {S}.
Arguments mr_allow {S}.
Arguments mr_layers {S}.
Arguments mr_baked {S}.
Arguments mr_bakeable {S}.

(** [HandlerService { handler, state }]. *)
Definition handler_service {S} (h : Handler S W) (state : S) : Service W :=
  fun req w => h req state w.

(** [StateBound { inner, state }]. *)
Definition state_bound {S} (h : Handler S W) (state : S) : Handler unit W :=
  fun req _ w => h req state w.

Definition mr_new {S} : MethodRouter S := mkMR [] MethodFilter.NONE [] None false.

Definition mr_on {S} (filter : MethodFilter.t) (h : Handler S W) (self : MethodRouter S)
  : MethodRouter S :=
  mkMR (mr_handlers self ++ [(filter, h)]) (MethodFilter.bitor (mr_allow self) filter)
    (mr_layers self) None (mr_bakeable self).

(** [merge]: [None] is the panic on a method both routers have. *)
Definition mr_merge {S} (self other : MethodRouter S) : option (MethodRouter S) :=
  if negb (Z.land (MethodFilter.bits (mr_allow self)) (MethodFilter.bits (mr_allow other)) =? 0)%Z
  then None
  else Some (mkMR (mr_handlers self ++ mr_handlers other)
                  (MethodFilter.bitor (mr_allow self) (mr_allow other))
                  (mr_layers self ++ mr_layers other) None false).

Definition mr_get {S} : Handler S W -> MethodRouter S -> MethodRouter S := mr_on MethodFilter.GET.
Definition mr_post {S} : Handler S W -> MethodRouter S -> MethodRouter S := mr_on MethodFilter.POST.
Definition mr_put {S} : Handler S W -> MethodRouter S -> MethodRouter S := mr_on MethodFilter.PUT.
Definition mr_delete {S} : Handler S W -> MethodRouter S -> MethodRouter S :=
  mr_on MethodFilter.DELETE.
Definition mr_patch {S} : Handler S W -> MethodRouter S -> MethodRouter S :=
  mr_on MethodFilter.PATCH.
Definition mr_head {S} : Handler S W -> MethodRouter S -> MethodRouter S := mr_on MethodFilter.HEAD.
Definition mr_options {S} : Handler S W -> MethodRouter S -> MethodRouter S :=
  mr_on MethodFilter.OPTIONS.

(** The free functions [any(handler)] and [on(filter, handler)]. *)
Definition any {S} (h : Handler S W) : MethodRouter S := mr_on MethodFilter.ANY h mr_new.
Definition on {S} (f : MethodFilter.t) (h : Handler S W) : MethodRouter S := mr_on f h mr_new.

Definition mr_layer {S} (l : LayerFn W) (self : MethodRouter S) : MethodRouter S :=
  mkMR (mr_handlers self) (mr_allow self) (mr_layers self ++ [l]) None (mr_bakeable self).

Definition mr_extend_layers {S} (extra : list (LayerFn W)) (self : MethodRouter S)
  : MethodRouter S :=
  match extra with
  | [] => self
  | _ => mkMR (mr_handlers self) (mr_allow self) (mr_layers self ++ extra) None
           (mr_bakeable self)
  end.

Definition mr_with_state {S} (state : S) (self : MethodRouter S) : MethodRouter unit :=
  mkMR (map (fun fh => (fst fh, state_bound (snd fh) state)) (mr_handlers self))
    (mr_allow self) (mr_layers self) None true.

Definition mr_clone {S} (self : MethodRouter S) : MethodRouter S :=
  mkMR (mr_handlers self) (mr_allow self) (mr_layers self) None false.

(** [build_allow_header]. *)
Definition allow_pairs : list (MethodFilter.t * string) :=
  [(MethodFilter.GET, "GET"); (MethodFilter.POST, "POST"); (MethodFilter.PUT, "PUT");
   (MethodFilter.DELETE, "DELETE"); (MethodFilter.PATCH, "PATCH");
   (MethodFilter.HEAD, "HEAD"); (MethodFilter.OPTIONS, "OPTIONS");
   (MethodFilter.TRACE, "TRACE")].
Definition build_allow_header (filter : MethodFilter.t) : string :=
  str_join ", " (map snd (List.filter (fun fm => MethodFilter.contains filter (fst fm))
                            allow_pairs)).

Definition method_not_allowed (allow : MethodFilter.t) : Response :=
  rb_text "Method Not Allowed"
    (rb_header_string ALLOW (build_allow_header allow) (rb_status 405 rb_new)).

(** The loop of [call] over [handlers.iter().enumerate()]. *)
Fixpoint dispatch {S} (mf : MethodFilter.t) (fallback : bool)
    (layers : list (LayerFn W)) (baked : option (list (option (Service W))))
    (idx : nat) (hs : list (MethodFilter.t * Handler S W)) (state : S)
  : option (Service W) :=
  match hs with
  | [] => None
  | (filter, h) :: hs =>
      if MethodFilter.contains filter mf
         || (fallback && MethodFilter.contains filter MethodFilter.GET)
      then
        match (baked ≫= fun stack => stack !! idx ≫= fun x => x) with
        | Some svc => Some (oneshot svc)
        | None =>
            match layers with
            | [] => Some (fun req w => h req state w)
            | _ => Some (oneshot (apply_layers (handler_service h state) layers))
            end
        end
      else dispatch mf fallback layers baked (Datatypes.S idx) hs state
  end.

(** [call]: the response, the world, and the router with its cache. *)
Definition mr_call {S} (self : MethodRouter S) (req : Request) (state : S) (w : W)
  : Response * W * MethodRouter S :=
  let method_filter := MethodFilter.from_method (req_method req) in
  let head_falls_back_to_get :=
    method_eqb (req_method req) HEAD
    && negb (MethodFilter.contains (mr_allow self) MethodFilter.HEAD) in
  let use_baked := mr_bakeable self && negb (match mr_layers self with [] => true | _ => false end) in
  let stack := map (fun fh => Some (apply_layers (handler_service (snd fh) state) (mr_layers self)))
                 (mr_handlers self) in
  let baked' := if use_baked
                then Some (match mr_baked self with Some b => b | None => stack end)
                else mr_baked self in
  let baked := if use_baked then baked' else None in
  let self' := mkMR (mr_handlers self) (mr_allow self) (mr_layers self) baked'
                 (mr_bakeable self) in
  match dispatch method_filter head_falls_back_to_get (mr_layers self) baked 0
          (mr_handlers self) state with
  | Some svc => (svc req w, self')
  | None => (method_not_allowed (mr_allow self), w, self')
  end.
End Model.

Arguments MethodRouter {_} W S.
Arguments mkMR {_ _ S}.
Arguments mr_handlers {_ _ S}.
Arguments mr_allow {_ _ S}.
Arguments mr_layers {_ _ S}.
Arguments mr_baked {_ _ S}.
Arguments mr_bakeable {_ _ S}.

(** ** The specification

    What a route promises: the first handler registered for the method (for
    [HEAD] with no [HEAD] handler, the first for [GET]) runs inside all the
    layers, the last added outermost; without one, 405. *)
Section Spec.
Context `{HttpCrate} {W S : Type}.
Implicit Types mr : MethodRouter W S.

Definition has_method mr (m : Method) : Prop :=
  exists fh, fh ∈ mr_handlers mr /\ MethodFilter.matches (fst fh) m = true.

Definition has_methodb mr (m : Method) : bool :=
  existsb (fun fh => MethodFilter.matches (fst fh) m) (mr_handlers mr).

(** The method a handler is looked up for. *)
Definition effective_method mr (m : Method) : Method :=
  if method_eqb m HEAD && negb (has_methodb mr HEAD) then GET else m.

Definition mr_spec mr (state : S) : Service W := fun req w =>
  match List.find (fun fh => MethodFilter.matches (fst fh)
                               (effective_method mr (req_method req)))
          (mr_handlers mr) with
  | Some (_, h) => apply_layers (handler_service h state) (mr_layers mr) req w
  | None => (method_not_allowed (mr_allow mr), w)
  end.

(** Invariant: the mask is the union of the handlers' filters, and the cache,
    when filled, holds exactly the folded stacks; a router may only be
    bakeable when its state type has one value. *)
Record mr_wf mr : Prop := {
  wf_allow m : MethodFilter.matches (mr_allow mr) m = has_methodb mr m;
  wf_baked stack : mr_baked mr = Some stack ->
    mr_bakeable mr = true /\ exists state,
    stack = map (fun fh => Some (apply_layers (handler_service (snd fh) state) (mr_layers mr)))
              (mr_handlers mr);
  wf_bakeable : mr_bakeable mr = true -> forall s s' : S, s = s' }.
End Spec.

Section Facts.
Context `{HttpCrate} {W : Type}.

Lemma has_methodb_app {S} (hs hs' : list (MethodFilter.t * Handler S W)) m :
  existsb (fun fh => MethodFilter.matches (fst fh) m) (hs ++ hs') =
  existsb (fun fh => MethodFilter.matches (fst fh) m) hs ||
  existsb (fun fh => MethodFilter.matches (fst fh) m) hs'.
Proof. apply existsb_app. Qed.

Lemma matches_bitor f g m :
  MethodFilter.matches (MethodFilter.bitor f g) m =
  MethodFilter.matches f m || MethodFilter.matches g m.
Proof.
  unfold MethodFilter.matches. rewrite MethodFilter.from_method_bit.
  apply MethodFilter.contains_bitor, MethodFilter.bit_of_nonneg.
Qed.

(** *** The invariant is preserved *)

Lemma wf_new {S} : mr_wf (mr_new (W:=W) (S:=S)).
Proof. split; [intros m; apply MethodFilter.none_matches|done..]. Qed.

Lemma wf_on {S} f (h : Handler S W) mr : mr_wf mr -> mr_wf (mr_on f h mr).
Proof.
  intros [Ha _ Hb]. split; [|done|apply Hb].
  intros m. unfold has_methodb; cbn [mr_on mr_allow mr_handlers].
  rewrite matches_bitor, has_methodb_app, Ha. cbn. by rewrite orb_false_r.
Qed.

Lemma wf_merge {S} (a b c : MethodRouter W S) :
  mr_wf a -> mr_wf b -> mr_merge a b = Some c -> mr_wf c.
Proof.
  intros [Ha _ _] [Hb _ _]. unfold mr_merge. case_match; [done|]. intros [= <-].
  split; [|done..]. intros m. unfold has_methodb; cbn.
  by rewrite matches_bitor, has_methodb_app, Ha, Hb.
Qed.

Lemma wf_layer {S} l (mr : MethodRouter W S) : mr_wf mr -> mr_wf (mr_layer l mr).
Proof. intros [Ha _ Hb]. split; [apply Ha|done|apply Hb]. Qed.

Lemma wf_extend_layers {S} ls (mr : MethodRouter W S) :
  mr_wf mr -> mr_wf (mr_extend_layers ls mr).
Proof. intros Hwf. destruct ls; [done|]. destruct Hwf as [Ha _ Hb]. split; [apply Ha|done|apply Hb]. Qed.

Lemma wf_clone {S} (mr : MethodRouter W S) : mr_wf mr -> mr_wf (mr_clone mr).
Proof. intros [Ha _ _]. split; [apply Ha|done..]. Qed.

Lemma existsb_map {A B} (f : A -> B) p l : existsb p (map f l) = existsb (fun x => p (f x)) l.
Proof. induction l; simpl; congruence. Qed.

Lemma wf_with_state {S} (st : S) (mr : MethodRouter W S) : mr_wf mr -> mr_wf (mr_with_state st mr).
Proof.
  intros [Ha _ _]. split; [|done|by intros _ [] []].
  intros m. unfold has_methodb; cbn. rewrite existsb_map. apply Ha.
Qed.

(** *** Dispatch is a lookup *)

Lemma dispatch_find {S} mf fb layers baked idx (hs : list (MethodFilter.t * Handler S W)) st :
  (forall i fh, hs !! i = Some fh -> forall stack, baked = Some stack ->
     stack !! (idx + i)%nat =
       Some (Some (apply_layers (handler_service (snd fh) st) layers))) ->
  forall req w,
  match dispatch mf fb layers baked idx hs st,
        List.find (fun fh => MethodFilter.contains (fst fh) mf
                    || (fb && MethodFilter.contains (fst fh) MethodFilter.GET)) hs with
  | Some svc, Some fh => svc req w = apply_layers (handler_service (snd fh) st) layers req w
  | None, None => True
  | _, _ => False
  end.
Proof.
  revert idx; induction hs as [|[f h] hs IH]; intros idx Hb req w; [done|].
  cbn [dispatch List.find fst snd].
  destruct (MethodFilter.contains f mf || _).
  - specialize (Hb 0 (f, h) eq_refl). rewrite Nat.add_0_r in Hb.
    destruct baked as [stack|]; simpl.
    + by rewrite (Hb stack eq_refl).
    + by destruct layers.
  - apply IH. intros i fh Hi stack Hs. rewrite <- (Hb (1 + i)%nat fh Hi stack Hs).
    f_equal. lia.
Qed.

Lemma find_ext {A} (f g : A -> bool) l :
  (forall x, f x = g x) -> List.find f l = List.find g l.
Proof. intros Hfg. induction l; simpl; [done|]. by rewrite Hfg, IHl. Qed.

(** The code's test is the specification's. *)
Lemma code_test_spec {S} (mr : MethodRouter W S) m f h :
  mr_wf mr -> (f, h) ∈ mr_handlers mr ->
  MethodFilter.contains f (MethodFilter.from_method m)
  || (method_eqb m HEAD && negb (MethodFilter.contains (mr_allow mr) MethodFilter.HEAD)
      && MethodFilter.contains f MethodFilter.GET)
  = MethodFilter.matches f (effective_method mr m).
Proof.
  intros Hwf Hin. unfold effective_method.
  change (MethodFilter.contains (mr_allow mr) MethodFilter.HEAD)
    with (MethodFilter.matches (mr_allow mr) HEAD).
  rewrite (wf_allow _ Hwf).
  change (MethodFilter.contains f (MethodFilter.from_method m)) with (MethodFilter.matches f m).
  change (MethodFilter.contains f MethodFilter.GET) with (MethodFilter.matches f GET).
  destruct (method_eqb m HEAD) eqn:Hm; simpl; [|by rewrite orb_false_r].
  apply bool_decide_eq_true in Hm as ->.
  destruct (has_methodb mr HEAD) eqn:Hh; simpl; [by rewrite orb_false_r|].
  rewrite (proj1 (list_find_none_forallb _ _) Hh (f, h) Hin : MethodFilter.matches f HEAD = false).
  done.
Qed.

Lemma find_code_spec {S} (mr : MethodRouter W S) m :
  mr_wf mr ->
  List.find (fun fh => MethodFilter.contains (fst fh) (MethodFilter.from_method m)
     || (method_eqb m HEAD && negb (MethodFilter.contains (mr_allow mr) MethodFilter.HEAD)
         && MethodFilter.contains (fst fh) MethodFilter.GET)) (mr_handlers mr) =
  List.find (fun fh => MethodFilter.matches (fst fh) (effective_method mr m)) (mr_handlers mr).
Proof.
  intros Hwf.
  assert (Hall : forall fh, fh ∈ mr_handlers mr -> fh ∈ mr_handlers mr) by done.
  revert Hall. generalize (mr_handlers mr) at 1 3 4. intros hs Hall.
  induction hs as [|[f h] hs IH]; [done|]. cbn [List.find fst].
  rewrite (code_test_spec mr m f h) by (done || (apply Hall; set_solver)).
  rewrite IH by (intros; apply Hall; set_solver). done.
Qed.

Lemma lookup_stack {S} (hs : list (MethodFilter.t * Handler S W)) layers st i fh :
  hs !! i = Some fh ->
  map (fun fh => Some (apply_layers (handler_service (snd fh) st) layers)) hs !! i =
  Some (Some (apply_layers (handler_service (snd fh) st) layers)).
Proof. intros Hi. by rewrite list_lookup_fmap, Hi. Qed.
End Facts.

#[export] Hint Resolve wf_new wf_on wf_layer wf_extend_layers wf_clone wf_with_state : arvik.

(** *** The call *)

Section Call.
Context `{HttpCrate} {W : Type}.

Lemma mr_call_spec {S} (mr : MethodRouter W S) req st w :
  mr_wf mr ->
  let '(out, mr') := mr_call mr req st w in
  out = mr_spec mr st req w /\ mr_wf mr' /\
  mr_handlers mr' = mr_handlers mr /\ mr_layers mr' = mr_layers mr.
Proof.
  intros Hwf. unfold mr_call, mr_spec.
  set (use := mr_bakeable mr && _). set (stack := map _ (mr_handlers mr)).
  set (baked' := if use then Some _ else _).
  assert (Hstack : forall b, baked' = Some b -> use = true -> b = stack).
  { subst baked'. intros b Hb Hu. rewrite Hu in Hb. injection Hb as <-.
    destruct (mr_baked mr) as [b|] eqn:Eb; [|done].
    destruct (wf_baked _ Hwf b Eb) as (Hbk & st0 & ->).
    by rewrite (wf_bakeable _ Hwf Hbk st0 st). }
  assert (Hwf' : mr_wf (mkMR (mr_handlers mr) (mr_allow mr) (mr_layers mr) baked'
                          (mr_bakeable mr))).
  { split; [apply (wf_allow _ Hwf)| |apply (wf_bakeable _ Hwf)].
    intros b Hb. cbn in *. destruct use eqn:Hu.
    - split; [unfold use in Hu; by bool_hyps|]. exists st. by apply Hstack.
    - apply (wf_baked _ Hwf b Hb). }
  pose proof (dispatch_find (MethodFilter.from_method (req_method req))
    (method_eqb (req_method req) HEAD &&
     negb (MethodFilter.contains (mr_allow mr) MethodFilter.HEAD))
    (mr_layers mr) (if use then baked' else None) 0 (mr_handlers mr) st) as Hd.
  rewrite find_code_spec in Hd by done.
  specialize (Hd ltac:(intros i fh Hi b Hb; destruct use eqn:Hu; [|done];
    rewrite (Hstack b Hb eq_refl); by apply lookup_stack) req w).
  destruct (dispatch _ _ _ _ _ _ _) as [svc|], (List.find _ _) as [[f h]|]; done.
Qed.
(** A call changes nothing a later call answers. *)
Lemma mr_call_same {S} (mr : MethodRouter W S) req st w :
  forall st', mr_spec (snd (mr_call mr req st w)) st' = mr_spec mr st'.
Proof. intros st'. unfold mr_call. by destruct (dispatch _ _ _ _ _ _ _). Qed.
End Call.

(** The method routers an application can build; [with_state] is the last step
    before serving, [S] being then [unit]. *)
Inductive mr_built `{HttpCrate} {W : Type} : forall S, MethodRouter W S -> Prop :=
| mb_new S : mr_built S mr_new
| mb_on S f h mr : mr_built S mr -> mr_built S (mr_on f h mr)
| mb_merge S a b c : mr_built S a -> mr_built S b -> mr_merge a b = Some c -> mr_built S c
| mb_layer S l mr : mr_built S mr -> mr_built S (mr_layer l mr)
| mb_extend_layers S ls mr : mr_built S mr -> mr_built S (mr_extend_layers ls mr)
| mb_clone S mr : mr_built S mr -> mr_built S (mr_clone mr)
| mb_with_state S st mr : mr_built S mr -> mr_built unit (mr_with_state st mr)
| mb_called S mr req st w : mr_built S mr -> mr_built S (snd (mr_call mr req st w)).

Lemma mr_built_wf `{HttpCrate} {W S} (mr : MethodRouter W S) : mr_built S mr -> mr_wf mr.
Proof.
  induction 1 as [S0|S0 f h m _ IH|S0 a b c _ IHa _ IHb Hm|S0 l m _ IH|S0 ls m _ IH|S0 m _ IH
                 |S0 st m _ IH|S0 m req st w _ IH].
  - apply wf_new.
  - by apply wf_on.
  - by apply (wf_merge a b).
  - by apply wf_layer.
  - by apply wf_extend_layers.
  - by apply wf_clone.
  - by apply wf_with_state.
  - pose proof (mr_call_spec m req st w IH) as Hc.
    destruct (mr_call m req st w) as [out m']. cbn. apply Hc.
Qed.

(** ** Properties *)

(** C2. [MethodRouter::call] refines the specification [mr_spec]: a router built
    by any sequence of its operations, calls included, answers what the first
    handler registered for the request's method answers inside all the route's
    layers ([HEAD] being served by the [GET] handler when no handler takes
    [HEAD]), and 405 when there is none; the cache of folded layer stacks never
    changes the answer. *)
Theorem mr_call_refines `{HttpCrate} {W S} (mr : MethodRouter W S) req st w :
  mr_built S mr ->
  fst (mr_call mr req st w) = mr_spec mr st req w /\
  mr_handlers (snd (mr_call mr req st w)) = mr_handlers mr /\
  mr_layers (snd (mr_call mr req st w)) = mr_layers mr.
Proof.
  intros Hb%mr_built_wf. pose proof (mr_call_spec mr req st w Hb) as Hc.
  destruct (mr_call mr req st w) as [out mr']. cbn. by destruct Hc as (? & _ & ? & ?).
Qed.

Section AllowHeader.
Context `{HL : HttpLaws} {W : Type}.

Definition standard_methods : list Method :=
  [GET; POST; PUT; DELETE; PATCH; HEAD; OPTIONS; TRACE].

Definition allow_names (f : MethodFilter.t) : list string :=
  map method_as_str (List.filter (MethodFilter.matches f) standard_methods).

Lemma build_allow_names f : build_allow_header f = str_join ", " (allow_names f).
Proof.
  unfold build_allow_header, allow_names, allow_pairs, standard_methods.
  unfold MethodFilter.matches. cbn [List.filter fst MethodFilter.from_method].
  repeat case_goal; done.
Qed.

Lemma allow_header_visible f : str_forall visible_ascii (build_allow_header f) = true.
Proof.
  rewrite build_allow_names. unfold allow_names, standard_methods.
  cbn [List.filter]. repeat case_goal; reflexivity.
Qed.

Lemma allow_header_parses f :
  (exists m, m ∈ standard_methods /\ MethodFilter.matches f m = true) ->
  map trim (str_split "," (build_allow_header f)) = allow_names f.
Proof.
  rewrite build_allow_names. intros (m & Hm & Hf).
  assert (Hne : List.filter (MethodFilter.matches f) standard_methods <> []).
  { intros Hn. assert (List.In m (List.filter (MethodFilter.matches f) standard_methods)) as Hi.
    { apply List.filter_In. split; [by apply list_elem_of_In|done]. }
    by rewrite Hn in Hi. }
  clear m Hm Hf. revert Hne. unfold allow_names, standard_methods.
  cbn [List.filter]. repeat case_goal; intros; solve [reflexivity|done].
Qed.

(** A request no handler takes is answered 405 without running anything,
    and the [Allow] header of the answer, read as a comma-separated list,
    names exactly the standard methods the route has a handler for. *)
Theorem mr_call_405 {S} (mr : MethodRouter W S) req st w :
  mr_wf mr ->
  has_methodb mr (effective_method mr (req_method req)) = false ->
  (exists m, m ∈ standard_methods /\ has_methodb mr m = true) ->
  exists res mr', mr_call mr req st w = (res, w, mr') /\ res_status res = 405%Z /\
  exists allow, hm_get_all (res_headers res) ALLOW = [allow] /\
    forall m, m ∈ standard_methods ->
      (method_as_str m ∈ map trim (str_split "," allow) <-> has_methodb mr m = true).
Proof.
  intros Hwf Hno (m0 & Hm0 & Hh0).
  pose proof (mr_call_spec mr req st w Hwf) as Href.
  destruct (mr_call mr req st w) as [out mr'] eqn:E. destruct Href as (-> & _).
  unfold mr_spec. destruct (List.find _ _) as [[f h]|] eqn:Ef.
  { apply List.find_some in Ef as [Hin Hm].
    assert (has_methodb mr (effective_method mr (req_method req)) = true) as Ht.
    { apply existsb_exists. eauto. }
    congruence. }
  do 2 eexists. split; [done|].
  unfold method_not_allowed, rb_header_string.
  rewrite hv_from_string_visible by apply allow_header_visible. cbn. split; [done|].
  exists (build_allow_header (mr_allow mr)). headers. split; [done|].
  intros m Hm. rewrite allow_header_parses
    by (exists m0; by rewrite (wf_allow _ Hwf)).
  rewrite <- (wf_allow _ Hwf). unfold allow_names.
  rewrite list_elem_of_In, in_map_iff. setoid_rewrite List.filter_In.
  split; [|intros Hf; exists m; by rewrite <- list_elem_of_In].
  intros (m' & Heq & Hin & Hf).
  enough (m' = m) by congruence.
  apply list_elem_of_In in Hin. revert Heq.
  unfold standard_methods in Hm, Hin.
  repeat (apply elem_of_cons in Hm as [->|Hm]);
    repeat (apply elem_of_cons in Hin as [->|Hin]); try done; set_solver.
Qed.
End AllowHeader.

(** ** A concrete route: [GET] and [POST] handlers inside one layer *)
Module DemoRoute.
Definition h (name : string) : Handler unit (list string) := fun req _ w => Demo.handler name req w.
Definition mr : MethodRouter (list string) unit :=
  mr_layer (Demo.layer "log") (mr_post (h "create") (mr_get (h "show") mr_new)).
Lemma mr_is_built : mr_built unit mr.
Proof. apply mb_layer, mb_on, mb_on, mb_new. Qed.
End DemoRoute.

(** A [HEAD] request runs the [GET] handler inside the layer. *)
Lemma mr_call_refines_witness :
  snd (fst (mr_call DemoRoute.mr (Demo.request HEAD "/x") tt [])) =
    ["enter log"; "show /x"; "leave log"].
Proof.
  destruct (mr_call_refines DemoRoute.mr (Demo.request HEAD "/x") tt [] DemoRoute.mr_is_built)
    as [H _].
  rewrite H. vm_compute. reflexivity.
Defined.

Lemma mr_call_405_witness :
  exists res mr', mr_call DemoRoute.mr (Demo.request DELETE "/x") tt [] = (res, [], mr') /\
    res_status res = 405%Z /\
    exists allow, hm_get_all (res_headers res) ALLOW = [allow] /\
      ("POST" ∈ map trim (str_split "," allow) <-> true = true).
Proof.
  destruct (mr_call_405 DemoRoute.mr (Demo.request DELETE "/x") tt []
    (mr_built_wf _ DemoRoute.mr_is_built) eq_refl) as (res & mr' & H1 & H2 & allow & H3 & H4).
  - exists GET. split; [constructor|reflexivity].
  - exists res, mr'. split; [exact H1|]. split; [exact H2|]. exists allow. split; [exact H3|].
    apply (H4 POST). constructor. constructor.
Defined.
