(* ===== verification/RouterPath.v ===== *)
(** * Route paths: decoding, prefixes and route metadata

    The path functions of [arvik-router/src/router.rs] and
    [arvik-router/src/service.rs], [PathParams] of [arvik-router/src/params.rs]
    and the duplicate-route check of the route macros. *)
From S2P Require Import Prelude RustStr HttpCrate Body Http.
From stdpp Require Import base list strings sets.
From Stdlib Require Import ZArith Lia Ascii String.
Open Scope string_scope.
Open Scope list_scope.

(** ** [PathParams] *)

Definition PathParams : Type := list (string * string).
Definition pp_new : PathParams := [].
Definition pp_push (p : PathParams) (key value : string) : PathParams := p ++ [(key, value)].
(** [get]: the first pair with the key. *)
Definition pp_get (p : PathParams) (key : string) : option string :=
  option_map snd (List.find (fun kv => String.eqb (fst kv) key) p).
Definition pp_len (p : PathParams) : nat := List.length p.
Definition pp_is_empty (p : PathParams) : bool := match p with [] => true | _ => false end.

(** ** [percent_decode] *)

Definition hex_nibble (b : ascii) : option Z :=
  let v := byte_val b in
  if in_range 48 57 b then Some (v - 48)%Z
  else if in_range 97 102 b then Some (v - 97 + 10)%Z
  else if in_range 65 70 b then Some (v - 65 + 10)%Z
  else None.

(** The bytes whose escape is kept: slash, backslash, NUL, LF and CR. *)
Definition kept_escape (v : Z) : bool :=
  ((v =? 47) || (v =? 92) || (v =? 0) || (v =? 10) || (v =? 13))%Z.

(** The decoding loop: [hi << 4 | lo]. *)
Fixpoint decode_loop (s : string) : string :=
  match s with
  | EmptyString => EmptyString
  | String p s1 =>
      if Ascii.eqb p "%" then
        match s1 with
        | String h (String l s3) =>
            match hex_nibble h, hex_nibble l with
            | Some hi, Some lo =>
                let decoded := Z.lor (Z.shiftl hi 4) lo in
                if kept_escape decoded then String p (String h (String l (decode_loop s3)))
                else String (byte_of_val decoded) (decode_loop s3)
            | _, _ => String p (decode_loop s1)
            end
        | _ => String p (decode_loop s1)
        end
      else String p (decode_loop s1)
  end.

(** [percent_decode]: unchanged without [%], and unchanged when the decoded
    bytes are not UTF-8. *)
Definition percent_decode (input : string) : string :=
  if negb (contains_char "%" input) then input
  else let out := decode_loop input in
       if utf8_valid out then out else input.

(** ** Prefixes *)

Definition normalize_service_prefix (prefix : string) : string :=
  let trimmed := trim_end_matches "/" prefix in
  if str_is_empty trimmed then "/"
  else if starts_with "/" trimmed then trimmed
  else "/" +:+ trimmed.

Section StripPrefix.
Context `{HttpCrate}.

(** The path [strip_uri_prefix] gives the nested service. *)
Definition stripped_path (path prefix : string) : option string :=
  if String.eqb prefix "/" || negb (starts_with prefix path) then None
  else if String.eqb path prefix
          || ((str_len path =? str_len prefix + 1)%Z && starts_with prefix path
              && ends_with_char "/" path)
  then Some "/"
  else match str_strip_prefix prefix path with
       | Some rest => if starts_with "/" rest then Some rest else None
       | None => None
       end.

Definition path_and_query (path : string) (query : option string) : string :=
  match query with Some q => path +:+ "?" +:+ q | None => path end.

Definition strip_uri_prefix (uri : Uri) (prefix : string) : option Uri :=
  match stripped_path (uri_path uri) prefix with
  | None => None
  | Some p =>
      match pq_parse (path_and_query p (uri_query uri)) with
      | Some pq => uri_from_parts (uri_scheme uri) (uri_authority uri) pq
      | None => None
      end
  end.

(** [StripPrefixService::call]. *)
Definition strip_prefix_service {W} (prefix : string) (service : Service W) : Service W :=
  fun req w =>
    let original_uri := req_uri req in
    let req := match ext_original_uri (req_ext req) with
               | None => set_req_ext (ext_with_original_uri original_uri (req_ext req)) req
               | Some _ => req
               end in
    let req := match strip_uri_prefix original_uri prefix with
               | Some stripped => set_uri stripped req
               | None => req
               end in
    service req w.
End StripPrefix.

(** ** Route metadata *)

Record RouteMeta := mkRouteMeta { rm_path : string; rm_mask : Z }.

(** [str_eq]: the [const] comparison, byte by byte. *)
Fixpoint str_eq_loop (l r : string) : bool :=
  match l, r with
  | String a l, String b r => if negb (Ascii.eqb a b) then false else str_eq_loop l r
  | _, _ => true
  end.
Definition str_eq (left right : string) : bool :=
  if negb (String.length left =? String.length right)%nat then false
  else str_eq_loop left right.

Definition meta_conflict (a b : RouteMeta) : bool :=
  str_eq (rm_path a) (rm_path b) && negb (Z.land (rm_mask a) (rm_mask b) =? 0)%Z.

(** The two nested loops. *)
Fixpoint route_conflict_count (routes : list RouteMeta) : Z :=
  match routes with
  | [] => 0
  | r :: rest => if existsb (meta_conflict r) rest then 1 else route_conflict_count rest
  end%Z.

(** [assert_no_route_conflicts]: [None] is the panic. *)
Definition assert_no_route_conflicts (routes : list RouteMeta) : option unit :=
  if negb (route_conflict_count routes =? 0)%Z then None else Some tt.

(** ** Lemmas *)

Lemma str_eq_spec l r : str_eq l r = true <-> l = r.
Proof.
  unfold str_eq. split.
  - destruct (Nat.eqb_spec (String.length l) (String.length r)) as [Hlen|]; [|done].
    cbn [negb]. revert r Hlen.
    induction l as [|a l IH]; intros [|b r]; try done. cbn.
    intros [= Hlen]. destruct (Ascii.eqb_spec a b) as [->|]; [|done]. cbn.
    intros Hs. by rewrite (IH r Hlen Hs).
  - intros ->. rewrite Nat.eqb_refl. cbn [negb].
    induction r as [|b r IH]; cbn; [done|]. by rewrite Ascii.eqb_refl.
Qed.

Lemma hex_nibble_range a v : hex_nibble a = Some v -> (0 <= v < 16)%Z.
Proof.
  unfold hex_nibble, in_range. intros Hh.
  repeat case_match; simplify_eq; bool_hyps; lia.
Qed.

Lemma nibbles_byte hi lo :
  (0 <= hi < 16)%Z -> (0 <= lo < 16)%Z ->
  Z.lor (Z.shiftl hi 4) lo = (16 * hi + lo)%Z.
Proof.
  intros Hhi Hlo.
  assert (Z.land (Z.shiftl hi 4) lo = 0)%Z as Hand.
  { apply Z.bits_inj'. intros n Hn. rewrite Z.land_spec, Z.bits_0.
    destruct (Z.ltb_spec n 4); [rewrite Z.shiftl_spec_low by lia; done|].
    rewrite (Z.bits_above_log2 lo n); [apply andb_false_r|lia|].
    destruct (Z.eq_dec lo 0) as [->|]; [cbn; lia|].
    apply Z.log2_lt_pow2; [lia|]. eapply Z.lt_le_trans; [apply Hlo|].
    change 16%Z with (2 ^ 4)%Z. apply Z.pow_le_mono_r; lia. }
  pose proof (Z.add_lor_land (Z.shiftl hi 4) lo) as Hadd. rewrite Hand in Hadd.
  rewrite Z.shiftl_mul_pow2 in * by lia. lia.
Qed.

(** A byte the decoder must not introduce. *)
Definition structural (c : ascii) : bool := kept_escape (byte_val c).

Lemma structural_not_hex c h v : structural c = true -> hex_nibble h = Some v -> Ascii.eqb c h = false.
Proof.
  intros Hc Hh. apply Ascii.eqb_neq. intros ->. revert Hc Hh.
  unfold structural, kept_escape, hex_nibble, in_range.
  intros Hc Hh. repeat (apply orb_true_iff in Hc as [Hc|Hc]); bool_hyps;
    rewrite Hc in Hh; discriminate.
Qed.

(** A structural byte of the output was a literal byte of the input. *)
Lemma decode_loop_structural c s :
  structural c = true -> contains_char c (decode_loop s) = true -> contains_char c s = true.
Proof.
  intros Hc. remember (String.length s) as n eqn:Hn.
  assert (Hle : (String.length s <= n)%nat) by lia. clear Hn.
  revert s Hle; induction n as [|n IH]; intros [|p s1] Hle; cbn in Hle; try done; [lia|].
  cbn [decode_loop].
  assert (Hstep : contains_char c (String p (decode_loop s1)) = true ->
                  contains_char c (String p s1) = true).
  { rewrite !contains_char_cons. intros [->|Hd]%orb_true_iff; [done|].
    rewrite (IH s1); [apply orb_true_r|lia|done]. }
  destruct (Ascii.eqb p "%"); [|exact Hstep].
  destruct s1 as [|h [|l s3]]; [exact Hstep..|].
  destruct (hex_nibble h) as [hi|] eqn:Eh; [|exact Hstep].
  destruct (hex_nibble l) as [lo|] eqn:El; [|exact Hstep].
  cbn in Hle. cbn zeta. destruct (kept_escape _) eqn:Ek.
  - rewrite !contains_char_cons, (structural_not_hex c h hi), (structural_not_hex c l lo) by done.
    intros [->|Hd]%orb_true_iff; [done|]. rewrite (IH s3); [|lia|done].
    by rewrite !orb_true_r.
  - rewrite !contains_char_cons.
    intros [Hd|Hd]%orb_true_iff.
    + exfalso. bool_hyps. subst c. unfold structural in Hc.
      pose proof (hex_nibble_range _ _ Eh). pose proof (hex_nibble_range _ _ El).
      rewrite nibbles_byte in * by done. rewrite byte_val_of_val in Hc by lia. congruence.
    + rewrite (IH s3); [|lia|done]. by rewrite !orb_true_r.
Qed.

Lemma decode_loop_plain s : contains_char "%" s = false -> decode_loop s = s.
Proof.
  induction s as [|a s IH]; [done|]. rewrite contains_char_cons, orb_false_iff.
  intros [Ha Hs]. cbn [decode_loop]. rewrite Ascii.eqb_sym, Ha, IH; done.
Qed.

(** A reference encoder: the bytes [enc] selects become [%XX]. *)
Fixpoint pct_encode (enc : ascii -> bool) (s : string) : string :=
  match s with
  | EmptyString => EmptyString
  | String a s =>
      if enc a
      then String "%" (String (digit_char (byte_val a / 16))
                        (String (digit_char (byte_val a mod 16)) (pct_encode enc s)))
      else String a (pct_encode enc s)
  end.

Lemma hex_nibble_digit d : (0 <= d < 16)%Z -> hex_nibble (digit_char d) = Some d.
Proof.
  intros Hd. assert (exists n, (n < 16)%nat /\ d = Z.of_nat n) as (n & Hn & ->)
    by (exists (Z.to_nat d); lia).
  do 16 (destruct n as [|n]; [done|]). lia.
Qed.

Lemma decode_encode enc s :
  enc "%"%char = true ->
  str_forall (fun a => negb (enc a && structural a)) s = true ->
  decode_loop (pct_encode enc s) = s.
Proof.
  intros Hp. induction s as [|a s IH]; [done|]. cbn [str_forall pct_encode].
  intros Ha. bool_hyps. destruct (enc a) eqn:Ee.
  - cbn [decode_loop]. change (Ascii.eqb "%" "%") with true.
    pose proof (byte_val_range a) as Hr.
    pose proof (Z.mod_pos_bound (byte_val a) 16 ltac:(lia)).
    assert (0 <= byte_val a / 16 < 16)%Z
      by (split; [apply Z.div_pos; lia|apply Z.div_lt_upper_bound; lia]).
    rewrite !hex_nibble_digit by done. cbn zeta. rewrite nibbles_byte by done.
    rewrite <- Z.div_mod by lia. cbn in *. unfold structural in *.
    replace (kept_escape (byte_val a)) with false by congruence.
    rewrite byte_of_val_val, IH by done. done.
  - cbn [decode_loop]. destruct (Ascii.eqb_spec a "%") as [->|]; [congruence|].
    by rewrite IH.
Qed.

(** ** Properties *)

(** [percent_decode] keeps the structure of a path parameter: a slash, a
    backslash, a NUL, an LF or a CR in the decoded value was a literal byte of
    the captured segment, never an escape of it; valid UTF-8 stays valid UTF-8;
    and it inverts every percent-encoding of a UTF-8 text that escapes [%] and
    none of those five bytes. *)
Theorem percent_decode_structure s :
  (forall c, structural c = true ->
     contains_char c (percent_decode s) = true -> contains_char c s = true) /\
  (utf8_valid s = true -> utf8_valid (percent_decode s) = true) /\
  (forall enc, enc "%"%char = true -> utf8_valid s = true ->
     str_forall (fun a => negb (enc a && structural a)) s = true ->
     percent_decode (pct_encode enc s) = s).
Proof.
  split_and!.
  - intros c Hc. unfold percent_decode. repeat case_goal; try done.
    by apply decode_loop_structural.
  - intros Hu. unfold percent_decode. by repeat case_goal.
  - intros enc Hp Hu Hs. pose proof (decode_encode enc s Hp Hs) as Hd.
    unfold percent_decode. destruct (contains_char "%" (pct_encode enc s)) eqn:E; cbn [negb].
    + by rewrite Hd, Hu.
    + by rewrite decode_loop_plain in Hd.
Qed.

(** The path a nested service sees, for a mount prefix other than [/]: the
    prefix is removed only at a segment boundary, the mount point itself
    becoming the root, and nothing is stripped from any other path. *)
Theorem stripped_path_boundary path prefix r :
  prefix <> "/" ->
  stripped_path path prefix = Some r <->
    (path = prefix /\ r = "/") \/
    (exists rest, path = prefix +:+ "/" +:+ rest /\ r = "/" +:+ rest).
Proof.
  intros Hne. unfold stripped_path.
  replace (prefix =? "/")%string with false by (symmetry; by apply String.eqb_neq).
  destruct (starts_with prefix path) eqn:Hs; cbn [orb negb].
  2:{ split; [done|]. intros [[-> _]|(rest & -> & _)].
      - pose proof (starts_with_app prefix "") as Hx. rewrite sapp_nil_r in Hx. congruence.
      - by rewrite starts_with_app in Hs. }
  apply starts_with_spec in Hs as [s ->]. rewrite str_len_app, andb_true_r.
  rewrite (proj2 (str_strip_prefix_spec prefix (prefix +:+ s) s) eq_refl).
  destruct s as [|a s].
  { rewrite sapp_nil_r, String.eqb_refl. cbn [orb].
    split; [intros [= <-]; by left|]. intros [[_ ->]|(rest & Hp & _)]; [done|].
    rewrite <- (sapp_nil_r prefix) in Hp at 1. by apply sapp_inj_l in Hp. }
  replace (prefix +:+ String a s =? prefix)%string with false.
  2:{ symmetry. apply String.eqb_neq. intros Hp.
      rewrite <- (sapp_nil_r prefix) in Hp at 2. by apply sapp_inj_l in Hp. }
  assert (Hrest : forall r, (prefix +:+ String a s = prefix /\ r = "/" \/
    (exists rest, prefix +:+ String a s = prefix +:+ "/" +:+ rest /\ r = "/" +:+ rest))
    <-> (a = "/"%char /\ r = String "/" s)).
  { intros r'. split.
    - intros [[Hp _]|(rest & Hp & ->)].
      + rewrite <- (sapp_nil_r prefix) in Hp at 2. by apply sapp_inj_l in Hp.
      + apply sapp_inj_l in Hp. by injection Hp as -> ->.
    - intros [-> ->]. right. by exists s. }
  rewrite Hrest. cbn [orb].
  destruct ((str_len prefix + str_len (String a s) =? str_len prefix + 1)%Z && _) eqn:E.
  - apply andb_prop in E as [E Hslash]. bool_hyps.
    assert (s = "") as -> by (destruct s; [done|]; unfold str_len in *; cbn in *; lia).
    apply ends_with_char_spec in Hslash as [t Ht].
    assert (a = "/"%char) as ->.
    { clear -Ht. revert t Ht. induction prefix as [|b p IH]; intros [|c t] Ht;
        cbn in Ht; try congruence.
      - destruct t; cbn in Ht; congruence.
      - destruct p; cbn in Ht; congruence.
      - injection Ht as -> Ht. by eapply IH. }
    naive_solver.
  - unfold starts_with. cbn [str_strip_prefix].
    destruct (Ascii.eqb_spec "/" a) as [<-|]; naive_solver.
Qed.

(** The duplicate check of the route macros answers 1 exactly when two of
    the collected routes have the same path and a method in common, and 0
    otherwise. *)
Theorem route_conflict_count_spec routes :
  (route_conflict_count routes = 1%Z <->
     exists i j a b, (i < j)%nat /\ routes !! i = Some a /\ routes !! j = Some b /\
       rm_path a = rm_path b /\ Z.land (rm_mask a) (rm_mask b) <> 0%Z) /\
  (route_conflict_count routes = 0%Z \/ route_conflict_count routes = 1%Z).
Proof.
  assert (Hmc : forall a b, meta_conflict a b = true <->
    rm_path a = rm_path b /\ Z.land (rm_mask a) (rm_mask b) <> 0%Z).
  { intros a b. unfold meta_conflict.
    rewrite andb_true_iff, str_eq_spec, negb_true_iff, Z.eqb_neq. done. }
  induction routes as [|r rest [IH IH2]]; cbn [route_conflict_count].
  - split; [|by left]. split; [done|]. by intros (i & j & a & b & _ & Hi & _).
  - destruct (existsb (meta_conflict r) rest) eqn:E.
    + split; [|by right]. split; [intros _|done].
      apply existsb_elem in E as (b & Hb & Hc). apply list_elem_of_lookup in Hb as [j Hj].
      apply Hmc in Hc. exists 0, (S j), r, b. naive_solver lia.
    + split; [|done]. rewrite IH. split.
      * intros (i & j & a & b & Hij & Hi & Hj & Hc). exists (S i), (S j), a, b.
        naive_solver lia.
      * intros (i & j & a & b & Hij & Hi & Hj & Hc).
        destruct j as [|j]; [lia|]. destruct i as [|i].
        -- simplify_eq/=. rewrite list_find_none_forallb in E.
           specialize (E b (list_elem_of_lookup_2 _ _ _ Hj)).
           rewrite <- Hmc, E in Hc. done.
        -- exists i, j, a, b. naive_solver lia.
Qed.

Lemma stripped_path_boundary_witness :
  stripped_path "/api/users" "/api" = Some "/users" /\ stripped_path "/apis" "/api" = None.
Proof.
  split.
  - apply (stripped_path_boundary "/api/users" "/api" "/users"); [discriminate|].
    right. exists "users". split; reflexivity.
  - destruct (stripped_path "/apis" "/api") as [r|] eqn:E; [|reflexivity]. exfalso.
    apply (stripped_path_boundary "/apis" "/api" r) in E; [|discriminate].
    destruct E as [[E _]|(rest & E & _)]; discriminate E.
Defined.
