(* ===== verification/Router.v ===== *)
(** * The router

    [arvik-router/src/router.rs]: route registration, nesting and merging, the
    state binding, and the service that matches a path and runs the route's
    method router inside its layers.

    The radix trie is the [matchit] crate: the class [Matchit] is its interface
    and [MatchitLaws] its documented behaviour. *)
From S2P Require Import Prelude RustStr HttpCrate Body Http MethodFilter MethodRouter RouterPath.
From stdpp Require Import base list strings sets.
From Stdlib Require Import ZArith Lia Ascii String FunctionalExtensionality.
Open Scope string_scope.
Open Scope list_scope.

(** ** The [matchit] interface *)

Class Matchit : Type := {
  Trie : Type;
  trie_new : Trie;
  (** [insert]: [None] is the conflict error. *)
  trie_insert : Trie -> string -> nat -> option Trie;
  (** [at]: the value of the matching route and its parameters. *)
  trie_at : Trie -> string -> option (nat * list (string * string));
  (** The parameter names of a pattern, in order. *)
  trie_keys : string -> list string }.

(** An empty trie matches nothing; after an insertion a path is matched by the
    new route, with the parameter names of its pattern, or as it was before. *)
Class MatchitLaws `(M : Matchit) : Prop := {
  trie_at_new path : trie_at trie_new path = None;
  trie_at_insert t p v t' path v' ps :
    trie_insert t p v = Some t' -> trie_at t' path = Some (v', ps) ->
    (v' = v /\ map fst ps = trie_keys p) \/ trie_at t path = Some (v', ps) }.

Section Model.
Context `{HttpCrate} `{Matchit} {W : Type}.

(** [struct RouteEntry<S>]; the [OnceLock] of interned names is an option. *)
Record RouteEntry (S : Type) := mkEntry {
  re_pattern : string;
  re_method_router : MethodRouter W S;
  re_param_keys : option (list string) }.

(** [struct Router<S>]. *)
Record Router (S : Type) := mkRouter {
  r_trie : Trie;
  r_routes : list (RouteEntry S);
  r_fallback : option (Handler S W);
  r_layers : list (LayerFn W);
  r_route_layers : list (LayerFn W) }.
End Model.

Arguments RouteEntry {_} W S.
Arguments mkEntry {_ W S}.
Arguments re_pattern {_ W S}.
Arguments re_method_router {_ W S}.
Arguments re_param_keys {_ W S}.
Arguments Router {_ _} W S.
Arguments mkRouter {_ _ W S}.
Arguments r_trie {_ _ W S}.
Arguments r_routes {_ _ W S}.
Arguments r_fallback {_ _ W S}.
Arguments r_layers {_ _ W S}.
Arguments r_route_layers {_ _ W S}.

Section Operations.
Context `{HttpCrate} `{Matchit} {W : Type}.

Definition entry_new {S} (path : string) (mr : MethodRouter W S) : RouteEntry W S :=
  mkEntry path mr None.

Definition router_new {S} : Router W S := mkRouter trie_new [] None [] [].

(** [route]: [None] is the panic on a conflict. *)
Definition route {S} (path : string) (mr : MethodRouter W S) (self : Router W S)
  : option (Router W S) :=
  let idx := List.length (r_routes self) in
  match trie_insert (r_trie self) path idx with
  | None => None
  | Some trie =>
      Some (mkRouter trie (r_routes self ++ [entry_new path mr]) (r_fallback self)
              (r_layers self) (r_route_layers self))
  end.

(** The search and in-place merge of [route_collected]. *)
Fixpoint merge_existing {S} (path : string) (mr : MethodRouter W S)
    (routes : list (RouteEntry W S)) : option (option (list (RouteEntry W S))) :=
  match routes with
  | [] => None
  | e :: rest =>
      if String.eqb (re_pattern e) path
      then Some (option_map (fun m => mkEntry (re_pattern e) m (re_param_keys e) :: rest)
                   (mr_merge (re_method_router e) mr))
      else option_map (option_map (cons e)) (merge_existing path mr rest)
  end.

Definition route_collected {S} (path : string) (mr : MethodRouter W S) (self : Router W S)
  : option (Router W S) :=
  match merge_existing path mr (r_routes self) with
  | Some (Some routes) =>
      Some (mkRouter (r_trie self) routes (r_fallback self) (r_layers self)
              (r_route_layers self))
  | Some None => None
  | None => route path mr self
  end.

(** One step of the loops of [nest] and [merge]. *)
Definition add_entry {S} (full : string) (entry : RouteEntry W S) (self : Router W S)
  : option (Router W S) :=
  let idx := List.length (r_routes self) in
  match trie_insert (r_trie self) full idx with
  | None => None
  | Some trie =>
      Some (mkRouter trie (r_routes self ++ [entry]) (r_fallback self)
              (r_layers self) (r_route_layers self))
  end.

Definition sub_layers {S} (other : Router W S) : list (LayerFn W) :=
  r_route_layers other ++ r_layers other.

Definition nested_path (prefix path : string) : string :=
  if String.eqb path "/" then prefix +:+ "/" else prefix +:+ path.

Fixpoint nest_loop {S} (prefix : string) (ls : list (LayerFn W))
    (entries : list (RouteEntry W S)) (self : Router W S) : option (Router W S) :=
  match entries with
  | [] => Some self
  | e :: rest =>
      let full := nested_path prefix (re_pattern e) in
      match add_entry full (entry_new full (mr_extend_layers ls (re_method_router e))) self with
      | None => None
      | Some self => nest_loop prefix ls rest self
      end
  end.

(** [nest]: panics when the sub-router has a fallback. *)
Definition nest {S} (prefix : string) (other self : Router W S) : option (Router W S) :=
  let prefix := trim_end_matches "/" prefix in
  match r_fallback other with
  | Some _ => None
  | None => nest_loop prefix (sub_layers other) (r_routes other) self
  end.

Fixpoint merge_loop {S} (ls : list (LayerFn W))
    (entries : list (RouteEntry W S)) (self : Router W S) : option (Router W S) :=
  match entries with
  | [] => Some self
  | e :: rest =>
      let e' := mkEntry (re_pattern e) (mr_extend_layers ls (re_method_router e))
                  (re_param_keys e) in
      match add_entry (re_pattern e) e' self with
      | None => None
      | Some self => merge_loop ls rest self
      end
  end.

Definition merge {S} (other self : Router W S) : option (Router W S) :=
  match merge_loop (sub_layers other) (r_routes other) self with
  | None => None
  | Some self =>
      Some (mkRouter (r_trie self) (r_routes self)
              (match r_fallback self with None => r_fallback other | f => f end)
              (r_layers self) (r_route_layers self))
  end.

Definition fallback {S} (h : Handler S W) (self : Router W S) : Router W S :=
  mkRouter (r_trie self) (r_routes self) (Some h) (r_layers self) (r_route_layers self).

(** [ServiceHandler::call]: the state is dropped. *)
Definition service_handler {S} (service : Service W) : Handler S W :=
  fun req _ w => service req w.

Definition route_service {S} (path : string) (service : Service W) (self : Router W S)
  : option (Router W S) :=
  route path (any (service_handler service)) self.

Definition nest_service {S} (prefix : string) (service : Service W) (self : Router W S)
  : option (Router W S) :=
  let prefix := normalize_service_prefix prefix in
  let service := strip_prefix_service prefix service in
  router ← route_service prefix service self;
  router ← (if negb (String.eqb prefix "/")
            then route_service (prefix +:+ "/") service router
            else Some router);
  let path := if String.eqb prefix "/" then "/{*__rest}" else prefix +:+ "/{*__rest}" in
  route path (any (service_handler service)) router.

Definition layer {S} (l : LayerFn W) (self : Router W S) : Router W S :=
  mkRouter (r_trie self) (r_routes self) (r_fallback self) (r_layers self ++ [l])
    (r_route_layers self).

Definition route_layer {S} (l : LayerFn W) (self : Router W S) : Router W S :=
  mkRouter (r_trie self) (r_routes self) (r_fallback self) (r_layers self)
    (r_route_layers self ++ [l]).

Definition with_state {S} (state : S) (self : Router W S) : Router W unit :=
  mkRouter (r_trie self)
    (map (fun e => mkEntry (re_pattern e) (mr_with_state state (re_method_router e))
                     (re_param_keys e)) (r_routes self))
    (option_map (fun f => state_bound f state) (r_fallback self))
    (r_layers self) (r_route_layers self).

(** *** Dispatch *)

Definition not_found : Response :=
  rb_text "Not Found"
    (rb_header_str CONTENT_TYPE TEXT_PLAIN_UTF8 (rb_status 404 rb_new)).

(** The parameters of a match, under the interned names: [None] is the panic
    of [keys[idx]] past the end. *)
Fixpoint push_params (keys : list string) (idx : nat) (ps : list (string * string))
    (pp : PathParams) : option PathParams :=
  match ps with
  | [] => Some pp
  | (_, v) :: ps =>
      match keys !! idx with
      | None => None
      | Some k => push_params keys (Datatypes.S idx) ps (pp_push pp k (percent_decode v))
      end
  end.

(** The head of a matched dispatch: the request with its extensions, and the
    entry with its names interned. *)
Definition enter_route {S} (e : RouteEntry W S) (ps : list (string * string)) (req : Request)
  : option (Request * RouteEntry W S) :=
  let pattern := re_pattern e in
  match ps with
  | [] =>
      Some (set_req_ext (ext_with_matched_path pattern (req_ext req)) req, e)
  | _ =>
      let keys := match re_param_keys e with Some ks => ks | None => map fst ps end in
      match push_params keys 0 ps pp_new with
      | None => None
      | Some pp =>
          let req := set_req_ext (ext_with_path_params pp (req_ext req)) req in
          Some (set_req_ext (ext_with_matched_path pattern (req_ext req)) req,
                mkEntry pattern (re_method_router e) (Some keys))
      end
  end.

(** [struct RouterInner]. *)
Record RouterInner := mkInner {
  ri_trie : Trie;
  ri_routes : list (RouteEntry W unit);
  ri_fallback : option (Handler unit W);
  ri_layered : list (option (Service W)) }.

(** [MethodRouterService]: each call runs a clone. *)
Definition method_router_service (mr : MethodRouter W unit) : Service W :=
  fun req w => fst (mr_call (mr_clone mr) req tt w).

(** [into_service]: the inner part. *)
Definition into_inner (self : Router W unit) : RouterInner :=
  mkInner (r_trie self) (r_routes self) (r_fallback self)
    (map (fun e =>
            match r_route_layers self with
            | [] => None
            | ls => Some (apply_layers (method_router_service (mr_clone (re_method_router e))) ls)
            end) (r_routes self)).

(** [RouterInner::route]: the leaf to run, the request to run it on, the
    pattern, and the routes with the names interned; [None] is a panic. *)
Definition inner_route (self : RouterInner) (req : Request)
  : option (result (Service W * Request * string * list (RouteEntry W unit)) Request) :=
  match trie_at (ri_trie self) (uri_path (req_uri req)) with
  | None => Some (Err req)
  | Some (idx, ps) =>
      entry ← ri_routes self !! idx;
      layered ← ri_layered self !! idx;
      '(req, entry') ← enter_route entry ps req;
      let leaf := match layered with
                  | Some svc => oneshot svc
                  | None => method_router_service (re_method_router entry)
                  end in
      Some (Ok (leaf, req, re_pattern entry, <[idx := entry']> (ri_routes self)))
  end.

(** [RouterInner::dispatch]. *)
Definition inner_dispatch (self : RouterInner) (req : Request) (w : W)
  : option (Response * W * RouterInner) :=
  r ← inner_route self req;
  match r with
  | Ok (leaf, req, pattern, routes) =>
      let '(response, w) := leaf req w in
      Some (set_matched_path pattern response, w,
            mkInner (ri_trie self) routes (ri_fallback self) (ri_layered self))
  | Err req =>
      match ri_fallback self with
      | Some fb =>
          let '(response, w) := fb req tt w in
          Some (set_matched_path "__fallback" response, w, self)
      | None => Some (set_matched_path "__unmatched" not_found, w, self)
      end
  end.

(** [RouterService]: [dispatch] never panics on a built router
    ([inner_dispatch_sim]), so the last branch is not taken. *)
Definition router_service (inner : RouterInner) : Service W :=
  fun req w => match inner_dispatch inner req w with
               | Some (response, w, _) => (response, w)
               | None => (internal_error_response, w)
               end.

Definition into_service (self : Router W unit) : Service W :=
  apply_layers (router_service (into_inner self)) (r_layers self).

(** [Router::call], the direct path without router-level layers: the response,
    the world, and the router with the matched route's caches. *)
Definition router_call {S} (self : Router W S) (req : Request) (state : S) (w : W)
  : option (Response * W * Router W S) :=
  match trie_at (r_trie self) (uri_path (req_uri req)) with
  | Some (idx, ps) =>
      entry ← r_routes self !! idx;
      '(req, entry') ← enter_route entry ps req;
      let '(response, w, mr) := mr_call (re_method_router entry) req state w in
      let entry' := mkEntry (re_pattern entry') mr (re_param_keys entry') in
      Some (set_matched_path (re_pattern entry) response, w,
            mkRouter (r_trie self) (<[idx := entry']> (r_routes self)) (r_fallback self)
              (r_layers self) (r_route_layers self))
  | None =>
      match r_fallback self with
      | Some fb =>
          let '(response, w) := fb req state w in
          Some (set_matched_path "__fallback" response, w, self)
      | None => Some (set_matched_path "__unmatched" not_found, w, self)
      end
  end.
End Operations.

(** ** Well-formed routers *)

Section WF.
Context `{HttpCrate} `{ML : MatchitLaws} {W : Type}.

Definition entry_wf {S} (e : RouteEntry W S) : Prop :=
  mr_wf (re_method_router e) /\
  (re_param_keys e = None \/ re_param_keys e = Some (trie_keys (re_pattern e))).

(** Every value the trie can answer is the index of a route, whose pattern
    names the parameters of the match. *)
Record router_wf {S} (r : Router W S) : Prop := {
  wf_trie path idx ps : trie_at (r_trie r) path = Some (idx, ps) ->
    exists e, r_routes r !! idx = Some e /\ map fst ps = trie_keys (re_pattern e);
  wf_entries e : e ∈ r_routes r -> entry_wf e }.

Lemma entry_new_wf {S} path (mr : MethodRouter W S) : mr_wf mr -> entry_wf (entry_new path mr).
Proof. intros. split; [done|by left]. Qed.

Lemma router_new_wf {S} : router_wf (router_new (W:=W) (S:=S)).
Proof. split; [intros path idx ps; cbn; by rewrite trie_at_new|set_solver]. Qed.

(** Registering an entry under its own pattern. *)
Lemma add_entry_wf {S} full e (r r' : Router W S) :
  router_wf r -> entry_wf e -> re_pattern e = full -> add_entry full e r = Some r' ->
  router_wf r' /\ r_routes r' = r_routes r ++ [e] /\ r_layers r' = r_layers r /\
  r_route_layers r' = r_route_layers r /\ r_fallback r' = r_fallback r.
Proof.
  intros [Ht He] Hwf <-. unfold add_entry. destruct (trie_insert _ _ _) as [t|] eqn:Ei; [|done].
  intros [= <-]. cbn. split_and!; [|done..]. split; cbn.
  - intros path idx ps Hat.
    destruct (trie_at_insert _ _ _ _ _ _ _ Ei Hat) as [[-> Hk]|Hold].
    + exists e. by rewrite list_lookup_middle.
    + destruct (Ht _ _ _ Hold) as (e' & Hl & Hk). exists e'.
      by rewrite lookup_app_l by (by eapply lookup_lt_Some).
  - intros e' [Hin|Hin]%elem_of_app; [by apply He|]. by apply list_elem_of_singleton in Hin as ->.
Qed.

Lemma route_wf {S} path mr (r r' : Router W S) :
  router_wf r -> mr_wf mr -> route path mr r = Some r' -> router_wf r'.
Proof.
  intros Hr Hm Hroute.
  eapply (add_entry_wf path (entry_new path mr)); [done|by apply entry_new_wf|done|].
  exact Hroute.
Qed.

(** The in-place merge keeps every index, pattern and name cache. *)
Lemma merge_existing_spec {S} path mr (routes routes' : list (RouteEntry W S)) :
  mr_wf mr -> merge_existing path mr routes = Some (Some routes') ->
  Forall2 (fun e e' => re_pattern e' = re_pattern e /\ (entry_wf e -> entry_wf e'))
    routes routes'.
Proof.
  intros Hm. revert routes'; induction routes as [|e rest IH]; intros routes'; [done|].
  cbn [merge_existing]. destruct (String.eqb _ _).
  - destruct (mr_merge (re_method_router e) mr) as [m|] eqn:Em; cbn; [|done]. intros [= <-].
    constructor; [|clear; induction rest as [|x l IHl]; [constructor|constructor; [auto|exact IHl]]].
    split; [done|]. intros [Hw Hk]. split; [by apply (wf_merge _ _ _ Hw Hm Em)|done].
  - destruct (merge_existing path mr rest) as [[rest'|]|]; cbn; [|done..]. intros [= <-].
    constructor; [naive_solver|by apply IH].
Qed.

Lemma route_collected_wf {S} path mr (r r' : Router W S) :
  router_wf r -> mr_wf mr -> route_collected path mr r = Some r' -> router_wf r'.
Proof.
  intros [Ht He] Hm. unfold route_collected.
  destruct (merge_existing path mr (r_routes r)) as [[routes|]|] eqn:E; [|done|].
  - intros [= <-]. pose proof (merge_existing_spec _ _ _ _ Hm E) as Hf. split; cbn.
    + intros p idx ps Hat. destruct (Ht _ _ _ Hat) as (e & Hl & Hk).
      destruct (Forall2_lookup_l _ _ _ _ _ Hf Hl) as (e' & Hl' & Hp & _).
      exists e'. by rewrite Hp.
    + intros e' [i Hi]%list_elem_of_lookup.
      destruct (Forall2_lookup_r _ _ _ _ _ Hf Hi) as (e & Hl & _ & Hw).
      apply Hw, He. by eapply list_elem_of_lookup_2.
  - intros Hr. by eapply route_wf.
Qed.

Lemma nest_loop_spec {S} prefix ls es (r r' : Router W S) :
  router_wf r -> (forall e, e ∈ es -> entry_wf e) -> nest_loop prefix ls es r = Some r' ->
  router_wf r' /\
  r_routes r' = r_routes r ++
    map (fun e => entry_new (nested_path prefix (re_pattern e))
                    (mr_extend_layers ls (re_method_router e))) es /\
  r_layers r' = r_layers r /\ r_route_layers r' = r_route_layers r /\
  r_fallback r' = r_fallback r.
Proof.
  revert r; induction es as [|e es IH]; cbn [nest_loop map]; intros r Hr Hes Hn.
  - injection Hn as <-. by rewrite app_nil_r.
  - destruct (add_entry _ _ _) as [r1|] eqn:Ea; [|done].
    destruct (Hes e ltac:(set_solver)) as [Hmr _].
    destruct (add_entry_wf _ (entry_new _ (mr_extend_layers ls (re_method_router e))) _ _
                Hr (entry_new_wf _ _ (wf_extend_layers _ _ Hmr)) eq_refl Ea)
      as (Hr1 & Hro & Hl & Hrl & Hf).
    destruct (IH r1 Hr1 ltac:(set_solver) Hn) as (? & -> & -> & -> & ->).
    by rewrite Hro, <- app_assoc.
Qed.

Lemma merge_loop_spec {S} ls es (r r' : Router W S) :
  router_wf r -> (forall e, e ∈ es -> entry_wf e) -> merge_loop ls es r = Some r' ->
  router_wf r' /\
  r_routes r' = r_routes r ++
    map (fun e => mkEntry (re_pattern e) (mr_extend_layers ls (re_method_router e))
                    (re_param_keys e)) es /\
  r_layers r' = r_layers r /\ r_route_layers r' = r_route_layers r /\
  r_fallback r' = r_fallback r.
Proof.
  revert r; induction es as [|e es IH]; cbn [merge_loop map]; intros r Hr Hes Hn.
  - injection Hn as <-. by rewrite app_nil_r.
  - destruct (add_entry _ _ _) as [r1|] eqn:Ea; [|done].
    destruct (Hes e ltac:(set_solver)) as [Hmr Hk].
    destruct (add_entry_wf _ (mkEntry (re_pattern e) (mr_extend_layers ls (re_method_router e))
                               (re_param_keys e)) _ _
                Hr (conj (wf_extend_layers _ _ Hmr) Hk) eq_refl Ea)
      as (Hr1 & Hro & Hl & Hrl & Hf).
    destruct (IH r1 Hr1 ltac:(set_solver) Hn) as (? & -> & -> & -> & ->).
    by rewrite Hro, <- app_assoc.
Qed.

(** Replacing the parts the invariant does not read. *)
Lemma router_wf_parts {S} (r : Router W S) fb ls rls :
  router_wf r -> router_wf (mkRouter (r_trie r) (r_routes r) fb ls rls).
Proof. intros [Ht He]. by split. Qed.

Lemma with_state_wf {S} (st : S) (r : Router W S) : router_wf r -> router_wf (with_state st r).
Proof.
  intros [Ht He]. split; cbn.
  - intros path idx ps Hat. destruct (Ht _ _ _ Hat) as (e & Hl & Hk).
    eexists. by rewrite list_lookup_fmap, Hl.
  - intros e' (e & -> & Hin)%list_elem_of_fmap. destruct (He e Hin) as [Hm Hk].
    split; [by apply wf_with_state|done].
Qed.

Lemma any_wf {S} (h : Handler S W) : mr_wf (any h).
Proof. apply wf_on, wf_new. Qed.
End WF.

#[export] Hint Resolve router_new_wf any_wf with_state_wf router_wf_parts : arvik.

(** The routers an application can build. *)
Inductive built `{HttpCrate} `{Matchit} {W S : Type} : Router W S -> Prop :=
| built_new : built router_new
| built_route path mr r r' : built r -> mr_wf mr -> route path mr r = Some r' -> built r'
| built_route_collected path mr r r' :
    built r -> mr_wf mr -> route_collected path mr r = Some r' -> built r'
| built_nest prefix other r r' : built other -> built r -> nest prefix other r = Some r' -> built r'
| built_merge other r r' : built other -> built r -> merge other r = Some r' -> built r'
| built_fallback h r : built r -> built (fallback h r)
| built_route_service path svc r r' : built r -> route_service path svc r = Some r' -> built r'
| built_nest_service prefix svc r r' : built r -> nest_service prefix svc r = Some r' -> built r'
| built_layer l r : built r -> built (layer l r)
| built_route_layer l r : built r -> built (route_layer l r)
| built_called req st w out r r' : built r -> router_call r req st w = Some (out, r') -> built r'.

(** ** The specification of dispatch *)

Section Spec.
Context `{HttpCrate} `{ML : MatchitLaws} {W : Type}.

(** The request the matched route sees. *)
Definition entered (pattern : string) (ps : list (string * string)) (req : Request) : Request :=
  let ext := match ps with
             | [] => req_ext req
             | _ => ext_with_path_params
                      (map (fun kv => (fst kv, percent_decode (snd kv))) ps) (req_ext req)
             end in
  set_req_ext (ext_with_matched_path pattern ext) req.

(** What [into_service] puts inside the router-level layers. *)
Definition router_core (r : Router W unit) : Service W := fun req w =>
  match trie_at (r_trie r) (uri_path (req_uri req)) with
  | Some (idx, ps) =>
      match r_routes r !! idx with
      | Some e =>
          let '(res, w) := apply_layers (mr_spec (re_method_router e) tt) (r_route_layers r)
                             (entered (re_pattern e) ps req) w in
          (set_matched_path (re_pattern e) res, w)
      | None => (internal_error_response, w)
      end
  | None =>
      match r_fallback r with
      | Some fb => let '(res, w) := fb req tt w in (set_matched_path "__fallback" res, w)
      | None => (set_matched_path "__unmatched" not_found, w)
      end
  end.

(** A snapshot of the shared [RouterInner] a router is served by: the same
    router, some of its parameter names already interned. *)
Record inner_ok (r : Router W unit) (inner : RouterInner) : Prop := {
  io_trie : ri_trie inner = r_trie r;
  io_fallback : ri_fallback inner = r_fallback r;
  io_layered : ri_layered inner = ri_layered (into_inner r);
  io_routes : Forall2 (fun e e' => re_pattern e' = re_pattern e /\
    re_method_router e' = re_method_router e /\ entry_wf e') (r_routes r) (ri_routes inner) }.

Lemma push_params_spec keys idx ps pp :
  drop idx keys = map fst ps ->
  push_params keys idx ps pp =
    Some (pp ++ map (fun kv => (fst kv, percent_decode (snd kv))) ps).
Proof.
  revert idx pp; induction ps as [|[k v] ps IH]; intros idx pp Hd; cbn [push_params map].
  - by rewrite app_nil_r.
  - assert (keys !! idx = Some k) as Hk.
    { by rewrite <- (Nat.add_0_r idx), <- lookup_drop, Hd. }
    rewrite Hk, IH; unfold pp_push; [by rewrite <- app_assoc|].
    erewrite drop_S in Hd by done. by injection Hd.
Qed.

Lemma enter_route_spec {S} (e : RouteEntry W S) ps req :
  entry_wf e -> map fst ps = trie_keys (re_pattern e) ->
  exists e', enter_route e ps req = Some (entered (re_pattern e) ps req, e') /\
    re_pattern e' = re_pattern e /\ re_method_router e' = re_method_router e /\ entry_wf e'.
Proof.
  intros [Hm Hk] Hps. unfold enter_route, entered.
  destruct ps as [|p ps]; [by exists e|].
  assert ((match re_param_keys e with Some ks => ks | None => map fst (p :: ps) end)
          = map fst (p :: ps)) as ->.
  { destruct Hk as [->| ->]; congruence. }
  rewrite push_params_spec by done. unfold pp_new. cbn [app].
  eexists. split; [done|]. cbn. split_and!; [done..|]. split; cbn; [done|right; by rewrite <- Hps].
Qed.

Lemma method_router_service_spec (mr : MethodRouter W unit) :
  mr_wf mr -> method_router_service mr = mr_spec mr tt.
Proof.
  intros Hm. extensionality req. extensionality w. unfold method_router_service.
  pose proof (mr_call_spec (mr_clone mr) req tt w (wf_clone _ Hm)) as Hc.
  destruct (mr_call _ _ _ _) as [out mr']. by destruct Hc as (-> & _).
Qed.

Lemma into_inner_ok r : router_wf r -> inner_ok r (into_inner r).
Proof.
  intros [_ He]. split; [done..|]. cbn.
  assert (Hall : forall e, e ∈ r_routes r -> entry_wf e) by done.
  clear He. induction (r_routes r); constructor; [|set_solver].
  split_and!; [done..|]. set_solver.
Qed.

(** Simulation: from any snapshot, a dispatch does not panic, answers what the
    specification answers and leaves a snapshot. *)
Lemma inner_dispatch_sim r inner req w :
  router_wf r -> inner_ok r inner ->
  exists inner', inner_dispatch inner req w = Some (router_core r req w, inner') /\
    inner_ok r inner'.
Proof.
  intros [Ht He] [Itr Ifb Ila Iro]. unfold inner_dispatch, inner_route, router_core.
  rewrite Itr, Ifb. destruct (trie_at _ _) as [[idx ps]|] eqn:Eat; cbn.
  2:{ exists inner. split; [|by split].
      destruct (r_fallback r) as [fb|]; [|done]. by destruct (fb req tt w). }
  destruct (Ht _ _ _ Eat) as (e & Hl & Hk). rewrite Hl.
  destruct (Forall2_lookup_l _ _ _ _ _ Iro Hl) as (e1 & Hl1 & Hp & Hm & Hw).
  rewrite Hl1, Ila. cbn. rewrite list_lookup_fmap, Hl. cbn.
  destruct (enter_route_spec e1 ps req Hw) as (e2 & -> & Hp2 & Hm2 & Hw2);
    [by rewrite Hp|].
  cbn. rewrite Hp, Hm.
  assert (Hwe : mr_wf (re_method_router e)) by (rewrite <- Hm; apply Hw).
  exists (mkInner (r_trie r) (<[idx:=e2]> (ri_routes inner)) (r_fallback r)
            (ri_layered (into_inner r))). split.
  - cbn. destruct (r_route_layers r) as [|l ls] eqn:El; cbn.
    + rewrite method_router_service_spec by done. unfold apply_layers. cbn.
      by destruct (mr_spec _ _ _ _).
    + unfold oneshot. rewrite (method_router_service_spec (mr_clone _)) by by apply wf_clone.
      change (mr_spec (mr_clone (re_method_router e)) tt) with (mr_spec (re_method_router e) tt).
      by destruct (apply_layers _ _ _ _).
  - split; cbn; [done..|].
    rewrite <- (list_insert_id (r_routes r) idx e) by done.
    apply Forall2_insert; [done|]. by rewrite Hp2, Hm2, Hp, Hm.
Qed.

Lemma into_service_core r :
  router_wf r -> into_service r = apply_layers (router_core r) (r_layers r).
Proof.
  intros Hr. unfold into_service. f_equal. extensionality req. extensionality w.
  unfold router_service.
  destruct (inner_dispatch_sim r (into_inner r) req w Hr (into_inner_ok r Hr)) as (i & -> & _).
  by destruct (router_core r req w).
Qed.

(** [with_state] gives the handlers the state. *)
Lemma mr_spec_with_state {S} (st : S) (mr : MethodRouter W S) :
  mr_spec (mr_with_state st mr) tt = mr_spec mr st.
Proof.
  extensionality req. extensionality w. unfold mr_spec, effective_method, has_methodb. cbn.
  rewrite existsb_map. cbn. 
  match goal with |- context [if ?b then GET else req_method req] =>
    generalize (if b then GET else req_method req) end. intros m.
  induction (mr_handlers mr) as [|[f h] hs IH]; cbn; [done|].
  by destruct (MethodFilter.matches f m).
Qed.

(** The specification of the direct path: the routes alone, with the state. *)
Definition call_core {S} (r : Router W S) (st : S) : Service W :=
  router_core (mkRouter (r_trie r) (r_routes (with_state st r))
                 (r_fallback (with_state st r)) [] []).

(** Entries that answer alike under every state make routers that do. *)
Lemma call_core_insert {S} (r : Router W S) idx e e' st :
  r_routes r !! idx = Some e -> re_pattern e' = re_pattern e ->
  mr_spec (re_method_router e') st = mr_spec (re_method_router e) st ->
  call_core (mkRouter (r_trie r) (<[idx := e']> (r_routes r)) (r_fallback r) (r_layers r)
               (r_route_layers r)) st = call_core r st.
Proof.
  intros Hl Hp Hm. extensionality req. extensionality w. unfold call_core, router_core. cbn.
  destruct (trie_at _ _) as [[j ps]|]; [|done]. rewrite !list_lookup_fmap.
  destruct (decide (j = idx)) as [->|Hne].
  - rewrite list_lookup_insert_eq by (by eapply lookup_lt_Some). rewrite Hl. cbn.
    by rewrite Hp, !mr_spec_with_state, Hm.
  - by rewrite list_lookup_insert_ne.
Qed.

Lemma router_call_spec {S} (r : Router W S) (st : S) req w :
  router_wf r ->
  exists r', router_call r req st w = Some (call_core r st req w, r') /\ router_wf r' /\
    forall st', call_core r' st' = call_core r st'.
Proof.
  intros Hr. pose proof Hr as [Ht He]. unfold router_call, call_core at 1, router_core. cbn.
  destruct (trie_at _ _) as [[idx ps]|] eqn:E.
  2:{ exists r. split; [|done]. destruct (r_fallback r) as [fb|]; cbn; [|done].
      unfold state_bound. by destruct (fb req st w). }
  destruct (Ht _ _ _ E) as (e & Hl & Hk). rewrite list_lookup_fmap, Hl. cbn.
  pose proof (He e (list_elem_of_lookup_2 _ _ _ Hl)) as Hw.
  destruct (enter_route_spec e ps req Hw Hk) as (e' & -> & Hp & _ & Hw'). cbn.
  unfold apply_layers. cbn. rewrite mr_spec_with_state.
  pose proof (mr_call_spec (re_method_router e) (entered (re_pattern e) ps req) st w
                (proj1 Hw)) as Hc.
  pose proof (mr_call_same (re_method_router e) (entered (re_pattern e) ps req) st w) as Hs.
  destruct (mr_call _ _ _ _) as [out mr']. destruct Hc as (-> & Hmr & _). cbn in Hs.
  destruct (mr_spec _ _ _ _) as [res w']. eexists. split; [done|]. split.
  - split; cbn.
    + intros path j ps' Hat. destruct (Ht _ _ _ Hat) as (e1 & Hl1 & Hk1).
      destruct (decide (j = idx)) as [->|Hne].
      * rewrite list_lookup_insert_eq by (by eapply lookup_lt_Some).
        eexists. split; [done|]. cbn. rewrite Hp. congruence.
      * rewrite list_lookup_insert_ne by done. by exists e1.
    + intros e1 [j Hj]%list_elem_of_lookup.
      apply list_lookup_insert_Some in Hj as [(<- & <- & _)|[_ Hj]];
        [split; [exact Hmr|apply Hw']|by eapply He, list_elem_of_lookup_2].
  - intros st'. by eapply call_core_insert.
Qed.

Lemma built_wf {S} (r : Router W S) : built r -> router_wf r.
Proof.
  induction 1 as [|path mr r r' _ IH Hm Hr|path mr r r' _ IH Hm Hr|pre other r r' _ IHo _ IH Hn
    |other r r' _ IHo _ IH Hn|h r _ IH|path svc r r' _ IH Hr|pre svc r r' _ IH Hn|l r _ IH|l r _ IH
    |req st w out r r' _ IH Hc].
  - apply router_new_wf.
  - by eapply route_wf.
  - by eapply route_collected_wf.
  - unfold nest in Hn. destruct (r_fallback other); [done|].
    by destruct (nest_loop_spec _ _ _ _ _ IH (wf_entries other IHo) Hn).
  - unfold merge in Hn. destruct (merge_loop _ _ _) as [r1|] eqn:E; [|done].
    injection Hn as <-. apply router_wf_parts.
    by destruct (merge_loop_spec _ _ _ _ IH (wf_entries other IHo) E).
  - by apply router_wf_parts.
  - eapply route_wf; [done|apply any_wf|exact Hr].
  - unfold nest_service in Hn.
    apply bind_Some in Hn as (r1 & H1 & Hn). apply bind_Some in Hn as (r2 & H2 & Hn).
    assert (router_wf r1) by (eapply route_wf; [done|apply any_wf|exact H1]).
    assert (router_wf r2).
    { destruct (negb _); [eapply route_wf; [done|apply any_wf|exact H2]|by simplify_eq]. }
    eapply route_wf; [done|apply any_wf|exact Hn].
  - by apply router_wf_parts.
  - by apply router_wf_parts.
  - destruct (router_call_spec r st req w IH) as (r1 & Hc1 & Hwf & _). congruence.
Qed.

(** *** Layers and nesting *)

(** Without a handler no layer runs, however many are added. *)
Lemma mr_spec_extend_none {S} (mr : MethodRouter W S) ls st req w :
  has_methodb mr (effective_method mr (req_method req)) = false ->
  mr_spec (mr_extend_layers ls mr) st req w = (method_not_allowed (mr_allow mr), w).
Proof.
  intros Hh. unfold mr_spec. destruct (List.find _ _) as [[f h]|] eqn:Ef; [|by destruct ls].
  exfalso. apply List.find_some in Ef as [Hin Hm].
  unfold has_methodb in Hh. rewrite list_find_none_forallb in Hh.
  destruct ls; (eapply eq_true_false_abs; [exact Hm|apply (Hh (f, h)), list_elem_of_In; exact Hin]).
Qed.

(** A handler's method router with more layers answers from outside them. *)
Lemma mr_spec_extend {S} (mr : MethodRouter W S) ls st req w :
  has_methodb mr (effective_method mr (req_method req)) = true ->
  exists h, mr_spec mr st req w = apply_layers (handler_service h st) (mr_layers mr) req w /\
    mr_spec (mr_extend_layers ls mr) st req w =
      apply_layers (apply_layers (handler_service h st) (mr_layers mr)) ls req w.
Proof.
  intros Hh. unfold mr_spec, effective_method, has_methodb in *.
  assert (Hex : exists fh, List.find (fun fh => MethodFilter.matches (fst fh)
      (if method_eqb (req_method req) HEAD && negb (existsb (fun fh =>
         MethodFilter.matches (fst fh) HEAD) (mr_handlers mr)) then GET else req_method req))
      (mr_handlers mr) = Some fh).
  { destruct (List.find _ _) as [fh|] eqn:Ef; [by eexists|].
    apply existsb_elem in Hh as (fh & Hin & Hm).
    rewrite (List.find_none _ _ Ef fh) in Hm; [done|by apply list_elem_of_In]. }
  destruct Hex as ([f h] & Hf). exists h.
  destruct ls as [|l ls]; cbn; rewrite Hf; [done|].
  split; [done|]. by rewrite <- apply_layers_app.
Qed.
End Spec.

(** ** A concrete trie

    Patterns in registration order, matched segment by segment; a pattern is a
    conflict when it is registered twice. *)
Module ListMatchit.
Inductive seg := Lit (s : string) | Param (k : string) | Rest (k : string).

(** [{k}], [{*k}] or a literal. *)
Definition parse_seg (s : string) : seg :=
  match s with
  | String "{" (String "*" t) => Rest (trim_end_matches "}" t)
  | String "{" t => Param (trim_end_matches "}" t)
  | _ => Lit s
  end.

Definition segs (p : string) : list seg := map parse_seg (str_split "/" p).

Fixpoint keys (ss : list seg) : list string :=
  match ss with
  | [] => []
  | Lit _ :: ss => keys ss
  | Param k :: ss => k :: keys ss
  | Rest k :: _ => [k]
  end.

Fixpoint match_segs (ss : list seg) (ws : list string) : option (list (string * string)) :=
  match ss, ws with
  | [], [] => Some []
  | Lit s :: ss, w :: ws => if String.eqb s w then match_segs ss ws else None
  | Param k :: ss, w :: ws =>
      if str_is_empty w then None else option_map (cons (k, w)) (match_segs ss ws)
  | Rest k :: _, _ :: _ =>
      let w := str_join "/" ws in if str_is_empty w then None else Some [(k, w)]
  | _, _ => None
  end.

Definition trie := list (string * nat).

Fixpoint at_ (t : trie) (path : string) : option (nat * list (string * string)) :=
  match t with
  | [] => None
  | (p, v) :: t =>
      match match_segs (segs p) (str_split "/" path) with
      | Some ps => Some (v, ps)
      | None => at_ t path
      end
  end.

Definition insert (t : trie) (p : string) (v : nat) : option trie :=
  if existsb (fun pv => String.eqb (fst pv) p) t then None else Some (t ++ [(p, v)]).

Lemma match_keys ss ws ps : match_segs ss ws = Some ps -> map fst ps = keys ss.
Proof.
  revert ws ps; induction ss as [|[s|k|k] ss IH]; intros [|w ws] ps; cbn; try done.
  - by intros [= <-].
  - case_match; [apply IH|done].
  - case_match; [done|]. destruct (match_segs ss ws) eqn:E; cbn; [|done].
    intros [= <-]. cbn. by rewrite (IH _ _ E).
  - destruct (str_is_empty _); [done|]. by intros [= <-].
Qed.

Lemma at_app t p v path r :
  at_ (t ++ [(p, v)]) path = Some r ->
  (fst r = v /\ map fst (snd r) = keys (segs p)) \/ at_ t path = Some r.
Proof.
  induction t as [|[p' v'] t IH]; cbn.
  - destruct (match_segs _ _) as [ps|] eqn:E; [|done]. intros [= <-].
    left. split; [done|]. by apply match_keys in E.
  - destruct (match_segs (segs p') _); [by right|apply IH].
Qed.
End ListMatchit.

#[export] Instance ListMatchitI : Matchit := {
  Trie := ListMatchit.trie;
  trie_new := [];
  trie_insert := ListMatchit.insert;
  trie_at := ListMatchit.at_;
  trie_keys p := ListMatchit.keys (ListMatchit.segs p) }.

#[export] Instance ListMatchitLaws : MatchitLaws ListMatchitI.
Proof.
  split; [done|]. intros t p v t' path v' ps Hi Hat. cbn in *.
  unfold ListMatchit.insert in Hi. destruct (existsb _ t); [done|]. injection Hi as <-.
  by apply ListMatchit.at_app in Hat.
Qed.

(** ** Properties *)

Section Properties.
Context `{HttpCrate} `{ML : MatchitLaws} {W : Type}.

(** A run of requests through the shared inner router, its name caches
    filling up on the way; [None] would be a panic. *)
Fixpoint serve_all (inner : RouterInner) (reqs : list Request) (w : W)
  : option (list Response * W) :=
  match reqs with
  | [] => Some ([], w)
  | req :: reqs =>
      '(res, w, inner) ← inner_dispatch inner req w;
      '(ress, w) ← serve_all inner reqs w;
      Some (res :: ress, w)
  end.

Fixpoint spec_all (svc : Service W) (reqs : list Request) (w : W) : list Response * W :=
  match reqs with
  | [] => ([], w)
  | req :: reqs =>
      let '(res, w) := svc req w in
      let '(ress, w) := spec_all svc reqs w in (res :: ress, w)
  end.

(** The same through the direct path, whose caches are the router's. *)
Fixpoint call_all {S} (r : Router W S) (st : S) (reqs : list Request) (w : W)
  : option (list Response * W) :=
  match reqs with
  | [] => Some ([], w)
  | req :: reqs =>
      '(res, w, r) ← router_call r req st w;
      '(ress, w) ← call_all r st reqs w;
      Some (res :: ress, w)
  end.

(** C1. Routing refines its specification: a router built by any sequence of
    registrations, nestings, merges and layers and bound to its state never
    panics when serving, whatever requests it has served before, and answers
    each request as [router_core]: a matched path runs the route's method
    router inside the [route_layer]s with the matched pattern and the decoded
    parameters in the request, an unmatched one the fallback or a 404 with no
    layer run; [into_service] wraps this in the [layer]s. *)
Theorem router_refines {S} (r : Router W S) (st : S) reqs w :
  built r ->
  serve_all (into_inner (with_state st r)) reqs w =
    Some (spec_all (router_core (with_state st r)) reqs w) /\
  into_service (with_state st r) = apply_layers (router_core (with_state st r)) (r_layers r).
Proof.
  intros Hb%built_wf%(with_state_wf st). split; [|by apply into_service_core].
  generalize (into_inner_ok _ Hb). generalize (into_inner (with_state st r)).
  revert w; induction reqs as [|req reqs IH]; intros w inner Hin; [done|].
  cbn. destruct (inner_dispatch_sim _ _ req w Hb Hin) as (inner' & -> & Hin').
  cbn. destruct (router_core _ req w) as [res w']. cbn.
  rewrite (IH w' inner' Hin'). cbn. by destruct (spec_all _ _ _).
Qed.

(** The direct call path never panics and answers every request of a run
    as the service does without the router's own layers, whatever its caches
    hold by then. *)
Theorem router_call_core {S} (r : Router W S) (st : S) reqs w :
  built r -> call_all r st reqs w = Some (spec_all (call_core r st) reqs w).
Proof.
  intros Hr%built_wf. revert r w Hr; induction reqs as [|req reqs IH]; intros r w Hr; [done|].
  cbn. destruct (router_call_spec r st req w Hr) as (r' & -> & Hr' & Hs).
  destruct (call_core r st req w) as [res w']. cbn.
  rewrite IH, Hs by done. cbn. by destruct (spec_all _ _ _).
Qed.

(** C5. Nesting keeps the sub-router's middleware: the outer routes are
    unchanged, each sub-route is registered under the prefix, and a request
    its method router has a handler for runs that handler inside the method
    layers, inside the sub-router's [route_layer]s, inside its [layer]s; a
    method without handler is answered 405 with none of them run. *)
Theorem nest_preserves_layers {S} prefix (other r r' : Router W S) :
  built other -> built r -> nest prefix other r = Some r' ->
  (forall i, (i < List.length (r_routes r))%nat -> r_routes r' !! i = r_routes r !! i) /\
  forall j e, r_routes other !! j = Some e ->
    exists e', r_routes r' !! (List.length (r_routes r) + j)%nat = Some e' /\
      re_pattern e' = nested_path (trim_end_matches "/" prefix) (re_pattern e) /\
      forall st req w, let mr := re_method_router e in
      if has_methodb mr (effective_method mr (req_method req)) then
        exists h, mr_spec mr st req w =
                    apply_layers (handler_service h st) (mr_layers mr) req w /\
          mr_spec (re_method_router e') st req w =
            apply_layers (apply_layers (apply_layers (handler_service h st) (mr_layers mr))
               (r_route_layers other)) (r_layers other) req w
      else mr_spec (re_method_router e') st req w = (method_not_allowed (mr_allow mr), w).
Proof.
  intros Ho%built_wf Hr%built_wf Hn. unfold nest in Hn. destruct (r_fallback other); [done|].
  destruct (nest_loop_spec _ _ _ _ _ Hr (wf_entries other Ho) Hn) as (_ & Hro & _).
  rewrite Hro. split; [intros i Hi; by rewrite lookup_app_l|].
  intros j e Hj. eexists. split.
  { rewrite lookup_app_r, Nat.add_comm, Nat.add_sub by lia. by rewrite list_lookup_fmap, Hj. }
  split; [done|]. intros st req w. cbn zeta. cbn [entry_new re_method_router].
  destruct (has_methodb _ _) eqn:Hh.
  - destruct (mr_spec_extend (re_method_router e) (sub_layers other) st req w Hh)
      as (h & H1 & H2).
    exists h. split; [done|]. rewrite H2. unfold sub_layers. by rewrite apply_layers_app.
  - by rewrite mr_spec_extend_none.
Qed.
End Properties.

Section NotFound.
Context `{HL : HttpLaws}.

(** The default 404 carries its [Content-Type] twice: the explicit header and
    the one [text_static] appends. *)
Theorem not_found_content_type_twice :
  res_status not_found = 404%Z /\
  hm_get_all (res_headers not_found) CONTENT_TYPE = [TEXT_PLAIN_UTF8; TEXT_PLAIN_UTF8].
Proof.
  unfold not_found, rb_header_str.
  rewrite hv_from_str_visible by done. cbn. split; [done|]. by headers.
Qed.
End NotFound.

(** ** A concrete application

    A user route with a parameter in an inner router with both kinds of layers,
    nested under [/api]. *)
Module DemoApp.
Definition users : option (Router (list string) unit) :=
  option_map (layer (Demo.layer "outer"))
    (option_map (route_layer (Demo.layer "route"))
      (route "/users/{id}" (mr_get (DemoRoute.h "user") mr_new) router_new)).
Definition home : option (Router (list string) unit) :=
  route "/" (mr_get (DemoRoute.h "home") mr_new) router_new.
Definition app : option (Router (list string) unit) :=
  match users, home with Some u, Some h => nest "/api" u h | _, _ => None end.

Lemma home_built : match home with Some h => built h | None => False end.
Proof.
  assert (Hs : match home with Some _ => true | None => false end = true)
    by (vm_compute; reflexivity).
  unfold home in *. destruct (route _ _ _) as [r|] eqn:E; [|discriminate Hs].
  eapply built_route; [apply built_new|apply wf_on, wf_new|exact E].
Qed.
Lemma users_built : match users with Some u => built u | None => False end.
Proof.
  assert (Hs : match users with Some _ => true | None => false end = true)
    by (vm_compute; reflexivity).
  unfold users in *. destruct (route _ _ _) as [r|] eqn:E; [|discriminate Hs].
  cbn [option_map]. apply built_layer, built_route_layer.
  eapply built_route; [apply built_new|apply wf_on, wf_new|exact E].
Qed.
End DemoApp.

(** Two requests through one server: the nested route, with its parameter, in
    all its layers, and a path that no route matches. *)
Lemma router_refines_witness :
  exists app, DemoApp.app = Some app /\
    option_map (fun out => (map res_status (fst out), snd out))
      (serve_all (into_inner (with_state tt app))
         [Demo.request GET "/api/users/7"; Demo.request GET "/nope"] []) =
    Some ([200; 404]%Z,
          ["enter outer"; "enter route"; "user /api/users/7"; "leave route"; "leave outer"]).
Proof.
  pose proof DemoApp.users_built as Hu. pose proof DemoApp.home_built as Hh.
  assert (Hc : option_map (fun app => let out := spec_all (router_core (with_state tt app))
                  [Demo.request GET "/api/users/7"; Demo.request GET "/nope"] [] in
                (map res_status (fst out), snd out)) DemoApp.app =
    Some ([200; 404]%Z,
          ["enter outer"; "enter route"; "user /api/users/7"; "leave route"; "leave outer"]))
    by (vm_compute; reflexivity).
  destruct DemoApp.app as [app|] eqn:E; [|discriminate Hc].
  exists app. split; [reflexivity|].
  assert (Hb : built app).
  { unfold DemoApp.app in E. destruct DemoApp.users as [u|]; [|destruct Hu].
    destruct DemoApp.home as [h|]; [|destruct Hh]. eapply built_nest; [exact Hu|exact Hh|exact E]. }
  destruct (router_refines app tt [Demo.request GET "/api/users/7"; Demo.request GET "/nope"] [] Hb)
    as [H _].
  rewrite H. exact Hc.
Defined.

Lemma router_call_core_witness :
  exists home, DemoApp.home = Some home /\
    option_map snd (call_all home tt [Demo.request GET "/"; Demo.request GET "/no"] [])
      = Some ["home /"].
Proof.
  pose proof DemoApp.home_built as Hh.
  assert (Hc : option_map (fun h => snd (spec_all (call_core h tt)
                 [Demo.request GET "/"; Demo.request GET "/no"] [])) DemoApp.home
     = Some ["home /"]) by (vm_compute; reflexivity).
  destruct DemoApp.home as [h|] eqn:E; [|destruct Hh]. exists h. split; [reflexivity|].
  rewrite (router_call_core h tt _ [] Hh). exact Hc.
Defined.

Lemma nest_preserves_layers_witness :
  exists u h app, DemoApp.users = Some u /\ DemoApp.home = Some h /\ nest "/api" u h = Some app /\
    exists e', r_routes app !! 1%nat = Some e' /\ re_pattern e' = "/api/users/{id}".
Proof.
  pose proof DemoApp.users_built as Hu. pose proof DemoApp.home_built as Hh.
  assert (Hl : option_map (fun h => List.length (r_routes h)) DemoApp.home = Some 1%nat)
    by (vm_compute; reflexivity).
  assert (Hr : option_map (fun u => map re_pattern (r_routes u)) DemoApp.users
               = Some ["/users/{id}"]) by (vm_compute; reflexivity).
  assert (Ha : match DemoApp.app with Some _ => true | None => false end = true)
    by (vm_compute; reflexivity).
  unfold DemoApp.app in Ha.
  destruct DemoApp.users as [u|]; [|destruct Hu]. destruct DemoApp.home as [h|]; [|destruct Hh].
  destruct (nest "/api" u h) as [app|] eqn:E; [|discriminate Ha].
  exists u, h, app. split; [reflexivity|]. split; [reflexivity|]. split; [exact E|].
  destruct (nest_preserves_layers "/api" u h app Hu Hh E) as [_ H].
  cbn in Hl. injection Hl as Hl. cbn in Hr. injection Hr as Hr.
  destruct (r_routes u) as [|e [|e2 l]] eqn:Eu; try discriminate Hr. injection Hr as Hp.
  destruct (H 0%nat e eq_refl) as (e' & H1 & H2 & _).
  rewrite Hl in H1. exists e'. split; [exact H1|]. rewrite H2, Hp. reflexivity.
Defined.
