(* ===== verification/Accept.v ===== *)
(** * Accept-Encoding negotiation

    [arvik-core/src/accept.rs], shared by the compression middleware and the
    static file services.  Quality values are [f32]: the IEEE binary32 numbers
    of the Standard Library's [SpecFloat], with [str::parse::<f32>] correctly
    rounded. *)
From S2P Require Import Prelude RustStr.
From stdpp Require Import base list strings sets.
From Stdlib Require Import ZArith Lia Ascii String Floats.SpecFloat.
Open Scope string_scope.
Open Scope list_scope.

(** ** [f32] *)

Definition f32 : Type := spec_float.
Definition f32_prec : Z := 24.
Definition f32_emax : Z := 128.

Definition f32_zero : f32 := S754_zero false.
Definition f32_one : f32 := binary_normalize f32_prec f32_emax 1 0 false.

Definition f32_lt : f32 -> f32 -> bool := SFltb.

(** [x.clamp(lo, hi)]: a NaN stays. *)
Definition f32_clamp (x lo hi : f32) : f32 :=
  let x := if f32_lt x lo then lo else x in
  if f32_lt hi x then hi else x.

(** The decimal [m * 10^e], correctly rounded. *)
Definition f32_of_dec (sign : bool) (m e : Z) : f32 :=
  match m with
  | Zpos p =>
      if (0 <=? e)%Z
      then binary_normalize f32_prec f32_emax
             (let v := (m * 10 ^ e)%Z in if sign then - v else v)%Z 0 sign
      else let '(q, e', l) := SFdiv_core_binary f32_prec f32_emax m 0 (10 ^ (- e)) 0 in
           binary_round_aux f32_prec f32_emax sign q e' l
  | _ => S754_zero sign
  end.

(** A maximal run of digits: its value after [acc], its length, and the rest. *)
Fixpoint take_digits (acc : Z) (n : nat) (s : string) : Z * nat * string :=
  match s with
  | String a s' =>
      if is_ascii_digit a then take_digits (acc * 10 + (byte_val a - 48)) (S n) s'
      else (acc, n, s)
  | EmptyString => (acc, n, s)
  end.

Definition take_sign (s : string) : bool * string :=
  match s with
  | String "-" s' => (true, s')
  | String "+" s' => (false, s')
  | _ => (false, s)
  end.

(** [Exp ::= 'e' Sign? Digit+] up to the end; no exponent is 0. *)
Definition parse_exp (s : string) : option Z :=
  match s with
  | EmptyString => Some 0%Z
  | String a s' =>
      if (byte_val a =? 101)%Z || (byte_val a =? 69)%Z then
        let '(neg, s'') := take_sign s' in
        match take_digits 0 0 s'' with
        | (e, S _, EmptyString) => Some (if neg then - e else e)%Z
        | _ => None
        end
      else None
  end.

(** [<f32 as FromStr>::from_str]. *)
Definition f32_parse (s : string) : option f32 :=
  let '(sign, body) := take_sign s in
  if eq_ignore_ascii_case body "inf" || eq_ignore_ascii_case body "infinity"
  then Some (S754_infinity sign)
  else if eq_ignore_ascii_case body "nan" then Some S754_nan
  else
    let '(m, n_int, rest) := take_digits 0 0 body in
    let '(m, n_frac, rest) :=
      match rest with
      | String "." r => take_digits m 0 r
      | _ => (m, 0%nat, rest)
      end in
    if (n_int + n_frac =? 0)%nat then None
    else option_map (fun e => f32_of_dec sign m (e - Z.of_nat n_frac)) (parse_exp rest).

(** ** The parser and the negotiation *)

(** The loop over the parameters of an entry. *)
Fixpoint q_loop (quality : f32) (segments : list string) : f32 :=
  match segments with
  | [] => quality
  | parameter :: segments =>
      let parameter := trim parameter in
      let q := match str_strip_prefix "q=" parameter with
               | Some q => Some q
               | None => str_strip_prefix "Q=" parameter
               end in
      match q with
      | Some q => q_loop (match f32_parse (trim q) with Some x => x | None => f32_one end) segments
      | None => q_loop quality segments
      end
  end.

Definition parse_q (segments : list string) : f32 :=
  f32_clamp (q_loop f32_one segments) f32_zero f32_one.

(** One entry of [parse_accept_encodings]. *)
Definition parse_entry (entry : string) : option (string * f32) :=
  match str_split ";" (trim entry) with
  | [] => None
  | first :: parts =>
      let coding := to_ascii_lowercase (trim first) in
      if str_is_empty coding then None
      else Some (coding, f32_clamp (q_loop f32_one parts) f32_zero f32_one)
  end.

Definition parse_accept_encodings (value : string) : list (string * f32) :=
  omap parse_entry (str_split "," value).

(** The inner loop of [negotiate]: [exact_seen], [exact_allowed],
    [wildcard_allowed]. *)
Fixpoint negotiate_loop (candidate : string) (entries : list string)
    (st : bool * bool * bool) : bool * bool * bool :=
  match entries with
  | [] => st
  | entry :: entries =>
      let '(exact_seen, exact_allowed, wildcard_allowed) := st in
      let segments := str_split ";" (trim entry) in
      let coding := match segments with s :: _ => trim s | [] => "" end in
      let rest := tl segments in
      let st :=
        if eq_ignore_ascii_case coding candidate
        then (true, f32_lt f32_zero (parse_q rest), wildcard_allowed)
        else if String.eqb coding "*"
        then (exact_seen, exact_allowed, f32_lt f32_zero (parse_q rest))
        else st in
      negotiate_loop candidate entries st
  end.

Definition candidate_allowed (candidate accept_encoding : string) : bool :=
  let '(exact_seen, exact_allowed, wildcard_allowed) :=
    negotiate_loop candidate (str_split "," accept_encoding) (false, false, false) in
  if exact_seen then exact_allowed else wildcard_allowed.

Fixpoint negotiate (supported : list string) (accept_encoding : string) : option string :=
  match supported with
  | [] => None
  | candidate :: supported =>
      if candidate_allowed candidate accept_encoding then Some candidate
      else negotiate supported accept_encoding
  end.

Example parses_quality_values :
  map fst (parse_accept_encodings "gzip;q=0.5, BR, zstd ; Q=0 , *;q=0.1") =
    ["gzip"; "br"; "zstd"; "*"].
Proof. vm_compute. reflexivity. Qed.

Example explicit_refusal_beats_wildcard :
  negotiate ["br"; "gzip"] "gzip, br;q=0, *" = Some "gzip" /\
  negotiate ["br"] "*, br;q=0" = None.
Proof. vm_compute. done. Qed.

(** ** The specification

    The weight a client gives a coding: that of its last entry for it, else of
    its last [*] entry, read off the parsed header. *)

Definition weight_of (coding : string) (l : list (string * f32)) : option f32 :=
  last (map snd (List.filter (fun cq => String.eqb (fst cq) coding) l)).

Definition accepts (accept_encoding candidate : string) : bool :=
  let l := parse_accept_encodings accept_encoding in
  match weight_of (to_ascii_lowercase candidate) l with
  | Some q => f32_lt f32_zero q
  | None => match weight_of "*" l with
            | Some q => f32_lt f32_zero q
            | None => false
            end
  end.

(** ** Lemmas *)

Lemma lowercase_star a : to_ascii_lowercase_char a = "*"%char -> a = "*"%char.
Proof.
  unfold to_ascii_lowercase_char, is_ascii_uppercase, in_range.
  destruct (_ && _) eqn:E; [|done]. bool_hyps. intros Hb.
  assert (byte_val (byte_of_val (byte_val a + 32)) = 42%Z) as Hv by by rewrite Hb.
  rewrite byte_val_of_val in Hv by lia. lia.
Qed.

Lemma lowercase_star_str s : String.eqb (to_ascii_lowercase s) "*" = String.eqb s "*".
Proof.
  destruct (String.eqb_spec s "*") as [->|Hne]; [done|].
  apply String.eqb_neq. intros Hl. apply Hne.
  destruct s as [|a [|b s]]; cbn in Hl; try done.
  injection Hl as Ha. by rewrite (lowercase_star a Ha).
Qed.

Lemma lowercase_empty s : str_is_empty (to_ascii_lowercase s) = str_is_empty s.
Proof. by destruct s. Qed.

Lemma last_default {A} (l : list A) x d :
  match last (x :: l) with Some y => y | None => d end =
  match last l with Some y => y | None => x end.
Proof. rewrite last_cons. by destruct (last l). Qed.

Lemma weight_of_cons c cq l :
  weight_of c (cq :: l) =
    match weight_of c l with
    | Some q => Some q
    | None => if String.eqb (fst cq) c then Some (snd cq) else None
    end.
Proof.
  unfold weight_of. cbn. destruct (String.eqb (fst cq) c); cbn; [|by destruct (last _)].
  apply last_cons.
Qed.

(** The loop computes the last weights, starting from what it was given. *)
Lemma negotiate_loop_spec c entries es ea wa :
  c <> "" -> c <> "*" ->
  let l := omap parse_entry entries in
  negotiate_loop c entries (es, ea, wa) =
    (es || (match weight_of (to_ascii_lowercase c) l with Some _ => true | None => false end),
     match weight_of (to_ascii_lowercase c) l with Some q => f32_lt f32_zero q | None => ea end,
     match weight_of "*" l with Some q => f32_lt f32_zero q | None => wa end).
Proof.
  intros Hc Hs. revert es ea wa; induction entries as [|e entries IH]; intros es ea wa.
  { cbn. by rewrite orb_false_r. }
  cbn [negotiate_loop omap list_omap].
  destruct (str_split ";" (trim e)) as [|first parts] eqn:Es;
    [by apply str_split_nonempty in Es|]. cbn [tl].
  assert (parse_entry e = if str_is_empty (to_ascii_lowercase (trim first)) then None
            else Some (to_ascii_lowercase (trim first), parse_q parts)) as ->.
  { unfold parse_entry, parse_q. by rewrite Es. }
  unfold eq_ignore_ascii_case. rewrite <- (lowercase_star_str (trim first)).
  destruct (String.eqb_spec (to_ascii_lowercase (trim first)) (to_ascii_lowercase c)) as [Heq|Hne].
  - assert (str_is_empty (to_ascii_lowercase (trim first)) = false) as ->.
    { rewrite Heq, lowercase_empty. by destruct c. }
    rewrite IH, !weight_of_cons. cbn [fst snd]. rewrite Heq, String.eqb_refl.
    rewrite lowercase_star_str.
    replace (c =? "*")%string with false by (symmetry; by apply String.eqb_neq).
    cbn [orb].
    by destruct (weight_of (to_ascii_lowercase c) _), (weight_of "*" _); rewrite ?orb_true_r.
  - destruct (String.eqb_spec (to_ascii_lowercase (trim first)) "*") as [Hst|Hst].
    + rewrite Hst. cbn [str_is_empty]. rewrite IH, !weight_of_cons. cbn [fst snd].
      rewrite String.eqb_refl. rewrite Hst in Hne.
      replace ("*" =? to_ascii_lowercase c)%string with false
        by (symmetry; by apply String.eqb_neq).
      by destruct (weight_of (to_ascii_lowercase c) _), (weight_of "*" _).
    + rewrite IH. destruct (str_is_empty _); [done|]. rewrite !weight_of_cons. cbn [fst].
      apply String.eqb_neq in Hne as ->. apply String.eqb_neq in Hst as ->.
      by destruct (weight_of (to_ascii_lowercase c) _), (weight_of "*" _).
Qed.

Lemma candidate_allowed_spec c h : c <> "" -> c <> "*" -> candidate_allowed c h = accepts h c.
Proof.
  intros Hc Hs. unfold candidate_allowed, accepts, parse_accept_encodings.
  rewrite negotiate_loop_spec by done. cbn zeta. cbn [orb].
  by destruct (weight_of (to_ascii_lowercase c) _).
Qed.

(** What a successful negotiation means, for the clients of this file. *)
Lemma negotiate_one c h :
  c <> "" -> c <> "*" -> is_Some (negotiate [c] h) <-> accepts h c = true.
Proof.
  intros Hc Hs. cbn. rewrite candidate_allowed_spec by done.
  destruct (accepts h c); [split; [done|by exists c]|split; [by intros []|done]].
Qed.

(** ** Properties *)

(** The allocation-free negotiation agrees with the parser: it picks the
    first supported coding, in the server's order, whose last weight in the
    parsed header is positive, an exact entry (an explicit [q=0] refusal
    included) overriding the [*] wildcard, and none when there is none. *)
Theorem negotiate_parsed supported h :
  (forall c, c ∈ supported -> c <> "" /\ c <> "*") ->
  negotiate supported h = List.find (accepts h) supported.
Proof.
  induction supported as [|c supported IH]; intros Hs; [done|].
  cbn [negotiate List.find]. destruct (Hs c ltac:(set_solver)).
  rewrite candidate_allowed_spec, IH by (set_solver || done). done.
Qed.

Lemma negotiate_parsed_witness :
  (forall c, c ∈ ["zstd"; "br"; "gzip"] -> c <> "" /\ c <> "*") /\
  List.find (accepts "gzip;q=0.001, zstd;q=0, *;q=1e-60") ["zstd"; "br"; "gzip"] = Some "gzip" /\
  negotiate ["zstd"; "br"; "gzip"] "gzip;q=0.001, zstd;q=0, *;q=1e-60" = Some "gzip".
Proof.
  assert (Hs : forall c, c ∈ ["zstd"; "br"; "gzip"] -> c <> "" /\ c <> "*").
  { intros c Hc. repeat (apply elem_of_cons in Hc as [->|Hc]; [done|]). by apply elem_of_nil in Hc. }
  split; [exact Hs|]. split; [vm_compute; reflexivity|].
  rewrite (negotiate_parsed _ _ Hs). vm_compute. reflexivity.
Defined.
