(* ===== verification/StaticPath.v ===== *)
(** * Static files: request paths, asset names and listings

    The path side of [arvik-static/src/lib.rs]: normalisation of the request
    path, content types, precompressed siblings and HTML listings, with the
    parts of [std::path] (Unix) they use. *)
From S2P Require Import Prelude RustStr HttpCrate Body Http.
From stdpp Require Import base list strings sets.
From Stdlib Require Import ZArith Lia Ascii String.
Open Scope string_scope.
Open Scope list_scope.

(** The [percent-encoding] crate's decoder and the [mime_guess] table are not
    in the repository. *)
Class StaticDeps : Type := {
  (** [percent_decode_str(s)], as bytes. *)
  percent_decode_str : string -> string;
  (** [mime_guess::from_path(p).first_or_octet_stream().essence_str()]. *)
  mime_guess_from_path : string -> string;
  (** [httpdate::fmt_http_date] and [parse_http_date] on [SystemTime]s, in
      nanoseconds since the epoch. *)
  fmt_http_date : Z -> string;
  parse_http_date : string -> option Z;
  (** The chunks of [ReaderStream::with_capacity] over a reader. *)
  reader_chunks : Z -> string -> list string }.

(** What they document: HTTP dates have a resolution of one second and print as
    visible ASCII, and a reader stream yields the bytes of its reader. *)
Class StaticLaws `(D : StaticDeps) : Prop := {
  http_date_seconds s t : parse_http_date s = Some t -> (t mod 1000000000 = 0)%Z;
  http_date_visible t : str_forall visible_ascii (fmt_http_date t) = true;
  reader_chunks_concat n s : concat_bytes (reader_chunks n s) = s }.

(** *** A concrete instance

    Seconds in decimal for dates, a table for MIME types, a reader that reads
    everything at once and the percent-encoding of RFC 3986. *)
Module StaticDemo.
Definition hex_digit_val (a : ascii) : option Z :=
  let v := byte_val a in
  if is_ascii_digit a then Some (v - 48)%Z
  else if in_range 97 102 a then Some (v - 87)%Z
  else if in_range 65 70 a then Some (v - 55)%Z
  else None.
Fixpoint decode (s : string) : string :=
  match s with
  | String p (String h (String l s3) as s1) =>
      match Ascii.eqb p "%", hex_digit_val h, hex_digit_val l with
      | true, Some hi, Some lo => String (byte_of_val (hi * 16 + lo)) (decode s3)
      | _, _, _ => String p (decode s1)
      end
  | String p s1 => String p (decode s1)
  | EmptyString => EmptyString
  end.
#[export] Instance deps : StaticDeps := {
  percent_decode_str := decode;
  mime_guess_from_path _ := "application/octet-stream";
  fmt_http_date t := to_dec (Z.max 0 (t / 1000000000));
  parse_http_date s := option_map (fun n => n * 1000000000)%Z (parse_u64 s);
  reader_chunks _ s := [s] }.
#[export] Instance laws : StaticLaws deps.
Proof.
  split; cbn.
  - intros s t. destruct (parse_u64 s); cbn; [|done]. intros [= <-]. by apply Z.mod_mul.
  - intros t. destruct (to_dec_spec (Z.max 0 (t / 1000000000))) as (_ & Hd & _); [lia|].
    eapply str_forall_impl; [apply digit_visible|done].
  - intros _ s. apply sapp_nil_r.
Qed.
End StaticDemo.
#[export] Existing Instances StaticDemo.deps StaticDemo.laws.

(** ** [std::path] on Unix *)

(** Drop trailing empty and [.] components, never the first one. *)
Fixpoint trim_right (cs : list string) : list string :=
  match cs with
  | [] => []
  | [c] => [c]
  | c :: cs =>
      match trim_right cs with
      | [d] => if String.eqb d "" || String.eqb d "." then [c] else [c; d]
      | ds => c :: ds
      end
  end.

(** The components [Path::components] visits, leading [.] apart. *)
Definition path_components (p : string) : list string :=
  List.filter (fun c => negb (String.eqb c "" || String.eqb c ".")) (str_split "/" p).

(** [Path::file_name]. *)
Definition path_file_name (p : string) : option string :=
  match last (path_components p) with
  | Some c => if String.eqb c ".." then None else Some c
  | None => None
  end.

(** [Path::join]. *)
Definition path_join (base p : string) : string :=
  if starts_with "/" p then p
  else if str_is_empty base || ends_with_char "/" base then base +:+ p
  else base +:+ "/" +:+ p.

(** The text of a component list; the lone empty component is the root. *)
Definition path_text (cs : list string) : string :=
  match cs with [""] => "/" | _ => str_join "/" cs end.

(** [PathBuf::pop] of a path with a file name. *)
Definition path_pop (p : string) : string :=
  match removelast (trim_right (str_split "/" p)) with
  | [] => ""
  | cs => path_text (trim_right cs)
  end.

(** [PathBuf::set_file_name]. *)
Definition set_file_name (p name : string) : string :=
  match path_file_name p with
  | Some _ => path_join (path_pop p) name
  | None => path_join p name
  end.

(** [Path::extension]. *)
Definition split_last_dot (s : string) : option (string * string) :=
  match split_once "." (str_rev s) with
  | Some (after, before) => Some (str_rev before, str_rev after)
  | None => None
  end.
Definition path_extension (p : string) : option string :=
  match path_file_name p with
  | None => None
  | Some f => match split_last_dot f with
              | Some (before, after) => if str_is_empty before then None else Some after
              | None => None
              end
  end.

(** ** The request path *)

Fixpoint valid_percent_encoding (path : string) : bool :=
  match path with
  | EmptyString => true
  | String a s1 =>
      if Ascii.eqb a "%" then
        match s1 with
        | String h (String l s3) =>
            if negb (is_ascii_hexdigit h) || negb (is_ascii_hexdigit l) then false
            else valid_percent_encoding s3
        | _ => false
        end
      else valid_percent_encoding s1
  end.

Section RelativePath.
Context `{StaticDeps}.

(** The loop of [relative_path] over the decoded segments. *)
Fixpoint normalize_parts (parts : list string) (asset_path : string) : result string unit :=
  match parts with
  | [] => Ok asset_path
  | part :: parts =>
      if String.eqb part "" || String.eqb part "." then normalize_parts parts asset_path
      else if String.eqb part ".." then Err tt
      else normalize_parts parts
             ((if negb (str_is_empty asset_path) then asset_path +:+ "/" else asset_path)
              +:+ part)
  end.

(** [relative_path]. *)
Definition relative_path (path : string) : result string unit :=
  if negb (valid_percent_encoding path) then Err tt
  else
    let decoded := percent_decode_str (trim_start_matches "/" path) in
    if negb (utf8_valid decoded) then Err tt
    else if starts_with "/" decoded || contains_char "\" decoded || contains_char "000" decoded
    then Err tt
    else normalize_parts (str_split "/" decoded) "".

(** [content_type]. *)
Definition content_type_of_ext (ext : string) : option string :=
  if existsb (String.eqb ext) ["html"; "htm"] then Some "text/html"
  else if String.eqb ext "css" then Some "text/css"
  else if String.eqb ext "js" then Some "text/javascript"
  else if String.eqb ext "mjs" then Some "application/javascript"
  else if String.eqb ext "json" then Some "application/json"
  else if String.eqb ext "txt" then Some "text/plain"
  else if String.eqb ext "xml" then Some "text/xml"
  else if String.eqb ext "svg" then Some "image/svg+xml"
  else if String.eqb ext "png" then Some "image/png"
  else if existsb (String.eqb ext) ["jpg"; "jpeg"] then Some "image/jpeg"
  else if String.eqb ext "gif" then Some "image/gif"
  else if String.eqb ext "webp" then Some "image/webp"
  else if String.eqb ext "avif" then Some "image/avif"
  else if String.eqb ext "ico" then Some "image/x-icon"
  else if String.eqb ext "wasm" then Some "application/wasm"
  else if String.eqb ext "woff" then Some "application/font-woff"
  else if String.eqb ext "woff2" then Some "font/woff2"
  else if String.eqb ext "ttf" then Some "font/ttf"
  else if String.eqb ext "otf" then Some "application/font-sfnt"
  else if String.eqb ext "mp4" then Some "video/mp4"
  else if String.eqb ext "webm" then Some "video/webm"
  else if String.eqb ext "pdf" then Some "application/pdf"
  else None.

Definition content_type (path : string) : string :=
  let ext := match path_extension path with Some e => e | None => "" end in
  let ext := if str_exists is_ascii_uppercase ext then to_ascii_lowercase ext else ext in
  match content_type_of_ext ext with
  | Some mime => mime
  | None => mime_guess_from_path path
  end.
End RelativePath.

Definition INDEX_FILE : string := "index.html".

(** [append_suffix]. *)
Definition append_suffix (path suffix : string) : string :=
  let file_name := (match path_file_name path with Some f => f | None => "" end) +:+ suffix in
  set_file_name path file_name.

(** [join_asset_path]. *)
Definition join_asset_path (base file : string) : string :=
  if str_is_empty base then file else trim_end_matches "/" base +:+ "/" +:+ file.

(** ** Listings *)

Definition escape_char (a : ascii) : string :=
  if Ascii.eqb a "&" then "&amp;"
  else if Ascii.eqb a "<" then "&lt;"
  else if Ascii.eqb a ">" then "&gt;"
  else if (byte_val a =? 34)%Z then "&quot;"
  else if (byte_val a =? 39)%Z then "&#39;"
  else String a "".

Fixpoint escape_html (value : string) : string :=
  match value with
  | EmptyString => ""
  | String a s => escape_char a +:+ escape_html s
  end.

Fixpoint listing_items (entries : list string) : string :=
  match entries with
  | [] => ""
  | entry :: entries =>
      "<li><a href=" +:+ dquote +:+ escape_html entry +:+ dquote +:+ ">" +:+ escape_html entry
      +:+ "</a></li>" +:+ listing_items entries
  end.

Definition listing_html (request_path : string) (entries : list string) : string :=
  "<!doctype html><meta charset=" +:+ dquote +:+ "utf-8" +:+ dquote +:+ "><title>Index of "
  +:+ escape_html request_path +:+ "</title><h1>Index of " +:+ escape_html request_path
  +:+ "</h1><ul>" +:+ listing_items entries +:+ "</ul>".

Section Listing.
Context `{HttpCrate}.
Definition listing_response (request_path : string) (entries : list string) : Response :=
  rb_body (body_from_bytes (listing_html request_path entries))
    (rb_header_str CONTENT_TYPE "text/html; charset=utf-8" rb_new).
End Listing.

(** [slash_location]. *)
Definition slash_location (uri : Uri) : string :=
  let path := uri_path uri in
  let location := if ends_with_char "/" path then path else path +:+ "/" in
  match uri_query uri with
  | Some query => location +:+ "?" +:+ query
  | None => location
  end.

(** ** Lemmas *)

(** A normal segment: what one component of an asset path may be. *)
Definition normal_segment (w : string) : Prop :=
  w <> "" /\ w <> "." /\ w <> ".." /\ contains_char "/" w = false.

(** Joining a list with separators, as the loop accumulates it. *)
Definition push_part (acc part : string) : string :=
  (if negb (str_is_empty acc) then acc +:+ "/" else acc) +:+ part.

Lemma str_join_snoc ws w : ws <> [] -> str_join "/" (ws ++ [w]) = str_join "/" ws +:+ "/" +:+ w.
Proof.
  induction ws as [|v ws IH]; [done|]. intros _. destruct ws as [|u ws]; [done|].
  cbn [app] in *. rewrite (str_join_cons "/" v (u :: ws)) by done.
  rewrite (str_join_cons "/" v (u :: ws ++ [w])) by done.
  rewrite IH by done. by rewrite <- !sapp_assoc.
Qed.

Lemma str_join_nonempty ws : (forall w, w ∈ ws -> w <> "") -> str_join "/" ws = "" -> ws = [].
Proof.
  destruct ws as [|v ws]; [done|]. intros Hw Hj.
  specialize (Hw v ltac:(set_solver)). destruct v, ws; done.
Qed.

Lemma normalize_parts_spec parts ws :
  (forall w, w ∈ ws -> w <> "") ->
  normalize_parts parts (str_join "/" ws) =
    if existsb (String.eqb "..") parts then Err tt
    else Ok (str_join "/"
               (ws ++ List.filter (fun c => negb (String.eqb c "" || String.eqb c ".")) parts)).
Proof.
  revert ws; induction parts as [|p parts IH]; intros ws Hws; cbn [normalize_parts].
  { cbn. by rewrite app_nil_r. }
  cbn [existsb List.filter].
  destruct (String.eqb p "" || String.eqb p ".") eqn:E1; cbn [negb].
  - rewrite IH by done.
    replace (".." =? p)%string with false; [done|].
    symmetry. apply String.eqb_neq. intros <-. done.
  - rewrite (String.eqb_sym ".." p). destruct (String.eqb p "..") eqn:E2; [done|]. cbn [orb].
    assert (Hp : p <> "") by (intros ->; done).
    assert ((if negb (str_is_empty (str_join "/" ws)) then str_join "/" ws +:+ "/"
             else str_join "/" ws) +:+ p = str_join "/" (ws ++ [p])) as ->.
    { destruct (str_is_empty (str_join "/" ws)) eqn:Ee; cbn [negb].
      - apply str_is_empty_spec in Ee. rewrite Ee.
        by rewrite (str_join_nonempty ws Hws Ee).
      - rewrite str_join_snoc; [by rewrite <- sapp_assoc|]. by intros ->. }
    rewrite IH by set_solver. by rewrite <- app_assoc.
Qed.

(** A part of a split holds no character the whole lacks. *)
Lemma str_split_part_char c s w :
  contains_char c s = false -> w ∈ str_split "/" s -> contains_char c w = false.
Proof.
  revert w; induction s as [|a s IH]; intros w Hc Hw.
  - cbn in Hw. by apply list_elem_of_singleton in Hw as ->.
  - rewrite contains_char_cons, orb_false_iff in Hc. destruct Hc as [Ha Hc]. cbn in Hw.
    destruct (Ascii.eqb a "/").
    + apply elem_of_cons in Hw as [->|Hw]; [done|by apply IH].
    + destruct (str_split "/" s) as [|v vs] eqn:E; [by apply str_split_nonempty in E|].
      apply elem_of_cons in Hw as [->|Hw]; [|apply IH; set_solver].
      rewrite contains_char_cons, Ha, IH; [done..|set_solver].
Qed.

(** ** Properties *)

(** Walking a relative path from a directory below the root: [..] goes up, and
    above the root the walk has escaped. *)
Fixpoint walk (depth : list string) (ws : list string) : option (list string) :=
  match ws with
  | [] => Some depth
  | w :: ws =>
      if String.eqb w "" || String.eqb w "." then walk depth ws
      else if String.eqb w ".." then
        match depth with [] => None | _ => walk (removelast depth) ws end
      else walk (depth ++ [w]) ws
  end.

Lemma walk_normal depth ws :
  (forall w, w ∈ ws -> w <> "" /\ w <> "." /\ w <> "..") -> walk depth ws = Some (depth ++ ws).
Proof.
  revert depth; induction ws as [|w ws IH]; intros depth Hws; cbn; [by rewrite app_nil_r|].
  destruct (Hws w ltac:(set_solver)) as (H1 & H2 & H3).
  apply String.eqb_neq in H1 as ->. apply String.eqb_neq in H2 as ->.
  apply String.eqb_neq in H3 as ->. cbn.
  rewrite IH by set_solver. by rewrite <- app_assoc.
Qed.

(** [relative_path] accepts exactly the well-encoded paths that decode to
    UTF-8 text with no leading slash, backslash, NUL or [..] segment, and gives
    the decoded segments, without empty and [.] ones, joined by slashes. *)
Theorem relative_path_spec `{StaticDeps} path asset :
  relative_path path = Ok asset <->
  let decoded := percent_decode_str (trim_start_matches "/" path) in
  valid_percent_encoding path = true /\ utf8_valid decoded = true /\
  starts_with "/" decoded = false /\ contains_char "\" decoded = false /\
  contains_char "000" decoded = false /\ ".." ∉ str_split "/" decoded /\
  asset = str_join "/" (path_components decoded).
Proof.
  unfold relative_path. cbn zeta. set (decoded := percent_decode_str _).
  destruct (valid_percent_encoding path); cbn [negb]; [|naive_solver].
  destruct (utf8_valid decoded); cbn [negb]; [|naive_solver].
  destruct (starts_with "/" decoded); cbn [orb]; [naive_solver|].
  destruct (contains_char "\" decoded); cbn [orb]; [naive_solver|].
  destruct (contains_char "000" decoded); [naive_solver|].
  rewrite (normalize_parts_spec _ []) by set_solver. cbn [app].
  destruct (existsb _ _) eqn:E.
  - split; [done|]. intros (_ & _ & _ & _ & _ & Hn & _). exfalso. apply Hn.
    apply existsb_elem in E as (w & Hw & Heq). bool_hyps. by subst.
  - rewrite list_find_none_forallb in E. split.
    + intros [= <-]. split_and!; try done. intros Hin. by specialize (E _ Hin).
    + by intros (_ & _ & _ & _ & _ & _ & ->).
Qed.

(** C14. Containment: an accepted path names an asset whose segments are all
    normal, without slash, backslash or NUL, so walking it from the serve root,
    or from any directory below it, never goes up. *)
Theorem relative_path_contained `{StaticDeps} path asset :
  relative_path path = Ok asset ->
  exists ws, asset = str_join "/" ws /\
    (forall w, w ∈ ws -> normal_segment w /\
       contains_char "\" w = false /\ contains_char "000" w = false) /\
    forall depth, walk depth (str_split "/" asset) = Some (depth ++ ws).
Proof.
  intros Hr.
  unfold relative_path in Hr.
  destruct (valid_percent_encoding path); cbn [negb] in Hr; [|done]. cbn zeta in Hr.
  set (decoded := percent_decode_str _) in *.
  destruct (utf8_valid decoded); cbn [negb] in Hr; [|done].
  destruct (starts_with "/" decoded); cbn [orb] in Hr; [done|].
  destruct (contains_char "\" decoded) eqn:Eb; cbn [orb] in Hr; [done|].
  destruct (contains_char "000" decoded) eqn:En; [done|].
  rewrite (normalize_parts_spec _ []) in Hr by set_solver. cbn [app] in Hr.
  destruct (existsb _ _) eqn:E; [done|]. injection Hr as <-.
  rewrite list_find_none_forallb in E.
  set (ws := List.filter _ _).
  assert (Hws : forall w, w ∈ ws -> normal_segment w /\
            contains_char "\" w = false /\ contains_char "000" w = false).
  { intros w Hw. unfold ws in Hw. rewrite list_elem_of_In, List.filter_In in Hw.
    destruct Hw as [Hin Hne]. apply list_elem_of_In in Hin. bool_hyps.
    specialize (E w Hin). bool_hyps.
    split; [|split; by eapply str_split_part_char]. unfold normal_segment.
    split_and!; [done..|congruence|by eapply str_split_free]. }
  exists ws. split; [done|]. split; [done|]. intros depth.
  destruct (decide (ws = [])) as [Hnil|Hne].
  - rewrite Hnil. cbn. by rewrite app_nil_r.
  - rewrite str_split_join by (done || (intros w Hw; apply (Hws w Hw))).
    apply walk_normal. intros w Hw. destruct (Hws w Hw) as [(? & ? & ? & _) _]. done.
Qed.

Lemma relative_path_contained_witness :
  relative_path "/docs//a%20b/./c.txt" = Ok "docs/a b/c.txt" /\
  exists ws, "docs/a b/c.txt" = str_join "/" ws /\
    forall depth, walk depth (str_split "/" "docs/a b/c.txt") = Some (depth ++ ws).
Proof.
  split; [reflexivity|].
  destruct (@relative_path_contained StaticDemo.deps "/docs//a%20b/./c.txt" "docs/a b/c.txt" eq_refl)
    as (ws & H1 & _ & H2).
  exists ws. split; assumption.
Defined.

(** *** Escaping *)

Definition html_special (a : ascii) : bool :=
  Ascii.eqb a "<" || Ascii.eqb a ">" || (byte_val a =? 34)%Z || (byte_val a =? 39)%Z.

(** A byte is escaped to an entity, or is not special and stays. *)
Lemma escape_char_cases a :
  (byte_val a, escape_char a) ∈
     [(38, "&amp;"); (60, "&lt;"); (62, "&gt;"); (34, "&quot;"); (39, "&#39;")]%Z \/
  (a <> "&"%char /\ html_special a = false /\ escape_char a = String a "").
Proof.
  unfold escape_char, html_special.
  destruct (Ascii.eqb_spec a "&") as [->|Hamp]; [left; cbn; set_solver|].
  destruct (Ascii.eqb_spec a "<") as [->|]; [left; cbn; set_solver|].
  destruct (Ascii.eqb_spec a ">") as [->|]; [left; cbn; set_solver|].
  destruct (Z.eqb_spec (byte_val a) 34) as [->|]; [left; set_solver|].
  destruct (Z.eqb_spec (byte_val a) 39) as [->|]; [left; set_solver|].
  by right.
Qed.

Ltac entities H :=
  repeat (apply elem_of_cons in H as [H|H]; [injection H; clear H; intros|]);
  [..|by apply elem_of_nil in H].

Lemma escape_char_inj a b x y :
  escape_char a +:+ x = escape_char b +:+ y -> a = b /\ x = y.
Proof.
  intros Heq.
  destruct (escape_char_cases a) as [Ha|(Ha & _ & Ea)];
    destruct (escape_char_cases b) as [Hb|(Hb & _ & Eb)].
  - entities Ha; entities Hb; match goal with
      Ea : escape_char a = _, Eb : escape_char b = _ |- _ => rewrite Ea, Eb in Heq end;
      cbn in Heq; try discriminate Heq; injection Heq as ->;
      (split; [apply byte_val_inj; congruence|done]).
  - entities Ha; match goal with
      Ea' : escape_char a = _ |- _ => rewrite Ea', Eb in Heq end;
      cbn in Heq; injection Heq; intros; subst; done.
  - entities Hb; match goal with
      Eb' : escape_char b = _ |- _ => rewrite Eb', Ea in Heq end;
      cbn in Heq; injection Heq; intros; subst; done.
  - rewrite Ea, Eb in Heq. cbn in Heq. by injection Heq as -> ->.
Qed.

Lemma escape_char_nonempty a : escape_char a <> "".
Proof.
  destruct (escape_char_cases a) as [Ha|(_ & _ & ->)]; [|done].
  entities Ha; congruence.
Qed.

Lemma escape_char_safe a : str_exists html_special (escape_char a) = false.
Proof.
  destruct (escape_char_cases a) as [Ha|(_ & Hs & ->)]; [|cbn; by rewrite Hs].
  entities Ha; match goal with Ea : escape_char a = _ |- _ => by rewrite Ea end.
Qed.

(** A listing cannot be broken out of: escaped text holds no angle bracket
    and no quote, and the escaping loses nothing (different names stay
    different). *)
Theorem escape_html_safe s :
  str_exists html_special (escape_html s) = false /\
  forall t, escape_html s = escape_html t -> s = t.
Proof.
  split.
  - induction s as [|a s IH]; [done|]. cbn [escape_html].
    by rewrite str_exists_app, escape_char_safe, IH.
  - induction s as [|a s IH]; intros [|b t]; cbn [escape_html]; intros Heq; [done| | |].
    + pose proof (escape_char_nonempty b). by destruct (escape_char b).
    + pose proof (escape_char_nonempty a). by destruct (escape_char a).
    + apply escape_char_inj in Heq as [-> Heq]. f_equal. by apply IH.
Qed.
