(* ===== verification/StaticRange.v ===== *)
(** * Static files: ranges and validators

    [parse_range], the entity tags and the conditional-request logic of
    [arvik-static/src/lib.rs].  A [SystemTime] is in nanoseconds since the Unix
    epoch; lengths and offsets are [u64]. *)
From S2P Require Import Prelude RustStr HttpCrate Body Http StaticPath.
From stdpp Require Import base list strings sets.
From Stdlib Require Import ZArith Lia Ascii String.
Open Scope string_scope.
Open Scope list_scope.

Record ByteRange := mkRange { br_start : Z; br_end : Z }.

Inductive RangeDecision :=
| Full
| Partial (r : ByteRange)
| Unsatisfiable.

(** The range specifier after [bytes=]. *)
Definition parse_spec (spec : string) (len : Z) : RangeDecision :=
  if contains_char "," spec || str_is_empty spec then Full
  else match split_once "-" spec with
  | None => Unsatisfiable
  | Some (start, end_) =>
      if (len =? 0)%Z then Unsatisfiable
      else if str_is_empty start then
        match parse_u64 end_ with
        | None => Unsatisfiable
        | Some suffix =>
            if (suffix =? 0)%Z then Unsatisfiable
            else let take := Z.min suffix len in
                 Partial (mkRange (len - take) (len - 1))
        end
      else
        match parse_u64 start with
        | None => Unsatisfiable
        | Some start =>
            if (len <=? start)%Z then Unsatisfiable
            else if str_is_empty end_ then Partial (mkRange start (len - 1))
            else match parse_u64 end_ with
                 | None => Unsatisfiable
                 | Some e => if (e <? start)%Z then Unsatisfiable
                             else Partial (mkRange start (Z.min e (len - 1)))
                 end
        end
  end.

Definition to_str_ok `{HttpCrate} (v : option string) : option string := v ≫= hv_to_str.

(** [parse_range]. *)
Definition parse_range `{HttpCrate} (value : option string) (len : Z) : RangeDecision :=
  match to_str_ok value with
  | None => Full
  | Some value =>
      match str_strip_prefix "bytes=" value with
      | None => Full
      | Some spec => parse_spec spec len
      end
  end.

(** [etag_matches]: weak comparison. *)
Definition etag_matches (candidate etag : string) : bool :=
  String.eqb candidate etag
  || bool_decide (str_strip_prefix "W/" candidate = Some etag)
  || bool_decide (str_strip_prefix "W/" etag = Some candidate).

Definition NANOS : Z := 1000000000.

(** [duration_since(UNIX_EPOCH).unwrap_or_default()], in nanoseconds. *)
Definition since_epoch (t : Z) : Z := if (t <? 0)%Z then 0 else t.

Definition unix_seconds (t : Z) : Z := (since_epoch t / NANOS)%Z.

(** [fs_etag]. *)
Definition fs_etag (len : Z) (modified : option Z) : string :=
  let d := match modified with Some t => since_epoch t | None => 0%Z end in
  dquote +:+ to_hex len +:+ "-" +:+ to_hex (d / NANOS) +:+ "-" +:+ to_hex (d mod NANOS) +:+ dquote.

(** [embedded_etag] of a 32-byte hash. *)
Definition embedded_etag (hash : list Z) : string :=
  dquote +:+ concat_bytes (map to_hex02 hash) +:+ dquote.

Section Conditional.
Context `{HttpCrate} `{StaticDeps}.

(** [is_not_modified]. *)
Definition is_not_modified (req : Request) (etag : string) (modified : option Z) : bool :=
  let by_date :=
    match modified, hm_get (req_headers req) IF_MODIFIED_SINCE with
    | Some modified, Some value =>
        match hv_to_str value ≫= parse_http_date with
        | Some since => (unix_seconds modified <=? unix_seconds since)%Z
        | None => false
        end
    | _, _ => false
    end in
  match hm_get (req_headers req) IF_NONE_MATCH with
  | Some value =>
      match hv_to_str value, hv_to_str etag with
      | Some header, Some etag =>
          existsb (fun candidate => String.eqb candidate "*" || etag_matches candidate etag)
            (map trim (str_split "," header))
      | _, _ => by_date
      end
  | None => by_date
  end.

(** [if_range_allows_partial]. *)
Definition if_range_allows_partial (req : Request) (etag : string) (modified : option Z) : bool :=
  match hm_get (req_headers req) IF_RANGE with
  | None => true
  | Some value =>
      match hv_to_str value with
      | None => false
      | Some value =>
          if starts_with dquote value || starts_with "W/" value then
            negb (starts_with "W/" value) && String.eqb value etag
          else
            match modified with
            | Some m => match parse_http_date value with
                        | Some date => (date =? m)%Z
                        | None => false
                        end
            | None => false
            end
      end
  end.

(** *** Responses *)

Definition opt_header_string (k : string) (v : option string) (b : Builder) : Builder :=
  match v with Some v => rb_header_string k v b | None => b end.

(** [not_modified]. *)
Definition not_modified (etag : string) (modified : option Z) (cache_control : option string)
    (vary_accept_encoding : bool) : Response :=
  let b := rb_header ETAG etag (rb_status 304 rb_new) in
  let b := opt_header_string LAST_MODIFIED (option_map fmt_http_date modified) b in
  let b := opt_header CACHE_CONTROL cache_control b in
  let b := if vary_accept_encoding then rb_header_str VARY "Accept-Encoding" b else b in
  rb_empty b.

(** [range_not_satisfiable]. *)
Definition range_not_satisfiable (len : Z) : Response :=
  rb_empty (rb_header_string CONTENT_RANGE ("bytes */" +:+ to_dec len) (rb_status 416 rb_new)).

Definition method_not_allowed_static : Response :=
  rb_text "Method Not Allowed" (rb_header_str ALLOW "GET, HEAD" (rb_status 405 rb_new)).

Definition not_found_static : Response :=
  rb_text "Not Found" (rb_header_str CONTENT_TYPE TEXT_PLAIN_UTF8 (rb_status 404 rb_new)).
End Conditional.

(** ** Ranges against RFC 9110

    What a [bytes=] specifier asks for: the last [n] bytes, the bytes from [s],
    or the bytes [s] to [e]. *)
Inductive RangeSpec :=
| Suffix (n : Z)
| From (s : Z)
| FromTo (s e : Z).

(** The bytes it selects of a file of [len] bytes; [None] is unsatisfiable. *)
Definition select (r : RangeSpec) (len : Z) : option ByteRange :=
  match r with
  | Suffix n => if ((0 <? n) && (0 <? len))%Z
                then Some (mkRange (Z.max 0 (len - n)) (len - 1)) else None
  | From s => if (s <? len)%Z then Some (mkRange s (len - 1)) else None
  | FromTo s e => if ((s <? len) && (s <=? e))%Z
                  then Some (mkRange s (Z.min e (len - 1))) else None
  end.

Definition render (r : RangeSpec) : string :=
  match r with
  | Suffix n => "bytes=-" +:+ to_dec n
  | From s => "bytes=" +:+ to_dec s +:+ "-"
  | FromTo s e => "bytes=" +:+ to_dec s +:+ "-" +:+ to_dec e
  end.

Definition spec_in_u64 (r : RangeSpec) : Prop :=
  match r with Suffix n => in_u64 n | From s => in_u64 s | FromTo s e => in_u64 s /\ in_u64 e end.

Lemma to_dec_no_char c n : (0 <= n)%Z -> is_ascii_digit c = false -> contains_char c (to_dec n) = false.
Proof.
  intros Hn Hc. destruct (to_dec_spec n Hn) as (_ & Hd & _). by apply digits_no_char.
Qed.

Lemma parse_u64_to_dec n : in_u64 n -> parse_u64 (to_dec n) = Some n.
Proof. apply parse_unsigned_to_dec. Qed.

Lemma str_is_empty_to_dec n : (0 <= n)%Z -> str_is_empty (to_dec n) = false.
Proof. intros Hn. destruct (to_dec_spec n Hn) as (Hne & _). by destruct (to_dec n). Qed.

Lemma split_once_app c l r : contains_char c l = false -> split_once c (l +:+ String c r) = Some (l, r).
Proof. intros. by apply split_once_spec. Qed.

Lemma parse_spec_two a b len :
  contains_char "," (a +:+ String "-" b) = false -> contains_char "-" a = false ->
  parse_spec (a +:+ String "-" b) len =
    if (len =? 0)%Z then Unsatisfiable
    else if str_is_empty a then
      match parse_u64 b with
      | None => Unsatisfiable
      | Some suffix => if (suffix =? 0)%Z then Unsatisfiable
                       else Partial (mkRange (len - Z.min suffix len) (len - 1))
      end
    else match parse_u64 a with
         | None => Unsatisfiable
         | Some start =>
             if (len <=? start)%Z then Unsatisfiable
             else if str_is_empty b then Partial (mkRange start (len - 1))
             else match parse_u64 b with
                  | None => Unsatisfiable
                  | Some e => if (e <? start)%Z then Unsatisfiable
                              else Partial (mkRange start (Z.min e (len - 1)))
                  end
         end.
Proof.
  intros Hc Ha. unfold parse_spec. rewrite Hc, split_once_app by done.
  by destruct a.
Qed.

(** Every satisfiable decision is in bounds. *)
Lemma parse_range_bounds `{HttpCrate} v len s e :
  (0 <= len)%Z -> parse_range v len = Partial (mkRange s e) -> (0 <= s <= e /\ e < len)%Z.
Proof.
  intros Hlen. unfold parse_range, parse_spec.
  destruct (to_str_ok v) as [value|]; [|done].
  destruct (str_strip_prefix _ value) as [spec|]; [|done].
  destruct (_ || _); [done|]. destruct (split_once "-" spec) as [[a b]|]; [|done].
  destruct (len =? 0)%Z eqn:E0; [done|]. bool_hyps.
  destruct (str_is_empty a).
  - destruct (parse_u64 b) as [n|] eqn:Eb; [|done]. apply parse_u64_bound in Eb as [? _].
    destruct (n =? 0)%Z eqn:En; [done|]. bool_hyps. cbn zeta. intros [= <- <-]. lia.
  - destruct (parse_u64 a) as [n|] eqn:Ea; [|done]. apply parse_u64_bound in Ea as [? _].
    destruct (len <=? n)%Z eqn:En; [done|]. bool_hyps.
    destruct (str_is_empty b); [intros [= <- <-]; lia|].
    destruct (parse_u64 b) as [m|]; [|done].
    destruct (m <? n)%Z eqn:Em; [done|]. bool_hyps. intros [= <- <-]. lia.
Qed.

(** ** Properties *)

(** C26. Range requests: every [Partial] decision on a file of [len] bytes, for
    whatever header value, is a nonempty interval inside the file; and each of
    the three forms of a single byte range, rendered in decimal, is decided as
    RFC 9110 selects it (clipped to the file, unsatisfiable when it is empty). *)
Theorem parse_range_correct `{HL : HttpLaws} len :
  in_u64 len ->
  (forall v s e, parse_range v len = Partial (mkRange s e) -> (0 <= s <= e /\ e < len)%Z) /\
  forall r, spec_in_u64 r ->
    parse_range (Some (render r)) len =
      match select r len with Some br => Partial br | None => Unsatisfiable end.
Proof.
  intros [Hlen _]. split; [intros v s e; by apply parse_range_bounds|].
  intros r Hr. unfold parse_range, to_str_ok. cbn [mbind option_bind].
  assert (Hz : forall n, in_u64 n -> (0 <= n)%Z) by (unfold in_u64; lia).
  destruct r as [n|s|s e]; cbn [spec_in_u64 render] in *.
  - rewrite hv_to_str_visible
      by (rewrite str_forall_app, to_dec_visible by auto; done).
    change ("bytes=-" +:+ to_dec n) with ("bytes=" +:+ ("" +:+ String "-" (to_dec n))).
    rewrite (proj2 (str_strip_prefix_spec _ _ _) eq_refl), parse_spec_two; [| |done].
    2:{ change ("" +:+ ?x) with x. by rewrite contains_char_cons, to_dec_no_char by auto. }
    cbn [str_is_empty]. rewrite parse_u64_to_dec by done. specialize (Hz n Hr). cbn [select].
    destruct (Z.eqb_spec len 0), (Z.eqb_spec n 0), (Z.ltb_spec 0 n), (Z.ltb_spec 0 len);
      cbn [andb]; try lia; try done. do 2 f_equal. lia.
  - rewrite hv_to_str_visible
      by (rewrite !str_forall_app, to_dec_visible by auto; done).
    change (to_dec s +:+ "-") with (to_dec s +:+ String "-" "").
    rewrite (proj2 (str_strip_prefix_spec _ _ _) eq_refl), parse_spec_two.
    2:{ rewrite contains_char_app, to_dec_no_char by auto. done. }
    2:{ apply to_dec_no_char; auto. }
    rewrite str_is_empty_to_dec, parse_u64_to_dec by auto. specialize (Hz s Hr).
    cbn [select str_is_empty].
    destruct (Z.eqb_spec len 0), (Z.leb_spec len s), (Z.ltb_spec s len); try lia; done.
  - destruct Hr as [Hs He]. rewrite hv_to_str_visible
      by (rewrite !str_forall_app, !to_dec_visible by auto; done).
    change (to_dec s +:+ "-" +:+ to_dec e) with (to_dec s +:+ String "-" (to_dec e)).
    rewrite (proj2 (str_strip_prefix_spec _ _ _) eq_refl), parse_spec_two.
    2:{ rewrite contains_char_app, contains_char_cons, !to_dec_no_char by auto. done. }
    2:{ apply to_dec_no_char; auto. }
    rewrite !str_is_empty_to_dec, !parse_u64_to_dec by auto.
    pose proof (Hz s Hs). cbn [select].
    destruct (Z.eqb_spec len 0), (Z.leb_spec len s), (Z.ltb_spec s len), (Z.ltb_spec e s),
      (Z.leb_spec s e); cbn [andb]; try lia; done.
Qed.

Lemma parse_range_correct_witness :
  in_u64 11 /\ spec_in_u64 (FromTo 2 100) /\
  parse_range (Some (render (FromTo 2 100))) 11 = Partial (mkRange 2 10).
Proof.
  assert (H1 : in_u64 11) by (unfold in_u64, u64_max; lia).
  assert (H2 : spec_in_u64 (FromTo 2 100)) by (unfold spec_in_u64, in_u64, u64_max; lia).
  split; [exact H1|]. split; [exact H2|].
  rewrite (proj2 (parse_range_correct 11 H1) _ H2). reflexivity.
Defined.

(** An [If-Range] date is compared with the modification time at full
    resolution: a file whose time has a sub-second part never satisfies it,
    the file's own [Last-Modified] included. *)
Theorem if_range_subsecond_never `{HL : HttpLaws} `{SL : StaticLaws} req etag m value :
  (m mod NANOS <> 0)%Z ->
  hm_get (req_headers req) IF_RANGE = Some value ->
  starts_with dquote value = false -> starts_with "W/" value = false ->
  if_range_allows_partial req etag (Some m) = false.
Proof.
  intros Hm Hg Hq Hw. unfold if_range_allows_partial. rewrite Hg.
  destruct (hv_to_str value) as [s|] eqn:Es; [|done].
  apply hv_to_str_id in Es as ->. rewrite Hq, Hw. cbn [orb].
  destruct (parse_http_date value) as [d|] eqn:Ed; [|done].
  apply http_date_seconds in Ed. apply Z.eqb_neq. intros ->. done.
Qed.
