(* ===== verification/StaticServe.v ===== *)
(** * Static files: the file and directory services

    [ServeDir] and [ServeFile] of [arvik-static/src/lib.rs] over a file system
    given by its answers.  Opening a path, asking for its metadata and resolving
    it are independent answers, so nothing is assumed about a tree that changes
    between two calls. *)
From S2P Require Import Prelude RustStr HttpCrate Body Http Accept StaticPath StaticRange.
From stdpp Require Import base list strings sets.
From Stdlib Require Import ZArith Lia Ascii String.
Open Scope string_scope.
Open Scope list_scope.

(** ** The file system *)

Record Metadata := mkMeta {
  m_len : Z;
  m_modified : option Z;
  m_is_dir : bool;
  m_is_file : bool }.

(** An open file: its descriptor's metadata, whether it seeks, its bytes. *)
Record File := mkFile {
  f_metadata : option Metadata;
  f_seek_ok : bool;
  f_bytes : string }.

(** A directory entry: its (lossy) name and whether its type is a directory. *)
Record DirEntry := mkDirEntry { de_name : string; de_is_dir : option bool }.

Class FileSystem : Type := {
  fs_open : string -> option File;
  fs_metadata : string -> option Metadata;
  (** [canonicalize]: the components of the resolved path. *)
  fs_canonicalize : string -> option (list string);
  fs_read_dir : string -> option (list DirEntry) }.

Definition DEFAULT_CHUNK_SIZE : Z := 64 * 1024.

(** [Path::starts_with] on components. *)
Fixpoint comps_prefix (p q : list string) : bool :=
  match p, q with
  | [], _ => true
  | a :: p, b :: q => String.eqb a b && comps_prefix p q
  | _ :: _, [] => false
  end.

(** [sort] of the listing's names. *)
Fixpoint insert_sorted (s : string) (l : list string) : list string :=
  match l with
  | [] => [s]
  | x :: l' => if String.leb s x then s :: l else x :: insert_sorted s l'
  end.
Definition sort_names (l : list string) : list string := fold_right insert_sorted [] l.

Section Model.
Context `{HttpCrate} `{StaticDeps}.

Definition is_get_or_head (m : Method) : bool := method_eqb m GET || method_eqb m HEAD.

(** [combined_accept_encoding]. *)
Definition combined_accept_encoding (req : Request) : string :=
  fold_left (fun combined value =>
      match hv_to_str value with
      | Some v => (if negb (str_is_empty combined) then combined +:+ ", " else combined) +:+ v
      | None => combined
      end) (hm_get_all (req_headers req) ACCEPT_ENCODING) "".

Definition is_some {A} (o : option A) : bool := match o with Some _ => true | None => false end.

(** [accepted_precompressed]. *)
Definition accepted_precompressed (req : Request) (want_br want_gzip : bool) : bool * bool :=
  if negb (want_br || want_gzip) then (false, false)
  else let combined := combined_accept_encoding req in
       let ok enc := is_some (negotiate [enc] combined) in
       (want_br && ok "br", want_gzip && ok "gzip").

(** *** Serving an asset

    The part [serve_fs_asset] and [serve_embedded_asset] have in common: the
    validators, the range and the headers; [mk_body] reads the bytes. *)
Definition serve_validated (len : Z) (modified : option Z) (etag : string)
    (content_type : string) (content_encoding : option string) (vary : bool)
    (mk_body : option ByteRange -> Body)
    (req : Request) (head : bool) (cache_control : option string) : Response :=
  if is_not_modified req etag modified
  then not_modified etag modified cache_control vary
  else
    let decision :=
      if if_range_allows_partial req etag modified
      then parse_range (hm_get (req_headers req) RANGE) len
      else Full in
    match decision with
    | Unsatisfiable => range_not_satisfiable len
    | Full | Partial _ =>
        let range := match decision with Partial r => Some r | _ => None end in
        let body_len := match range with
                        | Some r => (br_end r - br_start r + 1)%Z
                        | None => len
                        end in
        let b := rb_status (if is_some range then 206 else 200) rb_new in
        let b := rb_header CONTENT_TYPE content_type b in
        let b := rb_header_string CONTENT_LENGTH (to_dec body_len) b in
        let b := rb_header_str ACCEPT_RANGES "bytes" b in
        let b := rb_header ETAG etag b in
        let b := opt_header_string LAST_MODIFIED (option_map fmt_http_date modified) b in
        let b := opt_header CACHE_CONTROL cache_control b in
        let b := opt_header CONTENT_ENCODING content_encoding b in
        let b := if vary then rb_header_str VARY "Accept-Encoding" b else b in
        let b := match range with
                 | Some r => rb_header_string CONTENT_RANGE
                     ("bytes " +:+ to_dec (br_start r) +:+ "-" +:+ to_dec (br_end r)
                      +:+ "/" +:+ to_dec len) b
                 | None => b
                 end in
        if head then rb_empty b else rb_body (mk_body range) b
    end.

(** [struct FsCandidate]. *)
Record FsCandidate := mkCandidate {
  c_path : string;
  c_content_type : string;
  c_content_encoding : option string;
  c_vary : bool }.

(** [file_body] and [ranged_file_body]. *)
Definition file_body (f : File) (chunk_size : Z) : Body :=
  body_from_stream (map Ok (reader_chunks chunk_size (f_bytes f))).

Definition ranged_file_body (f : File) (r : ByteRange) (chunk_size : Z) : Body :=
  if negb (f_seek_ok f) then body_empty
  else
    let taken := str_take (Z.to_nat (br_end r - br_start r + 1))
                   (str_drop (Z.to_nat (br_start r)) (f_bytes f)) in
    body_from_stream (map Ok (reader_chunks chunk_size taken)).

Context `{FileSystem}.

(** [serve_fs_asset]: open first, then ask the descriptor. *)
Definition serve_fs_asset (candidate : FsCandidate) (req : Request) (head : bool)
    (chunk_size : Z) (cache_control : option string) : Response :=
  match fs_open (c_path candidate) with
  | None => not_found_static
  | Some file =>
      match f_metadata file with
      | None => not_found_static
      | Some metadata =>
          serve_validated (m_len metadata) (m_modified metadata)
            (fs_etag (m_len metadata) (m_modified metadata))
            (c_content_type candidate) (c_content_encoding candidate) (c_vary candidate)
            (fun range => match range with
                          | Some r => ranged_file_body file r chunk_size
                          | None => file_body file chunk_size
                          end) req head cache_control
      end
  end.

(** A probe of a precompressed sibling: one open, then its metadata. *)
Definition probe_file (path : string) : bool :=
  match fs_open path with
  | Some f => match f_metadata f with Some m => m_is_file m | None => false end
  | None => false
  end.

(** The order both [select_file]s probe: [.br], [.gz], then plain. *)
Definition select_encoded (path content_type : string) (accepts_br accepts_gzip vary : bool)
    (plain_ok : bool) : result FsCandidate unit :=
  let br_path := append_suffix path ".br" in
  let gz_path := append_suffix path ".gz" in
  if accepts_br && probe_file br_path
  then Ok (mkCandidate br_path content_type (Some "br") vary)
  else if accepts_gzip && probe_file gz_path
  then Ok (mkCandidate gz_path content_type (Some "gzip") vary)
  else if negb plain_ok then Err tt
  else Ok (mkCandidate path content_type None vary).

Definition redirect_to_slash (req : Request) : Response :=
  let uri := match ext_original_uri (req_ext req) with Some u => u | None => req_uri req end in
  rb_empty (rb_header_string LOCATION (slash_location uri) (rb_status 307 rb_new)).

(** [directory_listing_response]. *)
Definition directory_listing_response (dir request_path : string) : Response :=
  match fs_read_dir dir with
  | None => not_found_static
  | Some es =>
      listing_response request_path
        (sort_names (map (fun e => de_name e +:+
           match de_is_dir e with Some true => "/" | _ => "" end) es))
  end.

Context {W : Type}.

(** *** [struct ServeDir] *)
Record ServeDir := mkServeDir {
  sd_root : string;
  sd_fallback : option (Service W);
  sd_gzip : bool;
  sd_br : bool;
  sd_call_fallback_405 : bool;
  sd_append_index : bool;
  sd_listing : bool;
  sd_chunk_size : Z;
  sd_cache_control : option string;
  sd_follow_symlinks : bool;
  sd_canonical_root : option (option (list string)) }.

Definition serve_dir_new (path : string) : ServeDir :=
  mkServeDir path None false false false true false DEFAULT_CHUNK_SIZE None false None.

Definition sd_with_follow_symlinks (enabled : bool) (d : ServeDir) : ServeDir :=
  mkServeDir (sd_root d) (sd_fallback d) (sd_gzip d) (sd_br d) (sd_call_fallback_405 d)
    (sd_append_index d) (sd_listing d) (sd_chunk_size d) (sd_cache_control d) enabled
    (sd_canonical_root d).
Definition sd_not_found_service (s : Service W) (d : ServeDir) : ServeDir :=
  mkServeDir (sd_root d) (Some s) (sd_gzip d) (sd_br d) (sd_call_fallback_405 d)
    (sd_append_index d) (sd_listing d) (sd_chunk_size d) (sd_cache_control d)
    (sd_follow_symlinks d) (sd_canonical_root d).
Definition sd_precompressed_gzip (d : ServeDir) : ServeDir :=
  mkServeDir (sd_root d) (sd_fallback d) true (sd_br d) (sd_call_fallback_405 d)
    (sd_append_index d) (sd_listing d) (sd_chunk_size d) (sd_cache_control d)
    (sd_follow_symlinks d) (sd_canonical_root d).
Definition sd_precompressed_br (d : ServeDir) : ServeDir :=
  mkServeDir (sd_root d) (sd_fallback d) (sd_gzip d) true (sd_call_fallback_405 d)
    (sd_append_index d) (sd_listing d) (sd_chunk_size d) (sd_cache_control d)
    (sd_follow_symlinks d) (sd_canonical_root d).
Definition sd_call_fallback_on_method_not_allowed (b : bool) (d : ServeDir) : ServeDir :=
  mkServeDir (sd_root d) (sd_fallback d) (sd_gzip d) (sd_br d) b
    (sd_append_index d) (sd_listing d) (sd_chunk_size d) (sd_cache_control d)
    (sd_follow_symlinks d) (sd_canonical_root d).
Definition sd_append_index_html_on_directories (b : bool) (d : ServeDir) : ServeDir :=
  mkServeDir (sd_root d) (sd_fallback d) (sd_gzip d) (sd_br d) (sd_call_fallback_405 d)
    b (sd_listing d) (sd_chunk_size d) (sd_cache_control d)
    (sd_follow_symlinks d) (sd_canonical_root d).
Definition sd_directory_listing (b : bool) (d : ServeDir) : ServeDir :=
  mkServeDir (sd_root d) (sd_fallback d) (sd_gzip d) (sd_br d) (sd_call_fallback_405 d)
    (sd_append_index d) b (sd_chunk_size d) (sd_cache_control d)
    (sd_follow_symlinks d) (sd_canonical_root d).
Definition sd_with_buf_chunk_size (n : Z) (d : ServeDir) : ServeDir :=
  mkServeDir (sd_root d) (sd_fallback d) (sd_gzip d) (sd_br d) (sd_call_fallback_405 d)
    (sd_append_index d) (sd_listing d) (if (0 <? n)%Z then n else sd_chunk_size d)
    (sd_cache_control d) (sd_follow_symlinks d) (sd_canonical_root d).
(** [cache_control]: [None] is the panic on an invalid header value. *)
Definition sd_with_cache_control (value : string) (d : ServeDir) : option ServeDir :=
  v ← hv_from_str value;
  Some (mkServeDir (sd_root d) (sd_fallback d) (sd_gzip d) (sd_br d) (sd_call_fallback_405 d)
    (sd_append_index d) (sd_listing d) (sd_chunk_size d) (Some v)
    (sd_follow_symlinks d) (sd_canonical_root d)).

Definition sd_call_fallback (d : ServeDir) (req : Request) (w : W) : Response * W :=
  match sd_fallback d with
  | Some service => service req w
  | None => (not_found_static, w)
  end.

(** [path_contained]: the answer and the filled cell. *)
Definition path_contained (root : string) (cached_root : option (option (list string)))
    (path : string) : bool * option (option (list string)) :=
  let canonical_root := match cached_root with
                        | Some r => r
                        | None => fs_canonicalize root
                        end in
  (match canonical_root with
   | None => false
   | Some canonical_root =>
       match fs_canonicalize path with
       | Some canonical_path => comps_prefix canonical_root canonical_path
       | None => false
       end
   end, Some canonical_root).

Definition sd_select_file (d : ServeDir) (path : string) (existing : Metadata)
    (asset_path : string) (accepts_br accepts_gzip : bool) : result FsCandidate unit :=
  select_encoded path (content_type asset_path) accepts_br accepts_gzip
    (sd_gzip d || sd_br d) (m_is_file existing).

(** [ServeDir::handle_directory]. *)
Definition sd_handle_directory (d : ServeDir) (req : Request) (asset_path dir : string) (w : W)
  : Response * W :=
  if negb (ends_with_char "/" (uri_path (req_uri req))) && (sd_append_index d || sd_listing d)
  then (redirect_to_slash req, w)
  else
    let index_path := path_join dir INDEX_FILE in
    let index_meta := fs_metadata index_path in
    match (if sd_append_index d
           then match index_meta with
                | Some m => if m_is_file m then Some m else None
                | None => None
                end
           else None) with
    | Some index_meta =>
        let '(accepts_br, accepts_gzip) := accepted_precompressed req (sd_br d) (sd_gzip d) in
        match sd_select_file d index_path index_meta (join_asset_path asset_path INDEX_FILE)
                accepts_br accepts_gzip with
        | Ok asset =>
            (serve_fs_asset asset req false (sd_chunk_size d) (sd_cache_control d), w)
        | Err _ => sd_call_fallback d req w
        end
    | None =>
        if sd_listing d
        then (directory_listing_response dir (uri_path (req_uri req)), w)
        else sd_call_fallback d req w
    end.

(** [ServeDir::handle]. *)
Definition sd_handle (d : ServeDir) (req : Request) (w : W) : Response * W :=
  if negb (is_get_or_head (req_method req)) then
    if sd_call_fallback_405 d then sd_call_fallback d req w
    else (method_not_allowed_static, w)
  else
    let head := method_eqb (req_method req) HEAD in
    match relative_path (uri_path (req_uri req)) with
    | Err _ => sd_call_fallback d req w
    | Ok asset_path =>
        let candidate := path_join (sd_root d) asset_path in
        if negb (sd_follow_symlinks d)
           && negb (fst (path_contained (sd_root d) (sd_canonical_root d) candidate))
        then sd_call_fallback d req w
        else
          match fs_metadata candidate with
          | None => sd_call_fallback d req w
          | Some metadata =>
              if m_is_dir metadata then sd_handle_directory d req asset_path candidate w
              else
                let '(accepts_br, accepts_gzip) :=
                  accepted_precompressed req (sd_br d) (sd_gzip d) in
                match sd_select_file d candidate metadata asset_path accepts_br accepts_gzip with
                | Ok asset =>
                    (serve_fs_asset asset req head (sd_chunk_size d) (sd_cache_control d), w)
                | Err _ => sd_call_fallback d req w
                end
          end
    end.

(** [ServeDir::call]: a clone handles the request, the service is unchanged. *)
Definition sd_call (d : ServeDir) (req : Request) (w : W) : Response * W * ServeDir :=
  (sd_handle d req w, d).

(** *** [struct ServeFile] *)
Record ServeFile := mkServeFile {
  sf_path : string;
  sf_mime : string;
  sf_gzip : bool;
  sf_br : bool;
  sf_chunk_size : Z;
  sf_cache_control : option string }.

Definition serve_file_new (path : string) : ServeFile :=
  mkServeFile path (content_type path) false false DEFAULT_CHUNK_SIZE None.
(** [new_with_mime]: [None] is the panic on an invalid header value. *)
Definition serve_file_new_with_mime (path mime : string) : option ServeFile :=
  match hv_from_str mime with
  | Some mime => Some (mkServeFile path mime false false DEFAULT_CHUNK_SIZE None)
  | None => None
  end.
Definition sf_precompressed_gzip (f : ServeFile) : ServeFile :=
  mkServeFile (sf_path f) (sf_mime f) true (sf_br f) (sf_chunk_size f) (sf_cache_control f).
Definition sf_precompressed_br (f : ServeFile) : ServeFile :=
  mkServeFile (sf_path f) (sf_mime f) (sf_gzip f) true (sf_chunk_size f) (sf_cache_control f).
Definition sf_with_buf_chunk_size (n : Z) (f : ServeFile) : ServeFile :=
  mkServeFile (sf_path f) (sf_mime f) (sf_gzip f) (sf_br f)
    (if (0 <? n)%Z then n else sf_chunk_size f) (sf_cache_control f).
Definition sf_with_cache_control (value : string) (f : ServeFile) : option ServeFile :=
  v ← hv_from_str value;
  Some (mkServeFile (sf_path f) (sf_mime f) (sf_gzip f) (sf_br f) (sf_chunk_size f) (Some v)).

Definition sf_select_file (f : ServeFile) (accepts_br accepts_gzip : bool)
  : result FsCandidate unit :=
  select_encoded (sf_path f) (sf_mime f) accepts_br accepts_gzip (sf_gzip f || sf_br f)
    (match fs_metadata (sf_path f) with Some m => m_is_file m | None => false end).

(** [ServeFile::handle]. *)
Definition sf_handle (f : ServeFile) (req : Request) : Response :=
  if negb (is_get_or_head (req_method req)) then method_not_allowed_static
  else
    let head := method_eqb (req_method req) HEAD in
    let '(accepts_br, accepts_gzip) := accepted_precompressed req (sf_br f) (sf_gzip f) in
    match sf_select_file f accepts_br accepts_gzip with
    | Ok asset => serve_fs_asset asset req head (sf_chunk_size f) (sf_cache_control f)
    | Err _ => not_found_static
    end.
End Model.

Arguments ServeDir {_} W.

(** ** Lemmas *)

Lemma length_str_take n s : String.length (str_take n s) = Nat.min n (String.length s).
Proof. revert s; induction n; intros [|a s]; cbn; try done. by rewrite IHn. Qed.

Lemma length_str_drop n s : String.length (str_drop n s) = (String.length s - n)%nat.
Proof. revert s; induction n; intros [|a s]; cbn; try done. Qed.

(** The bytes [s..e] of a file. *)
Definition slice (bytes : string) (r : ByteRange) : string :=
  str_take (Z.to_nat (br_end r - br_start r + 1)) (str_drop (Z.to_nat (br_start r)) bytes).

Lemma slice_len bytes r :
  (0 <= br_start r <= br_end r)%Z -> (br_end r < str_len bytes)%Z ->
  str_len (slice bytes r) = (br_end r - br_start r + 1)%Z.
Proof.
  unfold slice, str_len. intros. rewrite length_str_take, length_str_drop. lia.
Qed.

Lemma collect_stream `{HttpCrate} (chunks : list string) :
  to_bytes (body_from_stream (map Ok chunks)) = Ok (concat_bytes chunks).
Proof. unfold to_bytes. cbn. induction chunks; cbn; [done|]. by rewrite IHchunks. Qed.

Section Facts.
Context `{HL : HttpLaws} `{SL : StaticLaws}.

Lemma file_body_bytes f n : to_bytes (file_body f n) = Ok (f_bytes f).
Proof. unfold file_body. by rewrite collect_stream, reader_chunks_concat. Qed.

Lemma ranged_file_body_bytes f r n :
  f_seek_ok f = true -> to_bytes (ranged_file_body f r n) = Ok (slice (f_bytes f) r).
Proof.
  intros Hs. unfold ranged_file_body. rewrite Hs. cbn [negb].
  by rewrite collect_stream, reader_chunks_concat.
Qed.

(** What a validated asset request comes to. *)
Inductive Outcome :=
| NotModified
| NotSatisfiable
| Whole
| Slice (r : ByteRange).

Definition asset_outcome (req : Request) (etag : string) (modified : option Z) (len : Z)
  : Outcome :=
  if is_not_modified req etag modified then NotModified
  else if if_range_allows_partial req etag modified then
    match parse_range (hm_get (req_headers req) RANGE) len with
    | Full => Whole
    | Partial r => Slice r
    | Unsatisfiable => NotSatisfiable
    end
  else Whole.

(** The status, the [Content-Length], [Content-Range] and [ETag] values and
    the body of a response. *)
Definition response_is (res : Response) (status : Z) (content_length content_range etag : list string)
    (body : string) : Prop :=
  res_status res = status /\
  hm_get_all (res_headers res) CONTENT_LENGTH = content_length /\
  hm_get_all (res_headers res) CONTENT_RANGE = content_range /\
  hm_get_all (res_headers res) ETAG = etag /\
  to_bytes (res_body res) = Ok body.

(** The headers that describe the file, on an answer with its bytes. *)
Definition describes (res : Response) (content_type : string) (content_encoding cache_control : option string)
    (modified : option Z) (vary : bool) : Prop :=
  hm_get_all (res_headers res) CONTENT_TYPE = [content_type] /\
  hm_get_all (res_headers res) ACCEPT_RANGES = ["bytes"] /\
  hm_get_all (res_headers res) LAST_MODIFIED = option_list (option_map fmt_http_date modified) /\
  hm_get_all (res_headers res) CACHE_CONTROL = option_list cache_control /\
  hm_get_all (res_headers res) CONTENT_ENCODING = option_list content_encoding /\
  hm_get_all (res_headers res) VARY = if vary then ["Accept-Encoding"] else [].

Lemma rb_empty_body body b :
  res_status (rb_empty b) = res_status (rb_body body b) /\ res_headers (rb_empty b) = res_headers (rb_body body b).
Proof. by destruct b as [[]|]. Qed.

(** [HEAD] is answered as [GET] is, but for the body. *)
Lemma serve_validated_head len modified etag ct ce vary mk req cc :
  let res hd := serve_validated len modified etag ct ce vary mk req hd cc in
  res_status (res true) = res_status (res false) /\ res_headers (res true) = res_headers (res false).
Proof.
  cbn zeta. unfold serve_validated. destruct (is_not_modified req etag modified); [done|].
  cbn zeta. destruct (if if_range_allows_partial req etag modified then _ else Full); [..|done].
  all: apply rb_empty_body.
Qed.

Lemma in_range_nonneg v len s e :
  (0 <= len)%Z -> parse_range v len = Partial (mkRange s e) ->
  (0 <= s)%Z /\ (0 <= e)%Z /\ (0 <= e - s + 1)%Z.
Proof. intros Hl Hp. pose proof (parse_range_bounds v len s e Hl Hp). lia. Qed.

Lemma content_range_visible s e len :
  (0 <= s)%Z -> (0 <= e)%Z -> (0 <= len)%Z ->
  str_forall visible_ascii ("bytes " +:+ to_dec s +:+ "-" +:+ to_dec e +:+ "/" +:+ to_dec len)
    = true.
Proof. intros. by rewrite !str_forall_app, !to_dec_visible by done. Qed.

Ltac build :=
  cbn [rb_status rb_new rb_header rb_body rb_empty opt_header opt_header_string option_map
       rb_header_string rb_header_str res_status res_headers res_body is_some].

(** The response as a function of the outcome. *)
Lemma serve_validated_spec len modified etag ct ce vary mk req (hd : bool) cc :
  (0 <= len)%Z ->
  let res := serve_validated len modified etag ct ce vary mk req hd cc in
  match asset_outcome req etag modified len with
  | NotModified => response_is res 304 [] [] [etag] ""
  | NotSatisfiable => response_is res 416 [] ["bytes */" +:+ to_dec len] [] ""
  | Whole => describes res ct ce cc modified vary /\
      forall b, to_bytes (mk None) = Ok b -> response_is res 200 [to_dec len] [] [etag] (if hd then "" else b)
  | Slice r => describes res ct ce cc modified vary /\
      forall b, to_bytes (mk (Some r)) = Ok b ->
      response_is res 206 [to_dec (br_end r - br_start r + 1)]
        ["bytes " +:+ to_dec (br_start r) +:+ "-" +:+ to_dec (br_end r) +:+ "/" +:+ to_dec len]
        [etag] (if hd then "" else b)
  end.
Proof.
  intros Hlen. unfold asset_outcome, serve_validated, response_is, describes. cbn zeta.
  assert (Hae : forall b, rb_header_str VARY "Accept-Encoding" b = rb_header VARY "Accept-Encoding" b)
    by (intros; unfold rb_header_str; by rewrite hv_from_str_visible).
  assert (Hac : forall b, rb_header_str ACCEPT_RANGES "bytes" b = rb_header ACCEPT_RANGES "bytes" b)
    by (intros; unfold rb_header_str; by rewrite hv_from_str_visible).
  assert (Hlm : forall b, opt_header_string LAST_MODIFIED (option_map fmt_http_date modified) b
                    = opt_header LAST_MODIFIED (option_map fmt_http_date modified) b).
  { intros. destruct modified; [|done]. cbn. unfold rb_header_string.
    by rewrite hv_from_string_visible by apply http_date_visible. }
  assert (Hcl : forall n b, (0 <= n)%Z -> rb_header_string CONTENT_LENGTH (to_dec n) b
                    = rb_header CONTENT_LENGTH (to_dec n) b).
  { intros. unfold rb_header_string. by rewrite hv_from_string_visible by by apply to_dec_visible. }
  rewrite !Hac, !Hlm.
  destruct (is_not_modified req etag modified).
  { unfold not_modified. rewrite Hlm, Hae. destruct modified, cc, vary; build;
      split_and!; headers; done. }
  set (d := if if_range_allows_partial req etag modified
            then parse_range (hm_get (req_headers req) RANGE) len else Full).
  assert (Hpart : forall r, d = Partial r ->
     (0 <= br_start r)%Z /\ (0 <= br_end r)%Z /\ (0 <= br_end r - br_start r + 1)%Z).
  { intros [s e] Hd. cbn. unfold d in Hd. destruct (if_range_allows_partial _ _ _); [|done].
    by eapply in_range_nonneg. }
  assert ((if if_range_allows_partial req etag modified
           then match parse_range (hm_get (req_headers req) RANGE) len with
                | Full => Whole | Partial r => Slice r | Unsatisfiable => NotSatisfiable end
           else Whole)
          = match d with Full => Whole | Partial r => Slice r | Unsatisfiable => NotSatisfiable end)
    as ->.
  { unfold d. by destruct (if_range_allows_partial _ _ _). }
  destruct d as [|r|].
  - build. rewrite Hcl, Hae by done.
    destruct modified, cc, ce, vary, hd; build; (split; [split_and!; headers; done|]);
      intros b Hb; split_and!; headers; done.
  - destruct (Hpart r eq_refl) as (Hs & He & Hn). build. rewrite Hcl, Hae by done.
    unfold rb_header_string.
    rewrite hv_from_string_visible by by apply content_range_visible.
    destruct modified, cc, ce, vary, hd; build; (split; [split_and!; headers; done|]);
      intros b Hb; split_and!; headers; done.
  - unfold range_not_satisfiable, rb_header_string.
    rewrite hv_from_string_visible by by rewrite str_forall_app, to_dec_visible.
    build. split_and!; headers; done.
Qed.

(** A slice is a satisfiable range. *)
Lemma asset_outcome_slice req etag modified len r :
  (0 <= len)%Z -> asset_outcome req etag modified len = Slice r ->
  (0 <= br_start r <= br_end r /\ br_end r < len)%Z.
Proof.
  intros Hlen. unfold asset_outcome.
  destruct (is_not_modified _ _ _); [done|].
  destruct (if_range_allows_partial _ _ _); [|done].
  destruct (parse_range _ _) as [|[s e]|] eqn:Ep; intros; simplify_eq.
  by eapply parse_range_bounds.
Qed.

(** A contained path has a canonical path under the canonical root. *)
Lemma comps_prefix_spec p q : comps_prefix p q = true <-> exists r, q = p ++ r.
Proof.
  revert q; induction p as [|a p IH]; intros q; cbn; [split; [by exists q|done]|].
  destruct q as [|b q]; [naive_solver|].
  rewrite andb_true_iff, String.eqb_eq, IH. naive_solver.
Qed.

Lemma path_contained_spec `{FileSystem} root path :
  fst (path_contained root None path) = true ->
  exists croot below, fs_canonicalize root = Some croot /\
    fs_canonicalize path = Some (croot ++ below).
Proof.
  unfold path_contained. cbn [fst].
  destruct (fs_canonicalize root) as [croot|]; [|done].
  destruct (fs_canonicalize path) as [canon|]; [|done].
  intros [below ->]%comps_prefix_spec. by exists croot, below.
Qed.

(** The candidates the probes choose from. *)
Lemma select_encoded_ok `{FileSystem} path ct abr agz vary plain c :
  select_encoded path ct abr agz vary plain = Ok c ->
  exists p ce, c = mkCandidate p ct ce vary /\
    (abr = true /\ probe_file (append_suffix path ".br") = true /\ p = append_suffix path ".br" /\ ce = Some "br" \/
     agz = true /\ probe_file (append_suffix path ".gz") = true /\ p = append_suffix path ".gz" /\ ce = Some "gzip" \/
     plain = true /\ p = path /\ ce = None).
Proof.
  unfold select_encoded. intros Hs. repeat case_match; simplify_eq; bool_hyps.
  all: eexists _, _; (split; [reflexivity|]); tauto.
Qed.

(** A sibling is asked for when it is configured and the client accepts its coding. *)
Lemma accepted_precompressed_spec req br gz :
  accepted_precompressed req br gz =
    (br && accepts (combined_accept_encoding req) "br", gz && accepts (combined_accept_encoding req) "gzip").
Proof.
  unfold accepted_precompressed. assert (forall c, c <> "" -> c <> "*" ->
    is_some (negotiate [c] (combined_accept_encoding req)) = accepts (combined_accept_encoding req) c) as Ha.
  { intros c Hc Hs. cbn. rewrite candidate_allowed_spec by done. by destruct (accepts _ c). }
  rewrite !Ha by done. by destruct br, gz.
Qed.
End Facts.

(** ** Properties *)

Section Properties.
Context `{HL : HttpLaws} `{SL : StaticLaws} `{FileSystem}.


(** C13. Symlink containment: a [ServeDir] that follows no symlinks answers a
    request with its fallback (or 404), with 405, or else from the root joined
    with a contained asset path whose canonical path lies under the canonical
    root: as the directory it is, or with that file or, when they are configured
    and exist and the client accepts their coding, its [.br] or [.gz] sibling. *)
Theorem serve_dir_contained {W} (d : ServeDir W) req w :
  sd_follow_symlinks d = false -> sd_canonical_root d = None ->
  sd_handle d req w = sd_call_fallback d req w \/
  sd_handle d req w = (method_not_allowed_static, w) \/
  exists asset root below m,
    let candidate := path_join (sd_root d) asset in
    relative_path (uri_path (req_uri req)) = Ok asset /\
    fs_canonicalize (sd_root d) = Some root /\
    fs_canonicalize candidate = Some (root ++ below) /\
    fs_metadata candidate = Some m /\
    (m_is_dir m = true /\ sd_handle d req w = sd_handle_directory d req asset candidate w \/
     m_is_dir m = false /\
     exists p ce,
       let accepted := accepts (combined_accept_encoding req) in
       (sd_br d = true /\ accepted "br" = true /\ probe_file (append_suffix candidate ".br") = true /\
          p = append_suffix candidate ".br" /\ ce = Some "br" \/
        sd_gzip d = true /\ accepted "gzip" = true /\ probe_file (append_suffix candidate ".gz") = true /\
          p = append_suffix candidate ".gz" /\ ce = Some "gzip" \/
        m_is_file m = true /\ p = candidate /\ ce = None) /\
       sd_handle d req w =
         (serve_fs_asset (mkCandidate p (content_type asset) ce (sd_gzip d || sd_br d)) req
            (method_eqb (req_method req) HEAD) (sd_chunk_size d) (sd_cache_control d), w)).
Proof.
  intros Hf Hc. unfold sd_handle. rewrite Hf, Hc.
  destruct (is_get_or_head _); cbn [negb]; [|destruct (sd_call_fallback_405 d); eauto].
  destruct (relative_path _) as [asset|] eqn:Er; [|by left]. cbn [andb].
  destruct (fst (path_contained _ _ _)) eqn:Ep; cbn [negb]; [|by left].
  apply path_contained_spec in Ep as (root & below & Hroot & Hcand).
  destruct (fs_metadata _) as [m|] eqn:Em; [|by left].
  destruct (m_is_dir m) eqn:Ed.
  { right. right. exists asset, root, below, m. split_and!; try done. by left. }
  rewrite accepted_precompressed_spec.
  destruct (sd_select_file _ _ _ _ _ _) as [c|] eqn:Es; [|by left].
  right. right. exists asset, root, below, m. split_and!; try done. right. split; [done|].
  apply select_encoded_ok in Es as (p & ce & -> & Hin). exists p, ce. split; [|done].
  destruct Hin as [(Ha & Hi)|[(Ha & Hi)|Hi]]; [left|right; left|right; right; done]; bool_hyps; tauto.
Qed.
End Properties.

(** ** A concrete file system

    A root [/srv] with a file, a precompressed sibling and a directory whose
    [index.html] is a symbolic link out of the root. *)
Module DemoFS.
Definition meta (n : Z) : Metadata := mkMeta n (Some 5000000000%Z) false true.
Definition dir_meta : Metadata := mkMeta 0 None true false.
Definition file (s : string) : File := mkFile (Some (meta (str_len s))) true s.

Definition files : list (string * (string * list string)) :=
  [("/srv/a.txt", ("hello world", ["srv"; "a.txt"]));
   ("/srv/a.txt.gz", ("gz", ["srv"; "a.txt.gz"]));
   ("/srv/docs/index.html", ("root:x:0:0", ["etc"; "passwd"]))].
Definition dirs : list (string * list string) :=
  [("/srv", ["srv"]); ("/srv/docs", ["srv"; "docs"])].
Definition find {A} (p : string) (l : list (string * A)) : option A :=
  option_map snd (List.find (fun kv => String.eqb (fst kv) p) l).

#[export] Instance fs : FileSystem := {
  fs_open p := option_map (fun f => file (fst f)) (find p files);
  fs_metadata p :=
    match find p files with
    | Some f => Some (meta (str_len (fst f)))
    | None => option_map (fun _ => dir_meta) (find p dirs)
    end;
  fs_canonicalize p :=
    match find p files with Some f => Some (snd f) | None => find p dirs end;
  fs_read_dir p := if String.eqb p "/srv/docs" then Some [mkDirEntry "index.html" (Some false)]
                   else None }.

Definition service : ServeDir (list string) := serve_dir_new "/srv".
End DemoFS.
#[export] Existing Instance DemoFS.fs.


Lemma serve_dir_contained_witness :
  exists asset root below m,
    let candidate := path_join "/srv" asset in
    relative_path "/a.txt" = Ok asset /\ fs_canonicalize "/srv" = Some root /\
    fs_canonicalize candidate = Some (root ++ below) /\ fs_metadata candidate = Some m /\
    m_is_dir m = false.
Proof.
  destruct (serve_dir_contained DemoFS.service (Demo.request GET "/a.txt") [] eq_refl eq_refl)
    as [H|[H|(asset & root & below & m & H1 & H2 & H3 & H4 & H5)]].
  - exfalso. apply (f_equal (fun r => res_status (fst r))) in H. vm_compute in H. discriminate H.
  - exfalso. apply (f_equal (fun r => res_status (fst r))) in H. vm_compute in H. discriminate H.
  - exists asset, root, below, m. cbn zeta. repeat (split; [assumption|]).
    vm_compute in H1. injection H1 as <-. vm_compute in H4. by injection H4 as <-.
Defined.

(** The containment check is made for the requested path alone: a directory
    inside the root whose [index.html] links out of it serves the link's
    target, although symlinks are not followed. *)
Theorem index_symlink_escapes :
  sd_follow_symlinks DemoFS.service = false /\
  fst (path_contained "/srv" None "/srv/docs/index.html") = false /\
  let res := fst (sd_handle DemoFS.service (Demo.request GET "/docs/") []) in
  res_status res = 200%Z /\ to_bytes (res_body res) = Ok "root:x:0:0".
Proof. by vm_compute. Qed.

(** A [HEAD] for a directory index is answered with the body. *)
Theorem head_on_index_has_body :
  to_bytes (res_body (fst (sd_handle DemoFS.service (Demo.request HEAD "/docs/") [])))
  = Ok "root:x:0:0".
Proof. by vm_compute. Qed.
