(* ===== verification/StaticEmbed.v ===== *)
(** * Static files: assets embedded in the binary

    [EmbeddedFileService] of [arvik-static/src/lib.rs] over an embed type ([get]
    and [iter] of [rust-embed]), with the process-wide cache of asset facts
    ([embedded_meta]) as explicit state.  The service is proved equal to one
    without a cache, for one embed type. *)
From S2P Require Import Prelude RustStr HttpCrate Body Http Accept StaticPath StaticRange StaticServe.
From stdpp Require Import base list strings sets gmap.
From Stdlib Require Import ZArith Lia Ascii String.
Open Scope string_scope.
Open Scope list_scope.

(** [rust_embed::EmbeddedFile]: its bytes, hash and modification time (in
    seconds). *)
Record EmbeddedFile := mkEmbedded {
  e_data : string;
  e_sha256 : list Z;
  e_last_modified : option Z }.

(** [A: RustEmbed]. *)
Record Embed := mkEmbed {
  emb_get : string -> option EmbeddedFile;
  emb_iter : list string }.

(** [struct EmbeddedMeta]. *)
Record EmbeddedMeta := mkEMeta { em_modified : option Z; em_etag : string }.

Definition fresh_meta (sha256 : list Z) (last_modified : option Z) : EmbeddedMeta :=
  mkEMeta (option_map (fun seconds => seconds * 1000000000)%Z last_modified)
          (embedded_etag sha256).

(** The [static CACHE], keyed by the asset path. *)
Notation Cache := (gmap string EmbeddedMeta).

(** [embedded_meta]. *)
Definition embedded_meta (asset_path : string) (sha256 : list Z) (last_modified : option Z)
    (cache : Cache) : EmbeddedMeta * Cache :=
  match cache !! asset_path with
  | Some meta => (meta, cache)
  | None => let meta := fresh_meta sha256 last_modified in (meta, <[asset_path := meta]> cache)
  end.

(** [struct EmbeddedAsset]. *)
Record EmbeddedAsset := mkAsset {
  ea_bytes : string;
  ea_len : Z;
  ea_modified : option Z;
  ea_etag : string;
  ea_content_type : string;
  ea_content_encoding : option string;
  ea_vary : bool }.

Definition asset_of (meta : EmbeddedMeta) (file : EmbeddedFile) (content_type : string)
    (content_encoding : option string) (vary : bool) : EmbeddedAsset :=
  mkAsset (e_data file) (str_len (e_data file)) (em_modified meta) (em_etag meta)
    content_type content_encoding vary.

(** [EmbeddedAsset::new]. *)
Definition embedded_asset_new (asset_path : string) (file : EmbeddedFile) (content_type : string)
    (content_encoding : option string) (vary : bool) (cache : Cache) : EmbeddedAsset * Cache :=
  let '(meta, cache) := embedded_meta asset_path (e_sha256 file) (e_last_modified file) cache in
  (asset_of meta file content_type content_encoding vary, cache).

(** The prefix of a directory's entries. *)
Definition dir_prefix (asset_path : string) : string :=
  if str_is_empty asset_path then "" else trim_end_matches "/" asset_path +:+ "/".

(** [BTreeSet::insert]. *)
Fixpoint btree_insert (s : string) (l : list string) : list string :=
  match l with
  | [] => [s]
  | x :: l' => if String.eqb s x then l
               else if String.leb s x then s :: l else x :: btree_insert s l'
  end.

Section Model.
Context `{HttpCrate} `{StaticDeps}.

(** [serve_embedded_asset]; a slice of [Bytes] is an in-memory body. *)
Definition serve_embedded_asset (asset : EmbeddedAsset) (req : Request) (head : bool)
    (cache_control : option string) : Response :=
  serve_validated (ea_len asset) (ea_modified asset) (ea_etag asset) (ea_content_type asset)
    (ea_content_encoding asset) (ea_vary asset)
    (fun range => match range with
                  | Some r => body_from_bytes (slice (ea_bytes asset) r)
                  | None => body_from_bytes (ea_bytes asset)
                  end) req head cache_control.

(** [embedded_directory_listing]. *)
Definition embedded_entry (prefix path : string) : option string :=
  if negb (starts_with prefix path) || (str_len path =? str_len prefix)%Z then None
  else
    let rest := str_drop (String.length prefix) path in
    match str_split "/" rest with
    | [] => None
    | first :: _ => Some (first +:+ (if contains_char "/" rest then "/" else ""))
    end.

Definition embedded_directory_listing (e : Embed) (asset_path request_path : string) : Response :=
  let prefix := dir_prefix asset_path in
  listing_response request_path
    (fold_left (fun entries path => match embedded_entry prefix path with
                                    | Some entry => btree_insert entry entries
                                    | None => entries
                                    end) (emb_iter e) []).

Context {W : Type}.

(** [struct EmbeddedFileService<A>]. *)
Record EmbeddedFileService := mkEmbeddedService {
  es_fallback : option (Service W);
  es_gzip : bool;
  es_br : bool;
  es_call_fallback_405 : bool;
  es_append_index : bool;
  es_listing : bool;
  es_cache_control : option string }.

Definition embedded_new : EmbeddedFileService :=
  mkEmbeddedService None false false false true false None.
Definition es_not_found_service (f : Service W) (s : EmbeddedFileService) : EmbeddedFileService :=
  mkEmbeddedService (Some f) (es_gzip s) (es_br s) (es_call_fallback_405 s)
    (es_append_index s) (es_listing s) (es_cache_control s).
Definition es_precompressed_gzip (s : EmbeddedFileService) : EmbeddedFileService :=
  mkEmbeddedService (es_fallback s) true (es_br s) (es_call_fallback_405 s)
    (es_append_index s) (es_listing s) (es_cache_control s).
Definition es_precompressed_br (s : EmbeddedFileService) : EmbeddedFileService :=
  mkEmbeddedService (es_fallback s) (es_gzip s) true (es_call_fallback_405 s)
    (es_append_index s) (es_listing s) (es_cache_control s).
Definition es_call_fallback_on_method_not_allowed (b : bool) (s : EmbeddedFileService) :=
  mkEmbeddedService (es_fallback s) (es_gzip s) (es_br s) b
    (es_append_index s) (es_listing s) (es_cache_control s).
Definition es_append_index_html_on_directories (b : bool) (s : EmbeddedFileService) :=
  mkEmbeddedService (es_fallback s) (es_gzip s) (es_br s) (es_call_fallback_405 s)
    b (es_listing s) (es_cache_control s).
Definition es_directory_listing (b : bool) (s : EmbeddedFileService) :=
  mkEmbeddedService (es_fallback s) (es_gzip s) (es_br s) (es_call_fallback_405 s)
    (es_append_index s) b (es_cache_control s).
(** [cache_control]: [None] is the panic on an invalid header value. *)
Definition es_with_cache_control (value : string) (s : EmbeddedFileService)
  : option EmbeddedFileService :=
  v ← hv_from_str value;
  Some (mkEmbeddedService (es_fallback s) (es_gzip s) (es_br s) (es_call_fallback_405 s)
    (es_append_index s) (es_listing s) (Some v)).

Definition es_call_fallback (s : EmbeddedFileService) (req : Request) (w : W) : Response * W :=
  match es_fallback s with
  | Some service => service req w
  | None => (not_found_static, w)
  end.

Definition es_vary (s : EmbeddedFileService) : bool := es_gzip s || es_br s.

(** Which embedded file [select_file] settles on: its key, its file and its
    encoding. *)
Definition es_choose (s : EmbeddedFileService) (e : Embed) (asset_path : string) (req : Request)
  : option (string * EmbeddedFile * option string) :=
  let '(accepts_br, accepts_gzip) := accepted_precompressed req (es_br s) (es_gzip s) in
  let br_path := asset_path +:+ ".br" in
  let gz_path := asset_path +:+ ".gz" in
  let plain := option_map (fun file => (asset_path, file, None)) (emb_get e asset_path) in
  let gz := if accepts_gzip then
              match emb_get e gz_path with
              | Some file => Some (gz_path, file, Some "gzip")
              | None => plain
              end
            else plain in
  if accepts_br then
    match emb_get e br_path with
    | Some file => Some (br_path, file, Some "br")
    | None => gz
    end
  else gz.

(** [EmbeddedFileService::select_file]. *)
Definition es_select_file (s : EmbeddedFileService) (e : Embed) (asset_path : string)
    (req : Request) (cache : Cache) : option EmbeddedAsset * Cache :=
  match es_choose s e asset_path req with
  | None => (None, cache)
  | Some (key, file, encoding) =>
      let '(asset, cache) :=
        embedded_asset_new key file (content_type asset_path) encoding (es_vary s) cache in
      (Some asset, cache)
  end.

Definition embedded_dir_exists (e : Embed) (asset_path : string) : bool :=
  let prefix := dir_prefix asset_path in
  existsb (fun path => starts_with prefix path && (str_len prefix <? str_len path)%Z)
    (emb_iter e).

(** [EmbeddedFileService::handle_directory]. *)
Definition es_handle_directory (s : EmbeddedFileService) (e : Embed) (req : Request)
    (asset_path : string) (cache : Cache) (w : W) : Response * Cache * W :=
  if negb (ends_with_char "/" (uri_path (req_uri req))) && (es_append_index s || es_listing s)
  then (redirect_to_slash req, cache, w)
  else
    let '(index, cache) :=
      if es_append_index s
      then es_select_file s e (join_asset_path asset_path INDEX_FILE) req cache
      else (None, cache) in
    match index with
    | Some asset => (serve_embedded_asset asset req false (es_cache_control s), cache, w)
    | None =>
        if es_listing s
        then (embedded_directory_listing e asset_path (uri_path (req_uri req)), cache, w)
        else let '(res, w) := es_call_fallback s req w in (res, cache, w)
    end.

(** [EmbeddedFileService::handle]. *)
Definition es_handle (s : EmbeddedFileService) (e : Embed) (req : Request) (cache : Cache) (w : W)
  : Response * Cache * W :=
  let fallback cache := let '(res, w) := es_call_fallback s req w in (res, cache, w) in
  if negb (is_get_or_head (req_method req)) then
    if es_call_fallback_405 s then fallback cache
    else (method_not_allowed_static, cache, w)
  else
    let head := method_eqb (req_method req) HEAD in
    match relative_path (uri_path (req_uri req)) with
    | Err _ => fallback cache
    | Ok asset_path =>
        let '(found, cache) := es_select_file s e asset_path req cache in
        match found with
        | Some asset => (serve_embedded_asset asset req head (es_cache_control s), cache, w)
        | None =>
            if embedded_dir_exists e asset_path
            then es_handle_directory s e req asset_path cache w
            else fallback cache
        end
    end.
End Model.

Arguments EmbeddedFileService {_} W.

(** ** The service without a cache *)

Section Spec.
Context `{HttpCrate} `{StaticDeps} {W : Type}.

Definition fresh_of (file : EmbeddedFile) : EmbeddedMeta :=
  fresh_meta (e_sha256 file) (e_last_modified file).

Definition asset_spec (s : EmbeddedFileService W) (e : Embed) (asset_path : string)
    (req : Request) : option EmbeddedAsset :=
  match es_choose s e asset_path req with
  | None => None
  | Some (_, file, encoding) =>
      Some (asset_of (fresh_of file) file (content_type asset_path) encoding (es_vary s))
  end.

(** What a request is answered with: the asset, else the directory's index,
    its listing or the redirect to it, else the fallback. *)
Definition embedded_spec (s : EmbeddedFileService W) (e : Embed) (req : Request) (w : W)
  : Response * W :=
  if negb (is_get_or_head (req_method req)) then
    if es_call_fallback_405 s then es_call_fallback s req w else (method_not_allowed_static, w)
  else
    match relative_path (uri_path (req_uri req)) with
    | Err _ => es_call_fallback s req w
    | Ok asset_path =>
        match asset_spec s e asset_path req with
        | Some asset =>
            (serve_embedded_asset asset req (method_eqb (req_method req) HEAD)
               (es_cache_control s), w)
        | None =>
            if negb (embedded_dir_exists e asset_path) then es_call_fallback s req w
            else if negb (ends_with_char "/" (uri_path (req_uri req)))
                    && (es_append_index s || es_listing s)
            then (redirect_to_slash req, w)
            else
              match (if es_append_index s
                     then asset_spec s e (join_asset_path asset_path INDEX_FILE) req
                     else None) with
              | Some asset => (serve_embedded_asset asset req false (es_cache_control s), w)
              | None =>
                  if es_listing s
                  then (embedded_directory_listing e asset_path (uri_path (req_uri req)), w)
                  else es_call_fallback s req w
              end
        end
    end.

(** A cache filled by one embed type holds the facts of its files. *)
Definition cache_ok (e : Embed) (cache : Cache) : Prop :=
  forall path meta, cache !! path = Some meta ->
    exists file, emb_get e path = Some file /\ meta = fresh_of file.

Lemma cache_ok_empty e : cache_ok e ∅.
Proof. intros p m Hl. by apply (lookup_empty_Some (M:=gmap string)) in Hl. Qed.

Lemma embedded_meta_ok e path file cache :
  cache_ok e cache -> emb_get e path = Some file ->
  exists cache', embedded_meta path (e_sha256 file) (e_last_modified file) cache
                   = (fresh_of file, cache') /\ cache_ok e cache'.
Proof.
  intros Hc Hf. unfold embedded_meta. destruct (cache !! path) as [m|] eqn:Em.
  - exists cache. split; [|done]. destruct (Hc _ _ Em) as (f & Hf' & ->). by simplify_eq.
  - eexists. split; [reflexivity|]. intros p m.
    destruct (decide (p = path)) as [->|Hne].
    + rewrite lookup_insert_eq. intros [= <-]. by exists file.
    + rewrite lookup_insert_ne by done. apply Hc.
Qed.

(** The file chosen for a path is one the embed type has under its key. *)
Lemma es_choose_get (s : EmbeddedFileService W) e path req key file enc :
  es_choose s e path req = Some (key, file, enc) -> emb_get e key = Some file.
Proof.
  unfold es_choose, option_map. intros Hc. repeat case_match; simplify_eq; done.
Qed.

Lemma es_select_file_ok (s : EmbeddedFileService W) e path req cache :
  cache_ok e cache ->
  exists cache', es_select_file s e path req cache = (asset_spec s e path req, cache') /\
    cache_ok e cache'.
Proof.
  intros Hc. unfold es_select_file, asset_spec, embedded_asset_new.
  destruct (es_choose s e path req) as [[[key file] enc]|] eqn:Ech; [|by exists cache].
  destruct (embedded_meta_ok e key file cache Hc (es_choose_get _ _ _ _ _ _ _ Ech))
    as (cache' & -> & Hc').
  by exists cache'.
Qed.
End Spec.

(** ** Properties *)

(** The metadata cache is transparent: as long as the cache was filled by
    one embed type, [EmbeddedFileService] answers as the service that computes
    every asset's facts afresh, and leaves such a cache. *)
Theorem embedded_cache_transparent `{HttpCrate} `{StaticDeps} {W}
    (s : EmbeddedFileService W) e req cache w :
  cache_ok e cache ->
  exists cache', es_handle s e req cache w
      = (fst (embedded_spec s e req w), cache', snd (embedded_spec s e req w)) /\
    cache_ok e cache'.
Proof.
  intros Hc. unfold es_handle, embedded_spec, es_handle_directory.
  assert (Hfb : forall c : Cache, (let '(res, w) := es_call_fallback s req w in (res, c, w))
                  = (fst (es_call_fallback s req w), c, snd (es_call_fallback s req w)))
    by (intros; by destruct (es_call_fallback s req w)).
  destruct (is_get_or_head _); cbn [negb].
  2:{ destruct (es_call_fallback_405 s); [rewrite Hfb|]; eauto. }
  destruct (relative_path _) as [path|]; [|rewrite Hfb; eauto].
  destruct (es_select_file_ok s e path req cache Hc) as (c1 & -> & Hc1).
  destruct (asset_spec s e path req) as [asset|]; [eauto|].
  destruct (embedded_dir_exists e path); cbn [negb]; [|rewrite Hfb; eauto].
  destruct (negb _ && _); [eauto|].
  assert (exists c2, (if es_append_index s
      then es_select_file s e (join_asset_path path INDEX_FILE) req c1 else (None, c1))
      = (if es_append_index s then asset_spec s e (join_asset_path path INDEX_FILE) req else None, c2)
      /\ cache_ok e c2) as (c2 & -> & Hc2).
  { destruct (es_append_index s); [by apply es_select_file_ok|eauto]. }
  destruct (if es_append_index s then _ else _); [eauto|].
  destruct (es_listing s); [eauto|]. rewrite Hfb. eauto.
Qed.

(** Serving an embedded asset: an empty 304 for a current validator, an
    empty 416 for an unsatisfiable range, exactly the requested bytes with 206,
    or all of them with 200, with the matching [Content-Length] and the headers that
    describe the file. *)
Theorem serve_embedded_asset_correct `{HL : HttpLaws} `{SL : StaticLaws} file meta ct enc vary req hd cc :
  let asset := asset_of meta file ct enc vary in
  let res := serve_embedded_asset asset req hd cc in
  let len := str_len (e_data file) in
  match asset_outcome req (em_etag meta) (em_modified meta) len with
  | NotModified => response_is res 304 [] [] [em_etag meta] ""
  | NotSatisfiable => response_is res 416 [] ["bytes */" +:+ to_dec len] [] ""
  | Whole => describes res ct enc cc (em_modified meta) vary /\
      response_is res 200 [to_dec len] [] [em_etag meta] (if hd then "" else e_data file)
  | Slice r =>
      (0 <= br_start r <= br_end r /\ br_end r < len)%Z /\ describes res ct enc cc (em_modified meta) vary /\
      response_is res 206 [to_dec (str_len (slice (e_data file) r))]
        ["bytes " +:+ to_dec (br_start r) +:+ "-" +:+ to_dec (br_end r) +:+ "/" +:+ to_dec len]
        [em_etag meta] (if hd then "" else slice (e_data file) r)
  end.
Proof.
  cbn zeta. unfold serve_embedded_asset. cbn [asset_of ea_len ea_modified ea_etag ea_content_type
    ea_content_encoding ea_vary ea_bytes].
  pose proof (str_len_nonneg (e_data file)) as Hnn.
  match goal with |- context [serve_validated _ _ ?et ?ct ?ce ?v ?mk ?rq _ _] =>
    pose proof (serve_validated_spec _ (em_modified meta) et ct ce v mk rq hd cc Hnn) as Hs
  end.
  cbn zeta in Hs. destruct (asset_outcome _ _ _ _) as [| | |r] eqn:Eo; [exact Hs|exact Hs| |].
  - split; [apply Hs|]. apply Hs, to_bytes_from_bytes.
  - pose proof (asset_outcome_slice _ _ _ _ _ Hnn Eo) as Hb. split; [done|]. split; [apply Hs|].
    rewrite slice_len by lia. by apply Hs, to_bytes_from_bytes.
Qed.

(** ** Concrete embed types *)
Module DemoEmbed.
Definition type_of (files : list (string * EmbeddedFile)) : Embed :=
  mkEmbed (fun p => option_map snd (List.find (fun kv => String.eqb (fst kv) p) files))
          (map fst files).
Definition site : Embed := type_of [("app.js", mkEmbedded "let x = 1" [1; 2]%Z (Some 10%Z))].
Definition admin : Embed := type_of [("app.js", mkEmbedded "let y = 2" [7; 8]%Z (Some 99%Z))].
Definition get : Request := Demo.request GET "/app.js".
Definition etag_of (e : Embed) (c : Cache) : list string :=
  hm_get_all (res_headers (fst (fst (es_handle (W:=unit) embedded_new e get c tt)))) ETAG.
Definition after (e : Embed) (c : Cache) : Cache :=
  snd (fst (es_handle (W:=unit) embedded_new e get c tt)).
End DemoEmbed.

Lemma embedded_cache_transparent_witness :
  let c := DemoEmbed.after DemoEmbed.site ∅ in
  cache_ok DemoEmbed.site c /\
  exists c', es_handle embedded_new DemoEmbed.site DemoEmbed.get c tt
     = (fst (embedded_spec embedded_new DemoEmbed.site DemoEmbed.get tt), c', tt) /\
    cache_ok DemoEmbed.site c'.
Proof.
  cbn zeta.
  destruct (embedded_cache_transparent embedded_new DemoEmbed.site DemoEmbed.get ∅ tt
              (cache_ok_empty _)) as (c1 & H1 & Hc1).
  unfold DemoEmbed.after. rewrite H1. cbn [fst snd]. split; [exact Hc1|].
  destruct (embedded_cache_transparent embedded_new DemoEmbed.site DemoEmbed.get c1 tt Hc1)
    as (c2 & H2 & Hc2).
  exists c2. split; [|exact Hc2]. rewrite H2. reflexivity.
Defined.

Lemma serve_embedded_asset_correct_witness :
  let file := mkEmbedded "let x = 1" [1; 2]%Z (Some 10%Z) in
  response_is (serve_embedded_asset (asset_of (fresh_of file) file "text/javascript" None false)
    (Demo.with_header RANGE "bytes=-1" DemoEmbed.get) false None)
    206 ["1"] ["bytes 8-8/9"] [embedded_etag [1; 2]%Z] "1".
Proof.
  pose proof (serve_embedded_asset_correct (mkEmbedded "let x = 1" [1; 2]%Z (Some 10%Z))
    (fresh_of (mkEmbedded "let x = 1" [1; 2]%Z (Some 10%Z))) "text/javascript" None false
    (Demo.with_header RANGE "bytes=-1" DemoEmbed.get) false None) as H.
  cbn zeta in H.
  match type of H with match ?o with _ => _ end =>
    replace o with (Slice (mkRange 8 8)) in H by (vm_compute; reflexivity) end.
  exact (proj2 (proj2 H)).
Defined.

(** The cache is keyed by the path alone: once one embed type has been served,
    another type's asset of the same path is sent with the first one's ETag, so
    a client that revalidates it is told that nothing changed. *)
Theorem embedded_cache_crosses_types :
  let c := DemoEmbed.after DemoEmbed.site ∅ in
  DemoEmbed.etag_of DemoEmbed.admin c = DemoEmbed.etag_of DemoEmbed.site ∅ /\
  DemoEmbed.etag_of DemoEmbed.admin c <> DemoEmbed.etag_of DemoEmbed.admin ∅.
Proof. split; vm_compute; [reflexivity|discriminate]. Qed.
