(* ===== verification/Cors.v ===== *)
(** * CORS

    [arvik-middleware/src/cors.rs]: the configuration with its derived header
    values, the builders (a panic is [None]), preflight replies and the headers
    of actual responses.  Credentials are proved never to go with a wildcard or
    a mirrored origin, for every layer the builders can make. *)
From S2P Require Import Prelude RustStr HttpCrate Body Http.
From stdpp Require Import base list strings sets.
From Stdlib Require Import ZArith Lia Ascii String.
Open Scope string_scope.
Open Scope list_scope.

Inductive AllowOrigin :=
| OriginAny
| OriginList (l : list string)
| OriginMirror.

Inductive AllowMethods :=
| MethodsAny
| MethodsList (l : list Method).

Inductive AllowHeaders :=
| HeadersAny
| HeadersMirror
| HeadersList (l : list string).

Section Model.
Context `{HttpCrate}.

(** [struct CorsConfig]. *)
Record CorsConfig := mkCors {
  allow_origins : AllowOrigin;
  allow_methods : AllowMethods;
  allow_headers : AllowHeaders;
  expose_headers : list string;
  allow_credentials : bool;
  max_age_secs : option Z;
  methods_hv : string;
  allow_headers_list_hv : option string;
  expose_hv : option string;
  max_age_hv : option string }.

(** [CorsConfig::derive_from]. *)
Definition derive_from (origins : AllowOrigin) (methods : AllowMethods) (headers : AllowHeaders)
    (expose : list string) (credentials : bool) (max_age : option Z) : CorsConfig :=
  mkCors origins methods headers expose credentials max_age
    (match methods with
     | MethodsAny => "GET, HEAD, POST, PUT, DELETE, PATCH, OPTIONS"
     | MethodsList ms =>
         match hv_from_str (str_join ", " (map method_as_str ms)) with
         | Some v => v
         | None => "GET"
         end
     end)
    (match headers with
     | HeadersList (h :: hs) => hv_from_str (str_join ", " (h :: hs))
     | _ => None
     end)
    (match expose with [] => None | _ => hv_from_str (str_join ", " expose) end)
    (match max_age with Some age => hv_from_str (to_dec age) | None => None end).

Definition cors_new : CorsConfig :=
  derive_from (OriginList []) (MethodsList [GET; POST; PUT; DELETE; PATCH]) (HeadersList [])
    [] false (Some 3600%Z).
Definition cors_permissive : CorsConfig :=
  derive_from OriginAny MethodsAny HeadersAny [] false (Some 86400%Z).
Definition cors_very_permissive : CorsConfig :=
  derive_from OriginMirror MethodsAny HeadersMirror [] false (Some 86400%Z).

(** The combinations [assert_credentials_safe] lets pass. *)
Definition credentials_safe (cfg : CorsConfig) : bool :=
  negb (allow_credentials cfg &&
        match allow_origins cfg with OriginMirror | OriginAny => true | OriginList _ => false end).

(** [mutate]: change the settings, derive again, assert. *)
Definition mutate (f : CorsConfig -> CorsConfig) (cfg : CorsConfig) : option CorsConfig :=
  let cfg := f cfg in
  let cfg := derive_from (allow_origins cfg) (allow_methods cfg) (allow_headers cfg)
               (expose_headers cfg) (allow_credentials cfg) (max_age_secs cfg) in
  if credentials_safe cfg then Some cfg else None.

(** A setter changes one setting; the derived values follow in [mutate]. *)
Definition with_settings o m h e c a (cfg : CorsConfig) : CorsConfig :=
  mkCors o m h e c a (methods_hv cfg) (allow_headers_list_hv cfg) (expose_hv cfg) (max_age_hv cfg).

Definition cors_allow_origin (l : list string) : CorsConfig -> option CorsConfig :=
  mutate (fun c => with_settings (OriginList l) (allow_methods c) (allow_headers c)
                     (expose_headers c) (allow_credentials c) (max_age_secs c) c).
Definition cors_allow_methods (l : list Method) : CorsConfig -> option CorsConfig :=
  mutate (fun c => with_settings (allow_origins c) (MethodsList l) (allow_headers c)
                     (expose_headers c) (allow_credentials c) (max_age_secs c) c).
Definition cors_allow_headers (l : list string) : CorsConfig -> option CorsConfig :=
  mutate (fun c => with_settings (allow_origins c) (allow_methods c) (HeadersList l)
                     (expose_headers c) (allow_credentials c) (max_age_secs c) c).
Definition cors_expose_headers (l : list string) : CorsConfig -> option CorsConfig :=
  mutate (fun c => with_settings (allow_origins c) (allow_methods c) (allow_headers c)
                     l (allow_credentials c) (max_age_secs c) c).
Definition cors_allow_credentials (b : bool) : CorsConfig -> option CorsConfig :=
  mutate (fun c => with_settings (allow_origins c) (allow_methods c) (allow_headers c)
                     (expose_headers c) b (max_age_secs c) c).
(** [max_age]: [secs] is [Duration::as_secs]. *)
Definition cors_max_age (secs : Z) : CorsConfig -> option CorsConfig :=
  mutate (fun c => with_settings (allow_origins c) (allow_methods c) (allow_headers c)
                     (expose_headers c) (allow_credentials c) (Some secs) c).

(** [resolved_origin]. *)
Definition resolved_origin (cfg : CorsConfig) (origin : string) : option string :=
  match allow_origins cfg with
  | OriginAny => if negb (allow_credentials cfg) then Some "*" else Some origin
  | OriginMirror => Some origin
  | OriginList l => if existsb (fun o => String.eqb o origin) l then Some origin else None
  end.

(** [headers_header]. *)
Definition headers_header (cfg : CorsConfig) (request_headers : HeaderMap) : option string :=
  match allow_headers cfg with
  | HeadersAny => Some "*"
  | HeadersMirror => hm_get request_headers ACCESS_CONTROL_REQUEST_HEADERS
  | HeadersList _ => allow_headers_list_hv cfg
  end.

Definition PREFLIGHT_VARY : string :=
  "Origin, Access-Control-Request-Method, Access-Control-Request-Headers".

(** [build_preflight]. *)
Definition build_preflight (cfg : CorsConfig) (origin : string) (req : Request) : Response :=
  match resolved_origin cfg origin with
  | None => rb_body body_empty (rb_status 204 rb_new)
  | Some allow_origin =>
      let b := rb_status 204 rb_new in
      let b := rb_header ACCESS_CONTROL_ALLOW_ORIGIN allow_origin b in
      let b := rb_header ACCESS_CONTROL_ALLOW_METHODS (methods_hv cfg) b in
      let b := opt_header ACCESS_CONTROL_ALLOW_HEADERS (headers_header cfg (req_headers req)) b in
      let b := if allow_credentials cfg
               then rb_header_str ACCESS_CONTROL_ALLOW_CREDENTIALS "true" b else b in
      let b := opt_header ACCESS_CONTROL_MAX_AGE (max_age_hv cfg) b in
      let b := rb_header VARY PREFLIGHT_VARY b in
      rb_body body_empty b
  end.

(** [apply_response_headers]. *)
Definition apply_response_headers (cfg : CorsConfig) (origin : string) (res : Response)
  : Response :=
  match resolved_origin cfg origin with
  | None => res
  | Some allow_origin =>
      let h := hm_insert (res_headers res) ACCESS_CONTROL_ALLOW_ORIGIN allow_origin in
      let h := if allow_credentials cfg
               then hm_insert h ACCESS_CONTROL_ALLOW_CREDENTIALS "true" else h in
      let h := match expose_hv cfg with
               | Some e => hm_insert h ACCESS_CONTROL_EXPOSE_HEADERS e
               | None => h
               end in
      let h := if negb (match allow_origins cfg with OriginAny => true | _ => false end)
                  || allow_credentials cfg
               then hm_append h VARY "origin" else h in
      set_res_headers h res
  end.

Definition is_preflight (req : Request) : bool :=
  method_eqb (req_method req) OPTIONS
  && hm_contains (req_headers req) ACCESS_CONTROL_REQUEST_METHOD.

(** [CorsService::call], as the layer around [inner]. *)
Definition cors_layer {W} (cfg : CorsConfig) : LayerFn W := fun inner req w =>
  match hm_get (req_headers req) ORIGIN with
  | None => inner req w
  | Some origin =>
      if is_preflight req then (build_preflight cfg origin req, w)
      else let '(res, w) := inner req w in (apply_response_headers cfg origin res, w)
  end.

(** ** The layers the builders make *)

Inductive cors_built : CorsConfig -> Prop :=
| built_new : cors_built cors_new
| built_permissive : cors_built cors_permissive
| built_very_permissive : cors_built cors_very_permissive
| built_mutate f cfg cfg' : cors_built cfg -> mutate f cfg = Some cfg' -> cors_built cfg'.

Lemma cors_built_safe cfg : cors_built cfg -> credentials_safe cfg = true.
Proof.
  induction 1 as [| | |f cfg cfg' _ _ Hm]; try done.
  unfold mutate in Hm. by case_match; simplify_eq.
Qed.

(** A safe configuration with credentials has an allowlist. *)
Lemma credentials_list cfg :
  credentials_safe cfg = true -> allow_credentials cfg = true ->
  exists l, allow_origins cfg = OriginList l.
Proof.
  unfold credentials_safe. intros Hs Hc. rewrite Hc in Hs.
  destruct (allow_origins cfg); try done. eauto.
Qed.

Lemma resolved_origin_list cfg l origin v :
  allow_origins cfg = OriginList l -> resolved_origin cfg origin = Some v ->
  v = origin /\ origin ∈ l.
Proof.
  unfold resolved_origin. intros -> Hr. destruct (existsb _ l) eqn:E; [|done].
  apply existsb_elem in E as (o & Ho & Heq). bool_hyps. subst. by injection Hr as <-.
Qed.
End Model.

Section Facts.
Context `{HL : HttpLaws}.

(** The CORS headers of a preflight reply. *)
Lemma preflight_headers cfg origin req :
  let res := build_preflight cfg origin req in
  res_status res = 204%Z /\ to_bytes (res_body res) = Ok "" /\
  hm_get_all (res_headers res) ACCESS_CONTROL_ALLOW_ORIGIN
    = option_list (resolved_origin cfg origin) /\
  (resolved_origin cfg origin = None -> res_headers res = hm_empty) /\
  (is_Some (resolved_origin cfg origin) ->
     hm_get_all (res_headers res) ACCESS_CONTROL_ALLOW_CREDENTIALS
       = (if allow_credentials cfg then ["true"] else []) /\
     hm_get_all (res_headers res) ACCESS_CONTROL_ALLOW_METHODS = [methods_hv cfg] /\
     hm_get_all (res_headers res) ACCESS_CONTROL_ALLOW_HEADERS
       = option_list (headers_header cfg (req_headers req)) /\
     hm_get_all (res_headers res) ACCESS_CONTROL_MAX_AGE = option_list (max_age_hv cfg) /\
     hm_get_all (res_headers res) VARY = [PREFLIGHT_VARY]).
Proof.
  cbn zeta. unfold build_preflight.
  destruct (resolved_origin cfg origin) as [o|].
  2:{ cbn. rewrite hm_all_empty. split_and!; done. }
  unfold rb_header_str. rewrite hv_from_str_visible by done.
  destruct (allow_credentials cfg), (max_age_hv cfg), (headers_header cfg (req_headers req));
    cbn; split_and!; try done; try (by headers); intros _; split_and!; by headers.
Qed.

(** What is added to an actual response. *)
Lemma apply_headers_spec cfg origin res o :
  resolved_origin cfg origin = Some o ->
  let res' := apply_response_headers cfg origin res in
  res_status res' = res_status res /\ res_body res' = res_body res /\
  hm_get_all (res_headers res') ACCESS_CONTROL_ALLOW_ORIGIN = [o] /\
  hm_get_all (res_headers res') ACCESS_CONTROL_ALLOW_CREDENTIALS
    = (if allow_credentials cfg then ["true"]
       else hm_get_all (res_headers res) ACCESS_CONTROL_ALLOW_CREDENTIALS) /\
  hm_get_all (res_headers res') VARY
    = hm_get_all (res_headers res) VARY
      ++ match allow_origins cfg, allow_credentials cfg with
         | OriginAny, false => []
         | _, _ => ["origin"]
         end.
Proof.
  intros Hr. cbn zeta. unfold apply_response_headers. rewrite Hr.
  destruct (allow_credentials cfg), (expose_hv cfg), (allow_origins cfg) eqn:Eo;
    cbn; split_and!; try done; headers; by rewrite ?app_nil_r.
Qed.
End Facts.

(** ** Properties *)

Section Properties.
Context `{HL : HttpLaws}.

(** C16. Credentials are only ever granted to a listed origin: with any layer
    the builders can make, around a service that sets no credentials header
    itself, a response that allows credentials answers a request with an
    [Origin], names exactly that origin, and the origin is in the configured
    list. *)
Theorem cors_credentials_only_for_listed {W} (cfg : CorsConfig) (inner : Service W) req w :
  cors_built cfg ->
  hm_get_all (res_headers (fst (inner req w))) ACCESS_CONTROL_ALLOW_CREDENTIALS = [] ->
  let res := fst (cors_layer cfg inner req w) in
  hm_get_all (res_headers res) ACCESS_CONTROL_ALLOW_CREDENTIALS <> [] ->
  exists l o, allow_origins cfg = OriginList l /\ o ∈ l /\
    hm_get (req_headers req) ORIGIN = Some o /\
    hm_get_all (res_headers res) ACCESS_CONTROL_ALLOW_ORIGIN = [o].
Proof.
  intros Hb Hin. cbn zeta. apply cors_built_safe in Hb. unfold cors_layer.
  destruct (hm_get (req_headers req) ORIGIN) as [o|] eqn:Eo; [|by rewrite Hin].
  destruct (is_preflight req); cbn [fst].
  - destruct (preflight_headers cfg o req) as (_ & _ & Hao & Hno & Hyes).
    destruct (resolved_origin cfg o) as [v|] eqn:Er.
    2:{ rewrite (Hno eq_refl), hm_all_empty. done. }
    destruct (Hyes ltac:(eauto)) as (Hc & _). rewrite Hc, Hao.
    destruct (allow_credentials cfg) eqn:Ec; [|done]. intros _.
    destruct (credentials_list _ Hb Ec) as [l Hl].
    destruct (resolved_origin_list _ _ _ _ Hl Er) as [-> Hol]. by exists l, o.
  - destruct (inner req w) as [res w'] eqn:Ei. cbn [fst] in *.
    destruct (resolved_origin cfg o) as [v|] eqn:Er.
    2:{ unfold apply_response_headers. by rewrite Er, Hin. }
    destruct (apply_headers_spec cfg o res v Er) as (_ & _ & Hao & Hc & _).
    rewrite Hc, Hao, Hin. destruct (allow_credentials cfg) eqn:Ec; [|done]. intros _.
    destruct (credentials_list _ Hb Ec) as [l Hl].
    destruct (resolved_origin_list _ _ _ _ Hl Er) as [-> Hol]. by exists l, o.
Qed.

(** C40. What the layer does to a request: without an [Origin] it is the
    service; a preflight never reaches the service and gets an empty 204,
    without any header when its origin is refused; any other request is
    handed on unchanged, and its response keeps its status and body, names
    the resolved origin and, unless that is [*], varies on it, or, for a
    refused origin, is left as it is. *)
Theorem cors_layer_correct {W} (cfg : CorsConfig) (inner : Service W) req w :
  let '(res, w') := cors_layer cfg inner req w in
  match hm_get (req_headers req) ORIGIN with
  | None => (res, w') = inner req w
  | Some origin =>
      if is_preflight req then
        w' = w /\ res_status res = 204%Z /\ to_bytes (res_body res) = Ok "" /\
        hm_get_all (res_headers res) ACCESS_CONTROL_ALLOW_ORIGIN
          = option_list (resolved_origin cfg origin) /\
        (resolved_origin cfg origin = None -> res_headers res = hm_empty) /\
        (is_Some (resolved_origin cfg origin) ->
         hm_get_all (res_headers res) ACCESS_CONTROL_ALLOW_METHODS = [methods_hv cfg] /\
         hm_get_all (res_headers res) ACCESS_CONTROL_ALLOW_HEADERS
           = option_list (headers_header cfg (req_headers req)) /\
         hm_get_all (res_headers res) VARY = [PREFLIGHT_VARY])
      else
        w' = snd (inner req w) /\
        res_status res = res_status (fst (inner req w)) /\
        res_body res = res_body (fst (inner req w)) /\
        match resolved_origin cfg origin with
        | None => res = fst (inner req w)
        | Some o =>
            hm_get_all (res_headers res) ACCESS_CONTROL_ALLOW_ORIGIN = [o] /\
            (o <> "*" -> "origin" ∈ hm_get_all (res_headers res) VARY)
        end
  end.
Proof.
  destruct (cors_layer cfg inner req w) as [res w'] eqn:Ecl. unfold cors_layer in Ecl.
  destruct (hm_get (req_headers req) ORIGIN) as [o|]; [|done].
  destruct (is_preflight req).
  - injection Ecl as <- <-.
    destruct (preflight_headers cfg o req) as (H1 & H2 & H3 & H4 & H5).
    split_and!; try done. intros Hs. destruct (H5 Hs) as (_ & ? & ? & _ & ?). done.
  - destruct (inner req w) as [r w1]. injection Ecl as <- <-. cbn [fst snd].
    destruct (resolved_origin cfg o) as [v|] eqn:Er.
    2:{ unfold apply_response_headers. by rewrite Er. }
    destruct (apply_headers_spec cfg o r v Er) as (Hst & Hbd & Ho & _ & Hv).
    split_and!; try done. intros Hne. rewrite Hv. unfold resolved_origin in Er.
    destruct (allow_origins cfg), (allow_credentials cfg); cbn in *; simplify_eq; set_solver.
Qed.
End Properties.

Module DemoCors.
Definition cfg : option CorsConfig :=
  match cors_allow_origin ["https://a.example"] cors_new with
  | Some c => cors_allow_credentials true c
  | None => None
  end.
Definition req : Request := Demo.with_header ORIGIN "https://a.example" (Demo.request GET "/x").
End DemoCors.

Lemma cors_credentials_only_for_listed_witness :
  exists cfg l o, DemoCors.cfg = Some cfg /\ allow_origins cfg = OriginList l /\ o ∈ l /\
    hm_get (req_headers DemoCors.req) ORIGIN = Some o /\
    hm_get_all (res_headers (fst (cors_layer cfg (Demo.handler "h") DemoCors.req [])))
      ACCESS_CONTROL_ALLOW_ORIGIN = [o].
Proof.
  destruct DemoCors.cfg as [cfg|] eqn:E; [|vm_compute in E; discriminate E].
  exists cfg.
  assert (Hb : cors_built cfg).
  { unfold DemoCors.cfg in E. destruct (cors_allow_origin _ cors_new) as [c|] eqn:E1; [|discriminate E].
    eapply built_mutate; [|exact E]. eapply built_mutate; [apply built_new|exact E1]. }
  destruct (cors_credentials_only_for_listed cfg (Demo.handler "h") DemoCors.req [] Hb)
    as (l & o & H1 & H2 & H3 & H4).
  - reflexivity.
  - vm_compute in E. injection E as <-. vm_compute. discriminate.
  - exists l, o. split; [reflexivity|]. split; [exact H1|]. split; [exact H2|]. split; [exact H3|exact H4].
Defined.

(** Enabling credentials with a wildcard or a mirrored origin panics. *)
Example credentials_with_wildcard_panics :
  cors_allow_credentials true cors_permissive = None /\
  cors_allow_credentials true cors_very_permissive = None.
Proof. done. Qed.

Lemma cors_layer_correct_witness :
  let req := Demo.with_header ACCESS_CONTROL_REQUEST_METHOD "PUT"
      (Demo.with_header ORIGIN "https://b.example" (Demo.request OPTIONS "/x")) in
  snd (cors_layer cors_permissive (Demo.handler "h") req []) = [] /\
  hm_get_all (res_headers (fst (cors_layer cors_permissive (Demo.handler "h") req [])))
    ACCESS_CONTROL_ALLOW_ORIGIN = ["*"].
Proof.
  cbn zeta.
  pose proof (cors_layer_correct cors_permissive (Demo.handler "h")
    (Demo.with_header ACCESS_CONTROL_REQUEST_METHOD "PUT"
      (Demo.with_header ORIGIN "https://b.example" (Demo.request OPTIONS "/x"))) []) as H.
  destruct (cors_layer _ _ _ _) as [res w'] eqn:E. cbn [fst snd].
  match type of H with match ?o with _ => _ end =>
    change o with (Some "https://b.example") in H end.
  cbn iota in H. destruct H as (-> & _ & _ & -> & _). split; reflexivity.
Defined.
