(* ===== verification/Csrf.v ===== *)
(** * CSRF protection

    [arvik-middleware/src/csrf.rs]: the double-submit cookie.  The random token
    generator and the [Set-Cookie] printer are third-party code and parameters;
    the generator draws from the world. *)
From S2P Require Import Prelude RustStr HttpCrate Body Http Auth.
From stdpp Require Import base list strings sets.
From Stdlib Require Import ZArith Lia Ascii String.
Open Scope string_scope.
Open Scope list_scope.

Inductive SameSite := Strict | Lax | NoRestriction.

(** [Uuid::new_v4().to_string()] and [Cookie::to_string] of a cookie that is
    not [HttpOnly], with its name, value, [Secure], [SameSite] and path. *)
Class CsrfDeps (W : Type) : Type := {
  new_uuid : W -> string * W;
  cookie_to_string : string -> string -> bool -> SameSite -> string -> string }.

Definition CSRF_COOKIE_NAME : string := "csrf_token".
Definition CSRF_HEADER_NAME : string := "x-csrf-token".

(** [struct CsrfLayer] and its builders. *)
Record CsrfLayer := mkCsrf {
  cookie_name : string;
  header_name : string;
  secure : bool;
  same_site : SameSite }.
Definition csrf_new : CsrfLayer := mkCsrf CSRF_COOKIE_NAME CSRF_HEADER_NAME false Strict.
Definition csrf_secure (b : bool) (c : CsrfLayer) : CsrfLayer :=
  mkCsrf (cookie_name c) (header_name c) b (same_site c).
Definition csrf_same_site (s : SameSite) (c : CsrfLayer) : CsrfLayer :=
  mkCsrf (cookie_name c) (header_name c) (secure c) s.

(** [is_state_changing]. *)
Definition is_state_changing (m : Method) : bool :=
  match m with GET | HEAD | OPTIONS | TRACE => false | _ => true end.

(** The pairs of one [Cookie] value, in order: the inner loop. *)
Fixpoint find_pair (name : string) (pairs : list string) : option string :=
  match pairs with
  | [] => None
  | p :: pairs =>
      match split_once "=" (trim p) with
      | Some (n, value) =>
          if String.eqb (trim n) name then Some (trim value) else find_pair name pairs
      | None => find_pair name pairs
      end
  end.

Section Model.
Context `{HttpCrate}.

Fixpoint find_cookie (name : string) (values : list string) : option string :=
  match values with
  | [] => None
  | v :: values =>
      match hv_to_str v with
      | Some s => match find_pair name (str_split ";" s) with
                  | Some t => Some t
                  | None => find_cookie name values
                  end
      | None => find_cookie name values
      end
  end.

(** [extract_csrf_cookie]. *)
Definition extract_csrf_cookie (headers : HeaderMap) (name : string) : option string :=
  find_cookie name (hm_get_all headers COOKIE).

(** [csrf_forbidden]. *)
Definition csrf_forbidden : Response :=
  rb_body (body_from_bytes ("{" +:+ quoted "error" +:+ ":" +:+ quoted "Forbidden" +:+ ","
             +:+ quoted "code" +:+ ":403," +:+ quoted "message" +:+ ":"
             +:+ quoted "CSRF token validation failed" +:+ "}"))
    (rb_header_str CONTENT_TYPE "application/json" (rb_status 403 rb_new)).

Context {W : Type} `{CsrfDeps W}.

(** [CsrfService::call]. *)
Definition csrf_layer (config : CsrfLayer) : LayerFn W := fun inner req w =>
  let '(csrf_token, is_new, w) :=
    match extract_csrf_cookie (req_headers req) (cookie_name config) with
    | Some t => (t, false, w)
    | None => let '(t, w) := new_uuid w in (t, true, w)
    end in
  let req := set_req_ext (ext_with_csrf csrf_token (req_ext req)) req in
  let run w :=
    let '(response, w) := inner req w in
    let response :=
      if is_new then
        match hv_from_str (cookie_to_string (cookie_name config) csrf_token (secure config)
                             (same_site config) "/") with
        | Some val => set_res_headers (hm_append (res_headers response) SET_COOKIE val) response
        | None => response
        end
      else response in
    (response, w) in
  if is_state_changing (req_method req) then
    if is_new then (csrf_forbidden, w)
    else
      match hm_get (req_headers req) (header_name config) ≫= hv_to_str with
      | Some h => if secret_eq h csrf_token then run w else (csrf_forbidden, w)
      | None => (csrf_forbidden, w)
      end
  else run w.
End Model.

(** ** Cookies as a browser sends them *)

(** A cookie without white space and separators, as the token names are. *)
Definition plain_cookie (kv : string * string) : Prop :=
  str_forall graphic (fst kv) = true /\ contains_char ";" (fst kv) = false /\
  contains_char "=" (fst kv) = false /\
  str_forall graphic (snd kv) = true /\ contains_char ";" (snd kv) = false.

Definition cookie_pair (kv : string * string) : string := fst kv +:+ "=" +:+ snd kv.

(** [Cookie: k1=v1; k2=v2; ...] *)
Definition cookie_header (kvs : list (string * string)) : string :=
  str_join "; " (map cookie_pair kvs).

Lemma cookie_pair_graphic kv :
  plain_cookie kv -> str_forall graphic (cookie_pair kv) = true /\
  contains_char ";" (cookie_pair kv) = false.
Proof.
  intros (H1 & H2 & _ & H4 & H5). unfold cookie_pair.
  rewrite !str_forall_app, !contains_char_app, H1, H2, H4, H5. done.
Qed.

Lemma cookie_pair_split kv :
  plain_cookie kv -> split_once "=" (cookie_pair kv) = Some kv.
Proof.
  intros (_ & _ & H3 & _). destruct kv as [k v]. apply split_once_spec. split; done.
Qed.

(** Splitting at the semicolons leaves a space before every pair but the first. *)
Lemma cookie_header_split kv kvs :
  (forall x, x ∈ kv :: kvs -> plain_cookie x) ->
  str_split ";" (cookie_header (kv :: kvs))
    = cookie_pair kv :: map (fun x => String " " (cookie_pair x)) kvs.
Proof.
  unfold cookie_header. revert kv; induction kvs as [|kv' kvs IH]; intros kv Hp; cbn [map].
  - apply str_split_free_id, cookie_pair_graphic, Hp. set_solver.
  - rewrite str_join_cons by done.
    change ("; " +:+ ?s) with (String ";" (" " +:+ s)).
    rewrite str_split_app by (apply cookie_pair_graphic, Hp; set_solver).
    f_equal. specialize (IH kv' ltac:(set_solver)). cbn [map] in IH.
    change (" " +:+ ?s) with (String " " s).
    cbn [str_split]. cbn [Ascii.eqb Bool.eqb]. by rewrite IH.
Qed.

Lemma find_pair_first name kv kvs :
  (forall x, x ∈ kv :: kvs -> plain_cookie x) ->
  find_pair name (cookie_pair kv :: map (fun x => String " " (cookie_pair x)) kvs)
    = option_map snd (List.find (fun x => String.eqb (fst x) name) (kv :: kvs)).
Proof.
  intros Hp.
  assert (Hone : forall p x rest, trim p = cookie_pair x -> plain_cookie x ->
     find_pair name (p :: rest) =
       if String.eqb (fst x) name then Some (snd x) else find_pair name rest).
  { intros p x rest Ht Hx. cbn [find_pair]. rewrite Ht, cookie_pair_split by done.
    destruct x as [k v], Hx as (H1 & _ & _ & H4 & _). cbn in *.
    by rewrite (proj1 (trim_graphic k H1)), (proj1 (trim_graphic v H4)). }
  rewrite (Hone _ kv); [|apply trim_graphic, cookie_pair_graphic, Hp; set_solver|apply Hp; set_solver].
  cbn [List.find]. destruct (String.eqb (fst kv) name); [done|].
  assert (Hr : forall x, x ∈ kvs -> plain_cookie x) by set_solver. clear Hp.
  induction kvs as [|x kvs IH]; [done|]. cbn [map List.find].
  rewrite (Hone _ x); [|apply trim_graphic, cookie_pair_graphic, Hr; set_solver|apply Hr; set_solver].
  destruct (String.eqb (fst x) name); [done|]. apply IH. set_solver.
Qed.

(** ** Properties *)

(** The token cookie a browser sends back is the one the layer reads: from
    a [Cookie] header of plain pairs, [extract_csrf_cookie] gives the value of
    the first pair with the name. *)
Theorem csrf_cookie_roundtrip `{HL : HttpLaws} name kvs headers :
  (forall kv, kv ∈ kvs -> plain_cookie kv) ->
  hm_get_all headers COOKIE = [cookie_header kvs] ->
  extract_csrf_cookie headers name
    = option_map snd (List.find (fun kv => String.eqb (fst kv) name) kvs).
Proof.
  intros Hp Hh. unfold extract_csrf_cookie. rewrite Hh. cbn [find_cookie].
  assert (Hv : str_forall visible_ascii (cookie_header kvs) = true).
  { clear Hh. unfold cookie_header. induction kvs as [|kv kvs IH]; [done|]. cbn [map].
    assert (str_forall visible_ascii (cookie_pair kv) = true).
    { eapply str_forall_impl; [|apply cookie_pair_graphic, Hp; set_solver].
      unfold graphic, visible_ascii, in_range. intros. bool_hyps.
      apply andb_true_intro. split; apply Z.leb_le; lia. }
    destruct kvs as [|kv' kvs]; [done|]. rewrite str_join_cons by done.
    rewrite !str_forall_app, IH by set_solver. by rewrite H0. }
  rewrite hv_to_str_visible by done.
  destruct kvs as [|kv kvs]; [done|].
  rewrite cookie_header_split, find_pair_first by done.
  by destruct (option_map _ _).
Qed.

(** C18. The double submit: a request with a state-changing method reaches the
    service only if its token header equals its token cookie, and then as it
    would without the layer, but for the token in its extensions; any other is
    refused with 403 and the service does not run. *)
Theorem csrf_double_submit `{HL : HttpLaws} {W} `{CsrfDeps W} c (inner : Service W) req w :
  is_state_changing (req_method req) = true ->
  match extract_csrf_cookie (req_headers req) (cookie_name c) with
  | None => csrf_layer c inner req w = (csrf_forbidden, snd (new_uuid w))
  | Some t =>
      (hm_get (req_headers req) (header_name c) = Some t /\ hv_to_str t = Some t /\
       csrf_layer c inner req w
         = inner (set_req_ext (ext_with_csrf t (req_ext req)) req) w) \/
      (hm_get (req_headers req) (header_name c) ≫= hv_to_str <> Some t /\
       csrf_layer c inner req w = (csrf_forbidden, w))
  end.
Proof.
  intros Hs. unfold csrf_layer. cbn [req_method req_headers set_req_ext].
  destruct (extract_csrf_cookie _ _) as [t|].
  2:{ destruct (new_uuid w) as [t w']. cbn. by rewrite Hs. }
  rewrite Hs.
  destruct (hm_get (req_headers req) (header_name c)) as [v|]; cbn; [|by right].
  destruct (hv_to_str v) as [h|] eqn:Eh; [|by right].
  destruct (secret_eq h t) eqn:E.
  - apply secret_eq_spec in E as ->. pose proof (hv_to_str_id _ _ Eh). subst. left.
    split_and!; [done|done|]. by destruct (inner _ _).
  - right. split; [|done]. intros [= ->].
    by rewrite (proj2 (secret_eq_spec t t) eq_refl) in E.
Qed.

(** Safe methods always pass, with the cookie's token or a fresh one in
    their extensions, and exactly the requests without a token cookie have the
    printed cookie appended to their response. *)
Theorem csrf_safe_methods `{HL : HttpLaws} {W} `{CsrfDeps W} c (inner : Service W) req w :
  is_state_changing (req_method req) = false ->
  let ask t w := inner (set_req_ext (ext_with_csrf t (req_ext req)) req) w in
  match extract_csrf_cookie (req_headers req) (cookie_name c) with
  | Some t => csrf_layer c inner req w = ask t w
  | None =>
      let '(t, w1) := new_uuid w in
      let '(res, w2) := ask t w1 in
      exists res', csrf_layer c inner req w = (res', w2) /\
        res_status res' = res_status res /\ res_body res' = res_body res /\
        hm_get_all (res_headers res') SET_COOKIE
          = hm_get_all (res_headers res) SET_COOKIE ++
            option_list (hv_from_str (cookie_to_string (cookie_name c) t (secure c) (same_site c) "/"))
  end.
Proof.
  intros Hs. cbn zeta. unfold csrf_layer. cbn [req_method req_headers set_req_ext].
  destruct (extract_csrf_cookie _ _) as [t|].
  { rewrite Hs. by destruct (inner _ _). }
  destruct (new_uuid w) as [t w1]. rewrite Hs.
  destruct (inner _ w1) as [res w2]. eexists. split; [reflexivity|].
  destruct (hv_from_str _); cbn; split_and!; try done; [by headers|by rewrite app_nil_r].
Qed.

(** ** A concrete generator and printer *)
Module DemoCsrf.
Definition same_site_str (s : SameSite) : string :=
  match s with Strict => "Strict" | Lax => "Lax" | NoRestriction => "None" end.
#[export] Instance deps : CsrfDeps (list string) := {
  new_uuid w := ("token-" +:+ to_dec (Z.of_nat (List.length w)), w ++ ["uuid"]);
  cookie_to_string n v secure s path :=
    n +:+ "=" +:+ v +:+ "; SameSite=" +:+ same_site_str s
    +:+ (if secure then "; Secure" else "") +:+ "; Path=" +:+ path }.
Definition post (cookie token : string) : Request :=
  Demo.with_header COOKIE cookie
    (Demo.with_header CSRF_HEADER_NAME token (Demo.request POST "/transfer")).
End DemoCsrf.
#[export] Existing Instance DemoCsrf.deps.

Lemma csrf_cookie_roundtrip_witness :
  let kvs := [("theme", "dark"); ("csrf_token", "abc"); ("csrf_token", "def")] in
  extract_csrf_cookie (hm_append hm_empty COOKIE (cookie_header kvs)) "csrf_token" = Some "abc".
Proof.
  apply (csrf_cookie_roundtrip "csrf_token"
           [("theme", "dark"); ("csrf_token", "abc"); ("csrf_token", "def")]).
  - intros kv Hkv. repeat (apply elem_of_cons in Hkv as [->|Hkv]; [by repeat split|]).
    by apply elem_of_nil in Hkv.
  - reflexivity.
Defined.

(** The right token passes, another one does not. *)
Lemma csrf_double_submit_witness :
  snd (csrf_layer csrf_new (Demo.handler "h") (DemoCsrf.post "csrf_token=abc" "abc") [])
    = ["h /transfer"] /\
  snd (csrf_layer csrf_new (Demo.handler "h") (DemoCsrf.post "csrf_token=abc" "abd") []) = [].
Proof.
  split.
  - destruct (csrf_double_submit csrf_new (Demo.handler "h")
      (DemoCsrf.post "csrf_token=abc" "abc") [] eq_refl) as [(_ & _ & H)|[H _]].
    + rewrite H. reflexivity.
    + exfalso. apply H. reflexivity.
  - destruct (csrf_double_submit csrf_new (Demo.handler "h")
      (DemoCsrf.post "csrf_token=abc" "abd") [] eq_refl) as [(H & _ & _)|[_ H]].
    + vm_compute in H. discriminate H.
    + rewrite H. reflexivity.
Defined.

Lemma csrf_safe_methods_witness :
  exists res', csrf_layer csrf_new (Demo.handler "h") (Demo.request GET "/form") []
      = (res', ["uuid"; "h /form"]) /\
    hm_get_all (res_headers res') SET_COOKIE = ["csrf_token=token-0; SameSite=Strict; Path=/"].
Proof.
  destruct (csrf_safe_methods csrf_new (Demo.handler "h") (Demo.request GET "/form") [] eq_refl)
    as (res' & H1 & _ & _ & H2).
  exists res'. split; [exact H1|]. rewrite H2. vm_compute. reflexivity.
Defined.
