(* ===== verification/BodyLimit.v ===== *)
(** * Request body limits

    [arvik-middleware/src/body_limit.rs]: the declared-length check and the
    counting body of [RequestBodyLimitLayer], and [DefaultBodyLimitLayer]. *)
From S2P Require Import Prelude RustStr HttpCrate Body Http.
From stdpp Require Import base list strings sets.
From Stdlib Require Import ZArith Lia Ascii String.
Open Scope string_scope.
Open Scope list_scope.

Section Model.
Context `{HttpCrate}.

(** [LimitedBody::poll_frame]: [read] is a [u64] that goes on counting. *)
Fixpoint limit_frames (limit read : Z) (fs : list FrameResult) : list FrameResult :=
  match fs with
  | [] => []
  | Ok (DataFrame d) :: fs =>
      let read := wrap_u64 (read + str_len d) in
      (if (limit <? read)%Z then Err BodyTooLarge else Ok (DataFrame d))
        :: limit_frames limit read fs
  | f :: fs => f :: limit_frames limit read fs
  end.

(** The body after [k] polls. *)
Fixpoint poll_n (k : nat) (b : Body) : Body :=
  match k with O => b | Datatypes.S k => poll_n k (snd (poll_frame b)) end.

(** [Body::new(LimitedBody { .. })]: the hint is the inner body's. *)
Definition limited_body (limit : Z) (b : Body) : Body :=
  let all := limit_frames limit 0 (body_frames b) in
  BBoxed all (fun left => size_hint (poll_n (List.length all - List.length left) b)).

(** [payload_too_large]. *)
Definition payload_too_large (limit : Z) : Response :=
  rb_body (body_from_bytes ("{" +:+ quoted "error" +:+ ":" +:+ quoted "Payload Too Large" +:+ ","
             +:+ quoted "code" +:+ ":413," +:+ quoted "limit_bytes" +:+ ":" +:+ to_dec limit +:+ "}"))
    (rb_header_str CONTENT_TYPE "application/json" (rb_status 413 rb_new)).

(** The length a request declares. *)
Definition declared_length (req : Request) : option Z :=
  (hm_get (req_headers req) CONTENT_LENGTH ≫= hv_to_str) ≫= parse_usize.

(** [RequestBodyLimitService::call]. *)
Definition request_body_limit_layer {W} (limit : Z) : LayerFn W := fun inner req w =>
  if match declared_length req with Some n => (limit <? n)%Z | None => false end
  then (payload_too_large limit, w)
  else inner (set_req_body (limited_body limit (req_body req)) req) w.

(** [DefaultBodyLimitLayer]: [max] and [disabled]. *)
Definition default_body_limit_max (limit : Z) : Z := limit.
Definition default_body_limit_disabled : Z := usize_max.
Definition default_body_limit_layer {W} (limit : Z) : LayerFn W := fun inner req w =>
  inner (set_req_ext (ext_with_body_limit limit (req_ext req)) req) w.

(** ** The counting body *)

(** Reading it through returns what the inner body returns, or the overflow. *)
Lemma limit_frames_collect limit read fs s :
  (0 <= read)%Z -> (read + data_len fs <= u64_max)%Z -> collect_frames fs = Ok s ->
  (read <= limit)%Z ->
  collect_frames (limit_frames limit read fs)
    = if (limit <? read + str_len s)%Z then Err BodyTooLarge else Ok s.
Proof.
  revert read s; induction fs as [|[[d|t]|e] fs IH]; cbn; intros read s Hr Hm Hs Hl; simplify_eq.
  - change (str_len "") with 0%Z. rewrite Z.add_0_r.
    by rewrite (proj2 (Z.ltb_ge limit read)).
  - pose proof (str_len_nonneg d). pose proof (data_len_nonneg fs).
    rewrite wrap_u64_id by (unfold in_u64; lia).
    destruct (collect_frames fs) as [r|] eqn:Er; [|done]. injection Hs as <-.
    pose proof (collect_frames_len _ _ Er) as Hlen. rewrite str_len_app.
    destruct (limit <? read + str_len d)%Z eqn:E; bool_hyps.
    + by rewrite (proj2 (Z.ltb_lt _ _)) by (rewrite Hlen; lia).
    + rewrite (IH _ r) by (done || lia). rewrite Z.add_assoc.
      by destruct (limit <? _)%Z.
  - by apply IH.
Qed.

(** An error of the inner body stays an error. *)
Lemma limit_frames_err limit read fs e :
  collect_frames fs = Err e -> exists e', collect_frames (limit_frames limit read fs) = Err e'.
Proof.
  revert read e; induction fs as [|[[d|t]|e'] fs IH]; cbn; intros read e He; [done| | |eauto].
  - destruct (collect_frames fs) as [r|e1]; [done|].
    destruct (IH (wrap_u64 (read + str_len d)) e1 eq_refl) as [e2 He2].
    destruct (limit <? _)%Z; [eauto|]. rewrite He2. eauto.
  - eauto.
Qed.

(** A buffering reader of an over-long body fails with a payload error. *)
Lemma limit_frames_too_large limit lim read total fs acc :
  (0 <= read <= limit)%Z -> (read + data_len fs <= u64_max)%Z -> all_data fs ->
  (limit < read + data_len fs)%Z ->
  exists e, collect_limited lim (limit_frames limit read fs) total acc = Err e /\
    is_payload_too_large e = true.
Proof.
  revert read total acc; induction fs as [|f fs IH]; intros read total acc Hr Hm Hd Hgt.
  - cbn in Hgt. lia.
  - destruct (Hd f ltac:(set_solver)) as [d ->]. cbn [data_len] in *.
    pose proof (str_len_nonneg d). pose proof (data_len_nonneg fs).
    cbn [limit_frames]. rewrite wrap_u64_id by (unfold in_u64; lia).
    destruct (limit <? read + str_len d)%Z eqn:E; bool_hyps; cbn [collect_limited]; [eauto|].
    case_match; [eauto|]. apply IH; [lia|lia| |lia]. intros g Hg. apply Hd. set_solver.
Qed.

(** Read whole, a limited body is the original, or the overflow. *)
Lemma limited_body_bytes limit b s :
  (0 <= limit <= u64_max)%Z -> (data_len (body_frames b) <= u64_max)%Z -> to_bytes b = Ok s ->
  to_bytes (limited_body limit b) = if (limit <? str_len s)%Z then Err BodyTooLarge else Ok s.
Proof.
  intros Hl Hm Hs. unfold to_bytes, limited_body. cbn [body_frames].
  by rewrite (limit_frames_collect limit 0 _ s) by (done || lia).
Qed.
End Model.

(** ** Property *)

(** C20. The body limit: a request that declares more than the limit is refused
    with 413 before the service runs; every other request, and no such one, reaches
    the service, unchanged but for its body, which has the same size hint, gives
    its reader exactly the original bytes when they are within the limit, and
    otherwise fails: a full read with [BodyTooLarge], and a buffering extractor,
    whatever its own limit, with an error it classifies as payload too large. *)
Theorem body_limit_enforced `{HL : HttpLaws} {W} limit (inner : Service W) req w :
  in_u64 limit -> (data_len (body_frames (req_body req)) <= u64_max)%Z ->
  let b := req_body req in
  let out := request_body_limit_layer limit inner req w in
  (forall n, declared_length req = Some n -> (limit < n)%Z ->
     out = (payload_too_large limit, w) /\ res_status (payload_too_large limit) = 413%Z) /\
  ((forall n, declared_length req = Some n -> (n <= limit)%Z) ->
   exists b', out = inner (set_req_body b' req) w /\ size_hint b' = size_hint b /\
    (forall s, to_bytes b' = Ok s <-> to_bytes b = Ok s /\ (str_len s <= limit)%Z) /\
    (forall s, to_bytes b = Ok s -> (limit < str_len s)%Z -> to_bytes b' = Err BodyTooLarge) /\
    (all_data (body_frames b) -> (limit < data_len (body_frames b))%Z ->
     forall lim, exists e, to_bytes_limited b' lim = Err e /\ is_payload_too_large e = true)).
Proof.
  intros Hl Hm. unfold in_u64 in Hl. cbn zeta. unfold request_body_limit_layer. split.
  { intros n -> Hn. rewrite (proj2 (Z.ltb_lt _ _)) by done. split; [done|].
    unfold payload_too_large, rb_header_str. by rewrite hv_from_str_visible. }
  intros Hdecl. replace (match declared_length req with Some n => (limit <? n)%Z | None => false end) with false
    by (destruct (declared_length req) as [n|]; [|done]; symmetry; by apply Z.ltb_ge, Hdecl).
  eexists. split; [reflexivity|].
  assert (Hlim := fun s => limited_body_bytes limit (req_body req) s Hl Hm).
  split_and!.
  - unfold limited_body. cbn [size_hint]. by rewrite Nat.sub_diag.
  - intros s. split.
    + intros Hs. destruct (to_bytes (req_body req)) as [r|e] eqn:Eb.
      * rewrite (Hlim r eq_refl) in Hs. case_match; simplify_eq. bool_hyps. split; [done|lia].
      * destruct (limit_frames_err limit 0 _ _ Eb) as [e' He'].
        unfold to_bytes, limited_body in Hs. cbn [body_frames] in Hs. congruence.
    + intros [Hs Hle]. rewrite (Hlim s Hs). by rewrite (proj2 (Z.ltb_ge _ _)).
  - intros s Hs Hgt. rewrite (Hlim s Hs). by rewrite (proj2 (Z.ltb_lt _ _)).
  - intros Hd Hgt lim. unfold to_bytes_limited.
    destruct (limit_frames_too_large limit lim 0 0 (body_frames (req_body req)) [])
      as (e & He & Hp); [lia|lia|done|lia|].
    unfold limited_body. cbn [body_frames]. rewrite He.
    destruct (sh_upper _) as [u|]; [destruct (lim <? u)%Z; [by exists TooLarge|]|]; by exists e.
Qed.

Lemma body_limit_enforced_witness :
  let req := set_req_body (body_from_chunks ["abc"; "de"]) (Demo.request POST "/up") in
  let declared := Demo.with_header CONTENT_LENGTH "5" (Demo.request POST "/up") in
  request_body_limit_layer 4 (Demo.handler "h") declared [] = (payload_too_large 4, []) /\
  exists b', request_body_limit_layer 4 (Demo.handler "h") req []
       = Demo.handler "h" (set_req_body b' req) [] /\
    to_bytes b' = Err BodyTooLarge.
Proof.
  cbn zeta. split.
  - destruct (body_limit_enforced 4 (Demo.handler "h") (Demo.with_header CONTENT_LENGTH "5" (Demo.request POST "/up"))
      [] ltac:(split; vm_compute; discriminate) ltac:(vm_compute; discriminate)) as [H _].
    apply (H 5%Z); reflexivity.
  - destruct (body_limit_enforced 4 (Demo.handler "h")
      (set_req_body (body_from_chunks ["abc"; "de"]) (Demo.request POST "/up")) []
      ltac:(split; vm_compute; discriminate) ltac:(vm_compute; discriminate)) as [_ H].
    destruct H as (b' & H1 & _ & _ & H2 & _); [intros n; vm_compute; discriminate|].
    exists b'. split; [exact H1|]. apply (H2 "abcde"); reflexivity.
Defined.
