(* ===== verification/IpAddr.v ===== *)
(** * IP addresses as text

    [std::net::IpAddr] and [SocketAddr]: [FromStr] and [Display] as the standard
    library defines them, for the rate limiter's keys and the address to bind.  The type is in [Http]. *)
From S2P Require Import Prelude RustStr HttpCrate Body Http.
From stdpp Require Import base list strings sets.
From Stdlib Require Import ZArith Lia Ascii String.
Open Scope string_scope.
Open Scope list_scope.

(** ** The parser: a value and the rest of the input *)

Definition digit_of (radix : Z) (a : ascii) : option Z :=
  let v := byte_val a in
  let d := if in_range 48 57 a then (v - 48)%Z
           else if in_range 97 122 a then (v - 87)%Z
           else if in_range 65 90 a then (v - 55)%Z
           else 36%Z in
  if (d <? radix)%Z then Some d else None.

(** The digit loop of [read_number]: the value, the digits read and the rest. *)
Fixpoint read_digits (radix : Z) (max_digits : nat) (max : Z) (count : nat) (acc : Z) (s : string)
  : option (Z * nat * string) :=
  match s with
  | String a s' =>
      match digit_of radix a with
      | Some d =>
          let acc := (acc * radix + d)%Z in
          if (max <? acc)%Z || (max_digits <=? count)%nat then None
          else read_digits radix max_digits max (Datatypes.S count) acc s'
      | None => Some (acc, count, s)
      end
  | EmptyString => Some (acc, count, s)
  end.

(** [read_number(radix, max_digits, allow_zero_prefix)]. *)
Definition read_number (radix : Z) (max_digits : nat) (max : Z) (allow_zero_prefix : bool)
    (s : string) : option (Z * string) :=
  match read_digits radix max_digits max 0 0 s with
  | Some (v, count, rest) =>
      if (count =? 0)%nat then None
      else if negb allow_zero_prefix && starts_with "0" s && (1 <? count)%nat then None
      else Some (v, rest)
  | None => None
  end.

(** [read_separator]: the separator in front of every item but the first. *)
Definition read_separator {A} (sep : ascii) (index : nat) (inner : string -> option (A * string))
    (s : string) : option (A * string) :=
  if (0 <? index)%nat then
    match s with
    | String a s => if Ascii.eqb a sep then inner s else None
    | EmptyString => None
    end
  else inner s.

Definition read_octet : string -> option (Z * string) := read_number 10 3 255 false.
Definition read_group : string -> option (Z * string) := read_number 16 4 65535 true.

(** [n] octets, the first at index [i]. *)
Fixpoint read_octets (i n : nat) (s : string) : option (list Z * string) :=
  match n with
  | O => Some ([], s)
  | Datatypes.S n =>
      match read_separator "." i read_octet s with
      | Some (o, s) =>
          match read_octets (Datatypes.S i) n s with
          | Some (os, s) => Some (o :: os, s)
          | None => None
          end
      | None => None
      end
  end.

Definition read_ipv4_addr (s : string) : option (list Z * string) := read_octets 0 4 s.

(** [read_groups] on a slice with [room] groups from index [i] on: the groups
    read, whether they end with an embedded IPv4 address, and the rest. *)
Fixpoint read_groups (i room : nat) (s : string) : list Z * bool * string :=
  match room with
  | O => ([], false, s)
  | Datatypes.S room =>
      let ipv4 := if (0 <? room)%nat then read_separator ":" i read_ipv4_addr s else None in
      match ipv4 with
      | Some ([a; b; c; d], s) => ([a * 256 + b; c * 256 + d]%Z, true, s)
      | _ =>
          match read_separator ":" i read_group s with
          | Some (g, s) => let '(gs, v4, s) := read_groups (Datatypes.S i) room s in (g :: gs, v4, s)
          | None => ([], false, s)
          end
      end
  end.

Definition read_ipv6_addr (s : string) : option (list Z * string) :=
  let '(head, head_ipv4, s) := read_groups 0 8 s in
  let head_size := List.length head in
  if (head_size =? 8)%nat then Some (head, s)
  else if head_ipv4 then None
  else
    match s with
    | String ":" (String ":" s) =>
        let limit := (8 - (head_size + 1))%nat in
        let '(tail, _, s) := read_groups 0 limit s in
        Some (head ++ repeat 0%Z (8 - head_size - List.length tail) ++ tail, s)
    | _ => None
    end.

(** [s.parse::<IpAddr>()]: the whole input. *)
Definition parse_ip (s : string) : option IpAddr :=
  match read_ipv4_addr s with
  | Some (os, rest) => if str_is_empty rest then Some (V4 os) else None
  | None =>
      match read_ipv6_addr s with
      | Some (gs, rest) => if str_is_empty rest then Some (V6 gs) else None
      | None => None
      end
  end.

(** ** [Display] *)

Definition show_v4 (os : list Z) : string := str_join "." (map to_dec os).

(** The first longest run of zero groups: its start and length, [cur] being the
    run that ends at index [i]. *)
Fixpoint longest_zeroes (i : nat) (gs : list Z) (longest cur : nat * nat) : nat * nat :=
  match gs with
  | [] => longest
  | g :: gs =>
      if (g =? 0)%Z then
        let cur := if (snd cur =? 0)%nat then (i, 1%nat) else (fst cur, Datatypes.S (snd cur)) in
        let longest := if (snd longest <? snd cur)%nat then cur else longest in
        longest_zeroes (Datatypes.S i) gs longest cur
      else longest_zeroes (Datatypes.S i) gs longest (0, 0)%nat
  end.

Definition show_groups (gs : list Z) : string := str_join ":" (map to_hex gs).

Definition show_v6 (gs : list Z) : string :=
  match gs with
  | [0; 0; 0; 0; 0; 65535; a; b]%Z =>
      "::ffff:" +:+ show_v4 [a / 256; a mod 256; b / 256; b mod 256]%Z
  | _ =>
      let '(start, len) := longest_zeroes 0 gs (0, 0)%nat (0, 0)%nat in
      if (1 <? len)%nat
      then show_groups (firstn start gs) +:+ "::" +:+ show_groups (skipn (start + len) gs)
      else show_groups gs
  end.

Definition show_ip (ip : IpAddr) : string :=
  match ip with V4 os => show_v4 os | V6 gs => show_v6 gs end.

Definition ip_wf (ip : IpAddr) : Prop :=
  match ip with
  | V4 os => List.length os = 4%nat /\ Forall (fun o => 0 <= o < 256)%Z os
  | V6 gs => List.length gs = 8%nat /\ Forall (fun g => 0 <= g < 65536)%Z gs
  end.

Example parse_examples :
  map parse_ip ["203.0.113.7"; "01.2.3.4"; "1.2.3"; "::1"; "2001:db8::8:800:200c:417a";
                "::ffff:10.0.0.9"; "1::2::3"; "1.2.3.4:80"; ""] =
  [Some (V4 [203; 0; 113; 7]%Z); None; None; Some (V6 [0; 0; 0; 0; 0; 0; 0; 1]%Z);
   Some (V6 [8193; 3512; 0; 0; 8; 2048; 8204; 16762]%Z);
   Some (V6 [0; 0; 0; 0; 0; 65535; 2560; 9]%Z); None; None; None].
Proof. vm_compute. reflexivity. Qed.

Example show_examples :
  map show_ip [V4 [10; 0; 0; 9]%Z; V6 [8193; 3512; 0; 0; 8; 2048; 8204; 16762]%Z;
               V6 [0; 0; 0; 0; 0; 0; 0; 0]%Z; V6 [1; 0; 2; 0; 0; 3; 0; 0]%Z;
               V6 [0; 0; 0; 0; 0; 65535; 2560; 9]%Z] =
  ["10.0.0.9"; "2001:db8::8:800:200c:417a"; "::"; "1:0:2::3:0:0"; "::ffff:10.0.0.9"].
Proof. vm_compute. reflexivity. Qed.

(** ** Round trip *)

(** Every octet, read in front of the end or of a character that is no digit. *)
Definition no_digit (rest : string) : Prop :=
  match rest with EmptyString => True | String a _ => digit_of 10 a = None end.

Definition octet_ok (o : Z) : bool :=
  match to_dec o with
  | String a EmptyString =>
      match digit_of 10 a with Some d => (d =? o)%Z | _ => false end
  | String a (String b EmptyString) =>
      match digit_of 10 a, digit_of 10 b with
      | Some d, Some e => (d * 10 + e =? o)%Z && negb (Ascii.eqb "0" a)
      | _, _ => false end
  | String a (String b (String c EmptyString)) =>
      match digit_of 10 a, digit_of 10 b, digit_of 10 c with
      | Some d, Some e, Some f => ((d * 10 + e) * 10 + f =? o)%Z && negb (Ascii.eqb "0" a)
      | _, _, _ => false end
  | _ => false
  end.

Lemma octets_ok : forallb (fun n => octet_ok (Z.of_nat n)) (seq 0 256) = true.
Proof. vm_compute. reflexivity. Qed.

Lemma digit_of_bound radix a d : digit_of radix a = Some d -> (0 <= d < radix)%Z.
Proof.
  unfold digit_of. destruct (_ <? radix)%Z eqn:E; [|done]. intros [= <-]. bool_hyps.
  split; [|done]. unfold in_range in *.
  repeat (case_match; bool_hyps; try lia).
Qed.

Lemma starts_zero a s : starts_with "0" (String a s) = Ascii.eqb "0" a.
Proof. unfold starts_with. cbn [str_strip_prefix]. by destruct (Ascii.eqb "0" a). Qed.

Lemma read_octet_show o rest :
  (0 <= o < 256)%Z -> no_digit rest -> read_octet (to_dec o +:+ rest) = Some (o, rest).
Proof.
  intros Ho Hrest.
  assert (Hok : octet_ok o = true).
  { pose proof octets_ok as Hall. rewrite forallb_forall in Hall.
    specialize (Hall (Z.to_nat o)). rewrite Z2Nat.id in Hall by lia.
    apply Hall, in_seq. lia. }
  assert (Hend : forall v n, read_digits 10 3 255 n v rest = Some (v, n, rest)).
  { intros v n. destruct rest as [|a rest]; cbn [read_digits]; [done|]. cbn in Hrest. by rewrite Hrest. }
  unfold octet_ok in Hok. unfold read_octet, read_number.
  destruct (to_dec o) as [|a [|b [|c [|d s]]]]; try done;
    repeat match type of Hok with
    | context [match digit_of 10 ?x with _ => _ end] =>
        destruct (digit_of 10 x) eqn:?; [|done]
    end;
    repeat match goal with
    | Hd : digit_of 10 _ = Some _ |- _ => pose proof (digit_of_bound _ _ _ Hd); revert Hd
    end; intros; bool_hyps; cbn [String.append read_digits];
    repeat match goal with
    | Hd : digit_of 10 ?x = Some _ |- _ => rewrite Hd; clear Hd
    end;
    repeat (rewrite (proj2 (Z.ltb_ge 255 _)) by lia; cbn [orb Nat.leb]);
    rewrite Hend; cbn [Nat.eqb negb andb Nat.ltb Nat.leb]; rewrite starts_zero.
  - rewrite andb_false_r. by subst.
  - rewrite (proj2 (Ascii.eqb_neq "0" a)) by done. by subst.
  - rewrite (proj2 (Ascii.eqb_neq "0" a)) by done. by subst.
Qed.

Lemma read_octets_show os i rest :
  os <> [] -> Forall (fun o => 0 <= o < 256)%Z os -> no_digit rest ->
  read_octets i (List.length os)
    ((if (0 <? i)%nat then "." else "") +:+ str_join "." (map to_dec os) +:+ rest) = Some (os, rest).
Proof.
  revert i; induction os as [|o os IH]; [done|]. intros i _ Hos Hrest.
  apply Forall_cons in Hos as [Ho Hos]. cbn [List.length read_octets map].
  assert (Hsep : forall s, read_separator "." i read_octet ((if (0 <? i)%nat then "." else "") +:+ s)
                           = read_octet s).
  { intros s. unfold read_separator. by destruct (0 <? i)%nat. }
  rewrite Hsep. destruct os as [|o' os].
  - cbn [map str_join]. by rewrite read_octet_show.
  - cbn [map] in *. rewrite str_join_cons by done. rewrite <- !sapp_assoc.
    rewrite read_octet_show by done.
    specialize (IH (Datatypes.S i) ltac:(done) Hos Hrest).
    cbn [Nat.ltb Nat.leb] in IH. by rewrite IH.
Qed.

(** *** Numbers *)

(** The value of a text of digits. *)
Fixpoint digits_value (radix : Z) (acc : Z) (s : string) : option Z :=
  match s with
  | EmptyString => Some acc
  | String a s =>
      match digit_of radix a with
      | Some d => digits_value radix (acc * radix + d)%Z s
      | None => None
      end
  end.

Lemma digit_of_char radix d : (0 <= d < radix)%Z -> (radix <= 16)%Z -> digit_of radix (digit_char d) = Some d.
Proof.
  intros Hd Hr. assert (Hx : forall r, (d < r)%Z -> digit_of 16 (digit_char d) = Some d ->
    digit_of r (digit_char d) = Some d).
  { intros r Hlt. unfold digit_of. destruct (_ <? 16)%Z; [|done]. intros [= E]. rewrite E.
    by rewrite (proj2 (Z.ltb_lt d r)). }
  apply Hx; [lia|]. assert (forallb (fun n => bool_decide
    (digit_of 16 (digit_char (Z.of_nat n)) = Some (Z.of_nat n))) (seq 0 16) = true) as Hall by (vm_compute; reflexivity).
  rewrite forallb_forall in Hall. specialize (Hall (Z.to_nat d)). rewrite Z2Nat.id in Hall by lia.
  eapply bool_decide_eq_true, Hall, in_seq. lia.
Qed.

Lemma digits_value_app radix acc s t :
  digits_value radix acc (s +:+ t) =
    match digits_value radix acc s with Some v => digits_value radix v t | None => None end.
Proof.
  revert acc; induction s as [|a s IH]; intros acc; [done|]. cbn. destruct (digit_of radix a); [apply IH|done].
Qed.

(** [digits_aux] prints digits of that value, and no more than it takes. *)
Lemma digits_aux_value radix fuel n acc : (2 <= radix <= 16)%Z ->
  (0 <= n < radix ^ Z.of_nat fuel)%Z -> (fuel <> 0)%nat ->
  exists ds, digits_aux radix fuel n acc = ds +:+ acc /\
    (forall a, digits_value radix a ds = Some (a * radix ^ str_len ds + n)%Z) /\
    (1 <= str_len ds)%Z /\ (str_len ds = 1 \/ radix ^ (str_len ds - 1) <= n)%Z.
Proof.
  intros Hr. revert n acc; induction fuel as [|fuel IH]; intros n acc Hn Hf; [done|].
  pose proof (Z.mod_pos_bound n radix ltac:(lia)) as Hm.
  pose proof (Z.div_mod n radix ltac:(lia)) as Hdm.
  assert (Hd : digit_of radix (digit_char (n mod radix)) = Some (n mod radix)%Z) by (apply digit_of_char; lia).
  cbn [digits_aux]. destruct (Z.eqb_spec (n / radix) 0) as [Hz|Hz].
  - exists (String (digit_char (n mod radix)) ""). split; [done|].
    change (str_len (String _ "")) with 1%Z. split; [|lia]. intros a. cbn [digits_value].
    rewrite Hd, Z.pow_1_r. f_equal. rewrite Hz in Hdm. lia.
  - assert (0 <= n / radix < radix ^ Z.of_nat fuel)%Z as Hq.
    { rewrite Nat2Z.inj_succ, Z.pow_succ_r in Hn by lia.
      split; [apply Z.div_pos; lia|apply Z.div_lt_upper_bound; lia]. }
    destruct fuel as [|fuel']; [cbn in *; lia|].
    destruct (IH (n / radix)%Z (String (digit_char (n mod radix)) acc) Hq ltac:(done))
      as (ds & -> & Hv & Hl & Hb).
    exists (ds +:+ String (digit_char (n mod radix)) ""). split; [by rewrite <- sapp_assoc|].
    rewrite str_len_app. change (str_len (String _ "")) with 1%Z. split; [|split; [lia|right]].
    + intros a. rewrite digits_value_app, Hv. cbn. rewrite Hd. f_equal.
      rewrite Z.pow_add_r by lia. lia.
    + replace (str_len ds + 1 - 1)%Z with (Z.succ (str_len ds - 1)) by lia.
      rewrite Z.pow_succ_r by lia. destruct Hb as [-> |Hb]; [change (radix ^ (1 - 1))%Z with 1%Z|]; nia.
Qed.

Lemma log2_lt_pow radix n : (2 <= radix)%Z -> (0 <= n)%Z ->
  (n < radix ^ Z.of_nat (S (Z.to_nat (Z.log2 n))))%Z.
Proof.
  intros Hr Hn. destruct (Z.eq_dec n 0) as [->|]; [cbn; lia|].
  pose proof (Z.log2_spec n ltac:(lia)) as [_ Hlt]. pose proof (Z.log2_nonneg n).
  eapply Z.lt_le_trans; [exact Hlt|].
  replace (Z.of_nat (S (Z.to_nat (Z.log2 n)))) with (Z.succ (Z.log2 n)) by lia.
  apply Z.pow_le_mono_l. lia.
Qed.

(** A text of digits with at most [k] of them. *)
Definition number_text (radix : Z) (k : nat) (n : Z) (s : string) : Prop :=
  digits_value radix 0 s = Some n /\ (1 <= str_len s <= Z.of_nat k)%Z.

Lemma shown_number radix k n : (2 <= radix <= 16)%Z -> (0 <= n < radix ^ Z.of_nat k)%Z -> k <> 0%nat ->
  number_text radix k n (digits_aux radix (S (Z.to_nat (Z.log2 n))) n "").
Proof.
  intros Hr Hn Hk.
  destruct (digits_aux_value radix (S (Z.to_nat (Z.log2 n))) n "" Hr) as (ds & -> & Hv & Hl & Hb);
    [split; [lia|apply log2_lt_pow; lia]|done|].
  rewrite sapp_nil_r. split; [by rewrite Hv|]. split; [done|]. destruct Hb as [-> |Hb]; [lia|].
  enough (str_len ds - 1 < Z.of_nat k)%Z by lia. apply (Z.pow_lt_mono_r_iff radix); lia.
Qed.

(** The rest after a number. *)
Definition no_digit_of (radix : Z) (rest : string) : Prop :=
  match rest with EmptyString => True | String a _ => digit_of radix a = None end.

Lemma digits_value_mono radix s : forall acc n, (1 <= radix)%Z -> (0 <= acc)%Z ->
  digits_value radix acc s = Some n -> (acc <= n)%Z.
Proof.
  induction s as [|a s IH]; intros acc n Hr Ha; cbn; [by intros [= <-]|].
  destruct (digit_of radix a) as [d|] eqn:Hd; [|done]. apply digit_of_bound in Hd.
  intros Hv. apply IH in Hv; nia.
Qed.

Lemma read_digits_text radix maxd max s : forall count acc n rest, (1 <= radix)%Z -> (0 <= acc)%Z ->
  digits_value radix acc s = Some n -> (n <= max)%Z -> (Z.of_nat count + str_len s <= Z.of_nat maxd)%Z ->
  no_digit_of radix rest ->
  read_digits radix maxd max count acc (s +:+ rest) = Some (n, (count + String.length s)%nat, rest).
Proof.
  unfold str_len. induction s as [|a s IH]; intros count acc n rest Hr Ha Hv Hn Hl Hrest.
  - injection Hv as ->. rewrite Nat.add_0_r. destruct rest as [|a rest]; [done|].
    cbn in *. by rewrite Hrest.
  - cbn in Hv. change (String.length (String a s)) with (Datatypes.S (String.length s)) in *.
    rewrite Nat2Z.inj_succ in Hl. cbn [String.append read_digits]. destruct (digit_of radix a) as [d|] eqn:Hd; [|done].
    apply digit_of_bound in Hd. assert (0 <= acc * radix + d)%Z as Hacc by nia.
    pose proof (digits_value_mono _ _ _ _ Hr Hacc Hv) as Hle.
    rewrite (proj2 (Z.ltb_ge max _)) by lia. rewrite (proj2 (Nat.leb_gt maxd count)) by lia. cbn [orb].
    rewrite (IH (Datatypes.S count) _ n rest) by (done || lia).
    do 3 f_equal. lia.
Qed.

Lemma read_number_text radix maxd max n s rest : (1 <= radix)%Z -> number_text radix maxd n s ->
  (n <= max)%Z -> no_digit_of radix rest -> read_number radix maxd max true (s +:+ rest) = Some (n, rest).
Proof.
  intros Hr [Hv Hl] Hn Hrest. unfold read_number.
  rewrite (read_digits_text radix maxd max s 0 0 n rest) by (done || lia).
  unfold str_len in Hl. by destruct (String.length s) eqn:E; [lia|].
Qed.

Lemma read_group_show g rest : (0 <= g < 65536)%Z -> no_digit_of 16 rest ->
  read_group (to_hex g +:+ rest) = Some (g, rest).
Proof.
  intros Hg Hrest. apply read_number_text; [lia| |lia|done]. by apply shown_number.
Qed.

(** *** Groups *)

Fixpoint drop_digits (s : string) : string :=
  match s with
  | String a s' => match digit_of 10 a with Some _ => drop_digits s' | None => s end
  | EmptyString => EmptyString
  end.

Lemma read_digits_drop maxd max s : forall count acc v c rest,
  read_digits 10 maxd max count acc s = Some (v, c, rest) -> rest = drop_digits s.
Proof.
  induction s as [|a s IH]; intros count acc v c rest; cbn; [by intros [= _ _ <-]|].
  destruct (digit_of 10 a); [|by intros [= _ _ <-]]. destruct (_ || _); [done|]. apply IH.
Qed.

Lemma starts_dot a s : starts_with "." (String a s) = Ascii.eqb "." a.
Proof. unfold starts_with. cbn [str_strip_prefix]. by destruct (Ascii.eqb "." a). Qed.

(** No IPv4 address is read where no dot follows the digits. *)
Lemma no_ipv4 s : starts_with "." (drop_digits s) = false -> read_ipv4_addr s = None.
Proof.
  intros Hs. unfold read_ipv4_addr. cbn [read_octets]. unfold read_separator. cbn [Nat.ltb Nat.leb].
  destruct (read_octet s) as [[o s']|] eqn:E; [|done].
  assert (s' = drop_digits s) as Hd.
  { revert E. unfold read_octet, read_number. destruct (read_digits _ _ _ _ _ s) as [[[v c] r]|] eqn:E; [|done].
    apply read_digits_drop in E as ->. repeat case_match; try done. by intros [= _ <-]. }
  destruct s' as [|a s']; [done|]. rewrite <- Hd in Hs. rewrite starts_dot in Hs. by rewrite Ascii.eqb_sym, Hs.
Qed.

Lemma hex_no_dot t : forall acc n rest, digits_value 16 acc t = Some n ->
  starts_with "." (drop_digits rest) = false -> starts_with "." (drop_digits (t +:+ rest)) = false.
Proof.
  induction t as [|a t IH]; intros acc n rest; cbn; [done|].
  destruct (digit_of 16 a) as [d|] eqn:Hd; [|done]. intros Hv Hr. destruct (digit_of 10 a); [by eapply IH|].
  rewrite starts_dot. destruct (Ascii.eqb "." a) eqn:E; [|done]. apply Ascii.eqb_eq in E as <-. done.
Qed.

Lemma hex_value g : (0 <= g)%Z -> digits_value 16 0 (to_hex g) = Some g.
Proof.
  intros Hg. destruct (shown_number 16 (Datatypes.S (Z.to_nat (Z.log2 g))) g) as [Hv _]; try done; try lia.
  split; [done|]. apply log2_lt_pow; lia.
Qed.

(** What stops the groups: the end, two colons or a bracket. *)
Inductive stops : string -> Prop :=
| stops_end : stops ""
| stops_bracket t : stops (String "]" t)
| stops_colons t : stops (String ":" (String ":" t)).

Definition colon_at (i : nat) : string := if (0 <? i)%nat then ":" else "".

Lemma read_groups_stop i room rest : stops rest -> read_groups i room rest = ([], false, rest).
Proof. intros []; destruct room as [|room], i; try done; by destruct room. Qed.

Lemma separator_at {A} i (inner : string -> option (A * string)) s :
  read_separator ":" i inner (colon_at i +:+ s) = inner s.
Proof. unfold read_separator, colon_at. by destruct (0 <? i)%nat. Qed.

Lemma stops_no_digit rest : stops rest -> no_digit_of 16 rest /\ starts_with "." (drop_digits rest) = false.
Proof. by intros []. Qed.

Lemma read_groups_show gs : forall i room rest, gs <> [] -> Forall (fun g => 0 <= g < 65536)%Z gs ->
  (List.length gs <= room)%nat -> stops rest ->
  read_groups i room (colon_at i +:+ show_groups gs +:+ rest) = (gs, false, rest).
Proof.
  induction gs as [|g gs IH]; [done|]. intros i room rest _ Hgs Hroom Hrest.
  apply Forall_cons in Hgs as [Hg Hgs]. destruct room as [|room]; [cbn in Hroom; lia|]. cbn in Hroom.
  assert (exists more, show_groups (g :: gs) +:+ rest = to_hex g +:+ more /\ no_digit_of 16 more /\
    starts_with "." (drop_digits more) = false /\ read_groups (Datatypes.S i) room more = (gs, false, rest))
    as (more & -> & Hd & Hdot & Hmore).
  { destruct gs as [|g' gs].
    - exists rest. destruct (stops_no_digit rest Hrest). split; [done|]. by rewrite read_groups_stop.
    - exists (":" +:+ show_groups (g' :: gs) +:+ rest).
      split; [unfold show_groups; cbn [map]; rewrite str_join_cons by done; by rewrite <- !sapp_assoc|].
      split; [done|]. split; [done|]. apply (IH (Datatypes.S i)); try done. lia. }
  cbn [read_groups]. rewrite !separator_at.
  rewrite no_ipv4 by (eapply hex_no_dot; [apply hex_value; lia|done]).
  rewrite read_group_show, Hmore by done. by destruct (0 <? room)%nat.
Qed.

(** *** Compression *)

(** The run that [longest_zeroes] finds is one of zeroes. *)
Definition zero_run (gs : list Z) (r : nat * nat) : Prop :=
  (fst r + snd r <= List.length gs)%nat /\
  forall k, (fst r <= k < fst r + snd r)%nat -> gs !! k = Some 0%Z.

Lemma longest_zeroes_run all gs : forall i longest cur, drop i all = gs -> (i <= List.length all)%nat ->
  zero_run all longest -> zero_run all cur -> (snd cur <> 0%nat -> fst cur + snd cur = i)%nat ->
  zero_run all (longest_zeroes i gs longest cur).
Proof.
  induction gs as [|g gs IH]; intros i longest cur Hdrop Hi Hl Hc He; [done|].
  assert (all !! i = Some g) as Hg by (by rewrite <- (Nat.add_0_r i), <- lookup_drop, Hdrop).
  assert (drop (Datatypes.S i) all = gs) as Hd.
  { rewrite <- Nat.add_1_r, <- drop_drop, Hdrop. done. }
  assert (Datatypes.S i <= List.length all)%nat as Hi' by (apply lookup_lt_Some in Hg; lia).
  cbn [longest_zeroes]. destruct (Z.eqb_spec g 0) as [->|].
  2:{ apply IH; try done. split; cbn; [lia|]. intros k. lia. }
  set (cur' := if (snd cur =? 0)%nat then _ else _).
  assert (zero_run all cur' /\ (fst cur' + snd cur' = Datatypes.S i)%nat) as [Hc' He'].
  { subst cur'. destruct (Nat.eqb_spec (snd cur) 0) as [|Hne]; cbn.
    - split; [|lia]. split; cbn; [lia|]. intros k Hk. by replace k with i by lia.
    - specialize (He Hne). split; [|lia]. split; cbn; [lia|]. intros k Hk.
      destruct (decide (k = i)) as [->|]; [done|]. apply Hc. lia. }
  apply IH; try done. by destruct (snd longest <? snd cur')%nat.
Qed.

Lemma firstn_zeroes len : forall l, (forall k, (k < len)%nat -> l !! k = Some 0%Z) ->
  firstn len l = repeat 0%Z len.
Proof.
  induction len as [|len IH]; intros l Hl; [done|].
  destruct l as [|x l]; [by specialize (Hl 0%nat ltac:(lia))|].
  pose proof (Hl 0%nat ltac:(lia)) as [= ->]. cbn. f_equal. apply IH.
  intros k Hk. apply (Hl (Datatypes.S k)). lia.
Qed.

Lemma zero_run_split gs start len : zero_run gs (start, len) ->
  firstn start gs ++ repeat 0%Z len ++ skipn (start + len) gs = gs.
Proof.
  intros [Hl Hz]. cbn in *. rewrite <- (firstn_skipn start gs) at 3. f_equal.
  rewrite <- (firstn_skipn len (skipn start gs)), skipn_skipn, Nat.add_comm. f_equal.
  symmetry. apply firstn_zeroes. intros k Hk. rewrite lookup_drop. apply Hz. lia.
Qed.

(** *** Addresses *)

Lemma show_groups_cons g g' gs : show_groups (g :: g' :: gs) = to_hex g +:+ ":" +:+ show_groups (g' :: gs).
Proof. unfold show_groups. cbn [map]. by rewrite str_join_cons. Qed.

(** Groups, or none, in front of what stops them. *)
Lemma read_shown_groups gs room rest : Forall (fun g => 0 <= g < 65536)%Z gs ->
  (List.length gs <= room)%nat -> stops rest ->
  read_groups 0 room (show_groups gs +:+ rest) = (gs, false, rest).
Proof.
  intros Hgs Hroom Hrest. destruct gs as [|g gs]; [by apply read_groups_stop|].
  by apply (read_groups_show (g :: gs) 0).
Qed.

Lemma groups_no_dot gs rest : Forall (fun g => 0 <= g < 65536)%Z gs -> stops rest ->
  starts_with "." (drop_digits (show_groups gs +:+ rest)) = false.
Proof.
  intros Hgs Hrest. destruct (stops_no_digit rest Hrest) as [_ Hdot].
  destruct gs as [|g gs]; [done|]. apply Forall_cons in Hgs as [Hg _].
  destruct gs as [|g' gs]; [|rewrite show_groups_cons, <- !sapp_assoc];
    (eapply hex_no_dot; [apply hex_value; lia|]); done.
Qed.

Lemma stops_no_decimal rest : stops rest -> no_digit rest.
Proof. by intros []. Qed.

Lemma read_show_v4 os rest : ip_wf (V4 os) -> no_digit rest ->
  read_ipv4_addr (show_v4 os +:+ rest) = Some (os, rest).
Proof.
  intros [Hlen Hos] Hrest. unfold read_ipv4_addr, show_v4. rewrite <- Hlen.
  apply (read_octets_show os 0 rest); [by intros ->|done..].
Qed.

(** The plain form of an IPv6 address, compressed or not. *)
Definition show_plain (gs : list Z) : string :=
  let '(start, len) := longest_zeroes 0 gs (0, 0)%nat (0, 0)%nat in
  if (1 <? len)%nat
  then show_groups (firstn start gs) +:+ "::" +:+ show_groups (skipn (start + len) gs)
  else show_groups gs.

Lemma show_v6_cases gs :
  show_v6 gs = show_plain gs \/
  exists a b, gs = [0; 0; 0; 0; 0; 65535; a; b]%Z /\
    show_v6 gs = "::ffff:" +:+ show_v4 [a / 256; a mod 256; b / 256; b mod 256]%Z.
Proof.
  unfold show_v6.
  repeat match goal with
  | |- context [match ?x with _ => _ end] => is_var x; destruct x; try (by left)
  end. right. eauto.
Qed.

Lemma read_plain_v6 gs rest : ip_wf (V6 gs) -> stops rest ->
  read_ipv6_addr (show_plain gs +:+ rest) = Some (gs, rest) /\
  read_ipv4_addr (show_plain gs +:+ rest) = None.
Proof.
  intros [Hlen Hgs] Hrest. unfold show_plain.
  pose proof (longest_zeroes_run gs gs 0 (0, 0)%nat (0, 0)%nat eq_refl ltac:(lia)
    ltac:(split; cbn; [lia|intros; lia]) ltac:(split; cbn; [lia|intros; lia]) ltac:(done)) as Hrun.
  destruct (longest_zeroes _ _ _ _) as [start len]. destruct (Nat.ltb_spec 1 len) as [Hl|Hl].
  - destruct Hrun as [Hb Hz]; cbn in Hb, Hz. rewrite <- !sapp_assoc.
    pose proof (Forall_take _ start _ Hgs) as Hhead. pose proof (Forall_drop _ (start + len) _ Hgs) as Htail.
    split; [|by apply no_ipv4, groups_no_dot; [|constructor]].
    unfold read_ipv6_addr. rewrite read_shown_groups; [|done|rewrite length_take; lia|constructor].
    rewrite length_take, Nat.min_l by lia. rewrite (proj2 (Nat.eqb_neq start 8)) by lia.
    change ("::" +:+ ?x) with (String ":" (String ":" x)).
    cbn match. rewrite read_shown_groups; [|done|rewrite length_drop; lia|done].
    rewrite length_drop. do 2 f_equal. replace (8 - start - (List.length gs - (start + len)))%nat with len by lia.
    by apply zero_run_split.
  - split; [|by apply no_ipv4, groups_no_dot]. unfold read_ipv6_addr.
    rewrite read_shown_groups by (done || lia). by rewrite Hlen.
Qed.

Lemma read_mapped_v6 a b rest : (0 <= a < 65536)%Z -> (0 <= b < 65536)%Z -> stops rest ->
  let s := "::ffff:" +:+ show_v4 [a / 256; a mod 256; b / 256; b mod 256]%Z +:+ rest in
  read_ipv6_addr s = Some ([0; 0; 0; 0; 0; 65535; a; b]%Z, rest) /\ read_ipv4_addr s = None.
Proof.
  intros Ha Hb Hrest. set (os := [_; _; _; _]). cbn zeta. split; [|by apply no_ipv4].
  assert (Hos : ip_wf (V4 os)).
  { split; [done|]. subst os. cbn. rewrite !Forall_cons. split_and!; try done; Z.to_euclidean_division_equations; lia. }
  set (t := String ":" (show_v4 os +:+ rest)).
  change ("::ffff:" +:+ show_v4 os +:+ rest) with (String ":" (String ":" (to_hex 65535 +:+ t))).
  unfold read_ipv6_addr. rewrite read_groups_stop by constructor. cbn match. cbn [List.length Nat.eqb Nat.sub Nat.add].
  cbn [read_groups]. cbn [Nat.ltb Nat.leb]. unfold read_separator at 1 2. cbn [Nat.ltb Nat.leb].
  rewrite no_ipv4 by (by vm_compute). rewrite read_group_show by (done || lia).
  unfold t. unfold read_separator at 1. cbn [Nat.ltb Nat.leb Ascii.eqb Bool.eqb].
  rewrite read_show_v4 by (done || by apply stops_no_decimal). subst os. cbn [List.length repeat app Nat.sub].
  do 2 f_equal.
  repeat f_equal; Z.to_euclidean_division_equations; lia.
Qed.

(** A printed address in front of what ends one. *)
Lemma read_show_v6 gs rest : ip_wf (V6 gs) -> stops rest ->
  read_ipv6_addr (show_v6 gs +:+ rest) = Some (gs, rest) /\ read_ipv4_addr (show_v6 gs +:+ rest) = None.
Proof.
  intros Hwf Hrest. destruct (show_v6_cases gs) as [->|(a & b & -> & ->)]; [by apply read_plain_v6|].
  destruct Hwf as [_ Hgs]. rewrite !Forall_cons in Hgs. destruct Hgs as (_ & _ & _ & _ & _ & _ & Ha & Hb & _).
  rewrite <- sapp_assoc. by apply read_mapped_v6.
Qed.

(** An address prints to text that parses back to it: IPv4, and IPv6 with its
    longest run of zeroes compressed, or with an embedded IPv4 address. *)
Theorem parse_show_ip ip : ip_wf ip -> parse_ip (show_ip ip) = Some ip.
Proof.
  intros Hwf. unfold parse_ip. rewrite <- (sapp_nil_r (show_ip ip)). destruct ip as [os|gs]; cbn [show_ip].
  - by rewrite read_show_v4.
  - destruct (read_show_v6 gs "" Hwf ltac:(constructor)) as [-> ->]. done.
Qed.

(** Distinct addresses print differently. *)
Corollary show_ip_inj ip ip' : ip_wf ip -> ip_wf ip' -> show_ip ip = show_ip ip' -> ip = ip'.
Proof. intros Hw Hw' E. apply parse_show_ip in Hw, Hw'. congruence. Qed.

(** ** Socket addresses *)

(** A [std::net::SocketAddr]; an IPv4 one has no scope, which is 0. *)
Record SockAddr := mkSockAddr { sock_ip : IpAddr; sock_scope : Z; sock_port : Z }.

Definition read_char (c : ascii) (s : string) : option string :=
  match s with
  | String a s => if Ascii.eqb a c then Some s else None
  | EmptyString => None
  end.

(** A number without a bound on its digits: it has no more than the text. *)
Definition read_unbounded (max : Z) (s : string) : option (Z * string) :=
  read_number 10 (String.length s) max true s.

Definition read_port (s : string) : option (Z * string) := read_char ":" s ≫= read_unbounded 65535.

(** [read_scope_id] is optional. *)
Definition read_scope_id (s : string) : Z * string :=
  match read_char "%" s ≫= read_unbounded (2 ^ 32 - 1) with
  | Some (scope, s) => (scope, s)
  | None => (0%Z, s)
  end.

Definition read_socket_addr_v4 (s : string) : option (SockAddr * string) :=
  '(os, s) ← read_ipv4_addr s; '(port, s) ← read_port s; Some (mkSockAddr (V4 os) 0 port, s).
Definition read_socket_addr_v6 (s : string) : option (SockAddr * string) :=
  s ← read_char "[" s; '(gs, s) ← read_ipv6_addr s; let '(scope, s) := read_scope_id s in
  s ← read_char "]" s; '(port, s) ← read_port s; Some (mkSockAddr (V6 gs) scope port, s).

(** [s.parse::<SocketAddr>()]. *)
Definition parse_socket_addr (s : string) : option SockAddr :=
  match read_socket_addr_v4 s with
  | Some (a, rest) => if str_is_empty rest then Some a else None
  | None =>
      match read_socket_addr_v6 s with
      | Some (a, rest) => if str_is_empty rest then Some a else None
      | None => None
      end
  end.

Example parse_socket_examples :
  map parse_socket_addr ["127.0.0.1:8080"; "[::1]:0080"; "[fe80::1%3]:80"; "::1:80"; "localhost:80"; "1.2.3.4:65536"] =
    [Some (mkSockAddr (V4 [127; 0; 0; 1]) 0 8080); Some (mkSockAddr (V6 [0; 0; 0; 0; 0; 0; 0; 1]) 0 80);
     Some (mkSockAddr (V6 [65152; 0; 0; 0; 0; 0; 0; 1]) 3 80); None; None; None]%Z.
Proof. by vm_compute. Qed.

Lemma read_port_show port : (0 <= port <= 65535)%Z -> read_port (":" +:+ to_dec port) = Some (port, "").
Proof.
  intros Hp. unfold read_port. cbn -[to_dec]. unfold read_unbounded.
  rewrite <- (sapp_nil_r (to_dec port)) at 2.
  destruct (shown_number 10 (Datatypes.S (Z.to_nat (Z.log2 port))) port) as [Hv Hl]; try done; try lia.
  { split; [lia|]. apply log2_lt_pow; lia. }
  apply read_number_text; [lia| |lia|done]. split; [done|]. fold (to_dec port) in Hl. unfold str_len in *. lia.
Qed.

(** A printed address, in brackets when it is an IPv6 one, with a port. *)
Definition show_host (ip : IpAddr) : string :=
  match ip with V4 _ => show_ip ip | V6 _ => "[" +:+ show_ip ip +:+ "]" end.

Lemma parse_socket_show ip port : ip_wf ip -> (0 <= port <= 65535)%Z ->
  parse_socket_addr (show_host ip +:+ ":" +:+ to_dec port) = Some (mkSockAddr ip 0 port).
Proof.
  intros Hwf Hp. unfold parse_socket_addr, read_socket_addr_v4, read_socket_addr_v6.
  destruct ip as [os|gs]; cbn [show_host show_ip].
  - rewrite read_show_v4 by done. cbn -[read_port String.append to_dec]. by rewrite read_port_show.
  - rewrite no_ipv4 by done. cbn -[read_port String.append to_dec show_v6 read_ipv6_addr].
    rewrite <- !sapp_assoc.
    change ("[" +:+ ?x) with (String "[" x). cbn [read_char Ascii.eqb Bool.eqb mbind option_bind].
    destruct (read_show_v6 gs ("]" +:+ ":" +:+ to_dec port) Hwf ltac:(constructor)) as [-> _].
    cbn -[read_port String.append to_dec]. change ("]" +:+ ?x) with (String "]" x).
    cbn -[read_port to_dec String.append]. by rewrite read_port_show.
Qed.

(** The characters of a printed address: colons tell the version. *)
Lemma numeral_no_char a radix s : digit_of radix a = None -> forall acc n,
  digits_value radix acc s = Some n -> contains_char a s = false.
Proof.
  intros Ha. induction s as [|b s IH]; intros acc n; [done|]. cbn [digits_value].
  destruct (digit_of radix b) as [d|] eqn:Hb; [|done]. intros Hv.
  rewrite contains_char_cons, (IH _ _ Hv), orb_false_r. apply Ascii.eqb_neq. intros ->. congruence.
Qed.

Lemma digit_of_none a : digit_of 16 a = None -> digit_of 10 a = None.
Proof.
  unfold digit_of. match goal with |- context [(?d <? 16)%Z] => destruct (Z.ltb_spec d 16) as [|Hd] end; [done|].
  intros _. apply (Z.le_trans 10), Z.ltb_ge in Hd; [by rewrite Hd|lia].
Qed.

Lemma dec_no_char a n : digit_of 10 a = None -> (0 <= n)%Z -> contains_char a (to_dec n) = false.
Proof.
  intros Ha Hn. destruct (shown_number 10 (Datatypes.S (Z.to_nat (Z.log2 n))) n) as [Hv _]; try done; try lia.
  { split; [lia|]. apply log2_lt_pow; lia. }
  by eapply numeral_no_char.
Qed.

Lemma join_no_char {A} a c (f : A -> string) (l : list A) : Ascii.eqb a c = false ->
  (forall x, x ∈ l -> contains_char a (f x) = false) ->
  contains_char a (str_join (String c "") (map f l)) = false.
Proof.
  intros Hc Hf. induction l as [|x [|y l] IH]; cbn [map] in *; [done|apply Hf; by left|].
  rewrite str_join_cons, !contains_char_app by done. rewrite Hf by (by left).
  rewrite IH by (intros; apply Hf; by right). rewrite contains_char_cons, Hc. done.
Qed.

Lemma show_v4_no_char a os : digit_of 10 a = None -> Ascii.eqb a "." = false ->
  Forall (fun o => 0 <= o < 256)%Z os -> contains_char a (show_v4 os) = false.
Proof.
  intros Ha Hc Hos. apply join_no_char; [done|]. intros o Ho.
  apply dec_no_char; [done|]. by apply (proj1 (Forall_forall _ _) Hos o) in Ho as [? _].
Qed.

Lemma show_v6_no_char a gs : digit_of 16 a = None -> Ascii.eqb a ":" = false -> Ascii.eqb a "." = false ->
  ip_wf (V6 gs) -> contains_char a (show_v6 gs) = false.
Proof.
  intros Ha Hc Hd [_ Hgs].
  assert (Hg : forall gs', Forall (fun g => 0 <= g < 65536)%Z gs' -> contains_char a (show_groups gs') = false).
  { intros gs' Hgs'. apply join_no_char; [done|]. intros g Hg.
    apply (proj1 (Forall_forall _ _) Hgs' g) in Hg as [? _]. by eapply numeral_no_char, hex_value. }
  destruct (show_v6_cases gs) as [->|(x & y & -> & ->)].
  - unfold show_plain. destruct (longest_zeroes _ _ _ _) as [start len].
    destruct (1 <? len)%nat; [|by apply Hg]. rewrite !contains_char_app, !contains_char_cons, !Hg, Hc; [done|..].
    + by apply Forall_drop.
    + by apply Forall_take.
  - rewrite contains_char_app, show_v4_no_char; [|by apply digit_of_none|done|].
    + rewrite orb_false_r. change "::ffff:" with ("::" +:+ to_hex 65535 +:+ ":").
      rewrite !contains_char_app, !contains_char_cons, Hc, (numeral_no_char a 16 _ Ha _ _ (hex_value 65535 ltac:(lia))).
      done.
    + rewrite !Forall_cons in *. destruct Hgs as (_ & _ & _ & _ & _ & _ & Hx & Hy & _).
      split_and!; try done; Z.to_euclidean_division_equations; lia.
Qed.

Lemma show_v6_colon gs : ip_wf (V6 gs) -> contains_char ":" (show_v6 gs) = true.
Proof.
  intros [Hlen _]. destruct (show_v6_cases gs) as [->|(a & b & _ & ->)]; [|by rewrite contains_char_app].
  unfold show_plain. destruct (longest_zeroes _ _ _ _) as [start len]. destruct (1 <? len)%nat.
  - rewrite !contains_char_app. cbn. apply orb_true_r.
  - destruct gs as [|g [|g' gs]]; [done..|]. rewrite show_groups_cons, !contains_char_app. cbn. apply orb_true_r.
Qed.
