(* ===== verification/F64.v ===== *)
(** * Double-precision arithmetic

    The [f64] operations of the rate limiter.  A finite double is the rational
    it stands for, and an operation is the exact result rounded to 53 bits, to
    nearest, ties to even.  Everything the limiter computes lies between 2^-200
    and 2^200 or is zero, so the exponent range of the format plays no part. *)
From S2P Require Import Prelude.
From stdpp Require Import base tactics.
From Stdlib Require Import ZArith QArith Qround Qpower Qminmax Lqa Lia.
Open Scope Z_scope.

(** Round [a / b] to the nearest integer, ties to even. *)
Definition round_half_even (a b : Z) : Z :=
  let f := a / b in
  let r := a mod b in
  if 2 * r <? b then f
  else if b <? 2 * r then f + 1
  else if Z.even f then f else f + 1.

(** [n / d] divided by [2 ^ e], as a fraction of integers. *)
Definition scaled_num (n e : Z) : Z := n * 2 ^ Z.max 0 (- e).
Definition scaled_den (d e : Z) : Z := d * 2 ^ Z.max 0 e.

(** The exponent that gives [n / d] a significand of at least 53 bits. *)
Definition exponent (n d : Z) : Z :=
  let e := Z.log2 n - Z.log2 d - 52 in
  if scaled_num n e <? 2 ^ 52 * scaled_den d e then e - 1 else e.

Definition fl_pos (n d : Z) : Q :=
  let e := exponent n d in
  inject_Z (round_half_even (scaled_num n e) (scaled_den d e)) * Qpower (2 # 1) e.

(** Rounding. *)
Definition fl (q : Q) : Q :=
  match Qnum q with
  | Z0 => 0
  | Zpos n => fl_pos (Zpos n) (Zpos (Qden q))
  | Zneg n => - fl_pos (Zpos n) (Zpos (Qden q))
  end%Q.

Definition fadd (a b : Q) : Q := fl (a + b).
Definition fsub (a b : Q) : Q := fl (a - b).
Definition fmul (a b : Q) : Q := fl (a * b).
Definition fdiv (a b : Q) : Q := fl (a / b).
(** [f64::min] and [f64::max] of numbers. *)
Definition fmin (a b : Q) : Q := if Qle_bool a b then a else b.
Definition fmax (a b : Q) : Q := if Qle_bool a b then b else a.

(** [n as f64]. *)
Definition of_u64 (n : Z) : Q := fl (inject_Z n).

(** [Duration::as_secs_f64], of a number of nanoseconds. *)
Definition NANOS_PER_SEC : Z := 1000000000.
Definition as_secs_f64 (ns : Z) : Q :=
  fadd (of_u64 (ns / NANOS_PER_SEC)) (fdiv (of_u64 (ns mod NANOS_PER_SEC)) (of_u64 NANOS_PER_SEC)).

Definition MIN_POSITIVE : Q := 1 # (2 ^ 1022)%positive.

(** [x.ceil() as u64]: the cast saturates; [None] is infinity. *)
Definition ceil_as_u64 (x : option Q) : Z :=
  match x with
  | Some q => Z.max 0 (Z.min u64_max (Qceiling q))
  | None => u64_max
  end.

(** ** The relative error of rounding *)

(** Half a unit in the last place, relatively: 2^-53. *)
Definition eps : Q := 1 # (2 ^ 53)%positive.

Lemma round_half_even_error a b :
  0 < b -> - b <= 2 * (round_half_even a b * b - a) <= b.
Proof.
  intros Hb. unfold round_half_even.
  pose proof (Z.div_mod a b ltac:(lia)). pose proof (Z.mod_pos_bound a b Hb).
  assert (Hc : a = (a / b) * b + a mod b) by lia.
  destruct (Z.ltb_spec (2 * (a mod b)) b); [nia|].
  destruct (Z.ltb_spec b (2 * (a mod b))); [nia|].
  destruct (Z.even (a / b)); nia.
Qed.

(** An integer below the fraction is below its rounding. *)
Lemma round_half_even_floor a b k : 0 < b -> k * b <= a -> k <= round_half_even a b.
Proof.
  intros Hb Hk. assert (k <= a / b) by (apply Z.div_le_lower_bound; lia).
  unfold round_half_even. destruct (2 * (a mod b) <? b), (b <? 2 * (a mod b)), (Z.even (a / b)); lia.
Qed.

Lemma scaled_den_pos d e : 0 < d -> 0 < scaled_den d e.
Proof. intros. unfold scaled_den. apply Z.mul_pos_pos; [done|]. apply Z.pow_pos_nonneg; lia. Qed.

Lemma pow2_shift k : 2 ^ Z.max 0 (- (k - 1)) * 2 ^ Z.max 0 k = 2 * (2 ^ Z.max 0 (- k) * 2 ^ Z.max 0 (k - 1)).
Proof.
  rewrite <- (Z.pow_1_r 2) at 3. rewrite <- !Z.pow_add_r by lia. f_equal. lia.
Qed.

(** The significand has at least 53 bits. *)
Lemma exponent_normal n d :
  0 < n -> 0 < d -> let e := exponent n d in 2 ^ 52 * scaled_den d e <= scaled_num n e.
Proof.
  intros Hn Hd. cbn zeta. unfold exponent. set (e := Z.log2 n - Z.log2 d - 52).
  destruct (Z.ltb_spec (scaled_num n e) (2 ^ 52 * scaled_den d e)); [|done].
  pose proof (Z.log2_spec n Hn) as [Hln _]. pose proof (Z.log2_spec d Hd) as [_ Hld].
  pose proof (Z.log2_nonneg n). pose proof (Z.log2_nonneg d).
  unfold scaled_num, scaled_den.
  assert (Hkey : 2 ^ 52 * (2 ^ Z.succ (Z.log2 d) * 2 ^ Z.max 0 (e - 1))
                 = 2 ^ Z.log2 n * 2 ^ Z.max 0 (- (e - 1))).
  { rewrite <- !Z.pow_add_r by lia. f_equal. lia. }
  assert (0 < 2 ^ Z.max 0 (e - 1)) by (apply Z.pow_pos_nonneg; lia).
  assert (0 < 2 ^ Z.max 0 (- (e - 1))) by (apply Z.pow_pos_nonneg; lia).
  nia.
Qed.

Open Scope Q_scope.

Lemma qpow_pos e : 0 < Qpower (2 # 1) e.
Proof. apply Qpower_0_lt. reflexivity. Qed.

(** The scaled fraction is the original one. *)
Lemma scaled_value n d e :
  (0 < d)%Z ->
  inject_Z n / inject_Z d == inject_Z (scaled_num n e) / inject_Z (scaled_den d e) * Qpower (2 # 1) e.
Proof.
  intros Hd. unfold scaled_num, scaled_den.
  rewrite !inject_Z_mult, !Zpower_Qpower by lia.
  change (inject_Z 2) with (2 # 1).
  assert (Hd' : ~ inject_Z d == 0).
  { intros H0. unfold Qeq in H0. cbn in H0. lia. }
  assert (Hp : forall k, ~ Qpower (2 # 1) k == 0).
  { intros k H0. pose proof (qpow_pos k) as Hk. rewrite H0 in Hk. by apply Qlt_irrefl in Hk. }
  assert (Hsplit : Qpower (2 # 1) (Z.max 0 (- e)) * Qpower (2 # 1) e == Qpower (2 # 1) (Z.max 0 e)).
  { rewrite <- Qpower_plus by done. replace (Z.max 0 (- e) + e)%Z with (Z.max 0 e) by lia. reflexivity. }
  rewrite <- Hsplit. field. split; [apply Hp|]. split; [apply Hp|done].
Qed.

Lemma inject_Z_pos z : (0 < z)%Z -> 0 < inject_Z z.
Proof. intros. change 0 with (inject_Z 0). by rewrite <- Zlt_Qlt. Qed.

Lemma fl_pos_error n d :
  (0 < n)%Z -> (0 < d)%Z ->
  let q := inject_Z n / inject_Z d in q * (1 - eps) <= fl_pos n d <= q * (1 + eps).
Proof.
  intros Hn Hd. cbn zeta. unfold fl_pos. cbn zeta.
  pose proof (exponent_normal n d Hn Hd) as Hnorm. cbn zeta in Hnorm.
  set (e := exponent n d) in *.
  rewrite (scaled_value n d e Hd).
  pose proof (scaled_den_pos d e Hd) as HB.
  set (A := scaled_num n e) in *. set (B := scaled_den d e) in *.
  pose proof (round_half_even_error A B HB) as [Hlo Hhi].
  set (m := round_half_even A B) in *.
  pose proof (inject_Z_pos B HB) as HBq.
  pose proof (qpow_pos e) as HP. set (P := Qpower (2 # 1) e) in *.
  assert (HR : inject_Z A / inject_Z B * inject_Z B == inject_Z A).
  { field. intros H0. rewrite H0 in HBq. by apply Qlt_irrefl in HBq. }
  set (R := inject_Z A / inject_Z B) in *.
  assert (H52 : (2 ^ 52 # 1) <= R).
  { apply Qmult_le_r with (z := inject_Z B); [done|]. rewrite HR.
    change (2 ^ 52 # 1) with (inject_Z (2 ^ 52)). by rewrite <- inject_Z_mult, <- Zle_Qle. }
  assert (Hm : - (1) <= 2 * (inject_Z m - R) <= 1).
  { split; apply Qmult_le_r with (z := inject_Z B); try done.
    - assert (2 * (inject_Z m - R) * inject_Z B == inject_Z (2 * (m * B - A))) as ->.
      { rewrite inject_Z_mult. unfold Z.sub. rewrite inject_Z_plus, inject_Z_opp, inject_Z_mult.
        rewrite <- HR. change (inject_Z 2) with 2. ring. }
      assert (-(1) * inject_Z B == inject_Z (- B)) as -> by (rewrite inject_Z_opp; ring).
      by rewrite <- Zle_Qle.
    - assert (2 * (inject_Z m - R) * inject_Z B == inject_Z (2 * (m * B - A))) as ->.
      { rewrite inject_Z_mult. unfold Z.sub. rewrite inject_Z_plus, inject_Z_opp, inject_Z_mult.
        rewrite <- HR. change (inject_Z 2) with 2. ring. }
      assert (1 * inject_Z B == inject_Z B) as -> by ring. by rewrite <- Zle_Qle. }
  assert (He : 1 <= 2 * (R * eps)).
  { unfold eps. change (2 ^ 52 # 1) with (4503599627370496 # 1) in H52.
    change (1 # (2 ^ 53)) with (1 # 9007199254740992). lra. }
  split.
  - assert (R * P * (1 - eps) == R * (1 - eps) * P) as -> by ring.
    apply Qmult_le_compat_r; [lra|lra].
  - assert (R * P * (1 + eps) == R * (1 + eps) * P) as -> by ring.
    apply Qmult_le_compat_r; [lra|lra].
Qed.

(** An integer with at most 53 bits that is below a number is below its
    rounding. *)
Lemma fl_pos_int n d k :
  (0 < n)%Z -> (0 < d)%Z -> (0 <= k <= 2 ^ 53)%Z -> (k * d <= n)%Z -> inject_Z k <= fl_pos n d.
Proof.
  intros Hn Hd Hk Hkd. unfold fl_pos. cbn zeta.
  pose proof (exponent_normal n d Hn Hd) as Hnorm. cbn zeta in Hnorm.
  set (e := exponent n d) in *. pose proof (scaled_den_pos d e Hd) as HB.
  destruct (Z.le_gt_cases e 0) as [He|He].
  - assert (Hm : (k * 2 ^ (- e) <= round_half_even (scaled_num n e) (scaled_den d e))%Z).
    { apply round_half_even_floor; [done|]. unfold scaled_num, scaled_den.
      rewrite (Z.max_l 0 e), (Z.max_r 0 (- e)) by lia. cbn [Z.pow]. change (2 ^ 0)%Z with 1%Z. nia. }
    rewrite Zle_Qle, inject_Z_mult, Zpower_Qpower in Hm by lia. change (inject_Z 2) with (2 # 1) in Hm.
    assert (inject_Z k == inject_Z k * Qpower (2 # 1) (- e) * Qpower (2 # 1) e) as ->.
    { rewrite <- Qmult_assoc, <- Qpower_plus by done. rewrite Z.add_opp_diag_l.
      change (Qpower (2 # 1) 0) with 1. ring. }
    apply Qmult_le_compat_r; [done|]. pose proof (qpow_pos e). lra.
  - assert (Hm : (2 ^ 52 <= round_half_even (scaled_num n e) (scaled_den d e))%Z)
      by (apply round_half_even_floor; done).
    assert (inject_Z k <= inject_Z (2 ^ 52) * Qpower (2 # 1) e) as Hle.
    { change (2 # 1) with (inject_Z 2). rewrite <- Zpower_Qpower, <- inject_Z_mult, <- Zle_Qle by lia.
      replace e with (Z.succ (e - 1)) by lia. rewrite Z.pow_succ_r by lia.
      pose proof (Z.pow_pos_nonneg 2 (e - 1) ltac:(lia) ltac:(lia)). nia. }
    eapply Qle_trans; [exact Hle|]. apply Qmult_le_compat_r; [by rewrite <- Zle_Qle|].
    pose proof (qpow_pos e). lra.
Qed.

Lemma q_frac q : q == inject_Z (Qnum q) / inject_Z (Zpos (Qden q)).
Proof. destruct q as [n d]. cbn [Qnum Qden]. by rewrite Qmake_Qdiv. Qed.

(** The relative error of rounding a nonnegative number. *)
Lemma fl_error q : 0 <= q -> q * (1 - eps) <= fl q <= q * (1 + eps).
Proof.
  intros Hq. unfold fl. destruct (Qnum q) as [|n|n] eqn:En.
  - assert (q == 0) as -> by (unfold Qeq; rewrite En; done). lra.
  - pose proof (q_frac q) as Hf. rewrite En in Hf.
    pose proof (fl_pos_error (Zpos n) (Zpos (Qden q)) ltac:(lia) ltac:(lia)) as Hp.
    cbn zeta in Hp. split; [rewrite Hf at 1|rewrite Hf at 2]; apply Hp.
  - exfalso. unfold Qle in Hq. rewrite En in Hq. cbn in Hq. lia.
Qed.

Lemma fl_nonneg q : 0 <= q -> 0 <= fl q.
Proof.
  intros Hq. pose proof (fl_error q Hq) as [H1 _].
  assert (0 <= q * (1 - eps)); [|lra]. apply Qmult_le_0_compat; [done|]. unfold eps, Qle. cbn. lia.
Qed.

Lemma fl_int k q :
  (0 <= k <= 2 ^ 53)%Z -> inject_Z k <= q -> inject_Z k <= fl q.
Proof.
  intros Hk Hq. assert (H0 : 0 <= q).
  { eapply Qle_trans; [|exact Hq]. change 0 with (inject_Z 0). rewrite <- Zle_Qle. lia. }
  unfold fl. destruct (Qnum q) as [|n|n] eqn:En.
  - eapply Qle_trans; [exact Hq|]. assert (q == 0) as -> by (unfold Qeq; rewrite En; done). lra.
  - apply fl_pos_int; [lia..|]. unfold Qle in Hq. cbn in Hq. rewrite En in Hq. lia.
  - exfalso. unfold Qle in H0. rewrite En in H0. cbn in H0. lia.
Qed.

(** [Duration::as_secs_f64] rounds three times. *)
Definition secs (ns : Z) : Q := inject_Z ns / inject_Z NANOS_PER_SEC.

Lemma eps_small : 0 < eps /\ eps <= 1 # 1000.
Proof. unfold eps, Qlt, Qle. cbn. lia. Qed.

Lemma secs_nonneg ns : (0 <= ns)%Z -> 0 <= secs ns.
Proof.
  intros. unfold secs. apply Qle_shift_div_l; [reflexivity|]. rewrite Qmult_0_l.
  change 0 with (inject_Z 0). by rewrite <- Zle_Qle.
Qed.

Lemma as_secs_error ns :
  (0 <= ns)%Z ->
  secs ns * ((1 - eps) * (1 - eps) * (1 - eps)) <= as_secs_f64 ns
    <= secs ns * ((1 + eps) * (1 + eps) * (1 + eps)).
Proof.
  intros Hns. unfold as_secs_f64, fadd, fdiv, of_u64.
  set (s := inject_Z (ns / NANOS_PER_SEC)). set (r := inject_Z (ns mod NANOS_PER_SEC)).
  assert (Hs : 0 <= s).
  { unfold s. change 0 with (inject_Z 0). rewrite <- Zle_Qle. apply Z.div_pos; done. }
  assert (Hr : 0 <= r).
  { unfold r. change 0 with (inject_Z 0). rewrite <- Zle_Qle. by apply Z.mod_pos_bound. }
  assert (Hsum : secs ns == s + r / inject_Z NANOS_PER_SEC).
  { unfold secs, s, r. rewrite (Z.div_mod ns NANOS_PER_SEC) at 1 by done.
    rewrite inject_Z_plus, inject_Z_mult. field. discriminate. }
  destruct eps_small as [He1 He2].
  pose proof (fl_error s Hs) as [Hs1 Hs2]. pose proof (fl_error r Hr) as [Hr1 Hr2].
  assert (Hinv : 0 <= / inject_Z NANOS_PER_SEC) by (vm_compute; discriminate).
  assert (HN : fl (inject_Z NANOS_PER_SEC) == inject_Z NANOS_PER_SEC) by (vm_compute; reflexivity).
  set (N := fl (inject_Z NANOS_PER_SEC)) in *.
  assert (HNd : fl r / N == fl r / inject_Z NANOS_PER_SEC) by (by rewrite HN).
  assert (Hd : 0 <= fl r / N)
    by (rewrite HNd; apply Qmult_le_0_compat; [by apply fl_nonneg|done]).
  pose proof (fl_error _ Hd) as [Hd1 Hd2].
  assert (Hrd : r / inject_Z NANOS_PER_SEC * (1 - eps) <= fl r / N
                <= r / inject_Z NANOS_PER_SEC * (1 + eps)).
  { rewrite HNd. unfold Qdiv. split.
    - assert (r * / inject_Z NANOS_PER_SEC * (1 - eps) == r * (1 - eps) * / inject_Z NANOS_PER_SEC)
        as -> by ring. by apply Qmult_le_compat_r.
    - assert (r * / inject_Z NANOS_PER_SEC * (1 + eps) == r * (1 + eps) * / inject_Z NANOS_PER_SEC)
        as -> by ring. by apply Qmult_le_compat_r. }
  assert (Hq0 : 0 <= r / inject_Z NANOS_PER_SEC) by (by apply Qmult_le_0_compat).
  set (x := fl s) in *. set (z := fl r / N) in *. set (y := fl z) in *.
  set (q := r / inject_Z NANOS_PER_SEC) in *.
  assert (Hxy : 0 <= x + y).
  { assert (0 <= x) by (by apply fl_nonneg). assert (0 <= y) by (by apply fl_nonneg). lra. }
  pose proof (fl_error _ Hxy) as [Ht1 Ht2]. rewrite Hsum. split; nra.
Qed.
