(* ===== verification/RateLimit.v ===== *)
(** * Rate limiting

    [arvik-middleware/src/rate_limit.rs]: the token bucket in double precision,
    the sharded store with its idle sweep, and the client keys.  [Instant]s are
    nanoseconds; the readings of the clock and the map's hasher are parameters.
    Here a request is one step; [RateLimitRuns] interleaves them. *)
From S2P Require Import Prelude RustStr HttpCrate Body Http IpAddr F64.
From stdpp Require Import base list strings sets gmap.
From Stdlib Require Import ZArith QArith Lqa Lia Ascii String.
Open Scope string_scope.
Open Scope list_scope.

(** ** The token bucket *)

Record Bucket := mkBucket {
  tokens : Q;
  capacity : Q;
  refill_rate : Q;
  last_refill : Z;
  last_seen : Z }.

(** [Bucket::new]: [t1] and [t2] are its two readings of the clock, [window] is
    in nanoseconds. *)
Definition bucket_new (cap window t1 t2 : Z) : Bucket :=
  let secs := as_secs_f64 window in
  mkBucket (of_u64 cap) (of_u64 cap) (fdiv (of_u64 cap) (fmax secs MIN_POSITIVE)) t1 t2.

(** The tokens after the refill: [duration_since] saturates at zero. *)
Definition refilled (b : Bucket) (now : Z) : Q :=
  let elapsed := as_secs_f64 (Z.max 0 (now - last_refill b)) in
  fmin (fadd (tokens b) (fmul elapsed (refill_rate b))) (capacity b).

(** The outcome of one call: [Allowed], or the seconds to wait, infinite when
    nothing is ever refilled. *)
Inductive Outcome :=
| Allowed
| Limited (retry_after : option Q).

Definition is_allowed (o : Outcome) : bool := match o with Allowed => true | _ => false end.

(** [Bucket::try_consume]. *)
Definition try_consume (now : Z) (b : Bucket) : Outcome * Bucket :=
  let t := refilled b now in
  if Qle_bool 1 t
  then (Allowed, mkBucket (fsub t 1) (capacity b) (refill_rate b) now now)
  else (Limited (if Qeq_bool (refill_rate b) 0 then None
                 else Some (fdiv (fsub 1 t) (refill_rate b))),
        mkBucket t (capacity b) (refill_rate b) now now).

(** A sequence of calls: how many are allowed, and the bucket left. *)
Fixpoint admitted (times : list Z) (b : Bucket) : Z * Bucket :=
  match times with
  | [] => (0%Z, b)
  | now :: times =>
      let '(o, b) := try_consume now b in
      let '(n, b) := admitted times b in
      ((if is_allowed o then 1 + n else n)%Z, b)
  end.

(** ** The store *)

Definition SHARDS : nat := 32.
Definition SWEEP_EVERY : Z := 4096.
Definition IDLE_TTL : Z := 300 * NANOS_PER_SEC.
Definition MAX_HEADER_KEY_LEN : nat := 128.

Record Shard := mkShard { buckets : gmap string Bucket; calls : Z }.
Notation BucketStore := (list Shard).

Definition store_new : BucketStore := repeat (mkShard ∅ 0) SHARDS.

(** [RandomState::hash_one] of a store. *)
Class Hasher : Type := { hash_one : string -> Z }.

(** The readings of the clock during one call: one per swept bucket, two in
    [Bucket::new] and one in [try_consume]. *)
Record Clock := mkClock {
  ck_sweep : string -> Z;
  ck_refill : Z;
  ck_seen : Z;
  ck_now : Z }.

(** The idle-bucket sweep: [retain]. *)
Definition sweep (at_key : string -> Z) (m : gmap string Bucket) : gmap string Bucket :=
  base.filter (fun kb => (Z.max 0 (at_key kb.1 - last_seen kb.2) < IDLE_TTL)%Z) m.

(** The critical section on one shard. *)
Definition shard_try_consume (key : string) (cap window : Z) (ck : Clock) (s : Shard)
  : Outcome * Shard :=
  let m := if (calls s mod SWEEP_EVERY =? 0)%Z then sweep (ck_sweep ck) (buckets s)
           else buckets s in
  let b := match m !! key with
           | Some b => b
           | None => bucket_new cap window (ck_refill ck) (ck_seen ck)
           end in
  let '(o, b) := try_consume (ck_now ck) b in
  (o, mkShard (<[key := b]> m) (wrap_u64 (calls s + 1))).

Section Store.
Context `{Hasher}.

(** [shard_for]. *)
Definition shard_for (key : string) : nat := Z.to_nat (hash_one key mod Z.of_nat SHARDS).

(** [BucketStore::try_consume]. *)
Definition store_try_consume (key : string) (cap window : Z) (ck : Clock) (st : BucketStore)
  : Outcome * BucketStore :=
  match st !! shard_for key with
  | Some s => let '(o, s) := shard_try_consume key cap window ck s in
              (o, <[shard_for key := s]> st)
  | None => (Allowed, st) (* never: a store has [SHARDS] shards *)
  end.

(** The bucket of a key. *)
Definition bucket_of (st : BucketStore) (key : string) : option Bucket :=
  s ← st !! shard_for key; buckets s !! key.
End Store.

(** ** Keys *)

Inductive ProxyTrust :=
| Never
| Trusted (proxies : list IpAddr).

Inductive KeyExtractor :=
| ByIpAddress
| ByHeader (name : string)
| ByGlobal.

(** [String::truncate]: [None] is the panic inside a character. *)
Definition truncate (n : nat) (s : string) : option string :=
  match str_drop n s with
  | String a _ => if utf8_cont a then None else Some (str_take n s)
  | EmptyString => Some s
  end.

(** The walk over the hops, right to left. *)
Fixpoint walk_hops (proxies : list IpAddr) (hops : list string) : option IpAddr :=
  match hops with
  | [] => None
  | candidate :: hops =>
      let candidate := trim candidate in
      if str_is_empty candidate then walk_hops proxies hops
      else match parse_ip candidate with
           | Some ip => if negb (bool_decide (ip ∈ proxies)) then Some ip
                        else walk_hops proxies hops
           | None => None
           end
  end.

Section Keys.
Context `{HttpCrate}.

Definition X_FORWARDED_FOR : string := "x-forwarded-for".

(** [extract_ip]. *)
Definition extract_ip (req : Request) (trust : ProxyTrust) : string :=
  match ext_peer (req_ext req) with
  | None => "unknown"
  | Some (peer_ip, _) =>
      match trust with
      | Never => show_ip peer_ip
      | Trusted proxies =>
          if negb (bool_decide (peer_ip ∈ proxies)) then show_ip peer_ip
          else
            match hm_get_str (req_headers req) X_FORWARDED_FOR with
            | Some forwarded =>
                match walk_hops proxies (rev (str_split "," forwarded)) with
                | Some ip => show_ip ip
                | None => show_ip peer_ip
                end
            | None => show_ip peer_ip
            end
      end
  end.

(** [KeyExtractor::extract_key]; [None] is a panic. *)
Definition extract_key (k : KeyExtractor) (req : Request) (trust : ProxyTrust) : option string :=
  match k with
  | ByIpAddress => Some (extract_ip req trust)
  | ByHeader name =>
      let raw := match hm_get_str (req_headers req) name with
                 | Some s => s | None => "unknown" end in
      truncate MAX_HEADER_KEY_LEN (trim raw)
  | ByGlobal => Some "__global__"
  end.

(** [struct RateLimitLayer] and its builders; [None] is the panic on a zero
    window.  The store is in the world. *)
Record RateLimitLayer := mkRateLimit {
  rl_capacity : Z;
  rl_window : Z;
  rl_extractor : KeyExtractor;
  rl_trust : ProxyTrust }.

Definition rate_limit_new (capacity window : Z) : option RateLimitLayer :=
  if (window =? 0)%Z then None else Some (mkRateLimit capacity window ByIpAddress Never).
Definition rl_trust_proxies (proxies : list IpAddr) (l : RateLimitLayer) : RateLimitLayer :=
  mkRateLimit (rl_capacity l) (rl_window l) (rl_extractor l) (Trusted proxies).
Definition rl_with_extractor (k : KeyExtractor) (l : RateLimitLayer) : RateLimitLayer :=
  mkRateLimit (rl_capacity l) (rl_window l) k (rl_trust l).
Definition rl_by_header (name : string) : RateLimitLayer -> RateLimitLayer :=
  rl_with_extractor (ByHeader name).
Definition rl_global : RateLimitLayer -> RateLimitLayer := rl_with_extractor ByGlobal.

Definition RETRY_AFTER : string := "retry-after".

(** The 429 response. *)
Definition too_many_requests (retry_secs_ceil capacity : Z) : Response :=
  let b := rb_status 429 rb_new in
  let b := rb_header_str CONTENT_TYPE "application/json" b in
  let b := rb_header_string RETRY_AFTER (to_dec retry_secs_ceil) b in
  let b := rb_header_string "x-ratelimit-limit" (to_dec capacity) b in
  let b := rb_header_str "x-ratelimit-remaining" "0" b in
  rb_body (body_from_bytes ("{" +:+ quoted "error" +:+ ":" +:+ quoted "Too Many Requests" +:+ ","
             +:+ quoted "code" +:+ ":429," +:+ quoted "retry_after" +:+ ":"
             +:+ to_dec retry_secs_ceil +:+ "}")) b.

(** [RateLimitService::call]; the world supplies the clock. *)
Definition rate_limit_layer {W} `{Hasher} (clock : W -> Clock) (l : RateLimitLayer)
  : LayerFn (BucketStore * W) := fun inner req '(st, w) =>
  match extract_key (rl_extractor l) req (rl_trust l) with
  | None => (internal_error_response, (st, w)) (* never: see [extract_key_total] *)
  | Some key =>
      let '(o, st) := store_try_consume key (rl_capacity l) (rl_window l) (clock w) st in
      match o with
      | Limited retry_secs =>
          (too_many_requests (ceil_as_u64 retry_secs) (rl_capacity l), (st, w))
      | Allowed => inner req (st, w)
      end
  end.
End Keys.

(** ** The bucket's arithmetic *)

Section Arithmetic.
Open Scope Q_scope.

Lemma fmin_spec a b : fmin a b <= a /\ fmin a b <= b /\ (fmin a b = a \/ fmin a b = b).
Proof.
  unfold fmin. destruct (Qle_bool a b) eqn:E.
  - apply Qle_bool_iff in E. split_and!; [lra|done|by left].
  - assert (~ a <= b) by (rewrite <- Qle_bool_iff, E; done). split_and!; [lra|lra|by right].
Qed.

Lemma elapsed_nonneg d : (0 <= d)%Z -> 0 <= as_secs_f64 d.
Proof.
  intros Hd. pose proof (as_secs_error d Hd) as [H1 _]. pose proof (secs_nonneg d Hd).
  destruct eps_small. assert (0 <= secs d * ((1 - eps) * (1 - eps) * (1 - eps))); [|lra].
  apply Qmult_le_0_compat; [done|]. nra.
Qed.

(** A bucket as [bucket_new] makes it and [try_consume] keeps it. *)
Definition bucket_wf (b : Bucket) : Prop :=
  0 <= tokens b /\ 0 <= capacity b /\ 0 <= refill_rate b.

Lemma refilled_nonneg b now : bucket_wf b -> 0 <= refilled b now.
Proof.
  intros (Ht & Hc & Hr). unfold refilled.
  destruct (fmin_spec (fadd (tokens b) (fmul (as_secs_f64 (Z.max 0 (now - last_refill b)))
    (refill_rate b))) (capacity b)) as (_ & _ & [->| ->]); [|done].
  apply fl_nonneg. assert (0 <= fmul (as_secs_f64 (Z.max 0 (now - last_refill b))) (refill_rate b)).
  { apply fl_nonneg, Qmult_le_0_compat; [apply elapsed_nonneg; lia|done]. }
  lra.
Qed.

Lemma try_consume_wf now b : bucket_wf b -> bucket_wf (snd (try_consume now b)).
Proof.
  intros Hb. pose proof (refilled_nonneg b now Hb) as Hn. destruct Hb as (Ht & Hc & Hr).
  unfold try_consume. destruct (Qle_bool 1 (refilled b now)) eqn:E; cbn [snd].
  - apply Qle_bool_iff in E. unfold bucket_wf. cbn. split_and!; try done. apply fl_nonneg. lra.
  - by unfold bucket_wf.
Qed.

Lemma try_consume_fields now b :
  capacity (snd (try_consume now b)) = capacity b /\
  refill_rate (snd (try_consume now b)) = refill_rate b /\
  last_refill (snd (try_consume now b)) = now.
Proof. unfold try_consume. by destruct (Qle_bool _ _). Qed.

Lemma bucket_new_wf cap window t1 t2 :
  (0 <= cap)%Z -> (0 < window)%Z -> bucket_wf (bucket_new cap window t1 t2).
Proof.
  intros Hc Hw. assert (0 <= of_u64 cap).
  { apply fl_nonneg. change 0 with (inject_Z 0). by rewrite <- Zle_Qle. }
  unfold bucket_wf. cbn. split_and!; try done.
  apply fl_nonneg, Qmult_le_0_compat; [done|]. apply Qinv_le_0_compat. unfold fmax.
  case_match; [|apply elapsed_nonneg; lia]. unfold MIN_POSITIVE, Qle. cbn [Qnum Qden]. lia.
Qed.

(** One call: what is left plus what was given out is what there was plus the
    refill, up to two roundings of at most a [eps] part of the capacity. *)
Lemma try_consume_balance now b :
  bucket_wf b ->
  let '(o, b') := try_consume now b in
  tokens b' + (if is_allowed o then 1 else 0)
    <= tokens b + (1 + eps) * (as_secs_f64 (Z.max 0 (now - last_refill b)) * refill_rate b)
       + 2 * eps * capacity b.
Proof.
  intros Hb. pose proof (refilled_nonneg b now Hb) as Hn. destruct Hb as (Ht & Hc & Hr).
  unfold try_consume. set (t := refilled b now) in *. destruct eps_small as [He1 He2].
  set (d := as_secs_f64 (Z.max 0 (now - last_refill b))) in *.
  assert (Hd : 0 <= d * refill_rate b)
    by (apply Qmult_le_0_compat; [apply elapsed_nonneg; lia|done]).
  pose proof (fl_error _ Hd) as [Hd1 Hd2]. pose proof (fl_nonneg _ Hd) as Hd3.
  assert (Hle : t <= tokens b + fl (d * refill_rate b) + eps * capacity b).
  { unfold t, refilled, fadd, fmul. fold d.
    assert (Hx : 0 <= tokens b + fl (d * refill_rate b)) by lra.
    pose proof (fl_error _ Hx) as [_ Hx2].
    destruct (fmin_spec (fl (tokens b + fl (d * refill_rate b))) (capacity b)) as (H1 & H2 & _).
    assert (0 <= eps * capacity b) by (apply Qmult_le_0_compat; lra).
    destruct (Qlt_le_dec (capacity b) (tokens b + fl (d * refill_rate b))) as [Hgt|Hge]; [lra|].
    assert (eps * (tokens b + fl (d * refill_rate b)) <= eps * capacity b); [|lra].
    rewrite !(Qmult_comm eps). apply Qmult_le_compat_r; lra. }
  assert (Htc : t <= capacity b) by (unfold t, refilled; apply fmin_spec).
  assert (0 <= eps * capacity b) by (apply Qmult_le_0_compat; lra).
  destruct (Qle_bool 1 t) eqn:E; cbn [is_allowed tokens]; [|lra].
  apply Qle_bool_iff in E.
  assert (Hs : 0 <= t - 1) by lra. pose proof (fl_error _ Hs) as [_ Hs2]. unfold fsub.
  assert (eps * (t - 1) <= eps * capacity b); [|lra].
  rewrite !(Qmult_comm eps). apply Qmult_le_compat_r; lra.
Qed.

(** Calls in the order of their times. *)
Fixpoint ordered (from : Z) (times : list Z) : Prop :=
  match times with [] => True | t :: times => (from <= t)%Z /\ ordered t times end.

(** The time of the last call. *)
Fixpoint last_time (from : Z) (times : list Z) : Z :=
  match times with [] => from | t :: times => last_time t times end.

Lemma last_time_ge from times : ordered from times -> (from <= last_time from times)%Z.
Proof.
  revert from; induction times as [|t times IH]; intros from; cbn; [lia|].
  intros [Hle Ho]. specialize (IH t Ho). lia.
Qed.

Lemma secs_add a b : secs (a + b) == secs a + secs b.
Proof. unfold secs. rewrite inject_Z_plus. field. discriminate. Qed.

Definition growth : Q := (1 + eps) * (1 + eps) * (1 + eps) * (1 + eps).

(** Over a sequence of calls the balances add up. *)
Lemma admitted_balance times b :
  bucket_wf b -> ordered (last_refill b) times ->
  let '(n, b') := admitted times b in
  inject_Z n + tokens b'
    <= tokens b + growth * (secs (last_time (last_refill b) times - last_refill b) * refill_rate b)
       + inject_Z (Z.of_nat (List.length times)) * (2 * eps * capacity b).
Proof.
  revert b; induction times as [|now times IH]; intros b Hb Ho.
  - cbn [admitted last_time List.length]. rewrite Z.sub_diag.
    assert (secs 0 == 0) as -> by reflexivity.
    change (inject_Z (Z.of_nat 0)) with 0. change (inject_Z 0) with 0. lra.
  - destruct Ho as [Hle Ho]. cbn [admitted].
    pose proof (try_consume_balance now b Hb) as Hbal.
    pose proof (try_consume_wf now b Hb) as Hb'.
    pose proof (try_consume_fields now b) as (Hc & Hr & Hl).
    destruct (try_consume now b) as [o b1]. cbn [snd] in *.
    specialize (IH b1 Hb' ltac:(by rewrite Hl)). rewrite Hl, Hr, Hc in IH.
    destruct (admitted times b1) as [n b2]. cbn [last_time].
    assert (Hn : inject_Z (if is_allowed o then 1 + n else n)
                 == (if is_allowed o then 1 else 0) + inject_Z n).
    { destruct (is_allowed o); [by rewrite inject_Z_plus|ring]. }
    rewrite Hn. cbn [List.length]. rewrite Nat2Z.inj_succ, <- Z.add_1_r, inject_Z_plus.
    change (inject_Z 1) with 1.
    assert (Hsecs : secs (last_time now times - last_refill b)
                    == secs (last_time now times - now) + secs (now - last_refill b)).
    { rewrite <- secs_add. f_equiv. lia. }
    rewrite Hsecs. rewrite Z.max_r in Hbal by lia.
    pose proof (as_secs_error (now - last_refill b) ltac:(lia)) as [_ Hel].
    destruct Hb as (_ & _ & Hrate). destruct eps_small as [He1 He2].
    assert (Hstep : (1 + eps) * (as_secs_f64 (now - last_refill b) * refill_rate b)
                    <= growth * (secs (now - last_refill b) * refill_rate b)).
    { unfold growth.
      assert ((1 + eps) * (as_secs_f64 (now - last_refill b) * refill_rate b)
              == as_secs_f64 (now - last_refill b) * ((1 + eps) * refill_rate b)) as -> by ring.
      assert ((1 + eps) * (1 + eps) * (1 + eps) * (1 + eps) * (secs (now - last_refill b) * refill_rate b)
              == secs (now - last_refill b) * ((1 + eps) * (1 + eps) * (1 + eps))
                 * ((1 + eps) * refill_rate b)) as -> by ring.
      apply Qmult_le_compat_r; [done|]. apply Qmult_le_0_compat; [lra|done]. }
    lra.
Qed.

Lemma admitted_wf times b : bucket_wf b -> bucket_wf (snd (admitted times b)).
Proof.
  revert b; induction times as [|now times IH]; intros b Hb; [done|]. cbn [admitted].
  pose proof (try_consume_wf now b Hb) as Hb1. destruct (try_consume now b) as [o b1].
  specialize (IH b1 Hb1). by destruct (admitted times b1).
Qed.

(** The refill rate of a fresh bucket. *)
Lemma bucket_new_rate cap window t1 t2 :
  (0 <= cap)%Z -> (0 < window)%Z ->
  refill_rate (bucket_new cap window t1 t2) * secs window * ((1 - eps) * (1 - eps) * (1 - eps))
    <= (1 + eps) * of_u64 cap.
Proof.
  intros Hc Hw. cbn [bucket_new refill_rate].
  assert (Hcap : 0 <= of_u64 cap).
  { apply fl_nonneg. change 0 with (inject_Z 0). by rewrite <- Zle_Qle. }
  pose proof (as_secs_error window ltac:(lia)) as [Hlo _]. destruct eps_small as [He1 He2].
  set (k := (1 - eps) * (1 - eps) * (1 - eps)) in *.
  assert (Hk : 0 < k) by (unfold k; nra).
  assert (Hs : 0 < secs window).
  { unfold secs. apply Qlt_shift_div_l; [reflexivity|]. rewrite Qmult_0_l. by apply inject_Z_pos. }
  assert (Hsk : 0 < secs window * k) by nra.
  set (m := fmax (as_secs_f64 window) MIN_POSITIVE).
  assert (Hm : secs window * k <= m).
  { unfold m, fmax. destruct (Qle_bool _ _) eqn:E; [|done]. apply Qle_bool_iff in E.
    by eapply Qle_trans. }
  assert (Hm0 : 0 < m) by lra.
  unfold fdiv.
  assert (Hdiv : 0 <= of_u64 cap / m)
    by (apply Qmult_le_0_compat; [done|apply Qinv_le_0_compat; lra]).
  pose proof (fl_error _ Hdiv) as [_ Hfl]. pose proof (fl_nonneg _ Hdiv) as Hf0.
  set (r := fl (of_u64 cap / m)) in *.
  assert (Hrm : r * m <= (1 + eps) * of_u64 cap).
  { assert ((1 + eps) * of_u64 cap == of_u64 cap / m * (1 + eps) * m) as ->.
    { field. intros H0. rewrite H0 in Hm0. by apply Qlt_irrefl in Hm0. }
    apply Qmult_le_compat_r; [done|lra]. }
  assert (r * secs window * k <= r * m); [|lra].
  assert (r * secs window * k == secs window * k * r) as -> by ring. rewrite (Qmult_comm r m).
  by apply Qmult_le_compat_r.
Qed.
End Arithmetic.

Section Bounds.
Open Scope Q_scope.

(** A bucket with [k] whole tokens still has them after the refill. *)
Lemma refilled_int b now k :
  bucket_wf b -> (0 <= k <= 2 ^ 53)%Z -> inject_Z k <= tokens b -> inject_Z k <= capacity b ->
  inject_Z k <= refilled b now.
Proof.
  intros (Ht & Hc & Hr) Hk Hkt Hkc. unfold refilled.
  destruct (fmin_spec (fadd (tokens b) (fmul (as_secs_f64 (Z.max 0 (now - last_refill b)))
    (refill_rate b))) (capacity b)) as (_ & _ & [->| ->]); [|done].
  apply fl_int; [done|].
  assert (0 <= fmul (as_secs_f64 (Z.max 0 (now - last_refill b))) (refill_rate b)); [|lra].
  apply fl_nonneg, Qmult_le_0_compat; [apply elapsed_nonneg; lia|done].
Qed.

Lemma try_consume_int now b k :
  bucket_wf b -> (1 <= k <= 2 ^ 53)%Z -> inject_Z k <= tokens b -> inject_Z k <= capacity b ->
  fst (try_consume now b) = Allowed /\ inject_Z (k - 1) <= tokens (snd (try_consume now b)).
Proof.
  intros Hb Hk Hkt Hkc. pose proof (refilled_int b now k Hb ltac:(lia) Hkt Hkc) as Hr.
  assert (H1 : 1 <= inject_Z k) by (change 1 with (inject_Z 1); rewrite <- Zle_Qle; lia).
  unfold try_consume. rewrite (proj2 (Qle_bool_iff 1 _)) by lra.
  split; [done|]. cbn [snd tokens]. apply fl_int; [lia|].
  unfold Z.sub. rewrite inject_Z_plus, inject_Z_opp. change (inject_Z 1) with 1. lra.
Qed.

Lemma admitted_burst times b k :
  bucket_wf b -> (0 <= k <= 2 ^ 53)%Z -> inject_Z k <= tokens b -> inject_Z k <= capacity b ->
  (Z.of_nat (List.length times) <= k)%Z -> fst (admitted times b) = Z.of_nat (List.length times).
Proof.
  revert b k; induction times as [|now times IH]; intros b k Hb Hk Hkt Hkc Hlen; [done|].
  cbn [List.length admitted] in *.
  destruct (try_consume_int now b k Hb ltac:(lia) Hkt Hkc) as [Ho Htok].
  pose proof (try_consume_wf now b Hb) as Hb'.
  pose proof (try_consume_fields now b) as (Hc & _ & _).
  destruct (try_consume now b) as [o b1]. cbn [fst snd] in *. subst o.
  specialize (IH b1 (k - 1)%Z Hb' ltac:(lia) Htok).
  destruct (admitted times b1) as [n b2]. cbn [fst is_allowed] in *.
  rewrite IH; [lia| |lia]. rewrite Hc. eapply Qle_trans; [|exact Hkc]. rewrite <- Zle_Qle. lia.
Qed.

Lemma of_u64_small cap : (0 <= cap <= 2 ^ 53)%Z -> inject_Z cap <= of_u64 cap.
Proof. intros. apply fl_int; [done|apply Qle_refl]. Qed.

(** The slack of the rate bound: 2^-49. *)
Definition delta : Q := 1 # (2 ^ 49)%positive.

Definition cube : Q := (1 - eps) * (1 - eps) * (1 - eps).

Lemma growth_bound : (1 + eps) * (1 + eps) * growth <= (1 + delta) * cube.
Proof. vm_compute. discriminate. Qed.

Lemma of_u64_le cap : (0 <= cap)%Z -> 0 <= of_u64 cap <= inject_Z cap * (1 + eps).
Proof.
  intros Hc. assert (0 <= inject_Z cap) by (change 0 with (inject_Z 0); by rewrite <- Zle_Qle).
  split; [by apply fl_nonneg|by apply fl_error].
Qed.

(** The refill over [t] nanoseconds, in terms of the window. *)
Lemma refill_bound cap window t1 t2 t :
  (0 <= cap)%Z -> (0 < window)%Z -> (0 <= t)%Z ->
  growth * (secs t * refill_rate (bucket_new cap window t1 t2))
    <= inject_Z cap * (inject_Z t / inject_Z window) * (1 + delta).
Proof.
  intros Hc Hw Ht. pose proof (bucket_new_rate cap window t1 t2 Hc Hw) as Hr.
  destruct (of_u64_le cap Hc) as [Hc0 Hc1]. pose proof growth_bound as Hg.
  destruct eps_small as [He1 He2]. fold cube in Hr.
  assert (Hcube : 0 < cube) by (unfold cube; nra).
  assert (Hgr : 0 < growth) by (unfold growth; nra).
  set (rate := refill_rate _) in *.
  assert (HW : 0 < inject_Z window) by (by apply inject_Z_pos).
  assert (HT : 0 <= inject_Z t) by (change 0 with (inject_Z 0); by rewrite <- Zle_Qle).
  set (x := inject_Z t / inject_Z window).
  assert (Hx : 0 <= x) by (apply Qmult_le_0_compat; [done|apply Qinv_le_0_compat; lra]).
  assert (Hst : secs t == x * secs window).
  { unfold secs, x. field. split; [discriminate|]. intros H0. rewrite H0 in HW.
    by apply Qlt_irrefl in HW. }
  rewrite Hst.
  assert (Hcap0 : 0 <= inject_Z cap) by (change 0 with (inject_Z 0); by rewrite <- Zle_Qle).
  apply Qmult_le_r with (z := cube); [done|].
  assert (growth * (x * secs window * rate) * cube == growth * x * (rate * secs window * cube))
    as -> by ring.
  assert (Hgx : 0 <= growth * x) by (apply Qmult_le_0_compat; lra).
  eapply Qle_trans.
  { rewrite (Qmult_comm (growth * x)). apply Qmult_le_compat_r; [|exact Hgx].
    eapply Qle_trans; [exact Hr|]. rewrite (Qmult_comm (1 + eps)).
    apply Qmult_le_compat_r; [exact Hc1|lra]. }
  assert (inject_Z cap * (1 + eps) * (1 + eps) * (growth * x)
          == (1 + eps) * (1 + eps) * growth * (inject_Z cap * x)) as -> by ring.
  assert (inject_Z cap * x * (1 + delta) * cube == (1 + delta) * cube * (inject_Z cap * x))
    as -> by ring.
  apply Qmult_le_compat_r; [exact Hg|by apply Qmult_le_0_compat].
Qed.

(** The rounding of the calls themselves. *)
Lemma calls_error_bound cap len :
  (0 <= cap)%Z -> 0 <= len -> len * (2 * eps * of_u64 cap) <= len * (inject_Z cap * delta).
Proof.
  intros Hc Hlen. destruct (of_u64_le cap Hc) as [Hc0 Hc1]. destruct eps_small as [He1 He2].
  assert (Hcap : 0 <= inject_Z cap) by (change 0 with (inject_Z 0); by rewrite <- Zle_Qle).
  rewrite !(Qmult_comm len). apply Qmult_le_compat_r; [|done].
  assert (2 * eps * (1 + eps) <= delta) by (vm_compute; discriminate).
  eapply Qle_trans with (2 * eps * (inject_Z cap * (1 + eps))).
  - rewrite !(Qmult_comm (2 * eps)). apply Qmult_le_compat_r; [done|lra].
  - assert (2 * eps * (inject_Z cap * (1 + eps)) == 2 * eps * (1 + eps) * inject_Z cap)
      as -> by ring. rewrite (Qmult_comm (inject_Z cap)). by apply Qmult_le_compat_r.
Qed.
End Bounds.

(** ** The store and the keys *)

Section Store.
Context `{Hasher}.

Definition store_wf (st : BucketStore) : Prop := List.length st = SHARDS.

Lemma shard_for_lt key : (shard_for key < SHARDS)%nat.
Proof.
  unfold shard_for. pose proof (Z.mod_pos_bound (hash_one key) (Z.of_nat SHARDS) ltac:(done)). lia.
Qed.

Lemma store_shard st key : store_wf st -> exists s, st !! shard_for key = Some s.
Proof. intros Hst. apply lookup_lt_is_Some. rewrite Hst. apply shard_for_lt. Qed.

(** A swept map holds the buckets that are not idle. *)
Lemma sweep_lookup at_key m key :
  sweep at_key m !! key =
    match m !! key with
    | Some b => if decide (Z.max 0 (at_key key - last_seen b) < IDLE_TTL)%Z then Some b else None
    | None => None
    end.
Proof.
  unfold sweep. rewrite map_lookup_filter. destruct (m !! key) as [b|]; cbn; [|done].
  unfold guard. by destruct (decide _).
Qed.
End Store.

(** Trimming takes bytes away. *)
Lemma str_forall_tail f a s : str_forall f (String a s) = true -> str_forall f s = true.
Proof. cbn. intros. by bool_hyps. Qed.

Lemma str_forall_trim_start f s : str_forall f s = true -> str_forall f (trim_start s) = true.
Proof.
  induction s as [s IH] using (induction_ltof1 _ String.length). unfold ltof in IH.
  destruct s as [|a s1]; [done|]. cbn [trim_start]. intros Hs.
  pose proof (str_forall_tail _ _ _ Hs) as H1.
  destruct (ws1 a); [apply IH; [cbn; lia|done]|].
  destruct s1 as [|b s2]; [done|]. pose proof (str_forall_tail _ _ _ H1) as H2.
  destruct (ws2 a b); [apply IH; [cbn; lia|done]|].
  destruct s2 as [|c s3]; [done|]. pose proof (str_forall_tail _ _ _ H2) as H3.
  destruct (ws3 a b c); [apply IH; [cbn; lia|done]|done].
Qed.

Lemma str_forall_trim_start_rev f s : str_forall f s = true -> str_forall f (trim_start_rev s) = true.
Proof.
  induction s as [s IH] using (induction_ltof1 _ String.length). unfold ltof in IH.
  destruct s as [|a s1]; [done|]. cbn [trim_start_rev]. intros Hs.
  pose proof (str_forall_tail _ _ _ Hs) as H1.
  destruct (ws1 a); [apply IH; [cbn; lia|done]|].
  destruct s1 as [|b s2]; [done|]. pose proof (str_forall_tail _ _ _ H1) as H2.
  destruct (ws2 b a); [apply IH; [cbn; lia|done]|].
  destruct s2 as [|c s3]; [done|]. pose proof (str_forall_tail _ _ _ H2) as H3.
  destruct (ws3 c b a); [apply IH; [cbn; lia|done]|done].
Qed.

Lemma str_forall_trim f s : str_forall f s = true -> str_forall f (trim s) = true.
Proof.
  intros Hs. unfold trim, trim_end, str_rev. rewrite str_forall_rev_app, andb_true_r.
  apply str_forall_trim_start_rev. rewrite str_forall_rev_app, andb_true_r.
  by apply str_forall_trim_start.
Qed.

Lemma str_forall_drop f n s : str_forall f s = true -> str_forall f (str_drop n s) = true.
Proof.
  revert s; induction n as [|n IH]; intros s Hs; [by destruct s|].
  destruct s as [|a s]; [done|]. cbn in *. bool_hyps. by apply IH.
Qed.

(** Keys are always made: header text is ASCII, so [truncate] does not panic. *)
Lemma extract_key_total `{HL : HttpLaws} k req trust : is_Some (extract_key k req trust).
Proof.
  destruct k as [|name|]; cbn; [eauto| |eauto].
  assert (Ha : str_forall is_ascii (trim match hm_get_str (req_headers req) name with
                                         | Some s => s | None => "unknown" end) = true).
  { apply str_forall_trim. unfold hm_get_str.
    destruct (hm_get (req_headers req) name) as [v|]; [|done].
    destruct (hv_to_str v) as [s|] eqn:E; cbn; [|by rewrite E]. rewrite E.
    by apply hv_to_str_ascii in E. }
  unfold truncate. apply (str_forall_drop _ MAX_HEADER_KEY_LEN) in Ha.
  destruct (str_drop _ _) as [|a s]; [eauto|]. cbn in Ha. bool_hyps.
  assert (utf8_cont a = false) as ->; [|eauto].
  unfold is_ascii, utf8_cont, in_range in *. bool_hyps. apply andb_false_intro1, Z.leb_gt. lia.
Qed.

(** A hop the chain passes over: empty, or a declared proxy. *)
Definition passed_hop (proxies : list IpAddr) (hop : string) : Prop :=
  trim hop = "" \/ exists ip, parse_ip (trim hop) = Some ip /\ ip ∈ proxies.

Lemma walk_hops_stop proxies c hops : ~ passed_hop proxies c ->
  walk_hops proxies (c :: hops) = parse_ip (trim c).
Proof.
  intros Hc. cbn. destruct (str_is_empty (trim c)) eqn:E.
  { apply str_is_empty_spec in E. destruct Hc. by left. }
  destruct (parse_ip (trim c)) as [ip|] eqn:Ep; [|done]. rewrite bool_decide_eq_false_2; [done|].
  intros Hin. apply Hc. right. by exists ip.
Qed.

(** The hops a trusted chain of proxies reports, without the empty ones. *)
Lemma walk_hops_app proxies h1 h2 :
  (forall c, c ∈ h1 -> passed_hop proxies c) ->
  walk_hops proxies (h1 ++ h2) = walk_hops proxies h2.
Proof.
  induction h1 as [|c h1 IH]; intros Hh; [done|]. cbn [app walk_hops].
  destruct (Hh c ltac:(set_solver)) as [->|(ip & Hp & Hin)].
  - apply IH. set_solver.
  - rewrite Hp, bool_decide_eq_true_2 by done. cbn [negb].
    rewrite IH by set_solver. by destruct (str_is_empty (trim c)).
Qed.

(** ** Properties *)

(** The burst: on a fresh bucket of at most 2^53 tokens, as many calls as
    its capacity are all allowed, whenever they come. *)
Theorem bucket_burst cap window t1 t2 times :
  (0 <= cap <= 2 ^ 53)%Z -> (0 < window)%Z -> (Z.of_nat (List.length times) <= cap)%Z ->
  fst (admitted times (bucket_new cap window t1 t2)) = Z.of_nat (List.length times).
Proof.
  intros Hc Hw Hlen. apply (admitted_burst times _ cap); [apply bucket_new_wf; lia|done| | |done];
    by apply of_u64_small.
Qed.

(** The rate: however its calls are timed, a bucket allows no more than its
    capacity plus the capacity's share of the elapsed part of the window, up to
    a relative rounding error of 2^-49 in total and per call. *)
Theorem bucket_rate cap window t1 t2 times :
  (0 <= cap)%Z -> (0 < window)%Z -> ordered t1 times ->
  let n := fst (admitted times (bucket_new cap window t1 t2)) in
  let elapsed := (last_time t1 times - t1)%Z in
  (inject_Z n
   <= inject_Z cap * (1 + inject_Z elapsed / inject_Z window) * (1 + delta)
      + inject_Z (Z.of_nat (List.length times)) * (inject_Z cap * delta))%Q.
Proof.
  intros Hc Hw Ho. cbn zeta.
  pose proof (bucket_new_wf cap window t1 t2 Hc Hw) as Hb.
  pose proof (admitted_balance times _ Hb Ho) as Hbal.
  pose proof (admitted_wf times _ Hb) as Hwf.
  destruct (admitted times _) as [n b']. cbn [fst snd] in *. destruct Hwf as [Htok _].
  pose proof (last_time_ge _ _ Ho) as Hlast.
  pose proof (refill_bound cap window t1 t2 (last_time t1 times - t1) Hc Hw ltac:(lia)) as Hrf.
  change (last_refill (bucket_new cap window t1 t2)) with t1 in Hbal.
  change (tokens (bucket_new cap window t1 t2)) with (of_u64 cap) in Hbal.
  change (capacity (bucket_new cap window t1 t2)) with (of_u64 cap) in Hbal.
  destruct (of_u64_le cap Hc) as [Hc0 Hc1]. destruct eps_small as [He1 He2].
  set (x := (inject_Z (last_time t1 times - t1) / inject_Z window)%Q) in *.
  set (len := inject_Z (Z.of_nat (List.length times))) in *.
  assert (Hlen : (0 <= len)%Q) by (unfold len; change 0%Q with (inject_Z 0); rewrite <- Zle_Qle; lia).
  assert (Hcap : (0 <= inject_Z cap)%Q) by (change 0%Q with (inject_Z 0); by rewrite <- Zle_Qle).
  assert (Hd : (eps <= delta)%Q) by (vm_compute; discriminate).
  assert (H1 : (of_u64 cap <= inject_Z cap * (1 + delta))%Q).
  { eapply Qle_trans; [exact Hc1|]. rewrite !(Qmult_comm (inject_Z cap)).
    apply Qmult_le_compat_r; [lra|done]. }
  pose proof (calls_error_bound cap len Hc Hlen) as H2.
  lra.
Qed.

(** Clients do not share buckets: a call steps the bucket of its own key, a
    fresh one only if there was none or it had been idle for the time to live,
    and changes no other key's bucket, but that it may drop one as idle. *)
Theorem store_isolation `{Hasher} key cap window ck st :
  store_wf st ->
  let '(o, st') := store_try_consume key cap window ck st in
  store_wf st' /\
  (exists b,
     (bucket_of st key = Some b \/
      b = bucket_new cap window (ck_refill ck) (ck_seen ck) /\
      forall b0, bucket_of st key = Some b0 -> (IDLE_TTL <= ck_sweep ck key - last_seen b0)%Z) /\
     o = fst (try_consume (ck_now ck) b) /\
     bucket_of st' key = Some (snd (try_consume (ck_now ck) b))) /\
  (forall key', key' <> key ->
     bucket_of st' key' = bucket_of st key' \/
     bucket_of st' key' = None /\
     exists b, bucket_of st key' = Some b /\ (IDLE_TTL <= ck_sweep ck key' - last_seen b)%Z).
Proof.
  intros Hst. destruct (store_shard st key Hst) as [s Hs].
  unfold store_try_consume. rewrite Hs. unfold shard_try_consume.
  set (m := if (calls s mod SWEEP_EVERY =? 0)%Z then sweep (ck_sweep ck) (buckets s) else buckets s).
  assert (Hm : forall k, m !! k = buckets s !! k \/
     (m !! k = None /\ exists b, buckets s !! k = Some b /\ (IDLE_TTL <= ck_sweep ck k - last_seen b)%Z)).
  { intros k. unfold m. destruct (_ =? 0)%Z; [|by left]. rewrite sweep_lookup.
    destruct (buckets s !! k) as [b|]; [|by left]. case_decide as Hd; [by left|]. right.
    split; [done|]. exists b. split; [done|]. unfold IDLE_TTL, NANOS_PER_SEC in *. lia. }
  set (b := match m !! key with Some b => b | None => _ end).
  destruct (try_consume (ck_now ck) b) as [o b'] eqn:Et.
  assert (Hkey : bucket_of st key = buckets s !! key) by (unfold bucket_of; by rewrite Hs).
  split; [|split].
  - unfold store_wf. by rewrite length_insert.
  - exists b. rewrite Et. split_and!; [|done|].
    + rewrite Hkey. unfold b. destruct (Hm key) as [Hk|(Hk & b1 & Hb1 & Hi)]; rewrite Hk.
      * destruct (buckets s !! key); [by left|]. right. by split.
      * right. split; [done|]. intros b0 Hb0. by simplify_eq.
    + unfold bucket_of. rewrite list_lookup_insert_eq by (rewrite Hst; apply shard_for_lt).
      cbn. by rewrite lookup_insert_eq.
  - intros key' Hne. unfold bucket_of at 1 3.
    destruct (decide (shard_for key = shard_for key')) as [Heq|Hneq].
    + rewrite <- Heq. rewrite list_lookup_insert_eq by (rewrite Hst; apply shard_for_lt). cbn.
      rewrite lookup_insert_ne by done. unfold bucket_of. rewrite <- Heq, Hs. cbn. apply Hm.
    + rewrite list_lookup_insert_ne by done. by left.
Qed.

(** The gate: every request has a key; one whose bucket allows it reaches
    the service with the store updated and nothing else done, and one that is
    limited gets 429 with the whole seconds to wait, and no service runs. *)
Theorem rate_limit_gate `{HL : HttpLaws} {W} `{Hasher} (clock : W -> Clock) l
    (inner : Service (BucketStore * W)) req st w :
  (0 <= rl_capacity l)%Z ->
  exists key, extract_key (rl_extractor l) req (rl_trust l) = Some key /\
    let '(o, st') := store_try_consume key (rl_capacity l) (rl_window l) (clock w) st in
    let out := rate_limit_layer clock l inner req (st, w) in
    match o with
    | Allowed => out = inner req (st', w)
    | Limited retry =>
        snd out = (st', w) /\ res_status (fst out) = 429%Z /\
        hm_get_all (res_headers (fst out)) RETRY_AFTER = [to_dec (ceil_as_u64 retry)]
    end.
Proof.
  intros Hc. destruct (extract_key_total (rl_extractor l) req (rl_trust l)) as [key Hk].
  exists key. split; [done|]. unfold rate_limit_layer. rewrite Hk.
  destruct (store_try_consume _ _ _ _ st) as [[|retry] st']; [done|]. cbn [fst snd].
  assert (0 <= ceil_as_u64 retry)%Z
    by (unfold ceil_as_u64; destruct retry; [apply Z.le_max_l|done]).
  unfold too_many_requests, rb_header_string, rb_header_str.
  rewrite !hv_from_str_visible, !hv_from_string_visible by (done || by apply to_dec_visible).
  cbn. split_and!; [done..|]. by headers.
Qed.

(** Two peers have two keys, and neither is the one of a request without a peer. *)
Theorem peer_keys_distinct `{HttpCrate} req req' ip port ip' port' : ip_wf ip -> ip_wf ip' ->
  ext_peer (req_ext req) = Some (ip, port) -> ext_peer (req_ext req') = Some (ip', port') ->
  (extract_ip req Never = extract_ip req' Never <-> ip = ip') /\ extract_ip req Never <> "unknown".
Proof.
  intros Hw Hw' Hp Hp'. unfold extract_ip. rewrite Hp, Hp'. split.
  - split; [by apply show_ip_inj|by intros ->].
  - intros E. apply parse_show_ip in Hw. rewrite E in Hw. by vm_compute in Hw.
Qed.

(** C35. Client addresses cannot be forged: the address key of a request is its
    peer unless the peer is a declared proxy. Then the hops of the (first)
    [X-Forwarded-For] line are passed over from the right while they are empty or
    declared proxies, and the first other one decides, whatever stands to the left
    of it: it is the key if it is an address, and the peer is the key if it is not,
    as when there is none or no such header. *)
Theorem extract_ip_unforgeable `{HttpCrate} req peer port proxies :
  ext_peer (req_ext req) = Some (peer, port) ->
  extract_ip req Never = show_ip peer /\
  (peer ∉ proxies -> extract_ip req (Trusted proxies) = show_ip peer) /\
  (peer ∈ proxies ->
   match option_map (str_split ",") (hm_get_str (req_headers req) X_FORWARDED_FOR) with
   | None => extract_ip req (Trusted proxies) = show_ip peer
   | Some hops =>
       (forall forged c trusted, hops = forged ++ c :: trusted ->
          (forall h, h ∈ trusted -> passed_hop proxies h) -> ~ passed_hop proxies c ->
          extract_ip req (Trusted proxies) =
            show_ip (match parse_ip (trim c) with Some ip => ip | None => peer end)) /\
       ((forall h, h ∈ hops -> passed_hop proxies h) -> extract_ip req (Trusted proxies) = show_ip peer)
   end).
Proof.
  intros Hp. unfold extract_ip. rewrite Hp. split; [done|]. split.
  - intros Hn. by rewrite bool_decide_eq_false_2.
  - intros Hin. rewrite bool_decide_eq_true_2 by done. cbn [negb].
    destruct (hm_get_str _ _) as [fw|]; [|done]. cbn [option_map]. split.
    + intros forged c trusted -> Ht Hc. rewrite rev_app_distr. cbn [rev]. rewrite <- app_assoc.
      rewrite walk_hops_app; [|intros h Hh; by apply Ht, list_elem_of_In, in_rev, list_elem_of_In].
      cbn [app]. rewrite walk_hops_stop by done. by destruct (parse_ip (trim c)).
    + intros Ht. rewrite <- (app_nil_r (rev _)).
      rewrite walk_hops_app; [done|]. intros h Hh. by apply Ht, list_elem_of_In, in_rev, list_elem_of_In.
Qed.

(** ** Concrete clocks and stores *)
Module DemoLimit.
(** A hasher that puts every key in the first shard. *)
#[export] Instance hasher : Hasher := { hash_one _ := 0%Z }.
Definition at_time (t : Z) : Clock := mkClock (fun _ => t) t t t.
Definition second : Z := NANOS_PER_SEC.
Definition call (key : string) (cap window t : Z) (st : BucketStore) : BucketStore :=
  snd (store_try_consume key cap window (at_time t) st).
(** One request an hour, from two clients. *)
Definition once_an_hour : option RateLimitLayer := rate_limit_new 1 (3600 * second).
Definition peer (a : Z) (r : Request) : Request :=
  set_req_ext (mkExt None None None None (Some (V4 [203; 0; 113; a]%Z, 4000%Z)) None None None) r.
End DemoLimit.
#[export] Existing Instance DemoLimit.hasher.

Lemma bucket_burst_witness :
  fst (admitted [5; 5; 9]%Z (bucket_new 3 60000000000 5 5)) = 3%Z.
Proof. apply (bucket_burst 3 60000000000 5 5 [5; 5; 9]%Z); [lia|lia|reflexivity || (cbn; lia)]. Defined.

(** Two tokens a second: five calls in the first half second. *)
Lemma bucket_rate_witness :
  (inject_Z (fst (admitted [0; 100000000; 200000000; 300000000; 500000000]%Z
                   (bucket_new 2 1000000000 0 0)))
   <= 2 * (3 # 2) * (1 + delta) + 5 * (2 * delta))%Q /\
  fst (admitted [0; 100000000; 200000000; 300000000; 500000000]%Z (bucket_new 2 1000000000 0 0))
    = 3%Z.
Proof.
  split; [|vm_compute; reflexivity].
  pose proof (bucket_rate 2 1000000000 0 0 [0; 100000000; 200000000; 300000000; 500000000]%Z
    ltac:(lia) ltac:(lia) ltac:(cbn; lia)) as H.
  cbn zeta in H. eapply Qle_trans; [exact H|]. vm_compute. discriminate.
Defined.

Lemma store_isolation_witness :
  bucket_of (DemoLimit.call "b" 1 60000000000 7 (DemoLimit.call "a" 1 60000000000 5 store_new)) "a"
    = bucket_of (DemoLimit.call "a" 1 60000000000 5 store_new) "a".
Proof.
  pose proof (store_isolation "b" 1 60000000000 (DemoLimit.at_time 7)
    (DemoLimit.call "a" 1 60000000000 5 store_new) eq_refl) as H.
  unfold DemoLimit.call at 1. destruct (store_try_consume "b" _ _ _ _) as [o st'].
  destruct H as (_ & _ & H). destruct (H "a" ltac:(discriminate)) as [H1|[_ (b & H1 & H2)]].
  - exact H1.
  - exfalso. vm_compute in H1. injection H1 as <-. vm_compute in H2. apply H2. reflexivity.
Defined.

Lemma rate_limit_gate_witness :
  exists l, DemoLimit.once_an_hour = Some l /\
    let req := DemoLimit.peer 7 (Demo.request GET "/x") in
    let call := rate_limit_layer (fun _ => DemoLimit.at_time 0) l
                  (fun req '(st, w) => let '(r, w) := Demo.handler "h" req w in (r, (st, w))) req in
    snd (snd (call (store_new, []))) = ["h /x"] /\
    res_status (fst (call (snd (call (store_new, []))))) = 429%Z.
Proof.
  eexists. split; [reflexivity|]. cbn zeta.
  set (l := mkRateLimit _ _ _ _). set (req := DemoLimit.peer 7 _).
  set (inner := fun (req : Request) (x : BucketStore * list string) => _).
  split; [vm_compute; reflexivity|].
  set (x := snd (rate_limit_layer _ l inner req (store_new, []))).
  pose proof (rate_limit_gate (fun _ => DemoLimit.at_time 0) l inner req (fst x) (snd x) ltac:(vm_compute; discriminate))
    as (key & Hk & H).
  rewrite <- surjective_pairing in H.
  destruct (store_try_consume _ _ _ _ (fst x)) as [[|retry] st'] eqn:E.
  - exfalso. vm_compute in Hk. injection Hk as <-.
    apply (f_equal (fun o => is_allowed (fst o))) in E. vm_compute in E. discriminate E.
  - exact (proj1 (proj2 H)).
Defined.

Lemma extract_ip_unforgeable_witness :
  let proxy := V4 [10; 0; 0; 9]%Z in
  let req hops := set_req_ext (mkExt None None None None (Some (proxy, 443%Z)) None None None)
    (Demo.with_header X_FORWARDED_FOR hops (Demo.request GET "/")) in
  extract_ip (req "1.1.1.1, 203.0.113.7, 10.0.0.9") (Trusted [proxy]) = "203.0.113.7" /\
  extract_ip (req "1.1.1.1, garbage, 10.0.0.9") (Trusted [proxy]) = "10.0.0.9".
Proof.
  cbn zeta. set (req hops := set_req_ext _ _). set (proxies := [V4 [10; 0; 0; 9]%Z]).
  assert (passed_hop proxies " 10.0.0.9") as Hp by (right; eexists; split; [reflexivity|constructor]).
  split.
  - destruct (extract_ip_unforgeable (req "1.1.1.1, 203.0.113.7, 10.0.0.9") _ 443 proxies eq_refl) as (_ & _ & H).
    specialize (H ltac:(constructor)).
    change (option_map _ _) with (Some ["1.1.1.1"; " 203.0.113.7"; " 10.0.0.9"]) in H.
    rewrite (proj1 H ["1.1.1.1"] " 203.0.113.7" [" 10.0.0.9"] eq_refl); [reflexivity| |].
    + by intros h ->%list_elem_of_singleton.
    + intros [[=]|(ip & [= <-] & [=]%list_elem_of_singleton)].
  - destruct (extract_ip_unforgeable (req "1.1.1.1, garbage, 10.0.0.9") _ 443 proxies eq_refl) as (_ & _ & H).
    specialize (H ltac:(constructor)).
    change (option_map _ _) with (Some ["1.1.1.1"; " garbage"; " 10.0.0.9"]) in H.
    rewrite (proj1 H ["1.1.1.1"] " garbage" [" 10.0.0.9"] eq_refl); [reflexivity| |].
    + by intros h ->%list_elem_of_singleton.
    + intros [[=]|(ip & [=] & _)].
Defined.

(** Only the first line of [X-Forwarded-For] is read: behind a trusted proxy that
    adds its own line, the key is what the client wrote in the line before it. *)
Theorem first_forwarded_line_decides :
  let proxy := V4 [10; 0; 0; 9]%Z in
  let by_client := Demo.with_header X_FORWARDED_FOR "1.1.1.1" (Demo.request GET "/") in
  let by_proxy := set_req_headers (hm_append (req_headers by_client) X_FORWARDED_FOR "203.0.113.7") by_client in
  extract_ip (set_req_ext (mkExt None None None None (Some (proxy, 443%Z)) None None None) by_proxy)
    (Trusted [proxy]) = "1.1.1.1".
Proof. by vm_compute. Qed.

(** The idle sweep forgets a limit that is longer than the time to live: a
    client limited to one request an hour is allowed again after 301 seconds,
    once the shard's counter has come round, while its bucket would still have
    refused. *)
Theorem idle_sweep_forgets_limit :
  let hour := (3600 * DemoLimit.second)%Z in
  let later := (301 * DemoLimit.second)%Z in
  let once := DemoLimit.call "client" 1 hour 0 store_new in
  let st := Nat.iter 4095 (DemoLimit.call "other" 1 hour 1) once in
  is_allowed (fst (store_try_consume "client" 1 hour (DemoLimit.at_time later) st)) = true /\
  option_map (fun b => is_allowed (fst (try_consume later b))) (bucket_of st "client") = Some false.
Proof. split; vm_compute; reflexivity. Qed.
