(* ===== verification/RateLimitRuns.v ===== *)
(** * The rate limiter under concurrent requests

    [BucketStore::try_consume] of [arvik-middleware/src/rate_limit.rs] between its
    atomic operations: the counter of the shard, the sweep under the shard's lock,
    and the lock again for the bucket.  Requests for any keys interleave between
    them; what a lock protects is one step, whose readings of the clock come in
    order and after those of the earlier sections of the same shard.
    [RateLimit.store_try_consume] is one request left alone. *)
From S2P Require Import Prelude RustStr HttpCrate Body Http IpAddr F64 RateLimit.
From stdpp Require Import base list strings sets gmap.
From Stdlib Require Import ZArith QArith Lqa Lia Ascii String.
Open Scope string_scope.
Open Scope list_scope.

Section Runs.
Context `{Hasher} (cap window : Z).

(** Where a request is: before the counter, before the sweep its count calls for,
    before the bucket, and decided. *)
Inductive Attempt :=
| Counting (key : string)
| Sweeping (key : string)
| Consuming (key : string)
| Decided (key : string) (o : Outcome).

(** The life of a bucket: the two readings of its creation and those of its
    calls. *)
Record Life := mkLife { born : Z; first_seen : Z; called : list Z }.

Definition life_bucket (l : Life) : Z * Bucket :=
  admitted (called l) (bucket_new cap window (born l) (first_seen l)).
Definition life_end (l : Life) : Z := last_time (born l) (called l).

(** Ghost state: the last reading of each shard's sections, and the lives of each
    key's buckets. *)
Record Limiter := mkLimiter {
  store : list Shard;
  shard_times : list Z;
  attempts : list Attempt;
  histories : gmap string (list Life) }.

Definition lives (s : Limiter) (key : string) : list Life := default [] (histories s !! key).

(** A call at [now] on the living bucket, or on the one made for it. *)
Definition extend_history (existing : bool) (ck : Clock) (ls : list Life) : list Life :=
  match existing, last ls with
  | true, Some l => removelast ls ++ [mkLife (born l) (first_seen l) (called l ++ [ck_now ck])]
  | _, _ => ls ++ [mkLife (ck_refill ck) (ck_seen ck) [ck_now ck]]
  end.

(** The readings of a sweep lie between the last reading and [until]. *)
Definition sweep_readings (at_key : string -> Z) (from until : Z) (m : gmap string Bucket) : bool :=
  (from <=? until)%Z &&
  forallb (fun kb => (from <=? at_key kb.1)%Z && (at_key kb.1 <=? until)%Z) (map_to_list m).

(** [shard.calls.fetch_add(1)], and whether it calls for a sweep. *)
Definition count_step (key : string) (s : Shard) : Attempt * Shard :=
  (if (calls s mod SWEEP_EVERY =? 0)%Z then Sweeping key else Consuming key,
   mkShard (buckets s) (wrap_u64 (calls s + 1))).

(** The bucket of the key, found or made, is called and kept. *)
Definition consume_step (key : string) (ck : Clock) (s : Shard) : Outcome * Shard :=
  let b := match buckets s !! key with
           | Some b => b
           | None => bucket_new cap window (ck_refill ck) (ck_seen ck)
           end in
  let '(o, b) := try_consume (ck_now ck) b in
  (o, mkShard (<[key := b]> (buckets s)) (calls s)).

Inductive LimiterLabel :=
| LimArrive (key : string)
| LimStep (i : nat) (ck : Clock) (until : Z).

Definition limiter_exec (l : LimiterLabel) (s : Limiter) : option Limiter :=
  match l with
  | LimArrive key =>
      Some (mkLimiter (store s) (shard_times s) (attempts s ++ [Counting key]) (histories s))
  | LimStep i ck until =>
      a ← attempts s !! i;
      match a with
      | Counting key =>
          let n := shard_for key in
          sh ← store s !! n;
          let '(a, sh) := count_step key sh in
          Some (mkLimiter (<[n := sh]> (store s)) (shard_times s) (<[i := a]> (attempts s)) (histories s))
      | Sweeping key =>
          let n := shard_for key in
          sh ← store s !! n; from ← shard_times s !! n;
          if sweep_readings (ck_sweep ck) from until (buckets sh)
          then Some (mkLimiter (<[n := mkShard (sweep (ck_sweep ck) (buckets sh)) (calls sh)]> (store s))
                       (<[n := until]> (shard_times s)) (<[i := Consuming key]> (attempts s)) (histories s))
          else None
      | Consuming key =>
          let n := shard_for key in
          sh ← store s !! n; from ← shard_times s !! n;
          if (from <=? ck_refill ck)%Z && (ck_refill ck <=? ck_seen ck)%Z && (ck_seen ck <=? ck_now ck)%Z
          then let '(o, sh') := consume_step key ck sh in
               let ls := extend_history (bool_decide (is_Some (buckets sh !! key))) ck (lives s key) in
               Some (mkLimiter (<[n := sh']> (store s)) (<[n := ck_now ck]> (shard_times s))
                       (<[i := Decided key o]> (attempts s)) (<[key := ls]> (histories s)))
          else None
      | Decided _ _ => None
      end
  end.

Fixpoint limiter_run (ls : list LimiterLabel) (s : Limiter) : option Limiter :=
  match ls with
  | [] => Some s
  | l :: ls => s' ← limiter_exec l s; limiter_run ls s'
  end.

(** [BucketStore::new], at a time. *)
Definition limiter_init (t0 : Z) : Limiter :=
  mkLimiter store_new (repeat t0 SHARDS) [] ∅.

(** How many requests of a key were let through. *)
Definition let_through (key : string) (a : Attempt) : bool :=
  match a with Decided k Allowed => String.eqb k key | _ => false end.
Definition passed (s : Limiter) (key : string) : nat := List.length (List.filter (let_through key) (attempts s)).

Definition decided (key : string) (a : Attempt) : bool :=
  match a with Decided k _ => String.eqb k key | _ => false end.
Definition answered (s : Limiter) (key : string) : nat := List.length (List.filter (decided key) (attempts s)).

(** *** The invariant of a key *)

(** Lives in the order of time, a later one born when the one before had been idle
    for the time to live. *)
Fixpoint spaced (ls : list Life) : Prop :=
  match ls with
  | l :: ((l' :: _) as ls') => (life_end l + IDLE_TTL <= born l')%Z /\ spaced ls'
  | _ => True
  end.

Definition life_ok (l : Life) : Prop := ordered (born l) (called l) /\ called l <> [].
Definition life_count (l : Life) : Z := fst (life_bucket l).
Definition total (ls : list Life) : Z := fold_right Z.add 0%Z (map life_count ls).
Definition calls_of (ls : list Life) : nat := list_sum (map (fun l => List.length (called l)) ls).

(** What holds of a key whose shard was last read at [from]. *)
Definition key_ok (ob : option Bucket) (from : Z) (ls : list Life) : Prop :=
  spaced ls /\ Forall life_ok ls /\ Forall (fun l => (life_end l <= from)%Z) ls /\
  match ob with
  | Some b => exists l, last ls = Some l /\ b = snd (life_bucket l) /\ last_seen b = life_end l
  | None => forall l, last ls = Some l -> (life_end l + IDLE_TTL <= from)%Z
  end.

(** ** Facts *)

Lemma admitted_snoc ts t b :
  admitted (ts ++ [t]) b =
    let (n, b1) := admitted ts b in
    let (o, b2) := try_consume t b1 in ((n + if is_allowed o then 1 else 0)%Z, b2).
Proof.
  revert b; induction ts as [|t' ts IH]; intros b; cbn [app admitted].
  - destruct (try_consume t b) as [o b2]. by destruct (is_allowed o).
  - destruct (try_consume t' b) as [o b1]. rewrite IH. destruct (admitted ts b1) as [n b2].
    destruct (try_consume t b2) as [o2 b3]. f_equal. destruct (is_allowed o); lia.
Qed.

Lemma ordered_snoc from ts t : ordered from ts -> (last_time from ts <= t)%Z -> ordered from (ts ++ [t]).
Proof. revert from; induction ts as [|t' ts IH]; intros from; cbn; [by split|]. intros [? ?] ?. auto. Qed.

Lemma last_time_snoc from ts t : last_time from (ts ++ [t]) = t.
Proof. revert from; induction ts as [|t' ts IH]; intros from; cbn; auto. Qed.

Lemma spaced_snoc ls l : spaced ls ->
  (forall m, last ls = Some m -> (life_end m + IDLE_TTL <= born l)%Z) -> spaced (ls ++ [l]).
Proof.
  induction ls as [|x [|y ls] IH]; intros Hs Hl; [done|by split; [apply Hl|]|].
  destruct Hs as [H1 H2]. split; [done|]. by apply IH.
Qed.

Lemma spaced_last ls l l' : born l = born l' -> spaced (ls ++ [l]) -> spaced (ls ++ [l']).
Proof.
  intros Hb. induction ls as [|x [|y ls] IH]; [done| |].
  - cbn. by rewrite Hb.
  - intros [H1 H2]. split; [done|]. by apply IH.
Qed.

Lemma total_app ls ls' : total (ls ++ ls') = (total ls + total ls')%Z.
Proof. unfold total. induction ls as [|l ls IH]; cbn; [lia|]. cbn in IH. lia. Qed.

Lemma calls_of_app ls ls' : calls_of (ls ++ ls') = (calls_of ls + calls_of ls')%nat.
Proof. unfold calls_of. by rewrite map_app, list_sum_app. Qed.

Lemma last_split {A} (ls : list A) l : last ls = Some l -> ls = removelast ls ++ [l].
Proof.
  intros Hl. destruct ls as [|x ls] using rev_ind; [done|]. rewrite last_snoc in Hl.
  injection Hl as ->. by rewrite removelast_last.
Qed.

Lemma try_consume_seen now b : last_seen (snd (try_consume now b)) = now.
Proof. unfold try_consume. by destruct (Qle_bool _ _). Qed.

Lemma ends_mono from from' ls : (from <= from')%Z ->
  Forall (fun l => (life_end l <= from)%Z) ls -> Forall (fun l => (life_end l <= from')%Z) ls.
Proof. intros Hle. rewrite !Forall_forall. intros Hf l Hl. specialize (Hf l Hl). cbn in *. lia. Qed.

Lemma key_ok_later ob from from' ls : (from <= from')%Z -> key_ok ob from ls -> key_ok ob from' ls.
Proof.
  intros Hle (H1 & H2 & H3 & H4). split_and!; try done.
  - by eapply ends_mono.
  - destruct ob; [done|]. intros l Hl. specialize (H4 l Hl). lia.
Qed.

Lemma key_ok_sweep ob from until t ls : key_ok ob from ls -> (from <= t <= until)%Z ->
  key_ok (b ← ob; if decide (Z.max 0 (t - last_seen b) < IDLE_TTL)%Z then Some b else None) until ls.
Proof.
  intros Hk Ht. apply (key_ok_later _ _ until) in Hk; [|lia].
  destruct ob as [b|]; [|done]. cbn. destruct (decide _) as [|Hd]; [done|].
  destruct Hk as (H1 & H2 & H3 & l & Hl & -> & Hs). split_and!; try done.
  intros l' Hl'. simplify_eq. rewrite Hs in Hd. unfold IDLE_TTL, NANOS_PER_SEC in *. lia.
Qed.

Lemma key_ok_consume ob from ck ls : key_ok ob from ls ->
  (from <= ck_refill ck <= ck_seen ck)%Z -> (ck_seen ck <= ck_now ck)%Z ->
  let b := default (bucket_new cap window (ck_refill ck) (ck_seen ck)) ob in
  let ls' := extend_history (bool_decide (is_Some ob)) ck ls in
  key_ok (Some (snd (try_consume (ck_now ck) b))) (ck_now ck) ls' /\
  total ls' = (total ls + if is_allowed (fst (try_consume (ck_now ck) b)) then 1 else 0)%Z /\
  calls_of ls' = S (calls_of ls).
Proof.
  intros Hk H1 H2. assert (from <= ck_now ck)%Z as Hle by lia.
  destruct ob as [b|]; cbn [default from_option id].
  - destruct Hk as (Hs & Ho & He & l & Hl & Hb & Hseen). rewrite bool_decide_true by done.
    unfold extend_history. rewrite Hl. pose proof (last_split ls l Hl) as E.
    set (ls0 := removelast ls) in *. clearbody ls0. subst ls.
    set (l' := mkLife _ _ _). assert (life_bucket l' = let (n, b1) := life_bucket l in
      let (o, b2) := try_consume (ck_now ck) b1 in ((n + if is_allowed o then 1 else 0)%Z, b2)) as El
      by apply admitted_snoc.
    rewrite Forall_app, Forall_singleton in Ho, He. destruct Ho as [Ho [Hol _]], He as [He Hel].
    rewrite (surjective_pairing (life_bucket l)), <- Hb in El.
    destruct (try_consume (ck_now ck) b) as [o b2] eqn:Ec. cbn [fst snd].
    assert (life_end l' = ck_now ck) as Een by apply last_time_snoc. split; [split_and!|split].
    + by apply (spaced_last ls0 l).
    + rewrite Forall_app, Forall_singleton. split; [done|]. split; [|by destruct (called l)].
      apply ordered_snoc; [done|]. unfold life_end in Hel. cbn in Hel |- *. lia.
    + rewrite Forall_app, Forall_singleton. split; [|lia].
      by eapply ends_mono.
    + exists l'. rewrite last_snoc, El, Een. split_and!; try done.
      pose proof (try_consume_seen (ck_now ck) b) as Hn. by rewrite Ec in Hn.
    + assert (life_count l' = (life_count l + if is_allowed o then 1 else 0)%Z) as Ecount
        by (unfold life_count; by rewrite El).
      rewrite !total_app. unfold total at 2 4. cbn [map fold_right]. rewrite Ecount. lia.
    + rewrite !calls_of_app. unfold calls_of at 2 4. cbn. rewrite length_app. cbn. lia.
  - destruct Hk as (Hs & Ho & He & Hn). rewrite bool_decide_false by (by intros [? ?]).
    unfold extend_history. set (l := mkLife _ _ _). set (b := bucket_new _ _ _ _).
    assert (life_bucket l = let (o, b') := try_consume (ck_now ck) b in ((if is_allowed o then 1 else 0)%Z, b')) as El.
    { unfold life_bucket. cbn. destruct (try_consume _ _) as [o b']. by destruct (is_allowed o). }
    assert (key_ok (Some (snd (try_consume (ck_now ck) b))) (ck_now ck) (ls ++ [l]) /\
      total (ls ++ [l]) = (total ls + if is_allowed (fst (try_consume (ck_now ck) b)) then 1 else 0)%Z /\
      calls_of (ls ++ [l]) = S (calls_of ls)); [|done].
    pose proof (try_consume_seen (ck_now ck) b) as Hsn.
    destruct (try_consume (ck_now ck) b) as [o b2]. cbn [fst snd] in *. split; [split_and!|split].
    + apply spaced_snoc; [done|]. intros m Hm. specialize (Hn m Hm). cbn. lia.
    + rewrite Forall_app, Forall_singleton. split; [done|]. split; [|done]. cbn. lia.
    + rewrite Forall_app, Forall_singleton. split; [|cbn; lia].
      by eapply ends_mono.
    + exists l. by rewrite last_snoc, El.
    + assert (life_count l = (if is_allowed o then 1 else 0)%Z) as Ecount
        by (unfold life_count; by rewrite El).
      rewrite total_app. unfold total at 2. cbn [map fold_right]. rewrite Ecount. lia.
    + rewrite calls_of_app. cbn. lia.
Qed.

(** *** The invariant of the store *)

Record limiter_ok (s : Limiter) : Prop := mkLimiterOk {
  ok_store : store_wf (store s);
  ok_times : List.length (shard_times s) = SHARDS;
  ok_keys : forall key from, shard_times s !! shard_for key = Some from ->
    key_ok (bucket_of (store s) key) from (lives s key);
  ok_passed : forall key, Z.of_nat (passed s key) = total (lives s key);
  ok_answered : forall key, answered s key = calls_of (lives s key) }.

Lemma filter_insert_length (f : Attempt -> bool) l i a a' : l !! i = Some a -> f a = false ->
  List.length (List.filter f (<[i := a']> l)) =
    (List.length (List.filter f l) + if f a' then 1 else 0)%nat.
Proof.
  revert i; induction l as [|x l IH]; intros [|i]; cbn; [done..| |].
  - intros [= ->] ->. destruct (f a'); cbn; lia.
  - intros Hi Ha. specialize (IH i Hi Ha). destruct (f x); [cbn; f_equal|]; exact IH.
Qed.

Lemma bucket_of_insert (st : list Shard) n sh key : (n < List.length st)%nat ->
  bucket_of (<[n := sh]> st) key =
    if decide (shard_for key = n) then buckets sh !! key else bucket_of st key.
Proof.
  intros Hn. unfold bucket_of. destruct (decide (shard_for key = n)) as [->|Hne].
  - by rewrite list_lookup_insert_eq.
  - by rewrite list_lookup_insert_ne by done.
Qed.

Lemma store_wf_insert (st : list Shard) n sh : store_wf st -> store_wf (<[n := sh]> st).
Proof. unfold store_wf. by rewrite length_insert. Qed.

Lemma bucket_of_lookup (st : list Shard) sh key : st !! shard_for key = Some sh ->
  bucket_of st key = buckets sh !! key.
Proof. intros E. unfold bucket_of. by rewrite E. Qed.

Lemma lookup_times (ts : list Z) n from : List.length ts = SHARDS -> ts !! n = Some from -> (n < SHARDS)%nat.
Proof. intros <-. apply lookup_lt_Some. Qed.

Lemma count_step_ok s i key sh a sh' : attempts s !! i = Some (Counting key) -> limiter_ok s ->
  store s !! shard_for key = Some sh -> count_step key sh = (a, sh') ->
  limiter_ok (mkLimiter (<[shard_for key := sh']> (store s)) (shard_times s)
                (<[i := a]> (attempts s)) (histories s)).
Proof.
  intros Hi [H1 H2 H3 H4 H5] Hs Hc. split; cbn; [by apply store_wf_insert|done| | |].
  - intros k from Hf. specialize (H3 k from Hf).
    rewrite bucket_of_insert by (rewrite H1; apply shard_for_lt).
    destruct (decide _) as [E|]; [|done]. rewrite (bucket_of_lookup _ sh) in H3 by (by rewrite E).
    unfold count_step in Hc. injection Hc as _ <-. exact H3.
  - intros k. unfold passed. cbn. rewrite (filter_insert_length _ _ _ (Counting key)) by done.
    specialize (H4 k). unfold passed in H4. unfold count_step in Hc. injection Hc as <- _.
    replace (let_through k _) with false by (by destruct (_ =? 0)%Z). unfold lives in *. cbn. lia.
  - intros k. unfold answered. cbn. rewrite (filter_insert_length _ _ _ (Counting key)) by done.
    specialize (H5 k). unfold answered in H5. unfold count_step in Hc. injection Hc as <- _.
    replace (decided k _) with false by (by destruct (_ =? 0)%Z). unfold lives in *. cbn. lia.
Qed.

Lemma sweep_step_ok s i key sh at_key from until : attempts s !! i = Some (Sweeping key) -> limiter_ok s ->
  store s !! shard_for key = Some sh -> shard_times s !! shard_for key = Some from ->
  sweep_readings at_key from until (buckets sh) = true ->
  limiter_ok (mkLimiter (<[shard_for key := mkShard (sweep at_key (buckets sh)) (calls sh)]> (store s))
                (<[shard_for key := until]> (shard_times s)) (<[i := Consuming key]> (attempts s)) (histories s)).
Proof.
  intros Hi [H1 H2 H3 H4 H5] Hs Hfrom Hr. apply andb_true_iff in Hr as [Hle Hr]. apply Z.leb_le in Hle.
  split; cbn; [by apply store_wf_insert|by rewrite length_insert| | |].
  - intros k from' Hf. rewrite bucket_of_insert by (rewrite H1; apply shard_for_lt).
    destruct (decide (shard_for k = shard_for key)) as [E|Hne].
    + rewrite E, list_lookup_insert_eq in Hf by (by eapply lookup_lt_Some). injection Hf as <-.
      specialize (H3 k from). rewrite E in H3. specialize (H3 Hfrom).
      rewrite (bucket_of_lookup _ sh) in H3 by (by rewrite E). cbn. rewrite sweep_lookup.
      destruct (buckets sh !! k) as [b|] eqn:Hb; [|by eapply key_ok_later].
      apply (key_ok_sweep (Some b) from until (at_key k)); [done|].
      rewrite forallb_forall in Hr. specialize (Hr (k, b)). cbn in Hr.
      rewrite andb_true_iff, !Z.leb_le in Hr. apply Hr.
      by apply list_elem_of_In, elem_of_map_to_list.
    + rewrite list_lookup_insert_ne in Hf by done. by apply H3.
  - intros k. unfold passed. cbn. rewrite (filter_insert_length _ _ _ (Sweeping key)) by done.
    specialize (H4 k). unfold passed in H4. unfold lives in *. cbn. lia.
  - intros k. unfold answered. cbn. rewrite (filter_insert_length _ _ _ (Sweeping key)) by done.
    specialize (H5 k). unfold answered in H5. unfold lives in *. cbn. lia.
Qed.

Lemma consume_step_ok s i key sh ck from o sh' : attempts s !! i = Some (Consuming key) -> limiter_ok s ->
  store s !! shard_for key = Some sh -> shard_times s !! shard_for key = Some from ->
  (from <= ck_refill ck <= ck_seen ck)%Z -> (ck_seen ck <= ck_now ck)%Z -> consume_step key ck sh = (o, sh') ->
  limiter_ok (mkLimiter (<[shard_for key := sh']> (store s)) (<[shard_for key := ck_now ck]> (shard_times s))
                (<[i := Decided key o]> (attempts s))
                (<[key := extend_history (bool_decide (is_Some (buckets sh !! key))) ck (lives s key)]> (histories s))).
Proof.
  intros Hi [H1 H2 H3 H4 H5] Hs Hfrom Hr1 Hr2 Hc.
  pose proof (H3 key from Hfrom) as Hk. rewrite (bucket_of_lookup _ sh) in Hk by done.
  apply (key_ok_consume _ _ ck) in Hk as (Hk & Ht & Hcalls); [|done..].
  assert (consume_step key ck sh =
    (fst (try_consume (ck_now ck) (default (bucket_new cap window (ck_refill ck) (ck_seen ck)) (buckets sh !! key))),
     mkShard (<[key := snd (try_consume (ck_now ck)
       (default (bucket_new cap window (ck_refill ck) (ck_seen ck)) (buckets sh !! key)))]> (buckets sh)) (calls sh))) as E.
  { unfold consume_step. by destruct (buckets sh !! key); cbn [default from_option id]; destruct (try_consume _ _). }
  rewrite Hc in E. injection E as Eo Es. split; cbn; [by apply store_wf_insert|by rewrite length_insert| | |].
  - intros k from' Hf. rewrite bucket_of_insert by (rewrite H1; apply shard_for_lt). unfold lives. cbn.
    destruct (decide (k = key)) as [->|Hkne].
    { rewrite decide_True by done. rewrite Es. cbn. rewrite !lookup_insert_eq. cbn.
      rewrite list_lookup_insert_eq in Hf by (by eapply lookup_lt_Some). by injection Hf as <-. }
    rewrite lookup_insert_ne by done. fold (lives s k).
    destruct (decide (shard_for k = shard_for key)) as [E|Hne].
    + rewrite E, list_lookup_insert_eq in Hf by (by eapply lookup_lt_Some). injection Hf as <-.
      rewrite Es. cbn. rewrite lookup_insert_ne by done. rewrite <- (bucket_of_lookup (store s)) by (by rewrite E).
      apply (key_ok_later _ from); [lia|]. apply H3. by rewrite E.
    + rewrite list_lookup_insert_ne in Hf by done. by apply H3.
  - intros k. unfold passed, lives. cbn. rewrite (filter_insert_length _ _ _ (Consuming key)) by done.
    specialize (H4 k). unfold passed, lives in H4.
    destruct (decide (k = key)) as [->|Hkne].
    + rewrite lookup_insert_eq. cbn [default from_option id]. unfold lives in Ht. rewrite Ht, <- Eo.
      replace (let_through key (Decided key o)) with (is_allowed o); [destruct (is_allowed o); lia|].
      cbn. destruct o; [by rewrite String.eqb_refl|done].
    + rewrite lookup_insert_ne by done. replace (let_through k (Decided key o)) with false; [lia|].
      cbn. destruct o; [|done]. symmetry. apply String.eqb_neq. congruence.
  - intros k. unfold answered, lives. cbn. rewrite (filter_insert_length _ _ _ (Consuming key)) by done.
    specialize (H5 k). unfold answered, lives in H5. cbn [decided].
    destruct (decide (k = key)) as [->|Hkne].
    + rewrite lookup_insert_eq, String.eqb_refl. cbn [default from_option id]. unfold lives in Hcalls.
      rewrite Hcalls. lia.
    + rewrite lookup_insert_ne, (proj2 (String.eqb_neq key k)) by congruence. lia.
Qed.

Lemma limiter_exec_ok l s s' : limiter_ok s -> limiter_exec l s = Some s' -> limiter_ok s'.
Proof.
  intros Hs. destruct l as [key|i ck until]; cbn [limiter_exec].
  - intros [= <-]. destruct Hs as [H1 H2 H3 H4 H5]. split; try done; intros k.
    + specialize (H4 k). unfold passed in *. cbn. rewrite List.filter_app, length_app. cbn.
      unfold lives in *. cbn. lia.
    + specialize (H5 k). unfold answered in *. cbn. rewrite List.filter_app, length_app. cbn.
      unfold lives in *. cbn. lia.
  - destruct (attempts s !! i) as [a|] eqn:Hi; [|done]. cbn.
    destruct a as [key|key|key|]; [..|done]; destruct (store s !! shard_for key) as [sh|] eqn:Hsh; try done; cbn.
    + destruct (count_step key sh) as [a sh'] eqn:Hc. intros [= <-]. by eapply count_step_ok.
    + destruct (shard_times s !! shard_for key) as [from|] eqn:Hf; [|done]. cbn.
      destruct (sweep_readings _ _ _ _) eqn:Hr; [|done]. intros [= <-]. by eapply sweep_step_ok.
    + destruct (shard_times s !! shard_for key) as [from|] eqn:Hf; [|done]. cbn.
      destruct (_ && _) eqn:Hr; [|done]. bool_hyps.
      destruct (consume_step key ck sh) as [o sh'] eqn:Hc. intros [= <-].
      eapply consume_step_ok; try done; lia.
Qed.

Lemma limiter_run_ok ls s s' : limiter_ok s -> limiter_run ls s = Some s' -> limiter_ok s'.
Proof.
  revert s; induction ls as [|l ls IH]; intros s Hs; cbn; [by intros [= <-]|].
  destruct (limiter_exec l s) as [s1|] eqn:E; [|done]. cbn. apply IH. by eapply limiter_exec_ok.
Qed.

Lemma limiter_run_app ls ls' s : limiter_run (ls ++ ls') s = limiter_run ls s ≫= limiter_run ls'.
Proof. revert s; induction ls as [|l ls IH]; intros s; [done|]. cbn. destruct (limiter_exec l s); [apply IH|done]. Qed.

Lemma limiter_init_ok t0 : limiter_ok (limiter_init t0).
Proof.
  assert (forall from, key_ok None from []) as Hnil by (by intros from; repeat split).
  split; [apply repeat_length|apply repeat_length| |intros key; unfold lives; cbn; by rewrite lookup_empty..].
  intros key from _. unfold bucket_of, lives. cbn [limiter_init store histories]. rewrite lookup_empty.
  destruct (store_new !! shard_for key) as [sh|] eqn:E; [|apply Hnil].
  assert (sh = mkShard ∅ 0) as -> by (eapply repeat_spec, list_elem_of_In, list_elem_of_lookup_2, E).
  cbn. rewrite lookup_empty. apply Hnil.
Qed.

(** *** The rate over several lives *)

Definition life_span (l : Life) : Z := (life_end l - born l)%Z.
Definition weight (ls : list Life) : Z := fold_right Z.add 0%Z (map (fun l => window + life_span l)%Z ls).

Lemma last_any {A} (x d d' : A) l : List.last (x :: l) d = List.last (x :: l) d'.
Proof. revert x; induction l as [|y l IH]; intros x; [done|]. apply (IH y). Qed.

(** Time without a bucket is at least a window: it pays for the new bucket. *)
Lemma weight_span l ls : (window <= IDLE_TTL)%Z -> spaced (l :: ls) ->
  (weight (l :: ls) <= window + (life_end (List.last (l :: ls) l) - born l))%Z.
Proof.
  intros Hw. revert l; induction ls as [|m ls IH]; intros l Hs.
  - cbn. unfold life_span. lia.
  - destruct Hs as [Hgap Hs]. specialize (IH m Hs).
    change (weight (l :: m :: ls)) with (window + life_span l + weight (m :: ls))%Z.
    change (List.last (l :: m :: ls) l) with (List.last (m :: ls) l). rewrite (last_any m l m).
    unfold life_span. lia.
Qed.
End Runs.

Section Rates.
Context `{Hasher}.
Open Scope Q_scope.

Lemma life_rate cap window l : (0 <= cap)%Z -> (0 < window)%Z -> life_ok l ->
  inject_Z (life_count cap window l) <=
    inject_Z cap * (inject_Z (window + life_span l) / inject_Z window) * (1 + delta)
    + inject_Z (Z.of_nat (List.length (called l))) * (inject_Z cap * delta).
Proof.
  intros Hc Hw [Ho _]. eapply Qle_trans; [by apply (bucket_rate cap window (born l) (first_seen l) (called l))|].
  apply Qplus_le_compat; [|apply Qle_refl]. apply Qle_lteq. right. unfold life_span, life_end.
  rewrite inject_Z_plus. field. intros E. unfold Qeq in E. cbn in E. lia.
Qed.

Lemma lives_rate cap window ls : (0 <= cap)%Z -> (0 < window)%Z -> Forall life_ok ls ->
  inject_Z (total cap window ls) <=
    inject_Z cap * (inject_Z (weight window ls) / inject_Z window) * (1 + delta)
    + inject_Z (Z.of_nat (calls_of ls)) * (inject_Z cap * delta).
Proof.
  intros Hc Hw. induction 1 as [|l ls Hl _ IH].
  - apply Qle_lteq. right. change (inject_Z (total cap window [])) with 0.
    change (inject_Z (weight window [])) with 0. change (inject_Z (Z.of_nat (calls_of []))) with 0.
    unfold Qdiv. ring.
  - pose proof (life_rate cap window l Hc Hw Hl) as H1.
    change (total cap window (l :: ls)) with (life_count cap window l + total cap window ls)%Z.
    change (weight window (l :: ls)) with ((window + life_span l) + weight window ls)%Z.
    change (calls_of (l :: ls)) with (List.length (called l) + calls_of ls)%nat.
    rewrite Nat2Z.inj_add, !inject_Z_plus. rewrite inject_Z_plus in H1. unfold Qdiv in *. lra.
Qed.

(** The share of a longer time is larger. *)
Lemma share_mono cap window w elapsed : (0 <= cap)%Z -> (0 < window)%Z -> (w <= window + elapsed)%Z ->
  inject_Z cap * (inject_Z w / inject_Z window) * (1 + delta) <=
    inject_Z cap * (1 + inject_Z elapsed / inject_Z window) * (1 + delta).
Proof.
  intros Hc Hw Hle. assert (0 <= delta) by (vm_compute; discriminate).
  assert (0 < inject_Z window) as Hwq by (change 0 with (inject_Z 0); by rewrite <- Zlt_Qlt).
  assert (inject_Z w / inject_Z window <= 1 + inject_Z elapsed / inject_Z window) as Hq.
  { apply Qle_shift_div_r; [done|]. rewrite Zle_Qle, inject_Z_plus in Hle.
    assert ((1 + inject_Z elapsed / inject_Z window) * inject_Z window == inject_Z window + inject_Z elapsed) as ->.
    { field. intros E. unfold Qeq in E. cbn in E. lia. }
    done. }
  apply Qmult_le_compat_r; [|lra]. rewrite !(Qmult_comm (inject_Z cap)). apply Qmult_le_compat_r; [done|].
  change 0 with (inject_Z 0). by rewrite <- Zle_Qle.
Qed.
End Rates.

(** ** Properties *)

Section Properties.
Context `{Hasher} (cap window : Z).

(** C10. The rate limit holds under concurrency. However requests for any keys
    interleave between the atomic operations of the store, idle buckets being swept
    and made again, the requests of a key that were let through are no more than
    the capacity plus the capacity's share of the time from the key's first bucket
    to its last call, up to a relative rounding error of 2^-49 in total and per
    answer, when the window is no longer than the time a bucket may be idle; for
    any window the bound holds for each bucket, and buckets of a key follow one
    another by at least that time. *)
Theorem limiter_rate t0 ls s key :
  (0 <= cap)%Z -> (0 < window)%Z -> limiter_run cap window ls (limiter_init t0) = Some s ->
  let rate_bound n elapsed calls :=
    (inject_Z n <= inject_Z cap * (1 + inject_Z elapsed / inject_Z window) * (1 + delta)
                   + inject_Z (Z.of_nat calls) * (inject_Z cap * delta))%Q in
  match lives s key with
  | [] => passed s key = 0%nat
  | l :: ls =>
      ((window <= IDLE_TTL)%Z ->
       rate_bound (Z.of_nat (passed s key)) (life_end (List.last (l :: ls) l) - born l)%Z (answered s key))
  end /\
  Z.of_nat (passed s key) = total cap window (lives s key) /\ spaced (lives s key) /\
  forall l, l ∈ lives s key ->
    rate_bound (life_count cap window l) (life_end l - born l)%Z (List.length (called l)).
Proof.
  intros Hc Hw Hrun rate_bound.
  apply (limiter_run_ok cap window ls) in Hrun; [|apply limiter_init_ok].
  destruct Hrun as [Hst Hts Hk Hp Ha]. specialize (Hp key). specialize (Ha key).
  assert (exists from, shard_times s !! shard_for key = Some from) as [from Hf].
  { apply lookup_lt_is_Some. rewrite Hts. apply shard_for_lt. }
  destruct (Hk key from Hf) as (Hs & Hok & _). clear Hk. split_and!; [|done|done|].
  - destruct (lives s key) as [|l ls'] eqn:El; [cbn in Hp; lia|]. intros Hi.
    pose proof (lives_rate cap window (l :: ls') Hc Hw Hok) as Hr. rewrite <- Hp, <- Ha in Hr.
    pose proof (weight_span window l ls' Hi Hs) as Hsp.
    unfold rate_bound. eapply Qle_trans; [exact Hr|]. apply Qplus_le_compat; [|apply Qle_refl].
    by apply share_mono.
  - intros l Hl. rewrite Forall_forall in Hok. destruct (Hok l Hl) as [Ho _].
    by apply bucket_rate.
Qed.

(** The steps of the request that arrived last. *)
Section Last.
Context (key : string) (ck : Clock) (until : Z) (st : list Shard) (ts : list Z) (ats : list Attempt)
        (hs : gmap string (list Life)) (sh : Shard).
Hypothesis Hsh : st !! shard_for key = Some sh.
Let last_step := LimStep (List.length ats) ck until.

Lemma exec_arrive : limiter_exec cap window (LimArrive key) (mkLimiter st ts ats hs) =
  Some (mkLimiter st ts (ats ++ [Counting key]) hs).
Proof. reflexivity. Qed.

Lemma exec_count :
  limiter_exec cap window last_step (mkLimiter st ts (ats ++ [Counting key]) hs) =
    Some (mkLimiter (<[shard_for key := mkShard (buckets sh) (wrap_u64 (calls sh + 1))]> st) ts
            (ats ++ [if (calls sh mod SWEEP_EVERY =? 0)%Z then Sweeping key else Consuming key]) hs).
Proof.
  cbn. rewrite list_lookup_middle by done. cbn. rewrite Hsh. cbn.
  by rewrite insert_app_r_alt, Nat.sub_diag by done.
Qed.

Lemma exec_sweep from : ts !! shard_for key = Some from ->
  sweep_readings (ck_sweep ck) from until (buckets sh) = true ->
  limiter_exec cap window last_step (mkLimiter st ts (ats ++ [Sweeping key]) hs) =
    Some (mkLimiter (<[shard_for key := mkShard (sweep (ck_sweep ck) (buckets sh)) (calls sh)]> st)
            (<[shard_for key := until]> ts) (ats ++ [Consuming key]) hs).
Proof.
  intros Hf Hr. cbn. rewrite list_lookup_middle by done. cbn. rewrite Hsh. cbn. rewrite Hf. cbn. rewrite Hr.
  by rewrite insert_app_r_alt, Nat.sub_diag by done.
Qed.

Lemma exec_consume from : ts !! shard_for key = Some from ->
  (from <= ck_refill ck <= ck_seen ck)%Z -> (ck_seen ck <= ck_now ck)%Z ->
  exists hs', limiter_exec cap window last_step (mkLimiter st ts (ats ++ [Consuming key]) hs) =
    Some (mkLimiter (<[shard_for key := snd (consume_step cap window key ck sh)]> st)
            (<[shard_for key := ck_now ck]> ts)
            (ats ++ [Decided key (fst (consume_step cap window key ck sh))]) hs').
Proof.
  intros Hf H1 H2. eexists. cbn. rewrite list_lookup_middle by done. cbn. rewrite Hsh. cbn. rewrite Hf. cbn.
  rewrite (proj2 (Z.leb_le from _)), (proj2 (Z.leb_le (ck_refill ck) _)), (proj2 (Z.leb_le (ck_seen ck) _)) by lia.
  cbn. destruct (consume_step _ _ _ _ _) as [o sh']. by rewrite insert_app_r_alt, Nat.sub_diag by done.
Qed.
End Last.

(** A request left alone does what [RateLimit.store_try_consume] says. *)
Theorem attempt_alone key ck until st ts ats hs sh from : store_wf st -> List.length ts = SHARDS ->
  st !! shard_for key = Some sh -> ts !! shard_for key = Some from ->
  sweep_readings (ck_sweep ck) from until (buckets sh) = true ->
  (until <= ck_refill ck <= ck_seen ck)%Z -> (ck_seen ck <= ck_now ck)%Z ->
  let (o, st') := store_try_consume key cap window ck st in
  exists ls s', limiter_run cap window ls (mkLimiter st ts ats hs) = Some s' /\
    store s' = st' /\ attempts s' = ats ++ [Decided key o].
Proof.
  intros Hst Hts Hsh Hf Hr Hck1 Hck2. unfold store_try_consume. rewrite Hsh. unfold shard_try_consume.
  assert (from <= until)%Z as Hle by (unfold sweep_readings in Hr; bool_hyps; lia).
  pose proof (shard_for_lt key) as Hn. pose proof (exec_count key ck until st ts ats hs sh Hsh) as E1.
  set (p := LimStep (List.length ats) ck until) in *.
  set (m := if (calls sh mod SWEEP_EVERY =? 0)%Z then _ else _).
  set (sh1 := mkShard (buckets sh) _) in *. set (st1 := <[shard_for key := sh1]> st) in *.
  assert (st1 !! shard_for key = Some sh1) as Hs1 by (apply list_lookup_insert_eq; rewrite Hst; done).
  set (sh2 := mkShard m (calls sh1)).
  assert (exists ls st2 ts2 from2, limiter_run cap window ls (mkLimiter st ts ats hs) =
      Some (mkLimiter st2 ts2 (ats ++ [Consuming key]) hs) /\
    st2 !! shard_for key = Some sh2 /\ ts2 !! shard_for key = Some from2 /\ (from2 <= until)%Z /\
    forall sh', <[shard_for key := sh']> st2 = <[shard_for key := sh']> st) as (ls & st2 & ts2 & from2 & E2 & Hs2 & Hf2 & Hle2 & Hi).
  { subst m sh2. destruct (calls sh mod SWEEP_EVERY =? 0)%Z.
    - exists [LimArrive key; p; p], (<[shard_for key := mkShard (sweep (ck_sweep ck) (buckets sh1)) (calls sh1)]> st1),
        (<[shard_for key := until]> ts), until. split_and!; [|by rewrite list_lookup_insert_eq by (unfold st1; rewrite length_insert, Hst; done)| | |].
      + cbn [limiter_run]. rewrite exec_arrive. cbn [mbind option_bind]. rewrite E1. cbn [mbind option_bind]. unfold p.
        by rewrite (exec_sweep key ck until st1 ts ats hs sh1 Hs1 from).
      + by rewrite list_lookup_insert_eq by (rewrite Hts; done).
      + lia.
      + intros sh'. unfold st1. by rewrite !list_insert_insert_eq.
    - exists [LimArrive key; p], st1, ts, from. split_and!; [|done|done|done|].
      + cbn [limiter_run]. rewrite exec_arrive. cbn [mbind option_bind]. by rewrite E1.
      + intros sh'. unfold st1. by rewrite list_insert_insert_eq. }
  destruct (exec_consume key ck until st2 ts2 ats hs sh2 Hs2 from2 Hf2) as [hs' E3]; [lia|done|].
  destruct (try_consume (ck_now ck) _) as [o b] eqn:Et.
  assert (consume_step cap window key ck sh2 = (o, mkShard (<[key := b]> m) (calls sh1))) as Ec.
  { unfold consume_step. cbn [sh2 buckets]. by rewrite Et. }
  exists (ls ++ [p]). eexists. split; [|split].
  - rewrite limiter_run_app, E2. cbn -[limiter_exec]. unfold p. rewrite E3. reflexivity.
  - cbn [store]. by rewrite Ec, Hi.
  - cbn [attempts]. by rewrite Ec.
Qed.
End Properties.

(** ** Two requests at once

    One request a minute: the first of a shard sweeps it, the second consumes in
    between. *)
Module Rivals.
Definition window : Z := 60 * DemoLimit.second.
Definition step (i : nat) (t : Z) : LimiterLabel := LimStep i (DemoLimit.at_time t) t.
Definition labels : list LimiterLabel :=
  [LimArrive "client"; LimArrive "client"; step 0 0; step 1 1; step 1 2; step 0 3; step 0 4;
   LimArrive "other"; step 2 5; step 2 6].
Definition final : Limiter :=
  Eval vm_compute in match limiter_run 1 window labels (limiter_init 0) with
                     | Some s => s | None => limiter_init 0 end.
Lemma final_run : limiter_run 1 window labels (limiter_init 0) = Some final.
Proof. vm_compute. reflexivity. Qed.
End Rivals.

Lemma limiter_rate_witness :
  passed Rivals.final "client" = 1%nat /\ answered Rivals.final "client" = 2%nat /\
  (inject_Z 1 <= inject_Z 1 * (1 + inject_Z 2 / inject_Z Rivals.window) * (1 + delta)
                 + inject_Z 2 * (inject_Z 1 * delta))%Q.
Proof.
  split; [vm_compute; reflexivity|]. split; [vm_compute; reflexivity|].
  destruct (limiter_rate 1 Rivals.window 0 Rivals.labels Rivals.final "client" ltac:(lia)
    ltac:(vm_compute; reflexivity) Rivals.final_run) as [W _].
  exact (W ltac:(vm_compute; discriminate)).
Defined.
