(* ===== verification/Compression.v ===== *)
(** * Compression and decompression

    [arvik-middleware/src/compression.rs].  The codecs of [async-compression]
    are parameters: an encoder maps the results a byte stream yields to the
    results its reader yields, a decoder maps bytes to bytes or fails. *)
From S2P Require Import Prelude RustStr HttpCrate Body Http Accept BodyLimit.
From stdpp Require Import base list strings sets.
From Stdlib Require Import ZArith Lia Ascii String.
Open Scope string_scope.
Open Scope list_scope.

Inductive CompressionLevel := Fastest | Best | DefaultLevel.
Inductive Encoding := Gzip | Br | Zstd | Deflate.

#[export] Instance encoding_eq_dec : EqDecision Encoding.
Proof. solve_decision. Defined.

Definition encoding_header_value (e : Encoding) : string :=
  match e with Gzip => "gzip" | Br => "br" | Zstd => "zstd" | Deflate => "deflate" end.

(** A byte stream: what it yields until it ends. *)
Definition ByteStream : Type := list (result string BoxError).

Class Codecs : Type := {
  encode : Encoding -> CompressionLevel -> ByteStream -> ByteStream;
  decode : Encoding -> string -> option string }.

(** What they document: the reader of an error-free stream yields the whole
    encoding, and decoding it gives the data back. *)
Class CodecLaws `(C : Codecs) : Prop := {
  decode_encode e lvl chunks :
    exists out, encode e lvl (map Ok chunks) = map Ok out /\
      decode e (concat_bytes out) = Some (concat_bytes chunks) }.

(** [struct CompressionLayer] and its builders. *)
Record CompressionLayer := mkCompression {
  c_gzip : bool;
  c_br : bool;
  c_zstd : bool;
  c_deflate : bool;
  c_level : CompressionLevel;
  c_min_size : Z }.

Definition compression_new : CompressionLayer := mkCompression true true true true DefaultLevel 1024.
Definition with_gzip (b : bool) (c : CompressionLayer) : CompressionLayer :=
  mkCompression b (c_br c) (c_zstd c) (c_deflate c) (c_level c) (c_min_size c).
Definition with_br (b : bool) (c : CompressionLayer) : CompressionLayer :=
  mkCompression (c_gzip c) b (c_zstd c) (c_deflate c) (c_level c) (c_min_size c).
Definition with_zstd (b : bool) (c : CompressionLayer) : CompressionLayer :=
  mkCompression (c_gzip c) (c_br c) b (c_deflate c) (c_level c) (c_min_size c).
Definition with_deflate (b : bool) (c : CompressionLayer) : CompressionLayer :=
  mkCompression (c_gzip c) (c_br c) (c_zstd c) b (c_level c) (c_min_size c).
Definition with_quality (l : CompressionLevel) (c : CompressionLayer) : CompressionLayer :=
  mkCompression (c_gzip c) (c_br c) (c_zstd c) (c_deflate c) l (c_min_size c).
Definition with_min_size (n : Z) (c : CompressionLayer) : CompressionLayer :=
  mkCompression (c_gzip c) (c_br c) (c_zstd c) (c_deflate c) (c_level c) n.

Definition enabled (c : CompressionLayer) (e : Encoding) : bool :=
  match e with Gzip => c_gzip c | Br => c_br c | Zstd => c_zstd c | Deflate => c_deflate c end.

(** [preferred_encoding]: zstd, br, gzip, deflate. *)
Definition preferred_encoding (c : CompressionLayer) (accept_encoding : string) : option Encoding :=
  List.find (fun e => enabled c e &&
      match negotiate [encoding_header_value e] accept_encoding with Some _ => true | None => false end)
    [Zstd; Br; Gzip; Deflate].

Section Model.
Context `{HttpCrate} `{Codecs}.

(** [should_compress]. *)
Definition should_compress (headers : HeaderMap) : bool :=
  match hm_get_str headers CONTENT_TYPE with
  | None => false
  | Some ct =>
      starts_with "text/" ct || str_contains "json" ct || str_contains "xml" ct
      || str_contains "javascript" ct || str_contains "css" ct
      || starts_with "application/wasm" ct || starts_with "image/svg" ct
  end.

(** [body_byte_stream]: data and errors up to the first trailer. *)
Fixpoint byte_stream (fs : list FrameResult) : ByteStream :=
  match fs with
  | [] => []
  | Ok (DataFrame d) :: fs => Ok d :: byte_stream fs
  | Ok (TrailersFrame _) :: _ => []
  | Err e :: fs =>
      Err (OtherError match e with OtherError m => m | BodyTooLarge => "body too large" end)
        :: byte_stream fs
  end.

(** [compress_response]. *)
Definition compress_response (response : Response) (encoding : Encoding) (config : CompressionLayer)
  : Response :=
  let small := match sh_upper (size_hint (res_body response)) with
               | Some upper => (upper <? c_min_size config)%Z
               | None => false
               end in
  if small then
    set_res_headers (hm_insert (res_headers response) VARY "Accept-Encoding") response
  else
    let compressed :=
      body_from_stream (encode encoding (c_level config) (byte_stream (body_frames (res_body response)))) in
    let h := hm_insert (res_headers response) CONTENT_ENCODING (encoding_header_value encoding) in
    let h := hm_insert h VARY "Accept-Encoding" in
    let h := hm_remove h CONTENT_LENGTH in
    mkResponse (res_status response) h (res_matched_path response) compressed.

(** The encoding [CompressionService::call] settles on before the service runs. *)
Definition negotiated (config : CompressionLayer) (req : Request) : option Encoding :=
  match hm_get_str (req_headers req) ACCEPT_ENCODING with
  | Some accept => if str_is_empty accept then None else preferred_encoding config accept
  | None => None
  end.

(** [CompressionService::call]. *)
Definition compression_layer {W} (config : CompressionLayer) : LayerFn W := fun inner req w =>
  let is_head := method_eqb (req_method req) HEAD in
  let encoding := negotiated config req in
  let '(response, w) := inner req w in
  (match encoding with
   | None => response
   | Some encoding =>
       if hm_contains (res_headers response) CONTENT_ENCODING then response
       else if is_head then response
       else if negb (should_compress (res_headers response)) then response
       else compress_response response encoding config
   end, w).

(** The decoder a [Content-Encoding] names. *)
Definition decoder_of (encoding : string) : option Encoding :=
  if String.eqb encoding "gzip" then Some Gzip
  else if String.eqb encoding "br" || String.eqb encoding "brotli" then Some Br
  else if String.eqb encoding "zstd" then Some Zstd
  else if String.eqb encoding "deflate" then Some Deflate
  else None.

Definition bad_compressed_body : Response :=
  rb_body (body_from_bytes "Failed to read compressed body") (rb_status 400 rb_new).

(** [DecompressionService::call]. *)
Definition decompression_layer {W} : LayerFn W := fun inner req w =>
  match hm_get_str (req_headers req) CONTENT_ENCODING with
  | None => inner req w
  | Some e =>
      let encoding := to_ascii_lowercase e in
      match to_bytes (req_body req) with
      | Err _ => (bad_compressed_body, w)
      | Ok body_bytes =>
          match decoder_of encoding ≫= (fun c => decode c body_bytes) with
          | Some data =>
              let h := hm_remove (req_headers req) CONTENT_ENCODING in
              let h := hm_insert h CONTENT_LENGTH (to_dec (str_len data)) in
              inner (set_req_body (body_from_bytes data) (set_req_headers h req)) w
          | None => inner (set_req_body (body_from_bytes body_bytes) req) w
          end
      end
  end.

(** ** Lemmas *)

Lemma byte_stream_data fs :
  all_data fs -> exists chunks, byte_stream fs = map Ok chunks /\ collect_frames fs = Ok (concat_bytes chunks).
Proof.
  induction fs as [|f fs IH]; intros Hd; [by exists []|].
  destruct (Hd f ltac:(set_solver)) as [d ->].
  destruct IH as (chunks & Hb & Hc); [intros g Hg; apply Hd; set_solver|].
  exists (d :: chunks). cbn. by rewrite Hb, Hc.
Qed.

Lemma to_bytes_stream chunks :
  to_bytes (body_from_stream (map Ok chunks)) = Ok (concat_bytes chunks).
Proof. unfold to_bytes. cbn. induction chunks as [|c cs IH]; cbn; [done|]. by rewrite IH. Qed.
End Model.

Lemma preferred_spec c h e :
  preferred_encoding c h = Some e ->
  enabled c e = true /\ accepts h (encoding_header_value e) = true.
Proof.
  intros Hf. apply find_some_split in Hf as (l1 & l2 & _ & He & _). bool_hyps. split; [done|].
  apply negotiate_one; [by destruct e|by destruct e|]. by destruct (negotiate _ h); [eexists|].
Qed.

(** ** Properties *)

(** C28. Compression is transparent: the service runs once on the unchanged
    request; its response keeps its status, and either it is the service's own
    (at most with a new [Vary]), or its [Content-Encoding] is one encoding that
    is enabled and that the client accepts, its [Content-Length] is gone, and
    decoding its body gives the service's body. *)
Theorem compression_transparent `{HL : HttpLaws} `{CL : CodecLaws} {W} config (inner : Service W) req w :
  all_data (body_frames (res_body (fst (inner req w)))) ->
  let '(res0, w0) := inner req w in
  let '(res, w1) := compression_layer config inner req w in
  w1 = w0 /\ res_status res = res_status res0 /\
  (res = res0 \/
   res = set_res_headers (hm_insert (res_headers res0) VARY "Accept-Encoding") res0 \/
   exists e accept bytes,
     hm_get_str (req_headers req) ACCEPT_ENCODING = Some accept /\
     enabled config e = true /\ accepts accept (encoding_header_value e) = true /\
     hm_get_all (res_headers res0) CONTENT_ENCODING = [] /\
     hm_get_all (res_headers res) CONTENT_ENCODING = [encoding_header_value e] /\
     hm_get_all (res_headers res) VARY = ["Accept-Encoding"] /\
     hm_get_all (res_headers res) CONTENT_LENGTH = [] /\
     to_bytes (res_body res) = Ok bytes /\
     result_ok (to_bytes (res_body res0)) = decode e bytes).
Proof.
  intros Hd. unfold compression_layer. destruct (inner req w) as [res0 w0]. cbn [fst] in Hd.
  split; [done|].
  destruct (negotiated config req) as [e|] eqn:En; [|by auto].
  destruct (hm_contains (res_headers res0) CONTENT_ENCODING) eqn:Ece; [by auto|].
  destruct (method_eqb _ _); [by auto|]. destruct (should_compress _); cbn [negb]; [|by auto].
  unfold compress_response. set (small := match sh_upper _ with Some _ => _ | None => _ end).
  destruct small; [by auto|]. cbn [res_status res_headers res_body]. split; [done|]. right. right.
  unfold negotiated in En. destruct (hm_get_str (req_headers req) ACCEPT_ENCODING) as [a|]; [|done].
  destruct (str_is_empty a); [done|]. apply preferred_spec in En as [Hen Hacc].
  destruct (byte_stream_data _ Hd) as (chunks & Hbs & Hcf).
  destruct (decode_encode e (c_level config) chunks) as (out & Henc & Hdec).
  exists e, a, (concat_bytes out). rewrite Hbs, Henc, to_bytes_stream.
  split_and!; try done; try (by headers).
  - by apply hm_contains_false.
  - unfold to_bytes. by rewrite Hcf, Hdec.
Qed.

Ltac build := cbn [set_req_body set_req_headers req_method req_uri req_ext req_headers req_body].

(** Decompression: an encoded body reaches the service decoded, without
    its [Content-Encoding] and with its new length; a body that is not encoded,
    or in no known encoding, or not decodable, reaches it with the same bytes
    and headers. *)
Theorem decompression_decodes `{HL : HttpLaws} `{CL : CodecLaws} {W} (inner : Service W) req w bytes :
  to_bytes (req_body req) = Ok bytes ->
  exists req', decompression_layer inner req w = inner req' w /\
    req_method req' = req_method req /\ req_uri req' = req_uri req /\ req_ext req' = req_ext req /\
    match hm_get_str (req_headers req) CONTENT_ENCODING ≫= (fun e => decoder_of (to_ascii_lowercase e)) with
    | None => req_headers req' = req_headers req /\ to_bytes (req_body req') = Ok bytes
    | Some c =>
        (decode c bytes = None -> req_headers req' = req_headers req /\ to_bytes (req_body req') = Ok bytes) /\
        (forall lvl chunks, encode c lvl (map Ok chunks) = [Ok bytes] ->
           to_bytes (req_body req') = Ok (concat_bytes chunks) /\
           hm_get_all (req_headers req') CONTENT_ENCODING = [] /\
           hm_get_all (req_headers req') CONTENT_LENGTH = [to_dec (str_len (concat_bytes chunks))])
    end.
Proof.
  intros Hb. unfold decompression_layer.
  destruct (hm_get_str (req_headers req) CONTENT_ENCODING) as [e|]; cbn; [|by exists req].
  rewrite Hb. destruct (decoder_of (to_ascii_lowercase e)) as [c|]; cbn.
  2:{ eexists. split; [reflexivity|]. build. by rewrite to_bytes_from_bytes. }
  destruct (decode c bytes) as [data|] eqn:Ed.
  - eexists. split; [reflexivity|]. build. split_and!; [done..|done|].
    intros lvl chunks He. destruct (decode_encode c lvl chunks) as (out & Ho & Hdec).
    rewrite He in Ho. destruct out as [|o [|? ?]]; try done. injection Ho as ->.
    cbn in Hdec. rewrite sapp_nil_r, Ed in Hdec. injection Hdec as ->.
    rewrite to_bytes_from_bytes. split_and!; [done|by headers|by headers].
  - eexists. split; [reflexivity|]. build. rewrite to_bytes_from_bytes. split_and!; [done..|].
    intros lvl chunks He. exfalso. destruct (decode_encode c lvl chunks) as (out & Ho & Hdec).
    rewrite He in Ho. destruct out as [|o [|? ?]]; try done. injection Ho as ->.
    cbn in Hdec. rewrite sapp_nil_r in Hdec. congruence.
Qed.

(** ** A concrete codec: a tag in front of the data *)
Module DemoCodec.
Definition tag (e : Encoding) : string :=
  match e with Gzip => "G" | Br => "B" | Zstd => "Z" | Deflate => "D" end.
Fixpoint collect (s : ByteStream) : result string BoxError :=
  match s with
  | [] => Ok ""
  | Ok d :: s => match collect s with Ok r => Ok (d +:+ r) | Err e => Err e end
  | Err e :: _ => Err e
  end.
#[export] Instance codecs : Codecs := {
  encode e _ s := match collect s with Ok d => [Ok (tag e +:+ d)] | Err x => [Err x] end;
  decode e s := str_strip_prefix (tag e) s }.
Lemma collect_ok chunks : collect (map Ok chunks) = Ok (concat_bytes chunks).
Proof. induction chunks as [|c cs IH]; cbn; [done|]. by rewrite IH. Qed.
#[export] Instance laws : CodecLaws codecs.
Proof.
  split. intros e lvl chunks. exists [tag e +:+ concat_bytes chunks]. cbn.
  rewrite collect_ok. split; [done|]. rewrite sapp_nil_r. by apply str_strip_prefix_spec.
Qed.
Definition page (req : Request) (w : list string) : Response * list string :=
  (rb_body (body_from_chunks ["<p>"; "hello"])
     (rb_header VARY "origin" (rb_header CONTENT_TYPE "text/html" (rb_status 200 rb_new))), w).
Definition ask (accept : string) : Request :=
  Demo.with_header ACCEPT_ENCODING accept (Demo.request GET "/").
End DemoCodec.
#[export] Existing Instances DemoCodec.codecs DemoCodec.laws.

Lemma compression_transparent_witness :
  let res := fst (compression_layer (with_min_size 0 compression_new) DemoCodec.page
                    (DemoCodec.ask "gzip, br;q=0") []) in
  exists e bytes, hm_get_all (res_headers res) CONTENT_ENCODING = [encoding_header_value e] /\
    to_bytes (res_body res) = Ok bytes /\ decode e bytes = Some "<p>hello".
Proof.
  cbn zeta.
  pose proof (compression_transparent (with_min_size 0 compression_new) DemoCodec.page
    (DemoCodec.ask "gzip, br;q=0") []) as H.
  specialize (H (chunks_data ["<p>"; "hello"] 8)).
  destruct (DemoCodec.page _ _) as [res0 w0] eqn:E0.
  destruct (compression_layer _ _ _ _) as [res w1] eqn:E1. cbn [fst].
  destruct H as (_ & _ & [H|[H|(e & a & bytes & _ & _ & _ & _ & H1 & _ & _ & H2 & H3)]]).
  - exfalso. apply (f_equal (fun r => hm_get_all (res_headers (fst r)) CONTENT_ENCODING)) in E1.
    apply (f_equal (fun r => hm_get_all (res_headers (fst r)) CONTENT_ENCODING)) in E0.
    cbn [fst] in E0, E1. rewrite H, <- E0 in E1. vm_compute in E1. discriminate E1.
  - exfalso. apply (f_equal (fun r => hm_get_all (res_headers (fst r)) CONTENT_ENCODING)) in E1.
    injection E0 as <- <-. rewrite H in E1. vm_compute in E1. discriminate E1.
  - exists e, bytes. split; [exact H1|]. split; [exact H2|]. rewrite <- H3.
    injection E0 as <- _. reflexivity.
Defined.

Lemma decompression_decodes_witness :
  let req := set_req_body (body_from_bytes "Ghello")
    (Demo.with_header CONTENT_ENCODING "GZIP" (Demo.request POST "/")) in
  exists req', decompression_layer (Demo.handler "h") req [] = Demo.handler "h" req' [] /\
    to_bytes (req_body req') = Ok "hello" /\
    hm_get_all (req_headers req') CONTENT_LENGTH = ["5"].
Proof.
  cbn zeta.
  destruct (decompression_decodes (Demo.handler "h") (set_req_body (body_from_bytes "Ghello")
    (Demo.with_header CONTENT_ENCODING "GZIP" (Demo.request POST "/"))) [] "Ghello" eq_refl)
    as (req' & H1 & _ & _ & _ & H2).
  exists req'. split; [exact H1|].
  match type of H2 with match ?o with _ => _ end => change o with (Some Gzip) in H2 end.
  destruct H2 as [_ H2]. destruct (H2 DefaultLevel ["hello"] eq_refl) as (H3 & _ & H4).
  split; [exact H3|exact H4].
Defined.

(** A [Vary] of the service is lost: the layer inserts its own. *)
Theorem compression_drops_vary :
  hm_get_all (res_headers (fst (DemoCodec.page (DemoCodec.ask "gzip") []))) VARY = ["origin"] /\
  hm_get_all (res_headers (fst (compression_layer compression_new DemoCodec.page
                                  (DemoCodec.ask "gzip") []))) VARY = ["Accept-Encoding"].
Proof. split; reflexivity. Qed.

(** A body over the outer limit is answered with 400, not 413, when the reader
    that meets the limit is the decompression layer. *)
Theorem over_limit_encoded_body_is_400 :
  let req := set_req_body (body_from_chunks ["abc"; "de"])
    (Demo.with_header CONTENT_ENCODING "gzip" (Demo.request POST "/up")) in
  res_status (fst (request_body_limit_layer 4 (decompression_layer (Demo.handler "h")) req []))
    = 400%Z.
Proof. reflexivity. Qed.
