(* ===== verification/SecurityHeaders.v ===== *)
(** * Header-setting layers

    [arvik-middleware/src/security_headers.rs]: a header set on requests or
    responses in one of three modes, the security suite, and the marker of
    sensitive headers. *)
From S2P Require Import Prelude RustStr HttpCrate Body Http.
From stdpp Require Import base list strings sets.
From Stdlib Require Import ZArith Lia Ascii String.
Open Scope string_scope.
Open Scope list_scope.

Inductive HeaderMode := IfNotPresent | Overriding | Appending.

Section Model.
Context `{HttpCrate}.

(** [struct SetResponseHeaderLayer] and [SetRequestHeaderLayer]. *)
Record SetHeader := mkSetHeader { sh_name : string; sh_value : string; sh_mode : HeaderMode }.

(** The constructors, from a [HeaderName] and text: [None] is the panic. *)
Definition set_header (mode : HeaderMode) (name value : string) : option SetHeader :=
  match hv_from_str value with
  | Some v => Some (mkSetHeader name v mode)
  | None => None
  end.
Definition if_not_present : string -> string -> option SetHeader := set_header IfNotPresent.
Definition overriding : string -> string -> option SetHeader := set_header Overriding.
Definition appending : string -> string -> option SetHeader := set_header Appending.

(** The match on the mode in both services. *)
Definition apply_mode (s : SetHeader) (h : HeaderMap) : HeaderMap :=
  match sh_mode s with
  | IfNotPresent => hm_or_insert h (sh_name s) (sh_value s)
  | Overriding => hm_insert h (sh_name s) (sh_value s)
  | Appending => hm_append h (sh_name s) (sh_value s)
  end.

(** [SetResponseHeaderService::call]. *)
Definition set_response_header_layer {W} (s : SetHeader) : LayerFn W := fun inner req w =>
  let '(res, w) := inner req w in
  (set_res_headers (apply_mode s (res_headers res)) res, w).

(** [SetRequestHeaderService::call]. *)
Definition set_request_header_layer {W} (s : SetHeader) : LayerFn W := fun inner req w =>
  inner (set_req_headers (apply_mode s (req_headers req)) req) w.

(** [SensitiveHeadersService::call]. *)
Definition sensitive_headers_layer {W} (names : list string) : LayerFn W := fun inner req w =>
  inner (set_req_ext (ext_with_sensitive names (req_ext req)) req) w.

(** [struct SecurityHeadersLayer] and its builders. *)
Record SecurityHeadersLayer := mkSecurity {
  csp : option string;
  hsts_max_age : Z;
  frame_options : string }.

Definition security_headers_new : SecurityHeadersLayer :=
  mkSecurity (Some ("default-src 'self'; script-src 'self'; style-src 'self' 'unsafe-inline'; "
                    +:+ "img-src 'self' data:; font-src 'self'; connect-src 'self'; "
                    +:+ "frame-ancestors 'none'"))
    31536000 "DENY".
Definition with_content_security_policy (v : string) (l : SecurityHeadersLayer) :=
  mkSecurity (Some v) (hsts_max_age l) (frame_options l).
Definition no_content_security_policy (l : SecurityHeadersLayer) :=
  mkSecurity None (hsts_max_age l) (frame_options l).
Definition with_hsts_max_age (secs : Z) (l : SecurityHeadersLayer) :=
  mkSecurity (csp l) secs (frame_options l).
Definition with_frame_options (v : string) (l : SecurityHeadersLayer) :=
  mkSecurity (csp l) (hsts_max_age l) v.

(** The headers [layer] prepares: invalid values are left out. *)
Definition add_header (name value : string) (hs : list (string * string)) : list (string * string) :=
  match hv_from_str value with Some v => hs ++ [(name, v)] | None => hs end.

Definition security_suite (l : SecurityHeadersLayer) : list (string * string) :=
  let hs := add_header "x-frame-options" (frame_options l) [] in
  let hs := add_header "x-content-type-options" "nosniff" hs in
  let hs := add_header "x-xss-protection" "1; mode=block" hs in
  let hs := add_header "strict-transport-security"
              ("max-age=" +:+ to_dec (hsts_max_age l) +:+ "; includeSubDomains") hs in
  let hs := add_header "referrer-policy" "strict-origin-when-cross-origin" hs in
  let hs := add_header "permissions-policy"
              "geolocation=(), microphone=(), camera=(), payment=()" hs in
  match csp l with
  | Some csp => add_header "content-security-policy" csp hs
  | None => hs
  end.

(** [SecurityHeadersService::call]. *)
Definition security_headers_layer {W} (l : SecurityHeadersLayer) : LayerFn W := fun inner req w =>
  let '(res, w) := inner req w in
  (set_res_headers (fold_left (fun h nv => hm_or_insert h (fst nv) (snd nv))
                      (security_suite l) (res_headers res)) res, w).
End Model.

Section Facts.
Context `{HL : HttpLaws}.

Lemma or_insert_all m k v k' :
  hm_get_all (hm_or_insert m k v) k' =
    if String.eqb k k' && match hm_get_all m k' with [] => true | _ => false end then [v]
    else hm_get_all m k'.
Proof.
  unfold hm_or_insert, hm_contains. rewrite hm_get_head.
  destruct (String.eqb_spec k k') as [->|Hne]; cbn [andb].
  - destruct (hm_get_all m k') as [|x xs] eqn:E; cbn; [by rewrite hm_all_insert_eq|done].
  - destruct (hm_get_all m k); cbn; [by rewrite hm_all_insert_ne|done].
Qed.

(** Names of a list, each once. *)
Definition names (hs : list (string * string)) : list string := map fst hs.

Lemma or_insert_fold hs m k :
  NoDup (names hs) ->
  hm_get_all (fold_left (fun h nv => hm_or_insert h (fst nv) (snd nv)) hs m) k =
    match hm_get_all m k with
    | [] => option_list (option_map snd (List.find (fun nv => String.eqb (fst nv) k) hs))
    | vs => vs
    end.
Proof.
  revert m; induction hs as [|[n v] hs IH]; intros m Hd; cbn [fold_left List.find fst snd].
  { by destruct (hm_get_all m k). }
  cbn in Hd. apply NoDup_cons in Hd as [Hn Hd]. rewrite IH, or_insert_all by done.
  destruct (String.eqb_spec n k) as [->|Hne]; cbn [andb]; [|done].
  destruct (hm_get_all m k); [done|done].
Qed.

Lemma add_header_nodup n v hs : n ∉ names hs -> NoDup (names hs) -> NoDup (names (add_header n v hs)).
Proof.
  intros Hn Hd. unfold add_header. destruct (hv_from_str v); [|done].
  unfold names. rewrite map_app. apply NoDup_app. split_and!; [done| |apply NoDup_singleton].
  intros x Hx Hx'. apply list_elem_of_singleton in Hx' as ->. by apply Hn.
Qed.

Lemma add_header_names n v hs x : x ∈ names (add_header n v hs) -> x ∈ names hs \/ x = n.
Proof.
  unfold add_header, names. destruct (hv_from_str v); [|by left].
  rewrite map_app, elem_of_app. cbn. set_solver.
Qed.

Lemma security_suite_nodup l : NoDup (names (security_suite l)).
Proof.
  unfold security_suite.
  assert (Hall : NoDup (names (add_header "permissions-policy"
     "geolocation=(), microphone=(), camera=(), payment=()"
     (add_header "referrer-policy" "strict-origin-when-cross-origin"
     (add_header "strict-transport-security"
        ("max-age=" +:+ to_dec (hsts_max_age l) +:+ "; includeSubDomains")
     (add_header "x-xss-protection" "1; mode=block"
     (add_header "x-content-type-options" "nosniff"
     (add_header "x-frame-options" (frame_options l) [])))))))).
  { repeat (apply add_header_nodup;
      [intros Hx; repeat (apply add_header_names in Hx as [Hx|Hx]; [|discriminate Hx]);
       cbn in Hx; by apply elem_of_nil in Hx|]). apply NoDup_nil_2. }
  destruct (csp l) as [c|]; [|done]. apply add_header_nodup; [|done].
  intros Hx. repeat (apply add_header_names in Hx as [Hx|Hx]; [|discriminate Hx]).
  cbn in Hx. by apply elem_of_nil in Hx.
Qed.
End Facts.

(** ** Properties *)

(** The security suite: the service runs on the unchanged request, its
    status and body are kept; every header of the suite is on the response,
    with the service's own value if it set one and the configured value
    otherwise; no other header changes. *)
Theorem security_headers_complete `{HL : HttpLaws} {W} l (inner : Service W) req w :
  let '(res0, w0) := inner req w in
  let '(res, w1) := security_headers_layer l inner req w in
  w1 = w0 /\ res_status res = res_status res0 /\ res_body res = res_body res0 /\
  forall name, hm_get_all (res_headers res) name =
    match hm_get_all (res_headers res0) name with
    | [] => option_list (option_map snd (List.find (fun nv => String.eqb (fst nv) name) (security_suite l)))
    | own => own
    end.
Proof.
  unfold security_headers_layer. destruct (inner req w) as [res0 w0].
  split_and!; [done..|]. intros name. cbn [res_headers set_res_headers].
  apply or_insert_fold, security_suite_nodup.
Qed.

(** The modes: on a response, [IfNotPresent] keeps what is there,
    [Overriding] leaves exactly the new value, [Appending] adds it after the
    others, and no other header, nor the status or the body, changes. *)
Theorem set_response_header_modes `{HL : HttpLaws} {W} s (inner : Service W) req w :
  let '(res0, w0) := inner req w in
  let '(res, w1) := set_response_header_layer s inner req w in
  let old := hm_get_all (res_headers res0) (sh_name s) in
  w1 = w0 /\ res_status res = res_status res0 /\ res_body res = res_body res0 /\
  hm_get_all (res_headers res) (sh_name s) =
    match sh_mode s with
    | IfNotPresent => match old with [] => [sh_value s] | _ => old end
    | Overriding => [sh_value s]
    | Appending => old ++ [sh_value s]
    end /\
  forall name, name <> sh_name s -> hm_get_all (res_headers res) name = hm_get_all (res_headers res0) name.
Proof.
  unfold set_response_header_layer. destruct (inner req w) as [res0 w0].
  cbn [res_headers res_status res_body set_res_headers]. unfold apply_mode. split_and!; try done.
  - destruct (sh_mode s); [|by headers|by headers]. rewrite or_insert_all, String.eqb_refl.
    by destruct (hm_get_all _ _).
  - intros name Hne. destruct (sh_mode s).
    + rewrite or_insert_all. by rewrite (proj2 (String.eqb_neq (sh_name s) name)).
    + by rewrite hm_all_insert_ne.
    + by rewrite hm_all_append_ne.
Qed.

Lemma security_headers_complete_witness :
  let inner : Service (list string) := fun _ w =>
    (rb_empty (rb_header "x-frame-options" "SAMEORIGIN" rb_new), w) in
  let res := fst (security_headers_layer security_headers_new inner (Demo.request GET "/") []) in
  hm_get_all (res_headers res) "x-frame-options" = ["SAMEORIGIN"] /\
  hm_get_all (res_headers res) "strict-transport-security" = ["max-age=31536000; includeSubDomains"].
Proof.
  cbn zeta. set (inner := fun (_ : Request) (w : list string) => _).
  pose proof (security_headers_complete security_headers_new inner (Demo.request GET "/") []) as H.
  unfold inner in H at 1. destruct (security_headers_layer _ _ _ _) as [res w1].
  destruct H as (_ & _ & _ & H). cbn [fst]. rewrite !H. split; reflexivity.
Defined.

Lemma set_response_header_modes_witness :
  exists s, appending VARY "accept" = Some s /\
  let inner : Service (list string) := fun _ w => (rb_empty (rb_header VARY "origin" rb_new), w) in
  hm_get_all (res_headers (fst (set_response_header_layer s inner (Demo.request GET "/") []))) VARY
    = ["origin"; "accept"].
Proof.
  eexists. split; [reflexivity|]. cbn zeta. set (inner := fun (_ : Request) (w : list string) => _).
  pose proof (set_response_header_modes (mkSetHeader VARY "accept" Appending) inner
                (Demo.request GET "/") []) as H.
  unfold inner in H at 1. destruct (set_response_header_layer _ _ _ _) as [res w1] eqn:E.
  destruct H as (_ & _ & _ & H & _). cbn [fst]. exact H.
Defined.
