(* ===== verification/RequestId.v ===== *)
(** * Request identifiers and timeouts

    [arvik-middleware/src/request_id.rs] and [arvik-middleware/src/timeout.rs].
    The UUID generator draws from the world; the timeout future is a machine
    polled with what its two futures answer. *)
From S2P Require Import Prelude RustStr HttpCrate Body Http.
From stdpp Require Import base list strings sets.
From Stdlib Require Import ZArith Lia Ascii String.
Open Scope string_scope.
Open Scope list_scope.

(** [Uuid::new_v4().to_string()]. *)
Class UuidV4 (W : Type) : Type := { uuid_v4 : W -> string * W }.

Definition X_REQUEST_ID : string := "x-request-id".

Section Model.
Context `{HttpCrate}.

(** What [RequestIdFuture] does when the inner future is done. *)
Definition set_response_id (response_header : option string) (res : Response) : Response :=
  match response_header with
  | Some val => set_res_headers (hm_insert (res_headers res) X_REQUEST_ID val) res
  | None => res
  end.

(** [RequestIdService::call]. *)
Definition request_id_layer {W} `{UuidV4 W} : LayerFn W := fun inner req w =>
  let '(request_id, w) :=
    match hm_get_str (req_headers req) X_REQUEST_ID with
    | Some s => (s, w)
    | None => uuid_v4 w
    end in
  let header := hv_from_str request_id in
  let req := set_req_ext (ext_with_request_id request_id (req_ext req)) req in
  let req := match header with
             | Some val => set_req_headers (hm_insert (req_headers req) X_REQUEST_ID val) req
             | None => req
             end in
  let '(res, w) := inner req w in
  (set_response_id header res, w).

(** [PropagateRequestIdService::call]. *)
Definition propagate_request_id_layer {W} : LayerFn W := fun inner req w =>
  let incoming_id := hm_get (req_headers req) X_REQUEST_ID in
  let '(res, w) := inner req w in
  (set_response_id incoming_id res, w).

(** ** [TimeoutFuture] *)

(** [format!] of the body; [ms] is [Duration::as_millis]. *)
Definition timed_out (ms : Z) : Response :=
  rb_body (body_from_bytes ("{" +:+ quoted "error" +:+ ":" +:+ quoted "Request Timeout" +:+ ","
             +:+ quoted "code" +:+ ":408," +:+ quoted "message" +:+ ":"
             +:+ quoted ("Request exceeded the " +:+ to_dec ms +:+ "ms time limit") +:+ "}"))
    (rb_header_str CONTENT_TYPE "application/json" (rb_status 408 rb_new)).

(** What the two futures answer at one poll. *)
Record Poll := mkPoll { handler_ready : option Response; deadline_passed : bool }.

(** [TimeoutFuture::poll]: [None] is [Pending]. *)
Definition timeout_poll (ms : Z) (p : Poll) : option Response :=
  match handler_ready p with
  | Some response => Some response
  | None => if deadline_passed p then Some (timed_out ms) else None
  end.

(** Polling until the future is ready: the response and the polls made. *)
Fixpoint timeout_run (ms : Z) (polls : list Poll) : option (Response * nat) :=
  match polls with
  | [] => None
  | p :: polls =>
      match timeout_poll ms p with
      | Some r => Some (r, 1%nat)
      | None => option_map (fun rn => (fst rn, Datatypes.S (snd rn))) (timeout_run ms polls)
      end
  end.

Definition pending (p : Poll) : bool :=
  match handler_ready p with Some _ => false | None => negb (deadline_passed p) end.
End Model.

(** ** Properties *)

(** One identifier per request: the service sees the identifier in its
    extensions and its request header, the response carries the same one and no
    other, and it is the client's if it sent a readable one, else a fresh one. *)
Theorem request_id_consistent `{HL : HttpLaws} {W} `{UuidV4 W} (inner : Service W) req w :
  (forall w, str_forall visible_ascii (fst (uuid_v4 w)) = true) ->
  exists id req' w',
    match hm_get_str (req_headers req) X_REQUEST_ID with
    | Some s => id = s /\ w' = w
    | None => (id, w') = uuid_v4 w
    end /\
    ext_request_id (req_ext req') = Some id /\
    hm_get_all (req_headers req') X_REQUEST_ID = [id] /\
    (forall name, name <> X_REQUEST_ID ->
       hm_get_all (req_headers req') name = hm_get_all (req_headers req) name) /\
    req_method req' = req_method req /\ req_uri req' = req_uri req /\ req_body req' = req_body req /\
    let '(res0, w0) := inner req' w' in
    let '(res, w1) := request_id_layer inner req w in
    w1 = w0 /\ res_status res = res_status res0 /\ res_body res = res_body res0 /\
    hm_get_all (res_headers res) X_REQUEST_ID = [id].
Proof.
  intros Huuid. unfold request_id_layer.
  assert (Hv : exists id w', (match hm_get_str (req_headers req) X_REQUEST_ID with
                 | Some s => (s, w) | None => uuid_v4 w end) = (id, w') /\
               hv_from_str id = Some id /\
               match hm_get_str (req_headers req) X_REQUEST_ID with
               | Some s => id = s /\ w' = w
               | None => (id, w') = uuid_v4 w
               end).
  { unfold hm_get_str. destruct (hm_get (req_headers req) X_REQUEST_ID) as [v|]; cbn.
    - destruct (hv_to_str v) as [s|] eqn:Ev.
      + exists s, w. split_and!; [done|by eapply hv_str_roundtrip|done|done].
      + specialize (Huuid w). destruct (uuid_v4 w) as [id w']. exists id, w'.
        split_and!; [done|by apply hv_from_str_visible|done].
    - specialize (Huuid w). destruct (uuid_v4 w) as [id w']. exists id, w'.
      split_and!; [done|by apply hv_from_str_visible|done]. }
  destruct Hv as (id & w' & -> & Hid & Hspec). rewrite Hid.
  exists id, (set_req_headers (hm_insert (req_headers req) X_REQUEST_ID id)
                (set_req_ext (ext_with_request_id id (req_ext req)) req)), w'.
  split; [done|]. split; [done|]. split; [cbn; by headers|].
  split; [intros name Hne; cbn; by rewrite hm_all_insert_ne|].
  split_and!; try done. cbn [req_headers set_req_ext].
  destruct (inner _ w') as [res0 w0]. split_and!; [done..|]. cbn. by headers.
Qed.

(** The race of handler and deadline: the future is ready at the first poll
    that finds the handler done or the deadline passed; the handler's response
    wins, also when both are ready at that poll, and otherwise the answer is a
    408. Until then it is pending. *)
Theorem timeout_race `{HL : HttpLaws} ms before p after :
  (0 <= ms)%Z -> forallb pending before = true -> pending p = false ->
  exists res, timeout_run ms (before ++ p :: after) = Some (res, Datatypes.S (List.length before)) /\
    match handler_ready p with
    | Some response => res = response
    | None => deadline_passed p = true /\ res_status res = 408%Z
    end.
Proof.
  intros Hms Hb Hp. induction before as [|q before IH]; cbn [app timeout_run].
  - unfold timeout_poll, pending in *. destruct (handler_ready p) as [r|]; [by exists r|].
    bool_hyps. rewrite Hp. eexists. split; [done|]. split; [done|].
    unfold timed_out, rb_header_str. by rewrite hv_from_str_visible.
  - cbn in Hb. bool_hyps. destruct (IH ltac:(done)) as (res & Hr & Hres).
    exists res. split; [|done]. unfold timeout_poll, pending in *.
    destruct (handler_ready q); [done|]. bool_hyps. by rewrite H0, Hr.
Qed.

(** ** A concrete generator *)
Module DemoUuid.
#[export] Instance uuid : UuidV4 (list string) := {
  uuid_v4 w := ("7f1c", w ++ ["uuid"]) }.
End DemoUuid.
#[export] Existing Instance DemoUuid.uuid.

Lemma request_id_consistent_witness :
  exists id req' w', (id, w') = uuid_v4 ([] : list string) /\
    ext_request_id (req_ext req') = Some id /\
    hm_get_all (res_headers (fst (request_id_layer (Demo.handler "h") (Demo.request GET "/") [])))
      X_REQUEST_ID = [id].
Proof.
  destruct (@request_id_consistent _ _ _ DemoUuid.uuid (Demo.handler "h") (Demo.request GET "/") []
    ltac:(intros; reflexivity)) as (id & req' & w' & H1 & H2 & _ & _ & _ & _ & _ & H3).
  exists id, req', w'. split; [exact H1|]. split; [exact H2|].
  destruct (Demo.handler "h" req' w') as [res0 w0].
  destruct (request_id_layer _ _ _) as [res w1]. exact (proj2 (proj2 (proj2 H3))).
Defined.

Lemma timeout_race_witness :
  exists res, timeout_run 30 [mkPoll None false; mkPoll (Some (Demo.respond 200 "done")) true] = Some (res, 2%nat) /\
    res = Demo.respond 200 "done".
Proof.
  destruct (timeout_race 30 [mkPoll None false] (mkPoll (Some (Demo.respond 200 "done")) true) []
    ltac:(lia) eq_refl eq_refl) as (res & H1 & H2).
  exists res. split; [exact H1|exact H2].
Defined.
