(* ===== verification/Sse.v ===== *)
(** * Server-sent events

    [arvik-sse/src/event.rs], [keep_alive.rs] and [sse.rs]: the event builder
    and its wire format, the keep-alive configuration, and the response body
    that merges a stream of events with the keep-alive timer.

    The reference the wire format is proved against is the event stream
    interpretation of the HTML standard (the algorithm a browser's
    [EventSource] runs), written here as [EventSource.parse].  Instants and
    durations are nanoseconds; [instant_max] is the last instant the platform's
    clock can represent, past which [Instant + Duration] panics. *)
From S2P Require Import Prelude RustStr HttpCrate Body Http.
From stdpp Require Import base list strings option sets.
From Stdlib Require Import ZArith Lia Ascii String.
Open Scope string_scope.
Open Scope list_scope.

Definition LF : ascii := byte_of_val 10.
Definition CR : ascii := byte_of_val 13.
Definition NUL : ascii := byte_of_val 0.
Definition nl : string := String LF "".

(** ** String operations of the builders *)

(** [replace("\r\n", "\n")]. *)
Fixpoint replace_crlf (s : string) : string :=
  match s with
  | String a ((String b s') as t) =>
      if Ascii.eqb a CR && Ascii.eqb b LF then String LF (replace_crlf s')
      else String a (replace_crlf t)
  | _ => s
  end.

(** The normalisation [data] and [comment] share. *)
Definition normalize_newlines (raw : string) : string :=
  if contains_char CR raw
  then str_map (fun c => if Ascii.eqb c CR then LF else c) (replace_crlf raw)
  else raw.

(** [chars().take_while(..)] and [chars().filter(..)]. *)
Fixpoint str_take_while (f : ascii -> bool) (s : string) : string :=
  match s with
  | "" => ""
  | String a s => if f a then String a (str_take_while f s) else ""
  end.
Fixpoint str_filter (f : ascii -> bool) (s : string) : string :=
  match s with
  | "" => ""
  | String a s => if f a then String a (str_filter f s) else str_filter f s
  end.

Definition not_newline (c : ascii) : bool := negb (Ascii.eqb c LF) && negb (Ascii.eqb c CR).

(** ** [Event] *)

Record Event := mkEvent {
  e_comment : option string;
  e_id : option string;
  e_event : option string;
  e_data : option string;
  e_retry : option Z }.

Definition event_default : Event := mkEvent None None None None None.

Definition set_data (s : string) (e : Event) : Event :=
  mkEvent (e_comment e) (e_id e) (e_event e) (Some s) (e_retry e).

Definition data (raw : string) (e : Event) : Event := set_data (normalize_newlines raw) e.

Definition id (raw : string) (e : Event) : Event :=
  mkEvent (e_comment e)
    (Some (str_filter (fun c => negb (Ascii.eqb c NUL)) (str_take_while not_newline raw)))
    (e_event e) (e_data e) (e_retry e).

(** [split(['\n', '\r']).next()]: what precedes the first separator. *)
Definition event (raw : string) (e : Event) : Event :=
  mkEvent (e_comment e) (e_id e) (Some (str_take_while not_newline raw)) (e_data e) (e_retry e).

(** [duration.as_millis() as u64]: the 128-bit count truncated to 64 bits. *)
Definition retry (duration : Z) (e : Event) : Event :=
  mkEvent (e_comment e) (e_id e) (e_event e) (e_data e) (Some (wrap_u64 (duration / 1000000))).

Definition comment (raw : string) (e : Event) : Event :=
  mkEvent (Some (normalize_newlines raw)) (e_id e) (e_event e) (e_data e) (e_retry e).

(** [json_data]: [json] is what [serde_json::to_string] returned. *)
Definition json_data {E} (json : result string E) (e : Event) : result Event E :=
  (let? s := json in Ok (set_data s e))%rust.

(** *** The wire format *)

(** One [extend_from_slice] of a prefix, a line and a newline per line. *)
Fixpoint wire_lines (prefix : string) (ls : list string) : string :=
  match ls with
  | [] => ""
  | l :: ls => prefix +:+ l +:+ nl +:+ wire_lines prefix ls
  end.

Definition serialize (e : Event) : string :=
  (match e_comment e with
   | Some c => wire_lines ": " (str_split LF c)
   | None => ""
   end) +:+
  (match e_id e with Some i => "id: " +:+ i +:+ nl | None => "" end) +:+
  (match e_event e with Some t => "event: " +:+ t +:+ nl | None => "" end) +:+
  (match e_data e with
   | Some d =>
       if str_is_empty d then "data: " +:+ nl else wire_lines "data: " (str_split LF d)
   | None => ""
   end) +:+
  (match e_retry e with Some ms => "retry: " +:+ to_dec ms +:+ nl | None => "" end) +:+
  nl.

Definition lines_count (s : string) : Z := Z.of_nat (List.length (str_split LF s)).

Definition estimate_wire_len (e : Event) : Z :=
  (1
   + match e_comment e with Some c => lines_count c * 3 + str_len c | None => 0 end
   + match e_id e with Some i => 4 + str_len i + 1 | None => 0 end
   + match e_event e with Some t => 7 + str_len t + 1 | None => 0 end
   + match e_data e with
     | Some d =>
         let lines := if str_is_empty d then 1 else lines_count d in
         lines * 7 + str_len d - (lines - 1)
     | None => 0
     end
   + match e_retry e with Some _ => 7 + 20 + 1 | None => 0 end)%Z.

(** ** [KeepAlive] *)

Record KeepAlive := mkKeepAlive { ka_interval : Z; ka_comment_bytes : string }.

Definition keep_alive_default : KeepAlive := mkKeepAlive (15 * SECOND) (": " +:+ nl +:+ nl).
Definition keep_alive_interval (interval : Z) (k : KeepAlive) : KeepAlive :=
  mkKeepAlive interval (ka_comment_bytes k).
Definition keep_alive_text (text : string) (k : KeepAlive) : KeepAlive :=
  mkKeepAlive (ka_interval k) (serialize (comment text event_default)).

(** ** [SseBody] *)

(** A poll of the user's stream, after [Event] has been mapped to its bytes. *)
Inductive StreamPoll :=
| SReady (item : option (result Event BoxError))
| SPending.

(** [KeepAliveState]: the sleep is its deadline. *)
Record KeepAliveState := mkState {
  ks_deadline : Z; ks_interval : Z; ks_comment_bytes : string }.

Section SseBody.
Context `{HttpCrate}.
Variable instant_max : Z.

Inductive Polled :=
| Ready (r : option FrameResult)
| Pending.

(** [Instant + Duration]: panics when the sum is not an instant. *)
Definition instant_add (now d : Z) : option Z :=
  if (now + d <=? instant_max)%Z then Some (now + d)%Z else None.

(** [tokio::time::sleep]: a deadline past the clock's end becomes one thirty
    years away. *)
Definition FAR_FUTURE : Z := 86400 * 365 * 30 * SECOND.
Definition sleep_deadline (now d : Z) : Z := default (now + FAR_FUTURE)%Z (instant_add now d).

Definition start_keep_alive (now : Z) (k : KeepAlive) : KeepAliveState :=
  mkState (sleep_deadline now (ka_interval k)) (ka_interval k) (ka_comment_bytes k).

(** [sleep.reset(Instant::now() + interval)]; [None] is the panic. *)
Definition reset (now : Z) (ks : KeepAliveState) : option KeepAliveState :=
  d ← instant_add now (ks_interval ks);
  Some (mkState d (ks_interval ks) (ks_comment_bytes ks)).

Definition reset_opt (now : Z) (ka : option KeepAliveState) : option (option KeepAliveState) :=
  match ka with None => Some None | Some ks => Some <$> reset now ks end.

(** [poll_frame]; [None] is the panic of [reset]. *)
Definition sse_poll_frame (now : Z) (sp : StreamPoll) (ka : option KeepAliveState) :
    option (Polled * option KeepAliveState) :=
  match sp with
  | SReady (Some (Ok e)) =>
      ka' ← reset_opt now ka;
      Some (Ready (Some (Ok (DataFrame (serialize e)))), ka')
  | SReady (Some (Err err)) => Some (Ready (Some (Err err)), ka)
  | SReady None => Some (Ready None, ka)
  | SPending =>
      match ka with
      | Some ks =>
          if (ks_deadline ks <=? now)%Z then
            ks' ← reset now ks;
            Some (Ready (Some (Ok (DataFrame (ks_comment_bytes ks)))), Some ks')
          else Some (Pending, ka)
      | None => Some (Pending, None)
      end
  end.

(** The frames a sequence of polls yields, each with the instant it happens at
    and what the stream answers, until the body ends. *)
Fixpoint body_polls (polls : list (Z * StreamPoll)) (ka : option KeepAliveState) :
    option (list FrameResult) :=
  match polls with
  | [] => Some []
  | (now, sp) :: polls =>
      match sse_poll_frame now sp ka with
      | None => None
      | Some (Pending, ka') => body_polls polls ka'
      | Some (Ready None, _) => Some []
      | Some (Ready (Some f), ka') => cons f <$> body_polls polls ka'
      end
  end.

(** *** [Sse] *)

Record Sse := mkSse { sse_stream : list (Z * StreamPoll); sse_keep_alive : option KeepAlive }.

Definition sse_new (stream : list (Z * StreamPoll)) : Sse := mkSse stream None.
Definition with_keep_alive (k : KeepAlive) (s : Sse) : Sse := mkSse (sse_stream s) (Some k).

(** [into_response]: the body is what its polls yield, with the size hint
    [http_body::Body] defaults to; [None] when a poll panics. *)
Definition into_response (now : Z) (s : Sse) : option Response :=
  frames ← body_polls (sse_stream s) (start_keep_alive now <$> sse_keep_alive s);
  Some (rb_body (BBoxed frames (fun _ => mkHint 0 None))
    (rb_header_str "x-accel-buffering" "no"
      (rb_header_str CACHE_CONTROL "no-cache"
        (rb_header_str CONTENT_TYPE "text/event-stream" rb_new)))).
End SseBody.

(** ** The client: the HTML standard's event stream interpretation *)

Module EventSource.
Record SourceMessage := mkMessage { m_type : string; m_data : string; m_last_id : string }.

#[export] Instance message_eq_dec : EqDecision SourceMessage.
Proof. solve_decision. Defined.

(** The buffers of the algorithm, the source's last event id and reconnection
    time, and the messages dispatched. *)
Record Parser := mkParser {
  p_data : string; p_type : string; p_id : string;
  p_last_id : string; p_retry : option Z; p_out : list SourceMessage }.

Definition parser0 : Parser := mkParser "" "" "" "" None [].

(** The lines of a stream, ended by CRLF, LF or CR; the last is unterminated. *)
Fixpoint split_lines (s : string) : list string :=
  match s with
  | "" => [""]
  | String a s' =>
      if Ascii.eqb a LF then "" :: split_lines s'
      else if Ascii.eqb a CR then
        match s' with
        | String b s'' => if Ascii.eqb b LF then "" :: split_lines s'' else "" :: split_lines s'
        | "" => "" :: split_lines s'
        end
      else match split_lines s' with
           | w :: ws => String a w :: ws
           | [] => []
           end
  end.

Fixpoint strip_last_lf (s : string) : string :=
  match s with
  | "" => ""
  | String a "" => if Ascii.eqb a LF then "" else String a ""
  | String a s => String a (strip_last_lf s)
  end.

(** A blank line. *)
Definition dispatch_message (p : Parser) : Parser :=
  if str_is_empty (p_data p) then mkParser "" "" (p_id p) (p_id p) (p_retry p) (p_out p)
  else mkParser "" "" (p_id p) (p_id p) (p_retry p)
    (p_out p ++ [mkMessage (if str_is_empty (p_type p) then "message" else p_type p)
                   (strip_last_lf (p_data p)) (p_id p)]).

Definition process_field (field value : string) (p : Parser) : Parser :=
  if String.eqb field "event" then
    mkParser (p_data p) value (p_id p) (p_last_id p) (p_retry p) (p_out p)
  else if String.eqb field "data" then
    mkParser (p_data p +:+ value +:+ nl) (p_type p) (p_id p) (p_last_id p) (p_retry p) (p_out p)
  else if String.eqb field "id" then
    if contains_char NUL value then p
    else mkParser (p_data p) (p_type p) value (p_last_id p) (p_retry p) (p_out p)
  else if String.eqb field "retry" then
    if str_forall is_ascii_digit value then
      mkParser (p_data p) (p_type p) (p_id p) (p_last_id p)
        (match parse_u64 value with Some n => Some n | None => p_retry p end) (p_out p)
    else p
  else p.

(** A value loses one leading space. *)
Definition strip_space (v : string) : string :=
  match v with String a v' => if Ascii.eqb a " " then v' else v | "" => "" end.

Definition process_line (p : Parser) (line : string) : Parser :=
  match line with
  | "" => dispatch_message p
  | String a _ =>
      if Ascii.eqb a ":" then p
      else match split_once ":" line with
           | Some (field, value) => process_field field (strip_space value) p
           | None => process_field line "" p
           end
  end.

(** A byte order mark is dropped; an unterminated last line is. *)
Definition strip_bom (s : string) : string :=
  match str_strip_prefix
          (String (byte_of_val 239) (String (byte_of_val 187) (String (byte_of_val 191) ""))) s with
  | Some r => r
  | None => s
  end.

Definition parse (stream : string) : Parser :=
  fold_left process_line (removelast (split_lines (strip_bom stream))) parser0.
End EventSource.
Import EventSource.

(** ** What a sequence of events means to a client *)

Record Client := mkClient { c_last_id : string; c_retry : option Z; c_messages : list SourceMessage }.
Definition client0 : Client := mkClient "" None [].

(** An event sets the last id and the reconnection time it carries, and is
    dispatched when it has data. *)
Definition deliver (c : Client) (e : Event) : Client :=
  let last_id := default (c_last_id c) (e_id e) in
  mkClient last_id
    (match e_retry e with Some n => Some n | None => c_retry c end)
    (c_messages c ++
     match e_data e with
     | Some d => [mkMessage (match e_event e with Some "" | None => "message" | Some t => t end)
                    d last_id]
     | None => []
     end).

Definition client_of (p : Parser) : Client := mkClient (p_last_id p) (p_retry p) (p_out p).

(** The events a stream yields before its end or first error, and the bytes the
    peer receives before a body's first error. *)
Fixpoint yielded (polls : list (Z * StreamPoll)) : list Event :=
  match polls with
  | [] => []
  | (_, SReady (Some (Ok e))) :: polls => e :: yielded polls
  | (_, SPending) :: polls => yielded polls
  | (_, SReady _) :: _ => []
  end.

Fixpoint sent_bytes `{HttpCrate} (fs : list FrameResult) : string :=
  match fs with
  | Ok (DataFrame d) :: fs => d +:+ sent_bytes fs
  | Ok (TrailersFrame _) :: fs => sent_bytes fs
  | Err _ :: _ | [] => ""
  end.

(** ** Well-formed events: what the builders establish *)

Definition opt_forall (f : string -> bool) (o : option string) : bool :=
  match o with Some s => f s | None => true end.

Definition no_cr (s : string) : bool := negb (contains_char CR s).

Definition event_wf (e : Event) : bool :=
  opt_forall no_cr (e_comment e) &&
  opt_forall (fun s => str_forall not_newline s && negb (contains_char NUL s)) (e_id e) &&
  opt_forall (str_forall not_newline) (e_event e) &&
  opt_forall no_cr (e_data e) &&
  match e_retry e with Some n => (0 <=? n)%Z && (n <=? u64_max)%Z | None => true end.

(** The calls a user can make on an event under construction. *)
Inductive BuilderCall :=
| CallData (s : string) | CallId (s : string) | CallEvent (s : string)
| CallRetry (nanos : Z) | CallComment (s : string).

Definition builder_call (e : Event) (c : BuilderCall) : Event :=
  match c with
  | CallData s => data s e
  | CallId s => id s e
  | CallEvent s => event s e
  | CallRetry d => retry d e
  | CallComment s => comment s e
  end.

(** ** Strings of the builders and the wire *)

Lemma str_take_while_all f s : str_forall f (str_take_while f s) = true.
Proof.
  induction s as [|a s IH]; [done|]. cbn. destruct (f a) eqn:E; [|done]. cbn. by rewrite E.
Qed.

Lemma str_forall_filter f g s : str_forall f s = true -> str_forall f (str_filter g s) = true.
Proof.
  induction s as [|a s IH]; [done|]. cbn. intros H. bool_hyps.
  destruct (g a); cbn; [|by apply IH]. apply andb_true_intro. auto.
Qed.

Lemma str_filter_all g s : str_forall g (str_filter g s) = true.
Proof. induction s as [|a s IH]; [done|]. cbn. destruct (g a) eqn:E; cbn; [by rewrite E|done]. Qed.

Lemma str_forall_not_char c s :
  str_forall (fun a => negb (Ascii.eqb a c)) s = negb (contains_char c s).
Proof.
  unfold contains_char. rewrite str_forall_exists. f_equal.
  induction s as [|a s IH]; [done|]. cbn. by rewrite negb_involutive, IH, Ascii.eqb_sym.
Qed.

Lemma normalize_newlines_no_cr s : no_cr (normalize_newlines s) = true.
Proof.
  unfold no_cr, normalize_newlines. destruct (contains_char CR s) eqn:E; [|by rewrite E].
  generalize (replace_crlf s) as t. clear. intros t. unfold contains_char.
  induction t as [|a t IH]; [done|]. cbn [str_map str_exists].
  destruct (Ascii.eqb_spec a CR) as [->|Hne]; [exact IH|].
  apply Ascii.eqb_neq in Hne. by rewrite Ascii.eqb_sym, Hne.
Qed.

Lemma not_newline_free s :
  str_forall not_newline s = true -> contains_char LF s = false /\ no_cr s = true.
Proof.
  unfold no_cr. intros H. rewrite <- str_forall_not_char, <- negb_true_iff, <- str_forall_not_char.
  split; revert H; apply str_forall_impl; unfold not_newline; intros a Ha; by apply andb_prop in Ha as [? ?].
Qed.

Lemma no_cr_app s t : no_cr (s +:+ t) = no_cr s && no_cr t.
Proof. unfold no_cr. by rewrite contains_char_app, negb_orb. Qed.

Lemma digits_not_newline s : str_forall is_ascii_digit s = true -> str_forall not_newline s = true.
Proof.
  apply str_forall_impl. unfold is_ascii_digit, in_range, not_newline. intros a Ha. bool_hyps.
  apply andb_true_intro. split; apply negb_true_iff, Ascii.eqb_neq; intros ->;
    change (byte_val LF) with 10%Z in *; change (byte_val CR) with 13%Z in *; lia.
Qed.

Lemma no_cr_cons a s : no_cr (String a s) = negb (Ascii.eqb CR a) && no_cr s.
Proof. unfold no_cr. by rewrite contains_char_cons, negb_orb. Qed.

Lemma str_split_no_cr s w : no_cr s = true -> w ∈ str_split LF s -> no_cr w = true.
Proof.
  revert w; induction s as [|a s IH]; intros w.
  - intros _ ->%list_elem_of_singleton. done.
  - rewrite no_cr_cons. intros Ha. apply andb_prop in Ha as [Ha Hs].
    cbn [str_split]. destruct (Ascii.eqb a LF) eqn:Ea.
    + intros [->|Hw]%elem_of_cons; auto.
    + destruct (str_split LF s) as [|v vs] eqn:E; [by apply str_split_nonempty in E|].
      intros [->|Hw]%elem_of_cons; [|apply IH; set_solver].
      rewrite no_cr_cons, Ha. apply IH; set_solver.
Qed.

(** The wire lines of an event, without the newline that ends each. *)
Definition event_lines (e : Event) : list string :=
  match e_comment e with Some c => map (String.append ": ") (str_split LF c) | None => [] end ++
  match e_id e with Some i => ["id: " +:+ i] | None => [] end ++
  match e_event e with Some t => ["event: " +:+ t] | None => [] end ++
  match e_data e with Some d => map (String.append "data: ") (str_split LF d) | None => [] end ++
  match e_retry e with Some ms => ["retry: " +:+ to_dec ms] | None => [] end.

Lemma wire_lines_app p ls ls' : wire_lines p (ls ++ ls') = wire_lines p ls +:+ wire_lines p ls'.
Proof.
  induction ls as [|l ls IH]; [done|]. cbn [app wire_lines]. rewrite IH. by rewrite !sapp_assoc.
Qed.

Lemma wire_lines_prefix p ls : wire_lines p ls = wire_lines "" (map (String.append p) ls).
Proof.
  induction ls as [|l ls IH]; [done|]. cbn [map wire_lines]. rewrite IH. cbn [String.append].
  by rewrite !sapp_assoc.
Qed.

Lemma serialize_lines e : serialize e = wire_lines "" (event_lines e) +:+ nl.
Proof.
  unfold serialize, event_lines. rewrite !wire_lines_app.
  rewrite <- !sapp_assoc.
  f_equal; [by destruct (e_comment e); rewrite <- ?wire_lines_prefix|].
  f_equal; [by destruct (e_id e); cbn; rewrite ?sapp_nil_r|].
  f_equal; [by destruct (e_event e); cbn; rewrite ?sapp_nil_r|].
  f_equal; [by destruct (e_data e) as [[|]|]; rewrite <- ?wire_lines_prefix|].
  f_equal. by destruct (e_retry e); cbn; rewrite ?sapp_nil_r.
Qed.

(** ** The client on the wire format *)

(** A line the wire can carry as one line. *)
Definition one_line (l : string) : Prop := contains_char LF l = false /\ no_cr l = true.

Lemma one_line_app s t : one_line s -> one_line t -> one_line (s +:+ t).
Proof.
  intros [H1 H2] [H3 H4]. split; [by rewrite contains_char_app, H1, H3|by rewrite no_cr_app, H2, H4].
Qed.

Lemma one_line_not_newline s : str_forall not_newline s = true -> one_line s.
Proof. apply not_newline_free. Qed.

Lemma one_line_split s l : no_cr s = true -> l ∈ str_split LF s -> one_line l.
Proof. intros Hs Hl. split; [by eapply str_split_free|by eapply str_split_no_cr]. Qed.

Lemma one_line_map p ls :
  one_line p -> Forall one_line ls -> Forall one_line (map (String.append p) ls).
Proof. intros Hp H. induction H; cbn; constructor; auto using one_line_app. Qed.

Lemma event_lines_one_line e : event_wf e = true -> Forall one_line (event_lines e).
Proof.
  unfold event_wf, event_lines. destruct e as [c i t d r]. cbn [e_comment e_id e_event e_data e_retry].
  intros H. repeat (apply andb_prop in H as [H ?]).
  rewrite !Forall_app. repeat split.
  - destruct c as [c|]; [|constructor]. apply one_line_map; [done|].
    apply Forall_forall. intros l. by apply one_line_split.
  - destruct i as [i|]; [apply Forall_singleton|constructor].
    apply one_line_app; [done|]. cbn [opt_forall] in *. bool_hyps. by apply one_line_not_newline.
  - destruct t as [t|]; [apply Forall_singleton|constructor]. apply one_line_app; [done|by apply one_line_not_newline].
  - destruct d as [d|]; [|constructor]. apply one_line_map; [done|].
    apply Forall_forall. intros l. by apply one_line_split.
  - destruct r as [r|]; [apply Forall_singleton|constructor]. bool_hyps. apply one_line_app; [done|].
    apply one_line_not_newline, digits_not_newline. by apply to_dec_spec.
Qed.

Lemma split_lines_line l rest :
  one_line l -> split_lines (l +:+ String LF rest) = l :: split_lines rest.
Proof.
  unfold one_line. induction l as [|a l IH]; [done|].
  rewrite contains_char_cons, no_cr_cons, orb_false_iff, andb_true_iff.
  intros [[Ha Hl] [Hc Hn]]. cbn [String.append split_lines].
  apply negb_true_iff in Hc. rewrite (Ascii.eqb_sym a LF), Ha, (Ascii.eqb_sym a CR), Hc, IH; done.
Qed.

Lemma split_lines_wire ls rest :
  Forall one_line ls -> split_lines (wire_lines "" ls +:+ rest) = ls ++ split_lines rest.
Proof.
  induction 1 as [|l ls Hl Hls IH]; [done|]. cbn [wire_lines].
  change ("" +:+ ?x) with x. rewrite <- !sapp_assoc.
  change (nl +:+ ?x) with (String LF x). by rewrite split_lines_line, IH.
Qed.

Definition fold_lines (p : Parser) (ls : list string) : Parser := fold_left process_line ls p.

(** What the parser does with a well-formed event, whatever follows it. *)
Lemma lines_of_events es rest :
  Forall (fun e => event_wf e = true) es ->
  split_lines (concat_bytes (map serialize es) +:+ rest) =
  List.concat (map (fun e => event_lines e ++ [""]) es) ++ split_lines rest.
Proof.
  induction 1 as [|e es He Hes IH]; [done|]. cbn [map concat_bytes fold_right List.concat].
  fold (concat_bytes (map serialize es)). rewrite serialize_lines, <- !sapp_assoc.
  rewrite split_lines_wire by by apply event_lines_one_line.
  change (nl +:+ ?x) with (String LF x). cbn [split_lines]. rewrite (Ascii.eqb_refl LF), IH.
  by rewrite <- !app_assoc.
Qed.

(** The parser between two events. *)
Definition at_boundary (c : Client) : Parser :=
  mkParser "" "" (c_last_id c) (c_last_id c) (c_retry c) (c_messages c).

Definition add_data (s : string) (p : Parser) : Parser :=
  mkParser (p_data p +:+ s) (p_type p) (p_id p) (p_last_id p) (p_retry p) (p_out p).

Lemma process_comments p ls : fold_lines p (map (String.append ": ") ls) = p.
Proof. induction ls; [done|]. cbn. apply IHls. Qed.

Lemma process_data p ls :
  fold_lines p (map (String.append "data: ") ls) = add_data (wire_lines "" ls) p.
Proof.
  revert p; induction ls as [|l ls IH]; intros p.
  - destruct p. cbn. unfold add_data. cbn. by rewrite sapp_nil_r.
  - change (fold_lines p (map (String.append "data: ") (l :: ls)))
      with (fold_lines (add_data (l +:+ nl) p) (map (String.append "data: ") ls)).
    rewrite IH. unfold add_data. cbn [p_data p_type p_id p_last_id p_retry p_out wire_lines].
    change ("" +:+ ?x) with x. by rewrite !sapp_assoc.
Qed.

Lemma wire_lines_join ls : ls <> [] -> wire_lines "" ls = str_join nl ls +:+ nl.
Proof.
  induction ls as [|l ls IH]; intros Hne; [done|]. destruct ls as [|l' ls].
  - cbn. by destruct l.
  - rewrite str_join_cons by done. cbn [wire_lines] in *. rewrite IH by done.
    change ("" +:+ ?x) with x. by rewrite !sapp_assoc.
Qed.

Lemma wire_lines_split s : wire_lines "" (str_split LF s) = s +:+ nl.
Proof.
  rewrite wire_lines_join by apply str_split_nonempty. f_equal. apply str_join_split.
Qed.

Lemma strip_last_lf_app s : strip_last_lf (s +:+ nl) = s.
Proof.
  induction s as [|a s IH]; [done|]. cbn. destruct (s +:+ nl) eqn:E; [by destruct s|].
  by rewrite IH.
Qed.

Lemma dispatch_data s t i l r o :
  dispatch_message (mkParser (s +:+ nl) t i l r o) =
  mkParser "" "" i i r (o ++ [mkMessage (if str_is_empty t then "message" else t) s i]).
Proof.
  unfold dispatch_message. cbn [p_data p_type p_id p_last_id p_retry p_out].
  rewrite strip_last_lf_app. by destruct s.
Qed.

Lemma fold_lines_app p ls ls' : fold_lines p (ls ++ ls') = fold_lines (fold_lines p ls) ls'.
Proof. apply fold_left_app. Qed.

Lemma process_event c e :
  event_wf e = true ->
  fold_lines (at_boundary c) (event_lines e ++ [""]) = at_boundary (deliver c e).
Proof.
  unfold event_wf, event_lines. destruct e as [co i t d r], c as [l rt o].
  cbn [e_comment e_id e_event e_data e_retry]. intros H.
  repeat (apply andb_prop in H as [H ?]).
  rewrite !fold_lines_app.
  replace (fold_lines (at_boundary (mkClient l rt o)) _) with (at_boundary (mkClient l rt o))
    by (destruct co; [by rewrite process_comments|done]).
  set (p1 := mkParser "" "" (default l i) l rt o).
  replace (fold_lines (at_boundary _) _) with p1.
  2: { destruct i as [i|]; [|done]. cbn [opt_forall] in *. bool_hyps.
       cbn -[contains_char NUL]. match goal with H : contains_char NUL _ = false |- _ => by rewrite H end. }
  set (p2 := mkParser "" (default "" t) (default l i) l rt o).
  replace (fold_lines p1 _) with p2 by by destruct t.
  set (p3 := mkParser (match d with Some d => d +:+ nl | None => "" end)
               (default "" t) (default l i) l rt o).
  replace (fold_lines p2 _) with p3.
  2: { destruct d as [d|]; [|done]. by rewrite process_data, wire_lines_split. }
  set (p4 := mkParser (p_data p3) (p_type p3) (p_id p3) l
               (match r with Some n => Some n | None => rt end) o).
  replace (fold_lines p3 _) with p4.
  2: { destruct r as [r|]; [|done]. bool_hyps. cbn -[to_dec parse_u64 str_forall].
       destruct (to_dec_spec r ltac:(lia)) as (_ & -> & _). unfold parse_u64.
       by rewrite parse_unsigned_to_dec. }
  subst p1 p2 p3 p4. destruct d as [d|]; cbn [p_data p_type p_id fold_lines fold_left process_line].
  - rewrite dispatch_data. by destruct t as [[|]|].
  - cbn. unfold at_boundary, deliver. cbn. by rewrite app_nil_r.
Qed.

Lemma strip_bom_wire es rest :
  strip_bom (concat_bytes (map serialize es)) = concat_bytes (map serialize es) /\
  strip_bom (nl +:+ rest) = nl +:+ rest.
Proof.
  split; [|done]. destruct es as [|e es]; [done|]. cbn [map concat_bytes fold_right].
  rewrite serialize_lines. unfold event_lines. destruct e as [[c|] [i|] [t|] [d|] [r|]]; try done;
    cbn [e_comment e_id e_event e_data e_retry app].
  all: try (destruct (str_split LF c) as [|w ws] eqn:E; [by apply str_split_nonempty in E|done]).
  all: destruct (str_split LF d) as [|w ws] eqn:E; [by apply str_split_nonempty in E|done].
Qed.

Lemma fold_events c es :
  Forall (fun e => event_wf e = true) es ->
  fold_lines (at_boundary c) (List.concat (map (fun e => event_lines e ++ [""]) es)) =
  at_boundary (fold_left deliver es c).
Proof.
  intros Hes. revert c. induction Hes as [|e es He Hes IH]; intros c; [done|].
  cbn [map List.concat fold_left]. rewrite fold_lines_app, process_event by done. apply IH.
Qed.

(** A stream of well-formed events means to a client what the events say. *)
Lemma parse_events es :
  Forall (fun e => event_wf e = true) es ->
  client_of (parse (concat_bytes (map serialize es))) = fold_left deliver es client0.
Proof.
  intros Hes. unfold parse. rewrite (proj1 (strip_bom_wire es "")).
  rewrite <- (sapp_nil_r (concat_bytes _)), lines_of_events by done.
  cbn [split_lines]. rewrite removelast_last.
  pose proof (fold_events client0 es Hes) as H. unfold fold_lines in H.
  change (at_boundary client0) with parser0 in H. rewrite H. by destruct (fold_left deliver es client0).
Qed.

(** ** The builders *)

Lemma builder_call_wf e c : event_wf e = true -> event_wf (builder_call e c) = true.
Proof.
  unfold event_wf. destruct e as [co i t d r]. cbn [e_comment e_id e_event e_data e_retry].
  intros H. repeat (apply andb_prop in H as [H ?]).
  destruct c; cbn [builder_call data set_data id event retry comment
    e_comment e_id e_event e_data e_retry opt_forall];
  rewrite ?normalize_newlines_no_cr; repeat (apply andb_true_intro; split); try done.
  - apply str_forall_filter, str_take_while_all.
  - rewrite <- str_forall_not_char. apply str_filter_all.
  - apply str_take_while_all.
  - apply Z.leb_le. unfold wrap_u64. apply Z.mod_pos_bound. lia.
  - apply Z.leb_le. unfold wrap_u64, u64_max. pose proof (Z.mod_pos_bound (nanos / 1000000) (2 ^ 64)). lia.
Qed.

Definition build (calls : list BuilderCall) : Event := fold_left builder_call calls event_default.

Lemma build_wf calls : event_wf (build calls) = true.
Proof.
  unfold build. assert (event_wf event_default = true) as H by done. revert H.
  generalize event_default. induction calls as [|c calls IH]; intros e He; [done|].
  cbn. by apply IH, builder_call_wf.
Qed.

(** ** The keep-alive body *)

(** The frames a keep-alive sends are comment-only events. *)
Definition comment_only (bytes : string) : Prop :=
  exists t, bytes = serialize (comment t event_default).

Lemma keep_alive_comment_only t k :
  comment_only (ka_comment_bytes keep_alive_default) /\
  comment_only (ka_comment_bytes (keep_alive_text t k)).
Proof. split; [by exists ""|by exists t]. Qed.

Lemma deliver_comment c t : deliver c (comment t event_default) = c.
Proof. destruct c. unfold deliver. cbn. by rewrite app_nil_r. Qed.

Section SseBodyLemmas.
Context `{HttpCrate}.
Variable instant_max : Z.

Definition ka_comment_only (ka : option KeepAliveState) : Prop :=
  forall ks, ka = Some ks -> comment_only (ks_comment_bytes ks).

Lemma reset_opt_comment_only now ka ka' :
  reset_opt instant_max now ka = Some ka' -> ka_comment_only ka -> ka_comment_only ka'.
Proof.
  unfold reset_opt, reset, ka_comment_only. destruct ka as [ks|].
  - destruct (instant_add instant_max now (ks_interval ks)); [|done].
    cbn. intros [= <-] Hks ? [= <-]. cbn. by apply Hks.
  - by intros [= <-].
Qed.

Lemma body_polls_events polls ka frames :
  Forall (fun e => event_wf e = true) (yielded polls) -> ka_comment_only ka ->
  body_polls instant_max polls ka = Some frames ->
  exists es, sent_bytes frames = concat_bytes (map serialize es) /\
    Forall (fun e => event_wf e = true) es /\
    forall c, fold_left deliver es c = fold_left deliver (yielded polls) c.
Proof.
  revert ka frames; induction polls as [|[now sp] polls IH]; intros ka frames Hwf Hka.
  { intros [= <-]. by exists []. }
  cbn [body_polls sse_poll_frame]. destruct sp as [[[e|err]|]|]; cbn [sse_poll_frame yielded] in *.
  - destruct (reset_opt instant_max now ka) as [ka'|] eqn:Er; [|done]. cbn.
    apply Forall_cons in Hwf as [He Hwf].
    intros (fs & Hp & ->)%fmap_Some.
    edestruct IH as (es & Hs & Hes & Hd); [done|by eapply reset_opt_comment_only|done|].
    exists (e :: es). cbn. rewrite Hs. auto using Forall_cons_2.
  - intros (fs & Hp & ->)%fmap_Some. by exists [].
  - intros [= <-]. by exists [].
  - destruct ka as [ks|]; [|by apply IH].
    destruct (ks_deadline ks <=? now)%Z; [|by apply IH].
    destruct (reset_opt instant_max now (Some ks)) as [[ks'|]|] eqn:Er; cbn in Er;
      destruct (reset instant_max now ks) eqn:Er'; try done.
    injection Er as ->. cbn. intros (fs & Hp & ->)%fmap_Some.
    destruct (Hka ks eq_refl) as [t Ht].
    edestruct IH as (es & Hs & Hes & Hd); [done| |done|].
    { eapply reset_opt_comment_only; [|exact Hka]. cbn. by rewrite Er'. }
    exists (comment t event_default :: es). cbn [map concat_bytes fold_right sent_bytes].
    rewrite Hs, Ht. split; [done|]. split.
    + constructor; [|done]. by apply (builder_call_wf _ (CallComment t)).
    + intros c. cbn [fold_left]. by rewrite deliver_comment.
Qed.
End SseBodyLemmas.

(** *** Timing and totality of the polls *)

Section SseTiming.
Context `{HL : HttpLaws}.
Variable instant_max : Z.

(** The clock never runs past its end while a keep-alive is armed. *)
Definition clock_fits (polls : list (Z * StreamPoll)) (interval : Z) : Prop :=
  Forall (fun p => fst p + interval <= instant_max)%Z polls.

Lemma reset_some now ks :
  (now + ks_interval ks <= instant_max)%Z ->
  reset instant_max now ks =
    Some (mkState (now + ks_interval ks) (ks_interval ks) (ks_comment_bytes ks)).
Proof. intros Hn. unfold reset, instant_add. by rewrite (proj2 (Z.leb_le _ _) Hn). Qed.

(** A poll that has a frame to send panics exactly when the re-armed deadline is
    past the clock's end: [interval(Duration::MAX)] panics at the first event,
    although the sleep it started was accepted. *)
Lemma poll_event_panics now e ks :
  sse_poll_frame instant_max now (SReady (Some (Ok e))) (Some ks) = None <->
  (instant_max < now + ks_interval ks)%Z.
Proof.
  cbn. unfold reset, instant_add. destruct (Z.leb_spec (now + ks_interval ks) instant_max); cbn.
  - split; [done|lia].
  - done.
Qed.

(** Between two frames the keep-alive waits its whole interval: a pending
    stream gets a comment exactly when the interval has passed since the last
    frame, event or comment. *)
Lemma keep_alive_spacing now sp ks f ks' :
  sse_poll_frame instant_max now sp (Some ks) = Some (Ready (Some (Ok f)), Some ks') ->
  forall now', (now' + ks_interval ks <= instant_max)%Z ->
  sse_poll_frame instant_max now' SPending (Some ks') =
    if (now + ks_interval ks <=? now')%Z
    then Some (Ready (Some (Ok (DataFrame (ks_comment_bytes ks)))),
               Some (mkState (now' + ks_interval ks) (ks_interval ks) (ks_comment_bytes ks)))
    else Some (Pending, Some ks').
Proof.
  intros Hp now' Hfit.
  assert (reset instant_max now ks = Some ks') as Hr.
  { revert Hp. unfold sse_poll_frame, reset_opt. destruct sp as [[[e|err]|]|]; try done.
    - destruct (reset instant_max now ks); [|done]. cbn. congruence.
    - destruct (ks_deadline ks <=? now)%Z; [|done].
      destruct (reset instant_max now ks); [|done]. cbn. congruence. }
  unfold reset, instant_add in Hr. destruct (Z.leb_spec (now + ks_interval ks) instant_max); [|done].
  injection Hr as <-. cbn [sse_poll_frame ks_deadline ks_interval ks_comment_bytes].
  destruct (now + ks_interval ks <=? now')%Z; [|done].
  by rewrite reset_some.
Qed.

Lemma body_polls_total polls ka :
  (forall ks, ka = Some ks -> clock_fits polls (ks_interval ks)) ->
  is_Some (body_polls instant_max polls ka).
Proof.
  revert ka; induction polls as [|[now sp] polls IH]; intros ka Hfit; [by eexists|].
  assert (forall ks, ka = Some ks -> (now + ks_interval ks <= instant_max)%Z /\
    clock_fits polls (ks_interval ks)) as Hcons.
  { intros ks Hk. specialize (Hfit ks Hk). by apply Forall_cons in Hfit. }
  assert (forall ks ks', ka = Some ks -> ks_interval ks' = ks_interval ks ->
    is_Some (body_polls instant_max polls (Some ks'))) as Harmed.
  { intros ks ks' Hk Hi. apply IH. intros ? [= <-]. rewrite Hi. by apply Hcons. }
  assert (is_Some (body_polls instant_max polls ka)) as Hsame.
  { apply IH. intros ks Hk. by apply Hcons. }
  cbn [body_polls sse_poll_frame]. unfold reset_opt.
  destruct sp as [[[e|err]|]|]; cbn; [| by apply fmap_is_Some|by eexists|].
  - destruct ka as [ks|]; cbn; [|by apply fmap_is_Some].
    rewrite reset_some by by apply Hcons. cbn. apply fmap_is_Some. by eapply Harmed.
  - destruct ka as [ks|]; [|done]. destruct (_ <=? _)%Z; [|done].
    rewrite reset_some by by apply Hcons. cbn. apply fmap_is_Some. by eapply Harmed.
Qed.

Lemma sse_headers body :
  let h := res_headers (rb_body body
    (rb_header_str "x-accel-buffering" "no"
      (rb_header_str CACHE_CONTROL "no-cache"
        (rb_header_str CONTENT_TYPE "text/event-stream" rb_new)))) in
  hm_get_all h CONTENT_TYPE = ["text/event-stream"] /\
  hm_get_all h CACHE_CONTROL = ["no-cache"] /\
  hm_get_all h "x-accel-buffering" = ["no"].
Proof.
  unfold rb_header_str. rewrite !hv_from_str_visible by done. cbn.
  unfold CONTENT_TYPE, CACHE_CONTROL. repeat split; by headers.
Qed.
End SseTiming.

(** *** The estimated length *)

Lemma length_digits_aux fuel n acc k :
  (1 <= k)%Z -> (0 <= n < 10 ^ k)%Z -> (str_len (digits_aux 10 fuel n acc) <= k + str_len acc)%Z.
Proof.
  revert n acc k; induction fuel as [|fuel IH]; intros n acc k Hk Hn; [cbn; lia|].
  cbn [digits_aux]. assert (forall c s, str_len (String c s) = 1 + str_len s)%Z as Hcons.
  { intros. unfold str_len. cbn. lia. }
  destruct (Z.eqb_spec (n / 10) 0); [rewrite Hcons; lia|].
  destruct (Z.eq_dec k 1) as [->|].
  { rewrite Z.div_small in * by lia. lia. }
  replace k with (1 + (k - 1))%Z in Hn by lia. rewrite Z.pow_add_r in Hn by lia.
  etransitivity; [apply (IH _ _ (k - 1)%Z)|rewrite Hcons; lia]; [lia|].
  split; [apply Z.div_pos; lia|apply Z.div_lt_upper_bound; lia].
Qed.

Lemma to_dec_u64_len n : in_u64 n -> (str_len (to_dec n) <= 20)%Z.
Proof.
  intros Hn. unfold to_dec. etransitivity; [apply (length_digits_aux _ _ _ 20)|by vm_compute]; [lia|].
  unfold in_u64, u64_max in Hn. lia.
Qed.

Lemma wire_lines_len p ls :
  str_len (wire_lines p ls) =
  (Z.of_nat (List.length ls) * str_len p + str_len (wire_lines "" ls))%Z.
Proof.
  induction ls as [|l ls IH]; [cbn; lia|]. cbn [wire_lines List.length].
  rewrite !str_len_app, IH. change (str_len "") with 0%Z. lia.
Qed.

Lemma wire_lines_split_len p s :
  str_len (wire_lines p (str_split LF s)) = (lines_count s * str_len p + str_len s + 1)%Z.
Proof.
  rewrite wire_lines_len, wire_lines_split, str_len_app. unfold lines_count.
  change (str_len nl) with 1%Z. lia.
Qed.

Lemma lines_count_pos s : (1 <= lines_count s)%Z.
Proof.
  unfold lines_count. pose proof (str_split_nonempty LF s). destruct (str_split LF s); [done|cbn; lia].
Qed.

(** The buffer reserved for an event is never outgrown: the estimate is an upper
    bound of the wire length, off by the newlines between comment lines and by
    the digits the retry interval leaves unused. *)
Lemma estimate_wire_len_bound e :
  event_wf e = true ->
  (str_len (serialize e) <= estimate_wire_len e)%Z /\
  (e_comment e = None -> e_retry e = None -> str_len (serialize e) = estimate_wire_len e).
Proof.
  unfold event_wf. intros H. apply andb_prop in H as [_ Hr].
  unfold serialize, estimate_wire_len. destruct e as [c i t d r].
  cbn [e_comment e_id e_event e_data e_retry] in *. rewrite !str_len_app.
  set (lc := str_len (match c with Some _ => _ | None => _ end)).
  set (ec := match c with Some c => (lines_count c * 3 + str_len c)%Z | None => 0%Z end).
  assert (lc <= ec /\ (c = None -> lc = ec))%Z as [Hc Hc'].
  { subst lc ec. destruct c as [c|]; [|done]. rewrite wire_lines_split_len.
    change (str_len ": ") with 2%Z. pose proof (lines_count_pos c). split; [lia|done]. }
  set (li := str_len (match i with Some _ => _ | None => _ end)).
  assert (li = match i with Some i => 4 + str_len i + 1 | None => 0 end)%Z as ->.
  { subst li. destruct i; [|done]. rewrite !str_len_app.
    change (str_len "id: ") with 4%Z. change (str_len nl) with 1%Z. lia. }
  set (lt := str_len (match t with Some _ => _ | None => _ end)).
  assert (lt = match t with Some t => 7 + str_len t + 1 | None => 0 end)%Z as ->.
  { subst lt. destruct t; [|done]. rewrite !str_len_app.
    change (str_len "event: ") with 7%Z. change (str_len nl) with 1%Z. lia. }
  set (ld := str_len (match d with Some _ => _ | None => _ end)).
  set (ed := match d with Some _ => _ | None => 0%Z end).
  assert (ld = ed) as ->.
  { subst ld ed. destruct d as [d|]; [|done]. destruct (str_is_empty d) eqn:E.
    - apply str_is_empty_spec in E as ->. done.
    - rewrite wire_lines_split_len. change (str_len "data: ") with 6%Z. lia. }
  set (lr := str_len (match r with Some _ => _ | None => _ end)).
  assert (lr <= match r with Some _ => 28 | None => 0 end /\ (r = None -> lr = 0))%Z as [Hr1 Hr2].
  { subst lr. destruct r as [r|]; [|done]. bool_hyps. rewrite !str_len_app.
    change (str_len "retry: ") with 7%Z. change (str_len nl) with 1%Z.
    pose proof (to_dec_u64_len r ltac:(unfold in_u64; lia)). split; [lia|done]. }
  change (str_len nl) with 1%Z. split; [destruct r; lia|].
  intros -> ->. specialize (Hc' eq_refl). specialize (Hr2 eq_refl). lia.
Qed.

(** ** Properties *)

(** C9. Whatever the arguments given to the builder, the bytes of a sequence of
    events mean to a client exactly those events: the parser of the HTML
    standard, run on the concatenation of the serialised events, ends with the
    messages the events describe (type, data with its line breaks normalised,
    last event id), in order, with the last id and the reconnection time of the
    last events that carry one, and nothing else is dispatched. *)
Theorem event_stream_roundtrip (calls : list (list BuilderCall)) :
  client_of (parse (concat_bytes (map serialize (map build calls)))) =
  fold_left deliver (map build calls) client0.
Proof.
  apply parse_events. apply Forall_forall. intros e (cs & -> & _)%list_elem_of_fmap.
  apply build_wf.
Qed.

(** What the calls say, on an example with every kind of hostile argument. *)
Example event_stream_example :
  fold_left deliver (map build
    [[CallId ("1" +:+ nl +:+ nl +:+ "data: x"); CallData ("a" +:+ String CR nl +:+ " b");
      CallEvent ("t" +:+ nl +:+ "id: 9"); CallRetry (5 * SECOND)];
     [CallComment ("ping" +:+ nl +:+ "data: no")]; [CallData ""]]) client0 =
  mkClient "1" (Some 5000%Z)
    [mkMessage "t" ("a" +:+ nl +:+ " b") "1"; mkMessage "message" "" "1"].
Proof. reflexivity. Qed.

(** The calls that configure a keep-alive. *)
Definition build_keep_alive (interval : option Z) (text : option string) : KeepAlive :=
  let k := match interval with
           | Some i => keep_alive_interval i keep_alive_default | None => keep_alive_default end in
  match text with Some t => keep_alive_text t k | None => k end.

Lemma build_keep_alive_comment_only interval text :
  comment_only (ka_comment_bytes (build_keep_alive interval text)).
Proof.
  destruct text as [t|]; [by exists t|]. exists "". by destruct interval.
Qed.

Section SseProperties.
Context `{HL : HttpLaws}.

(** What a client makes of the body, without its response. *)
Lemma keep_alive_body instant_max now polls interval text :
  Forall (fun e => event_wf e = true) (yielded polls) ->
  let k := build_keep_alive interval text in
  clock_fits instant_max polls (ka_interval k) ->
  exists frames, body_polls instant_max polls (start_keep_alive instant_max now <$> Some k) = Some frames /\
    client_of (parse (sent_bytes frames)) = fold_left deliver (yielded polls) client0.
Proof.
  intros Hwf k Hfit. set (ka := start_keep_alive instant_max now <$> Some k).
  assert (ka_comment_only ka) as Hka by (intros ks [= <-]; apply build_keep_alive_comment_only).
  destruct (body_polls_total instant_max polls ka) as [frames Hp]; [by intros ks [= <-]|].
  destruct (body_polls_events instant_max polls ka frames Hwf Hka Hp) as (es & Hs & Hes & Hd).
  exists frames. split; [exact Hp|]. rewrite Hs, parse_events by done. apply Hd.
Qed.

(** C24. A keep-alive is invisible to the client and keeps the response going:
    whatever its interval and its text, as long as the clock does not overflow,
    the response to a stream of well-formed events is the event stream response
    with its three headers, no poll panics, and the bytes of its body (up to the
    stream's end or first error) mean to a client exactly the events the stream
    yielded, however many comment frames the timer inserted between them. *)
Theorem keep_alive_transparent instant_max now polls interval text :
  Forall (fun e => event_wf e = true) (yielded polls) ->
  let k := build_keep_alive interval text in
  clock_fits instant_max polls (ka_interval k) ->
  exists r, into_response instant_max now (with_keep_alive k (sse_new polls)) = Some r /\
    res_status r = 200%Z /\
    hm_get_all (res_headers r) CONTENT_TYPE = ["text/event-stream"] /\
    hm_get_all (res_headers r) CACHE_CONTROL = ["no-cache"] /\
    hm_get_all (res_headers r) "x-accel-buffering" = ["no"] /\
    client_of (parse (sent_bytes (body_frames (res_body r)))) =
      fold_left deliver (yielded polls) client0.
Proof.
  cbn zeta. intros Hwf Hfit. unfold into_response. cbn [sse_stream sse_keep_alive with_keep_alive sse_new].
  destruct (keep_alive_body instant_max now polls interval text Hwf Hfit) as (frames & -> & Hc).
  eexists. split; [reflexivity|].
  destruct (sse_headers (BBoxed frames (fun _ => mkHint 0 None))) as (H1 & H2 & H3).
  split. { unfold rb_header_str. by rewrite !hv_from_str_visible. }
  split; [exact H1|]. split; [exact H2|]. split; [exact H3|].
  unfold rb_header_str. by rewrite !hv_from_str_visible by done.
Qed.
End SseProperties.

(** Two events with a comment between them. *)
Lemma keep_alive_transparent_witness :
  exists r, into_response (H := ListHttp) (100 * SECOND) 0
    (with_keep_alive (build_keep_alive (Some (10 * SECOND)%Z) (Some "ping")) (sse_new
      [(1 * SECOND, SReady (Some (Ok (data "a" event_default))));
       (5 * SECOND, SPending); (12 * SECOND, SPending);
       (13 * SECOND, SReady (Some (Ok (data "b" event_default)))); (14 * SECOND, SReady None)]%Z))
    = Some r /\
  c_messages (client_of (parse (sent_bytes (H := ListHttp)
    (body_frames (H := ListHttp) (res_body r))))) =
    [mkMessage "message" "a" ""; mkMessage "message" "b" ""].
Proof.
  edestruct (keep_alive_transparent (HL := ListHttpLaws) (100 * SECOND) 0
    [(1 * SECOND, SReady (Some (Ok (data "a" event_default))));
     (5 * SECOND, SPending); (12 * SECOND, SPending);
     (13 * SECOND, SReady (Some (Ok (data "b" event_default)))); (14 * SECOND, SReady None)]%Z
    (Some (10 * SECOND)%Z) (Some "ping")) as (r & Hr & _ & _ & _ & _ & Hc).
  - repeat constructor.
  - repeat constructor; vm_compute; discriminate.
  - exists r. split; [exact Hr|]. rewrite Hc. reflexivity.
Defined.
