(* ===== verification/ServerConfig.v ===== *)
(** * Server and runtime tuning

    [arvik-hyper/src/config.rs], [runtime.rs] and the configuration half of
    [graceful.rs]: the [ServerConfig] record, its builder methods and presets,
    what it hands to hyper's connection builder, and the same for the tokio
    runtime.  Durations are nanoseconds. *)
From S2P Require Import Prelude.
From stdpp Require Import base list strings sets.
From Stdlib Require Import ZArith Lia String.
Open Scope string_scope.
Open Scope list_scope.
Open Scope Z_scope.
Open Scope rust_scope.

Record ServerConfig := mkServerConfig {
  max_connections : option Z;
  tcp_nodelay : option bool;
  tcp_keepalive : option Z;
  tcp_keepalive_interval : option Z;
  tcp_keepalive_retries : option Z;
  reuse_port : bool;
  reuse_address : bool;
  backlog : option Z;
  socket_recv_buffer_size : option Z;
  socket_send_buffer_size : option Z;
  accept_workers : Z;
  http1_keep_alive : bool;
  http1_half_close : bool;
  http1_title_case_headers : bool;
  http1_preserve_header_case : bool;
  http1_pipeline_flush : bool;
  http1_header_read_timeout : option Z;
  http1_max_buf_size : option Z;
  handshake_timeout : option Z;
  http2_only : bool;
  http2_adaptive_window : bool;
  http2_initial_stream_window_size : option Z;
  http2_initial_connection_window_size : option Z;
  http2_max_concurrent_streams : option Z;
  http2_keep_alive_interval : option Z;
  http2_keep_alive_timeout : Z;
  http2_max_frame_size : option Z;
  http2_max_send_buf_size : option Z;
  http2_max_header_list_size : option Z }.

#[export] Instance rebuild_server_config : Rebuild ServerConfig := fun c =>
  mkServerConfig (max_connections c) (tcp_nodelay c) (tcp_keepalive c) (tcp_keepalive_interval c)
    (tcp_keepalive_retries c) (reuse_port c) (reuse_address c) (backlog c)
    (socket_recv_buffer_size c) (socket_send_buffer_size c) (accept_workers c)
    (http1_keep_alive c) (http1_half_close c) (http1_title_case_headers c)
    (http1_preserve_header_case c) (http1_pipeline_flush c) (http1_header_read_timeout c)
    (http1_max_buf_size c) (handshake_timeout c) (http2_only c) (http2_adaptive_window c)
    (http2_initial_stream_window_size c) (http2_initial_connection_window_size c)
    (http2_max_concurrent_streams c) (http2_keep_alive_interval c) (http2_keep_alive_timeout c)
    (http2_max_frame_size c) (http2_max_send_buf_size c) (http2_max_header_list_size c).

Definition server_config_default : ServerConfig := {|
  max_connections := None;
  tcp_nodelay := Some true;
  tcp_keepalive := None;
  tcp_keepalive_interval := None;
  tcp_keepalive_retries := None;
  reuse_port := false;
  reuse_address := false;
  backlog := None;
  socket_recv_buffer_size := None;
  socket_send_buffer_size := None;
  accept_workers := 1;
  http1_keep_alive := true;
  http1_half_close := false;
  http1_title_case_headers := false;
  http1_preserve_header_case := false;
  http1_pipeline_flush := false;
  http1_header_read_timeout := None;
  http1_max_buf_size := None;
  handshake_timeout := Some (10 * SECOND);
  http2_only := false;
  http2_adaptive_window := true;
  http2_initial_stream_window_size := None;
  http2_initial_connection_window_size := None;
  http2_max_concurrent_streams := Some 1000;
  http2_keep_alive_interval := Some (20 * SECOND);
  http2_keep_alive_timeout := 10 * SECOND;
  http2_max_frame_size := None;
  http2_max_send_buf_size := None;
  http2_max_header_list_size := Some (64 * 1024) |}.

(** ** Builder methods *)

Implicit Types c : ServerConfig.

Definition set_max_connections (m : Z) c := c <| max_connections := Some m |>.
Definition unlimited_connections c := c <| max_connections := None |>.
Definition set_tcp_nodelay (e : bool) c := c <| tcp_nodelay := Some e |>.
Definition set_tcp_keepalive (d : Z) c := c <| tcp_keepalive := Some d |>.
Definition set_tcp_keepalive_interval (d : Z) c := c <| tcp_keepalive_interval := Some d |>.
Definition set_tcp_keepalive_retries (n : Z) c := c <| tcp_keepalive_retries := Some n |>.
Definition set_reuse_port (e : bool) c := c <| reuse_port := e |>.
Definition set_reuse_address (e : bool) c := c <| reuse_address := e |>.
Definition set_backlog (n : Z) c := c <| backlog := Some n |>.
Definition set_socket_recv_buffer_size (n : Z) c := c <| socket_recv_buffer_size := Some n |>.
Definition set_socket_send_buffer_size (n : Z) c := c <| socket_send_buffer_size := Some n |>.
Definition set_accept_workers (n : Z) c := c <| accept_workers := Z.max n 1 |>.
(** [available_parallelism]: the operating system's count, or an error. *)
Definition accept_workers_per_cpu (parallelism : option Z) c :=
  set_accept_workers (default 1 parallelism) c.
Definition set_http1_keep_alive (e : bool) c := c <| http1_keep_alive := e |>.
Definition http1_keepalive (e : bool) c := set_http1_keep_alive e c.
Definition set_http1_half_close (e : bool) c := c <| http1_half_close := e |>.
Definition set_http1_title_case_headers (e : bool) c := c <| http1_title_case_headers := e |>.
Definition set_http1_preserve_header_case (e : bool) c := c <| http1_preserve_header_case := e |>.
Definition set_http1_pipeline_flush (e : bool) c := c <| http1_pipeline_flush := e |>.
Definition set_http1_header_read_timeout (t : option Z) c := c <| http1_header_read_timeout := t |>.
Definition set_http1_max_buf_size (n : Z) c := c <| http1_max_buf_size := Some n |>.
Definition set_handshake_timeout (t : option Z) c := c <| handshake_timeout := t |>.
Definition set_http2_only (e : bool) c := c <| http2_only := e |>.
Definition set_http2_adaptive_window (e : bool) c := c <| http2_adaptive_window := e |>.
Definition set_http2_initial_stream_window_size (n : Z) c :=
  c <| http2_initial_stream_window_size := Some n |>.
Definition set_http2_initial_connection_window_size (n : Z) c :=
  c <| http2_initial_connection_window_size := Some n |>.
Definition set_http2_max_concurrent_streams (n : Z) c :=
  c <| http2_max_concurrent_streams := Some n |>.
Definition http2_unlimited_concurrent_streams c := c <| http2_max_concurrent_streams := None |>.
Definition set_http2_keep_alive_interval (d : Z) c := c <| http2_keep_alive_interval := Some d |>.
Definition http2_disable_keep_alive c := c <| http2_keep_alive_interval := None |>.
Definition set_http2_keep_alive_timeout (d : Z) c := c <| http2_keep_alive_timeout := d |>.
Definition set_http2_max_frame_size (n : Z) c := c <| http2_max_frame_size := Some n |>.
Definition set_http2_max_send_buf_size (n : Z) c := c <| http2_max_send_buf_size := Some n |>.
Definition set_http2_max_header_list_size (n : Z) c := c <| http2_max_header_list_size := Some n |>.

(** ** Presets *)

Definition http2_low_latency : ServerConfig :=
  set_tcp_nodelay true (set_http2_keep_alive_timeout (5 * SECOND)
    (set_http2_keep_alive_interval (15 * SECOND) (set_http2_max_send_buf_size (256 * 1024)
      (set_http2_max_concurrent_streams 256
        (set_http2_adaptive_window true server_config_default))))).

Definition http2_high_throughput : ServerConfig :=
  set_tcp_nodelay true (set_http2_keep_alive_timeout (10 * SECOND)
    (set_http2_keep_alive_interval (20 * SECOND) (set_http2_max_send_buf_size 1048576
      (set_http2_initial_connection_window_size 8388608
        (set_http2_initial_stream_window_size 1048576
          (set_http2_max_concurrent_streams 2000
            (set_http2_adaptive_window true server_config_default))))))).

Definition needs_tuned_listener c : bool :=
  (reuse_port c || reuse_address c || bool_decide (is_Some (backlog c))
   || bool_decide (is_Some (socket_recv_buffer_size c))
   || bool_decide (is_Some (socket_send_buffer_size c)) || (1 <? accept_workers c))%bool.

(** ** The connection builder

    The calls made on hyper's [auto::Builder], in order; the timers, which carry
    no setting, are left out. *)

Inductive HyperCall :=
| H1KeepAlive (e : bool) | H1HalfClose (e : bool) | H1TitleCaseHeaders (e : bool)
| H1PreserveHeaderCase (e : bool) | H1PipelineFlush (e : bool)
| H1HeaderReadTimeout (d : Z) | H1MaxBufSize (n : Z)
| H2AdaptiveWindow (e : bool) | H2InitialStreamWindowSize (n : option Z)
| H2InitialConnectionWindowSize (n : option Z) | H2MaxConcurrentStreams (n : option Z)
| H2KeepAliveInterval (d : option Z) | H2KeepAliveTimeout (d : Z)
| H2MaxFrameSize (n : option Z) | H2MaxSendBufSize (n : Z) | H2MaxHeaderListSize (n : Z)
| Http2Only.

Definition when_some {A B} (f : A -> B) (o : option A) : list B :=
  match o with Some a => [f a] | None => [] end.

Definition auto_builder c : list HyperCall :=
  [H1KeepAlive (http1_keep_alive c); H1HalfClose (http1_half_close c);
   H1TitleCaseHeaders (http1_title_case_headers c);
   H1PreserveHeaderCase (http1_preserve_header_case c);
   H1PipelineFlush (http1_pipeline_flush c)] ++
  when_some H1HeaderReadTimeout (http1_header_read_timeout c) ++
  when_some H1MaxBufSize (http1_max_buf_size c) ++
  [H2AdaptiveWindow (http2_adaptive_window c);
   H2InitialStreamWindowSize (http2_initial_stream_window_size c);
   H2InitialConnectionWindowSize (http2_initial_connection_window_size c);
   H2MaxConcurrentStreams (http2_max_concurrent_streams c);
   H2KeepAliveInterval (http2_keep_alive_interval c);
   H2KeepAliveTimeout (http2_keep_alive_timeout c);
   H2MaxFrameSize (http2_max_frame_size c)] ++
  when_some H2MaxSendBufSize (http2_max_send_buf_size c) ++
  when_some H2MaxHeaderListSize (http2_max_header_list_size c) ++
  (if http2_only c then [Http2Only] else []).

(** ** [ShutdownConfig]

    Whether the hooks are set; their calls are recorded by the server's model. *)
Record ShutdownConfig := mkShutdownConfig {
  drain_timeout : Z;
  has_on_connected : bool;
  has_on_disconnected : bool }.

Definition shutdown_config_default : ShutdownConfig := mkShutdownConfig (30 * SECOND) false false.
Definition set_drain_timeout (d : Z) (s : ShutdownConfig) : ShutdownConfig :=
  mkShutdownConfig d (has_on_connected s) (has_on_disconnected s).
Definition on_connected (s : ShutdownConfig) : ShutdownConfig :=
  mkShutdownConfig (drain_timeout s) true (has_on_disconnected s).
Definition on_disconnected (s : ShutdownConfig) : ShutdownConfig :=
  mkShutdownConfig (drain_timeout s) (has_on_connected s) true.

(** ** [RuntimeConfig] *)

Record RuntimeConfig := mkRuntimeConfig {
  worker_threads : option Z;
  max_blocking_threads : option Z;
  thread_name : option string;
  event_interval : option Z;
  global_queue_interval : option Z;
  max_io_events_per_tick : option Z }.

#[export] Instance rebuild_runtime_config : Rebuild RuntimeConfig := fun r =>
  mkRuntimeConfig (worker_threads r) (max_blocking_threads r) (thread_name r)
    (event_interval r) (global_queue_interval r) (max_io_events_per_tick r).

Definition runtime_config_default : RuntimeConfig := mkRuntimeConfig None None None None None None.

Implicit Types r : RuntimeConfig.
Definition set_worker_threads (n : Z) r := r <| worker_threads := Some (Z.max n 1) |>.
Definition set_max_blocking_threads (n : Z) r := r <| max_blocking_threads := Some (Z.max n 1) |>.
Definition set_thread_name (n : string) r := r <| thread_name := Some n |>.
Definition set_event_interval (n : Z) r := r <| event_interval := Some (Z.max n 1) |>.
Definition set_global_queue_interval (n : Z) r := r <| global_queue_interval := Some (Z.max n 1) |>.
Definition set_max_io_events_per_tick (n : Z) r :=
  r <| max_io_events_per_tick := Some (Z.max n 1) |>.

(** The calls [build] makes on tokio's runtime builder after [enable_all]. *)
Inductive TokioCall :=
| WorkerThreads (n : Z) | MaxBlockingThreads (n : Z) | ThreadName (n : string)
| EventInterval (n : Z) | GlobalQueueInterval (n : Z) | MaxIoEventsPerTick (n : Z).

Definition runtime_build r : list TokioCall :=
  when_some WorkerThreads (worker_threads r) ++
  when_some MaxBlockingThreads (max_blocking_threads r) ++
  when_some ThreadName (thread_name r) ++
  when_some EventInterval (event_interval r) ++
  when_some GlobalQueueInterval (global_queue_interval r) ++
  when_some MaxIoEventsPerTick (max_io_events_per_tick r).

(** ** The configurations the builders reach *)

Inductive ServerBuilder : (ServerConfig -> ServerConfig) -> Prop :=
| SbMaxConnections n : ServerBuilder (set_max_connections n)
| SbUnlimitedConnections : ServerBuilder unlimited_connections
| SbTcpNodelay e : ServerBuilder (set_tcp_nodelay e)
| SbTcpKeepalive d : ServerBuilder (set_tcp_keepalive d)
| SbTcpKeepaliveInterval d : ServerBuilder (set_tcp_keepalive_interval d)
| SbTcpKeepaliveRetries n : ServerBuilder (set_tcp_keepalive_retries n)
| SbReusePort e : ServerBuilder (set_reuse_port e)
| SbReuseAddress e : ServerBuilder (set_reuse_address e)
| SbBacklog n : ServerBuilder (set_backlog n)
| SbRecvBuffer n : ServerBuilder (set_socket_recv_buffer_size n)
| SbSendBuffer n : ServerBuilder (set_socket_send_buffer_size n)
| SbAcceptWorkers n : ServerBuilder (set_accept_workers n)
| SbAcceptWorkersPerCpu p : ServerBuilder (accept_workers_per_cpu p)
| SbHttp1KeepAlive e : ServerBuilder (set_http1_keep_alive e)
| SbHttp1Keepalive e : ServerBuilder (http1_keepalive e)
| SbHttp1HalfClose e : ServerBuilder (set_http1_half_close e)
| SbHttp1TitleCase e : ServerBuilder (set_http1_title_case_headers e)
| SbHttp1PreserveCase e : ServerBuilder (set_http1_preserve_header_case e)
| SbHttp1PipelineFlush e : ServerBuilder (set_http1_pipeline_flush e)
| SbHttp1HeaderReadTimeout t : ServerBuilder (set_http1_header_read_timeout t)
| SbHttp1MaxBufSize n : ServerBuilder (set_http1_max_buf_size n)
| SbHandshakeTimeout t : ServerBuilder (set_handshake_timeout t)
| SbHttp2Only e : ServerBuilder (set_http2_only e)
| SbHttp2AdaptiveWindow e : ServerBuilder (set_http2_adaptive_window e)
| SbHttp2StreamWindow n : ServerBuilder (set_http2_initial_stream_window_size n)
| SbHttp2ConnectionWindow n : ServerBuilder (set_http2_initial_connection_window_size n)
| SbHttp2MaxStreams n : ServerBuilder (set_http2_max_concurrent_streams n)
| SbHttp2UnlimitedStreams : ServerBuilder http2_unlimited_concurrent_streams
| SbHttp2KeepAliveInterval d : ServerBuilder (set_http2_keep_alive_interval d)
| SbHttp2DisableKeepAlive : ServerBuilder http2_disable_keep_alive
| SbHttp2KeepAliveTimeout d : ServerBuilder (set_http2_keep_alive_timeout d)
| SbHttp2MaxFrameSize n : ServerBuilder (set_http2_max_frame_size n)
| SbHttp2MaxSendBufSize n : ServerBuilder (set_http2_max_send_buf_size n)
| SbHttp2MaxHeaderListSize n : ServerBuilder (set_http2_max_header_list_size n).

(** The fields are private: a [ServerConfig] is a default or a preset changed by
    builder methods. *)
Inductive Built : ServerConfig -> Prop :=
| built_default : Built server_config_default
| built_step f c : ServerBuilder f -> Built c -> Built (f c).

Lemma built_accept_workers c : Built c -> 1 <= accept_workers c.
Proof.
  induction 1 as [|f c Hf Hc IH]; [done|]. destruct Hf; cbn; lia.
Qed.

Lemma presets_built : Built http2_low_latency /\ Built http2_high_throughput.
Proof. split; repeat (apply built_step; [constructor|]); constructor. Qed.

(** Hyper is told to speak HTTP/2 only exactly when the setting asks for it. *)
Lemma auto_builder_http2_only e c :
  Http2Only ∈ auto_builder (set_http2_only e c) <-> e = true.
Proof.
  unfold auto_builder, when_some. cbn. destruct e; repeat case_match; set_solver.
Qed.
