(* ===== verification/Server.v ===== *)
(** * The HTTP server: sockets, accept loop, admission, draining

    [arvik-hyper/src/server.rs] and the hooks of [graceful.rs].  The accept loop
    of [accept_plain], [accept_tls] and [accept_native_tls] is one transition
    system: the three differ only in the body of the task a connection runs in.
    The transitions are the loop's own steps between two points where another
    task can run, and the steps of the connection tasks, so that the atomic
    operations on the connection counter interleave as they do on a
    multi-threaded runtime.  A hook is a task of its own, spawned and forgotten:
    it may run at any later time, or not before the server returns.

    Sockets, the resolver and tokio's listener are parameters; a [TcpStream] is
    known by its peer address and by what its socket options answer. *)
From S2P Require Import Prelude RustStr Http ServerConfig.
From stdpp Require Import base list strings sets relations.
From Stdlib Require Import ZArith Lia Ascii String.
Open Scope string_scope.
Open Scope list_scope.
Open Scope Z_scope.

Record SocketAddr := mkAddr { sa_ip : IpAddr; sa_port : Z }.

(** ** [io::Error] *)

Inductive ErrorKind :=
| ConnectionAborted | WouldBlock | Interrupted | PermissionDenied | OutOfMemory
| InvalidInput | Unsupported | OtherKind.
#[export] Instance error_kind_eq_dec : EqDecision ErrorKind.
Proof. solve_decision. Defined.

Record IoError := mkIoError { err_kind : ErrorKind; raw_os_error : option Z; err_msg : string }.

Definition raw_is (codes : list Z) (err : IoError) : bool :=
  match raw_os_error err with Some n => bool_decide (n ∈ codes) | None => false end.

Definition EBADF : Z := 9.
Definition EINVAL : Z := 22.
Definition is_fatal_accept_error (err : IoError) : bool :=
  bool_decide (err_kind err = PermissionDenied) || raw_is [EBADF; EINVAL] err.

Definition EMFILE : Z := 24.
Definition ENFILE : Z := 23.
Definition ENOMEM : Z := 12.
Definition ENOBUFS : Z := 105.
Definition is_resource_exhaustion (err : IoError) : bool :=
  bool_decide (err_kind err = OutOfMemory) || raw_is [EMFILE; ENFILE; ENOMEM; ENOBUFS] err.

(** ** Sockets

    The calls on sockets, logged in order; the system answers each from what
    came before. *)
Inductive SockCall :=
| SocketNew (addr : SocketAddr) | SetNonblocking | SetReuseAddress | SetReusePort
| SetRecvBuffer (n : Z) | SetSendBuffer (n : Z) | BindTo (addr : SocketAddr) | Listen (backlog : Z)
| FromStd.

Inductive Listener :=
| TokioListener (addr : string)
| TunedListener (addr : SocketAddr).

Inductive BindOutcome :=
| Bound (listeners : list Listener) (addr : SocketAddr)
| BindFailed (e : IoError)
| BindPanicked.

Section Bind.
Variable os : list SockCall -> SockCall -> option IoError.
Variable tokio_bind : string -> option IoError.
Variable lookup_host : string -> result (list SocketAddr) IoError.
Variable local_addr : Listener -> result SocketAddr IoError.

(** A computation that logs its calls and may fail. *)
Definition SockM (A : Type) : Type := list SockCall -> result A IoError * list SockCall.
Definition sret {A} (a : A) : SockM A := fun log => (Ok a, log).
Definition sfail {A} (e : IoError) : SockM A := fun log => (Err e, log).
Definition sbind {A B} (f : A -> SockM B) (x : SockM A) : SockM B := fun log =>
  match x log with (Ok a, log) => f a log | (Err e, log) => (Err e, log) end.
Definition scall (c : SockCall) : SockM unit := fun log =>
  match os log c with None => (Ok tt, log ++ [c]) | Some e => (Err e, log ++ [c]) end.
Definition swhen (b : bool) (x : SockM unit) : SockM unit := if b then x else sret tt.
Definition sopt {A} (o : option A) (f : A -> SockM unit) : SockM unit :=
  match o with Some a => f a | None => sret tt end.
Local Notation "x ;; y" := (sbind (fun _ => y) x) (at level 100, right associativity).

Definition bind_socket (addr : SocketAddr) (c : ServerConfig) : SockM Listener :=
  scall (SocketNew addr);;
  scall SetNonblocking;;
  swhen (reuse_address c) (scall SetReuseAddress);;
  swhen (reuse_port c) (scall SetReusePort);;
  sopt (socket_recv_buffer_size c) (fun n => scall (SetRecvBuffer n));;
  sopt (socket_send_buffer_size c) (fun n => scall (SetSendBuffer n));;
  scall (BindTo addr);;
  scall (Listen (default 1024 (backlog c)));;
  scall FromStd;;
  sret (TunedListener addr).

(** [for _ in 0..n { listeners.push(bind_socket(..)?) }]. *)
Fixpoint bind_sockets (n : nat) (addr : SocketAddr) (c : ServerConfig) : SockM (list Listener) :=
  match n with
  | O => sret []
  | S n => sbind (fun l => sbind (fun ls => sret (l :: ls)) (bind_sockets n addr c))
             (bind_socket addr c)
  end.

Definition invalid_input (msg : string) : IoError := mkIoError InvalidInput None msg.

Definition bind_listeners (addr : string) (c : ServerConfig) : SockM (list Listener) :=
  if (1 <? accept_workers c) && negb (reuse_port c) then
    sfail (invalid_input "accept_workers greater than 1 requires reuse_port(true)")
  else if negb (needs_tuned_listener c) then
    match tokio_bind addr with
    | None => sret [TokioListener addr]
    | Some e => sfail e
    end
  else match lookup_host addr with
  | Err e => sfail e
  | Ok [] => sfail (invalid_input "address resolved to no sockets")
  | Ok (resolved :: _) =>
      if (1 <? accept_workers c) && (sa_port resolved =? 0) then
        sfail (invalid_input "accept_workers greater than 1 requires an explicit non-zero port")
      else bind_sockets (Z.to_nat (accept_workers c)) resolved c
  end.

(** [Server::bind_with_config]; [expect] panics on an empty list. *)
Definition bind_with_config (addr : string) (c : ServerConfig) : BindOutcome :=
  match fst (bind_listeners addr c []) with
  | Err e => BindFailed e
  | Ok [] => BindPanicked
  | Ok (l :: ls) =>
      match local_addr l with
      | Ok a => Bound (l :: ls) a
      | Err e => BindFailed e
      end
  end.
End Bind.

(** ** Options of an accepted stream *)

Inductive StreamCall :=
| SetNodelay (e : bool)
| SetTcpKeepalive (time interval : option Z) (retries : option Z).

(** The calls [apply_stream_options] makes (on Linux); the stream answers each. *)
Definition stream_calls (c : ServerConfig) : list StreamCall :=
  (match tcp_nodelay c with Some e => [SetNodelay e] | None => [] end) ++
  (if bool_decide (is_Some (tcp_keepalive c)) || bool_decide (is_Some (tcp_keepalive_interval c))
      || bool_decide (is_Some (tcp_keepalive_retries c))
   then [SetTcpKeepalive (tcp_keepalive c) (tcp_keepalive_interval c) (tcp_keepalive_retries c)]
   else []).

Record Stream := mkStream { st_peer : SocketAddr; st_answer : StreamCall -> option IoError }.

Fixpoint first_error (f : StreamCall -> option IoError) (cs : list StreamCall) : option IoError :=
  match cs with
  | [] => None
  | c :: cs => match f c with Some e => Some e | None => first_error f cs end
  end.

Definition apply_stream_options (s : Stream) (c : ServerConfig) : option IoError :=
  first_error (st_answer s) (stream_calls c).

(** ** Accept results

    The milliseconds slept, and the outcome. *)
Definition handle_accept_result (r : result Stream IoError) : Z * result (option Stream) IoError :=
  match r with
  | Ok s => (0, Ok (Some s))
  | Err err =>
      match err_kind err with
      | ConnectionAborted | WouldBlock | Interrupted => (0, Ok None)
      | _ =>
          if is_fatal_accept_error err then (0, Err err)
          else if is_resource_exhaustion err then (100, Ok None)
          else (0, Ok None)
      end
  end.

(** [reject_over_capacity]: the bytes written before the stream is closed. *)
Definition CRLF : string := String (byte_of_val 13) (String (byte_of_val 10) "").
Definition reject_body : string :=
  "{" +:+ quoted "error" +:+ ":" +:+ quoted "Service Unavailable" +:+ "," +:+
  quoted "code" +:+ ":503}".
Definition reject_response : string :=
  "HTTP/1.1 503 Service Unavailable" +:+ CRLF +:+
  "Content-Type: application/json" +:+ CRLF +:+
  "         Content-Length: " +:+ to_dec (str_len reject_body) +:+ CRLF +:+
  "Connection: close" +:+ CRLF +:+ CRLF +:+ reject_body.

(** ** The body of a connection task

    When it ends, in time since it was spawned; [None] is never.  Hyper's
    connection is known by when it completes if left alone and by when it
    completes once told to shut down gracefully; the handshake by when it ends
    and whether it succeeds. *)
Inductive Transport := Plain | Tls.

Record HyperConn := mkConn { conn_done : option Z; conn_done_after : Z -> option Z }.

(** [run_connection]: the biased [select!] of the connection and the shutdown
    signal, then the graceful shutdown. *)
Definition run_connection (conn : HyperConn) (shutdown : option Z) : option Z :=
  match conn_done conn, shutdown with
  | done, None => done
  | Some d, Some t => if d <=? t then Some d else conn_done_after conn t
  | None, Some t => conn_done_after conn t
  end.

(** [tls_config.accept(stream).await], then [run_connection]. *)
Definition handshake_block (handshake : option (Z * bool)) (conn : HyperConn)
    (shutdown : option Z) : option Z :=
  match handshake with
  | None => None
  | Some (t, false) => Some t
  | Some (_, true) => run_connection conn shutdown
  end.

(** [tokio::time::timeout]. *)
Definition timeout (limit : Z) (d : option Z) : option Z :=
  Some (match d with Some t => Z.min t limit | None => limit end).

Definition connection_task (tr : Transport) (c : ServerConfig)
    (handshake : option (Z * bool)) (conn : HyperConn) (shutdown : option Z) : option Z :=
  match tr with
  | Plain => run_connection conn shutdown
  | Tls =>
      match handshake_timeout c with
      | Some limit => timeout limit (handshake_block handshake conn shutdown)
      | None => handshake_block handshake conn shutdown
      end
  end.

(** ** The accept loop *)

Record ConnectionInfo := mkInfo { ci_local : SocketAddr; ci_peer : SocketAddr }.

(** A connection task: spawned but not polled yet (its guard does not exist
    yet), running, or finished and waiting to be joined.  [t_aborted]: the task
    was told to stop. *)
Inductive TaskState := Spawned | Running | Finished.
#[export] Instance task_state_eq_dec : EqDecision TaskState.
Proof. solve_decision. Defined.

Record Task := mkTask { t_info : ConnectionInfo; t_state : TaskState; t_aborted : bool }.

(** Where the loop's own task is: at its [select!], between an accepted stream
    and the first atomic operation of [try_admit_connection], in its
    compare-exchange loop with the value read last, past it, writing the 503,
    asleep after an accept error, in [drain_connections] before and after the
    timeout, or returned. *)
Inductive Phase :=
| Select
| Admit (info : ConnectionInfo)
| Exchange (info : ConnectionInfo) (current : Z)
| Holding (info : ConnectionInfo)
| Rejecting
| Backoff (ms : Z)
| Draining
| Aborting
| Returned (r : result unit IoError).

(** [connections] is the [JoinSet], [active] the shared counter,
    [shutdown_sent] whether the connections were told to finish.  A hook is a
    task of its own: [hooks] are those spawned and not run yet, [ran] those that
    ran, in their order. *)
Inductive Hook := OnConnected (i : ConnectionInfo) | OnDisconnected (i : ConnectionInfo).

Record State := mkState {
  phase : Phase;
  active : Z;
  connections : list Task;
  shutdown_sent : bool;
  hooks : list Hook;
  ran : list Hook }.

Inductive Label :=
(* the loop's task *)
| LSignal | LChannelClosed
| LNext (r : result Stream IoError)
| LWake
| LLoad | LCompareExchange (spurious : bool)
| LSpawn
| LDrained | LDrainTimeout
(* joining a finished task *)
| LJoin (i : nat)
(* the runtime: a task's first poll, the drop of an aborted task before any poll
   or while it runs, a hook's task *)
| LPoll (i : nat) | LCancel (i : nat) | LKill (i : nat) | LHook (n : nat)
(* the connection's own end, by its peer, its service or a panic: it may never come *)
| LEnd (i : nat).

Section Loop.
Variable addr : SocketAddr.
Variable config : ServerConfig.
Variable shutdown : ShutdownConfig.

Definition init : State := mkState Select 0 [] false [] [].

Definition at_phase (p : Phase) (s : State) : State :=
  mkState p (active s) (connections s) (shutdown_sent s) (hooks s) (ran s).
Definition with_active (n : Z) (s : State) : State :=
  mkState (phase s) n (connections s) (shutdown_sent s) (hooks s) (ran s).
Definition with_tasks (ts : list Task) (s : State) : State :=
  mkState (phase s) (active s) ts (shutdown_sent s) (hooks s) (ran s).

(** [fetch_add(1)] and [fetch_sub(1)] wrap. *)
Definition fetch_add (s : State) : State := with_active (wrap_u64 (active s + 1)) s.
Definition fetch_sub (s : State) : State := with_active (wrap_u64 (active s - 1)) s.

(** [tokio::spawn(async move { hook(info) })]. *)
Definition spawn_hook (h : Hook) (s : State) : State :=
  mkState (phase s) (active s) (connections s) (shutdown_sent s) (hooks s ++ [h]) (ran s).
Definition run_hook (n : nat) (h : Hook) (s : State) : State :=
  mkState (phase s) (active s) (connections s) (shutdown_sent s) (delete n (hooks s)) (ran s ++ [h]).

Definition call_connected (i : ConnectionInfo) (s : State) : State :=
  if has_on_connected shutdown then spawn_hook (OnConnected i) s else s.
Definition call_disconnected (i : ConnectionInfo) (s : State) : State :=
  if has_on_disconnected shutdown then spawn_hook (OnDisconnected i) s else s.

(** [ConnectionGuard::drop]. *)
Definition guard_drop (i : ConnectionInfo) (s : State) : State := call_disconnected i (fetch_sub s).

Definition abort_task (t : Task) : Task := mkTask (t_info t) (t_state t) true.
Definition abort_all (s : State) : State := with_tasks (map abort_task (connections s)) s.

(** The [accepted.recv()] branch up to [try_admit_connection].  The [?] returns
    with the tasks still in the [JoinSet], whose drop aborts them. *)
Definition on_next (r : result Stream IoError) (s : State) : State :=
  match handle_accept_result r with
  | (_, Err e) => at_phase (Returned (Err e)) (abort_all s)
  | (ms, Ok None) => if (0 <? ms) then at_phase (Backoff ms) s else s
  | (_, Ok (Some stream)) =>
      match apply_stream_options stream config with
      | Some _ => s
      | None => at_phase (Admit (mkInfo addr (st_peer stream))) s
      end
  end.

(** [try_admit_connection]: the load (or the unconditional [fetch_add]). *)
Definition admit_load (i : ConnectionInfo) (s : State) : State :=
  match max_connections config with
  | Some _ => at_phase (Exchange i (active s)) s
  | None => at_phase (Holding i) (fetch_add s)
  end.

(** One turn of its loop: the test of the value read, then
    [compare_exchange_weak], which may fail spuriously. *)
Definition admit_exchange (spurious : bool) (i : ConnectionInfo) (current : Z) (s : State) : State :=
  match max_connections config with
  | Some max =>
      if max <=? current then at_phase Rejecting s
      else if (active s =? current) && negb spurious
           then at_phase (Holding i) (with_active (wrap_u64 (current + 1)) s)
           else at_phase (Exchange i (active s)) s
  | None => s
  end.

(** [call_connected] and [connections.spawn]. *)
Definition spawn_connection (i : ConnectionInfo) (s : State) : State :=
  let s := call_connected i s in
  at_phase Select (with_tasks (connections s ++ [mkTask i Spawned false]) s).

(** The loop's exits; the channel's end does not tell the connections. *)
Definition on_signal (s : State) : State :=
  mkState Draining (active s) (connections s) true (hooks s) (ran s).

Definition set_task (i : nat) (t : Task) (s : State) : State :=
  with_tasks (<[i := t]> (connections s)) s.

Definition joins (p : Phase) : bool :=
  match p with Select | Draining | Aborting => true | _ => false end.

Definition is_finished (t : Task) : bool := bool_decide (t_state t = Finished).

(** One step; [None] when the label is not enabled. *)
Definition exec (l : Label) (s : State) : option State :=
  match l, phase s with
  | LSignal, Select => Some (on_signal s)
  | LChannelClosed, Select => Some (at_phase Draining s)
  | LNext r, Select => Some (on_next r s)
  | LWake, (Rejecting | Backoff _) => Some (at_phase Select s)
  | LLoad, Admit i => Some (admit_load i s)
  | LCompareExchange spurious, Exchange i current => Some (admit_exchange spurious i current s)
  | LSpawn, Holding i => Some (spawn_connection i s)
  | LDrained, (Draining | Aborting) =>
      match connections s with [] => Some (at_phase (Returned (Ok tt)) s) | _ => None end
  | LDrainTimeout, Draining => Some (at_phase Aborting (abort_all s))
  | LJoin i, p =>
      if joins p then
        t ← connections s !! i;
        if is_finished t then Some (with_tasks (delete i (connections s)) s) else None
      else None
  | LPoll i, _ =>
      t ← connections s !! i;
      if bool_decide (t_state t = Spawned) && negb (t_aborted t)
      then Some (set_task i (mkTask (t_info t) Running false) s) else None
  | LEnd i, _ =>
      t ← connections s !! i;
      if bool_decide (t_state t = Running)
      then Some (guard_drop (t_info t) (set_task i (mkTask (t_info t) Finished (t_aborted t)) s))
      else None
  | LCancel i, _ =>
      t ← connections s !! i;
      if bool_decide (t_state t = Spawned) && t_aborted t
      then Some (set_task i (mkTask (t_info t) Finished true) s) else None
  | LKill i, _ =>
      t ← connections s !! i;
      if bool_decide (t_state t = Running) && t_aborted t
      then Some (guard_drop (t_info t) (set_task i (mkTask (t_info t) Finished true) s)) else None
  | LHook n, _ => h ← hooks s !! n; Some (run_hook n h s)
  | _, _ => None
  end.

(** The steps of a connection's task. *)
Definition task_label (l : Label) : bool :=
  match l with LJoin _ | LPoll _ | LCancel _ | LKill _ | LEnd _ => true | _ => false end.

Fixpoint run (ls : list Label) (s : State) : option State :=
  match ls with
  | [] => Some s
  | l :: ls => exec l s ≫= run ls
  end.

(** The step relation, and what the server reaches. *)
Inductive step (s s' : State) : Prop :=
| step_label l : exec l s = Some s' -> step s s'.

Definition reachable (s : State) : Prop := rtc step init s.

(** The connections of the hooks in a list. *)
Definition connected (hs : list Hook) : list ConnectionInfo :=
  omap (fun h => match h with OnConnected i => Some i | _ => None end) hs.
Definition disconnected (hs : list Hook) : list ConnectionInfo :=
  omap (fun h => match h with OnDisconnected i => Some i | _ => None end) hs.
Definition spawned (s : State) : list Hook := ran s ++ hooks s.

(** The tasks that still hold, or will hold, a place in the counter. *)
Definition unended (ts : list Task) : list ConnectionInfo :=
  map t_info (List.filter (fun t => negb (is_finished t)) ts).
Definition live (s : State) : Z := Z.of_nat (List.length (unended (connections s))).
End Loop.

(** ** Counting the tasks *)

#[local] Arguments unended : simpl never.
#[local] Arguments is_finished : simpl never.

Lemma unended_app ts ts' : unended (ts ++ ts') = unended ts ++ unended ts'.
Proof. unfold unended. by rewrite List.filter_app, map_app. Qed.

Lemma unended_cons t ts :
  unended (t :: ts) = (if is_finished t then [] else [t_info t]) ++ unended ts.
Proof. unfold unended. cbn. by destruct (is_finished t). Qed.

Lemma unended_abort ts : unended (map abort_task ts) = unended ts.
Proof. induction ts as [|t ts IH]; [done|]. cbn [map]. by rewrite !unended_cons, IH. Qed.

Lemma unended_insert ts i t t' :
  ts !! i = Some t -> t_info t' = t_info t -> is_finished t' = is_finished t ->
  unended (<[i := t']> ts) = unended ts.
Proof.
  revert i; induction ts as [|u ts IH]; intros [|i] Hi Ht Hf; cbn in Hi; try done.
  - injection Hi as ->. change (<[0%nat := t']> (t :: ts)) with (t' :: ts).
    by rewrite !unended_cons, Ht, Hf.
  - change (<[S i := t']> (u :: ts)) with (u :: <[i := t']> ts).
    by rewrite !unended_cons, (IH i).
Qed.

Lemma unended_finish ts i t t' :
  ts !! i = Some t -> is_finished t = false -> is_finished t' = true ->
  unended ts ≡ₚ t_info t :: unended (<[i := t']> ts).
Proof.
  revert i; induction ts as [|u ts IH]; intros [|i] Hi Ht Hf; cbn in Hi; try done.
  - injection Hi as ->. change (<[0%nat := t']> (t :: ts)) with (t' :: ts).
    by rewrite !unended_cons, Ht, Hf.
  - change (<[S i := t']> (u :: ts)) with (u :: <[i := t']> ts).
    rewrite !unended_cons, (IH i Hi Ht Hf). by rewrite Permutation_middle.
Qed.

Lemma unended_delete ts i t :
  ts !! i = Some t -> is_finished t = true -> unended (delete i ts) = unended ts.
Proof.
  revert i; induction ts as [|u ts IH]; intros [|i] Hi Hf; cbn in Hi; try done.
  - injection Hi as ->. change (delete 0%nat (t :: ts)) with ts. by rewrite unended_cons, Hf.
  - change (delete (S i) (u :: ts)) with (u :: delete i ts).
    by rewrite !unended_cons, (IH i).
Qed.

(** ** The invariant *)

#[export] Instance connected_perm : Proper ((≡ₚ) ==> (≡ₚ)) connected.
Proof. apply omap_Permutation. Qed.
#[export] Instance disconnected_perm : Proper ((≡ₚ) ==> (≡ₚ)) disconnected.
Proof. apply omap_Permutation. Qed.

(** Spawning a hook, and running one of those spawned. *)
Lemma connected_snoc hs h :
  connected (hs ++ [h]) = connected hs ++ match h with OnConnected i => [i] | _ => [] end.
Proof. unfold connected. rewrite omap_app. by destruct h. Qed.
Lemma disconnected_snoc hs h :
  disconnected (hs ++ [h]) = disconnected hs ++ match h with OnDisconnected i => [i] | _ => [] end.
Proof. unfold disconnected. rewrite omap_app. by destruct h. Qed.
Lemma spawned_spawn h s : spawned (spawn_hook h s) = spawned s ++ [h].
Proof. unfold spawned. cbn. by rewrite app_assoc. Qed.
Lemma spawned_run n h s : hooks s !! n = Some h -> spawned (run_hook n h s) ≡ₚ spawned s.
Proof.
  intros Hn. unfold spawned. cbn. rewrite <- app_assoc. cbn. by rewrite <- (delete_Permutation _ _ _ Hn).
Qed.

Definition aborts (p : Phase) : bool :=
  match p with Aborting | Returned _ => true | _ => false end.
Definition pending (p : Phase) : Z := match p with Holding _ => 1 | _ => 0 end.

Section Invariant.
Variable addr : SocketAddr.
Variable config : ServerConfig.
Variable shutdown : ShutdownConfig.

(** [leaked]: the tasks cancelled before their first poll, whose guard was
    never built. *)
Record counted (s : State) (leaked : list ConnectionInfo) : Prop := mkCounted {
  counted_calm : aborts (phase s) = false ->
    leaked = [] /\ Forall (fun t => t_aborted t = false) (connections s);
  counted_active : active s =
    wrap_u64 (live s + pending (phase s) + Z.of_nat (List.length leaked));
  counted_max : forall m, max_connections config = Some m -> 0 <= m ->
    live s + pending (phase s) + Z.of_nat (List.length leaked) <= m;
  counted_hooks : has_on_connected shutdown = true -> has_on_disconnected shutdown = true ->
    connected (spawned s) ≡ₚ disconnected (spawned s) ++ unended (connections s) ++ leaked }.

Definition Inv (s : State) : Prop := exists leaked, counted s leaked.

Lemma init_inv : Inv init.
Proof. exists []. split; cbn; auto. Qed.

(** A change of phase that keeps the counter's meaning. *)
Lemma counted_phase s leaked p :
  counted s leaked -> pending p = pending (phase s) ->
  (aborts p = false -> aborts (phase s) = false) -> counted (at_phase p s) leaked.
Proof.
  intros [H1 H2 H3 H4] Hp Ha. split; cbn; [auto|by rewrite Hp|by rewrite Hp|done].
Qed.

(** A change of the tasks that keeps who is unended. *)
Lemma counted_tasks s leaked ts :
  counted s leaked -> unended ts = unended (connections s) ->
  (aborts (phase s) = false -> Forall (fun t => t_aborted t = false) ts) ->
  counted (with_tasks ts s) leaked.
Proof.
  intros [H1 H2 H3 H4] Hu Hf. unfold live in *.
  split; unfold live; cbn [phase active connections hooks ran with_tasks]; rewrite ?Hu; auto.
  intros Ha. split; [by apply H1|auto].
Qed.

Lemma wrap_add a : wrap_u64 (wrap_u64 a + 1) = wrap_u64 (a + 1).
Proof. unfold wrap_u64. by rewrite Zplus_mod_idemp_l. Qed.
Lemma wrap_sub a : wrap_u64 (wrap_u64 a - 1) = wrap_u64 (a - 1).
Proof. unfold wrap_u64. by rewrite Zminus_mod_idemp_l. Qed.

(** The guard of a task that ends gives its place back. *)
Lemma counted_end s leaked i t t' :
  counted s leaked -> connections s !! i = Some t ->
  is_finished t = false -> is_finished t' = true -> t_aborted t' = t_aborted t ->
  counted (guard_drop shutdown (t_info t) (set_task i t' s)) leaked.
Proof.
  intros [H1 H2 H3 H4] Hi Hf Hf' Ha.
  pose proof (unended_finish _ _ _ _ Hi Hf Hf') as Hp.
  pose proof (Permutation_length Hp) as Hl. cbn in Hl.
  unfold guard_drop, call_disconnected, live in *.
  assert (aborts (phase s) = false -> leaked = [] /\
    Forall (fun t => t_aborted t = false) (<[i := t']> (connections s))) as Hcalm.
  { intros Hb. destruct (H1 Hb) as [-> Hall]. split; [done|]. apply Forall_insert; [done|].
    rewrite Ha. exact (Forall_lookup_1 _ _ _ _ Hall Hi). }
  destruct (has_on_disconnected shutdown) eqn:Ed; split; unfold live; cbn; auto;
    try (rewrite H2, wrap_sub; f_equal; lia); try (intros m Hm Hm0; specialize (H3 m Hm Hm0); lia).
  - intros Hc _. set (s' := spawn_hook (OnDisconnected (t_info t)) s).
    change (connected (spawned s') ≡ₚ disconnected (spawned s') ++ unended (<[i := t']> (connections s)) ++ leaked).
    unfold s'. rewrite spawned_spawn, connected_snoc, disconnected_snoc, app_nil_r.
    rewrite (H4 Hc eq_refl), Hp. rewrite <- !app_assoc. cbn. done.
  - intros; congruence.
Qed.

(** A task cancelled before its first poll leaks its place. *)
Lemma counted_cancel s leaked i t :
  counted s leaked -> connections s !! i = Some t ->
  is_finished t = false -> t_aborted t = true ->
  counted (set_task i (mkTask (t_info t) Finished true) s) (t_info t :: leaked).
Proof.
  intros [H1 H2 H3 H4] Hi Hf Ha.
  pose proof (unended_finish _ _ _ (mkTask (t_info t) Finished true) Hi Hf eq_refl) as Hp.
  pose proof (Permutation_length Hp) as Hl. cbn in Hl.
  unfold live in *. split; unfold live; cbn [phase active connections hooks ran
    with_tasks set_task List.length].
  - intros Hb. destruct (H1 Hb) as [_ Hall]. eapply Forall_lookup_1 in Hi; [|exact Hall]. congruence.
  - rewrite H2. f_equal. lia.
  - intros m Hm Hm0. specialize (H3 m Hm Hm0). lia.
  - intros Hc Hd. rewrite (H4 Hc Hd), Hp. cbn. by rewrite !Permutation_middle.
Qed.
Lemma handle_accept_ok st ms r : handle_accept_result (Ok st) = (ms, r) -> ms = 0 /\ r = Ok (Some st).
Proof. by intros [= <- <-]. Qed.

Lemma counted_abort s leaked p :
  counted s leaked -> aborts p = true -> pending p = pending (phase s) ->
  counted (at_phase p (abort_all s)) leaked.
Proof.
  intros [H1 H2 H3 H4] Ha Hp. unfold live in *.
  split; unfold live; cbn; rewrite ?unended_abort, ?Hp; auto. congruence.
Qed.

Lemma counted_next s leaked r :
  phase s = Select -> counted s leaked -> counted (on_next addr config r s) leaked.
Proof.
  intros Hp Hc. unfold on_next. destruct (handle_accept_result r) as [ms [[st|]|e]].
  - destruct (apply_stream_options st config); [done|].
    by apply counted_phase; [done|rewrite Hp..].
  - destruct (0 <? ms); [|done]. by apply counted_phase; [done|rewrite Hp..].
  - apply counted_abort; [done|done|]. by rewrite Hp.
Qed.

Lemma live_nonneg s : 0 <= live s.
Proof. unfold live. lia. Qed.

(** The admission: an increment only from a value below the limit. *)
Lemma counted_load s leaked i :
  phase s = Admit i -> counted s leaked -> counted (admit_load config i s) leaked.
Proof.
  intros Hp Hc. unfold admit_load. destruct (max_connections config) eqn:Em.
  - by apply counted_phase; [done|rewrite Hp..].
  - destruct Hc as [H1 H2 H3 H4]. rewrite Hp in *. cbn in *. split; cbn.
    + auto.
    + rewrite H2, wrap_add. f_equal. unfold live. cbn. lia.
    + congruence.
    + done.
Qed.

Lemma counted_exchange s leaked spurious i current :
  (forall m, max_connections config = Some m -> in_u64 m) ->
  phase s = Exchange i current -> counted s leaked ->
  counted (admit_exchange config spurious i current s) leaked.
Proof.
  intros Hm64 Hp Hc. unfold admit_exchange. destruct (max_connections config) as [m|] eqn:Em; [|done].
  specialize (Hm64 m eq_refl). unfold in_u64 in Hm64.
  destruct (Z.leb_spec m current); [by apply counted_phase; [done|rewrite Hp..]|].
  destruct (Z.eqb_spec (active s) current) as [Hact|]; cbn [andb];
    [|by apply counted_phase; [done|rewrite Hp..]].
  destruct spurious; cbn [negb]; [by apply counted_phase; [done|rewrite Hp..]|].
  destruct Hc as [H1 H2 H3 H4]. rewrite Hp in *. cbn [aborts pending] in *.
  pose proof (H3 m Em ltac:(lia)) as Hle. pose proof (live_nonneg s) as Hl0.
  rewrite wrap_u64_id in H2 by (unfold in_u64; lia).
  split; cbn [phase active connections hooks ran at_phase with_active pending aborts];
    auto; unfold live in *; cbn [connections at_phase with_active].
  - f_equal. lia.
  - intros m' Hm' _. assert (m' = m) as -> by congruence. lia.
Qed.

Lemma counted_spawn s leaked i :
  phase s = Holding i -> counted s leaked -> counted (spawn_connection shutdown i s) leaked.
Proof.
  intros Hp [H1 H2 H3 H4]. rewrite Hp in *. cbn [aborts pending] in *.
  assert (unended (connections s ++ [mkTask i Spawned false]) = unended (connections s) ++ [i]) as Hu
    by by rewrite unended_app.
  destruct (H1 eq_refl) as [-> Hall]. unfold spawn_connection, call_connected, live in *.
  rewrite app_nil_r in H4.
  destruct (has_on_connected shutdown) eqn:Eh; split; unfold live;
    cbn [phase active connections hooks ran at_phase with_tasks spawn_hook aborts pending];
    rewrite ?Hu, ?length_app; cbn [List.length] in *;
    try (intros _; split; [done|apply Forall_app; by repeat constructor]);
    try (rewrite H2; f_equal; lia);
    try (intros m Hm Hm0; specialize (H3 m Hm Hm0); lia);
    intros Hc Hd; [|congruence].
  set (s' := spawn_hook (OnConnected i) s).
  change (connected (spawned s') ≡ₚ disconnected (spawned s') ++ (unended (connections s) ++ [i]) ++ []).
  unfold s'. rewrite spawned_spawn, connected_snoc, disconnected_snoc, !app_nil_r, (H4 eq_refl Hd), <- app_assoc. done.
Qed.
Lemma counted_signal s leaked :
  phase s = Select -> counted s leaked -> counted (on_signal s) leaked.
Proof.
  intros Hp [H1 H2 H3 H4]. rewrite Hp in *. by split.
Qed.

(** Inverting the steps of a task. *)
Lemma exec_task_inv l s s' :
  exec addr config shutdown l s = Some s' ->
  match l with
  | LJoin i => exists t, connections s !! i = Some t /\ is_finished t = true /\
      s' = with_tasks (delete i (connections s)) s /\ joins (phase s) = true
  | LPoll i => exists t, connections s !! i = Some t /\ t_state t = Spawned /\
      t_aborted t = false /\ s' = set_task i (mkTask (t_info t) Running false) s
  | LEnd i => exists t, connections s !! i = Some t /\ t_state t = Running /\
      s' = guard_drop shutdown (t_info t) (set_task i (mkTask (t_info t) Finished (t_aborted t)) s)
  | LCancel i => exists t, connections s !! i = Some t /\ t_state t = Spawned /\
      t_aborted t = true /\ s' = set_task i (mkTask (t_info t) Finished true) s
  | LKill i => exists t, connections s !! i = Some t /\ t_state t = Running /\ t_aborted t = true /\
      s' = guard_drop shutdown (t_info t) (set_task i (mkTask (t_info t) Finished true) s)
  | LHook n => exists h, hooks s !! n = Some h /\ s' = run_hook n h s
  | _ => True
  end.
Proof.
  destruct l as [| | | | | | | | |i|i|i|i|n|i]; try done; unfold exec.
  - destruct (joins (phase s)) eqn:Ej; [|done].
    destruct (connections s !! i) as [t|] eqn:Et; [|done]. cbn.
    destruct (is_finished t) eqn:Ef; [|done]. intros [= <-]. eauto.
  - destruct (connections s !! i) as [t|] eqn:Et; [|done]. cbn.
    case_bool_decide; [|done]. destruct (t_aborted t) eqn:Ea; [done|].
    intros [= <-]. eauto.
  - destruct (connections s !! i) as [t|] eqn:Et; [|done]. cbn.
    case_bool_decide; [|done]. destruct (t_aborted t) eqn:Ea; [|done].
    intros [= <-]. eauto 6.
  - destruct (connections s !! i) as [t|] eqn:Et; [|done]. cbn.
    case_bool_decide; [|done]. destruct (t_aborted t) eqn:Ea; [|done].
    intros [= <-]. eauto 6.
  - destruct (hooks s !! n) as [h|] eqn:Eh; [|done]. intros [= <-]. eauto.
  - destruct (connections s !! i) as [t|] eqn:Et; [|done]. cbn.
    case_bool_decide; [|done]. intros [= <-]. eauto.
Qed.

(** A hook that runs changes nothing of the server's. *)
Lemma counted_hook s leaked n h :
  hooks s !! n = Some h -> counted s leaked -> counted (run_hook n h s) leaked.
Proof. intros Hn [H1 H2 H3 H4]. split; [done..|]. intros Hc Hd. rewrite spawned_run by done. by apply H4. Qed.

Lemma finished_state t : is_finished t = bool_decide (t_state t = Finished).
Proof. done. Qed.

(** The steps of the loop's own task, and of the tasks it spawned. *)
Lemma counted_loop_step l s s' leaked :
  (forall m, max_connections config = Some m -> in_u64 m) ->
  task_label l = false ->
  exec addr config shutdown l s = Some s' -> counted s leaked -> counted s' leaked.
Proof.
  intros Hm Hl He. pose proof (exec_task_inv _ _ _ He) as Hi. revert He.
  destruct l; try done; [..|destruct Hi as (h & Hh & ->); intros _; by apply counted_hook];
    unfold exec; destruct (phase s) eqn:Hp; try done.
  - intros [= <-]. by apply counted_signal.
  - intros [= <-] Hc. by apply counted_phase; [done|rewrite Hp..].
  - intros [= <-] Hc. by apply counted_next.
  - intros [= <-] Hc. by apply counted_phase; [done|rewrite Hp..].
  - intros [= <-] Hc. by apply counted_phase; [done|rewrite Hp..].
  - intros [= <-] Hc. by apply counted_load.
  - intros [= <-] Hc. by eapply counted_exchange.
  - intros [= <-] Hc. by apply counted_spawn.
  - destruct (connections s); [|done]. intros [= <-] Hc. by apply counted_phase; [done|rewrite Hp..].
  - destruct (connections s); [|done]. intros [= <-] Hc. by apply counted_phase; [done|rewrite Hp..].
  - intros [= <-] Hc. apply counted_abort; [done|done|by rewrite Hp].
Qed.

Lemma counted_task_step l s s' leaked :
  task_label l = true ->
  exec addr config shutdown l s = Some s' -> counted s leaked ->
  exists leaked', counted s' leaked'.
Proof.
  intros Hl He Hc. apply exec_task_inv in He. destruct l as [| | | | | | | | |i|i|i|i|n|i]; try done.
  - destruct He as (t & Hi & Hf & -> & _). exists leaked. apply counted_tasks; [done| |].
    + by eapply unended_delete.
    + intros Ha. apply Hc in Ha as [_ Ha]. by apply Forall_delete.
  - destruct He as (t & Hi & Hs & Ha & ->). exists leaked. apply counted_tasks; [done| |].
    + eapply unended_insert; [done|done|]. by rewrite !finished_state, Hs.
    + intros Hb. apply Hc in Hb as [_ Hb]. by apply Forall_insert.
  - destruct He as (t & Hi & Hs & Ha & ->). exists (t_info t :: leaked).
    apply counted_cancel; try done. by rewrite finished_state, Hs.
  - destruct He as (t & Hi & Hs & Ha & ->). exists leaked.
    apply counted_end with (t := t) (t' := mkTask (t_info t) Finished true); try done.
    by rewrite finished_state, Hs.
  - destruct He as (t & Hi & Hs & ->). exists leaked.
    apply counted_end with (t := t) (t' := mkTask (t_info t) Finished (t_aborted t)); try done.
    by rewrite finished_state, Hs.
Qed.

Lemma step_inv s s' :
  (forall m, max_connections config = Some m -> in_u64 m) ->
  step addr config shutdown s s' -> Inv s -> Inv s'.
Proof.
  intros Hm [l He] [leaked Hc].
  pose proof (fun Hl => counted_loop_step l s s' leaked Hm Hl He Hc) as Hloop.
  pose proof (fun Hl => counted_task_step l s s' leaked Hl He Hc) as Htask.
  destruct l; (exists leaked; by apply Hloop) || by apply Htask.
Qed.

Lemma reachable_inv s :
  (forall m, max_connections config = Some m -> in_u64 m) ->
  reachable addr config shutdown s -> Inv s.
Proof.
  intros Hm Hr. unfold reachable in Hr. pose proof init_inv as Hi. revert Hi.
  induction Hr as [|s1 s2 s3 Hs Hr IH]; [done|]. eauto using step_inv.
Qed.
End Invariant.

(** ** Draining *)

Definition task_weight (t : Task) : nat :=
  match t_state t with Spawned => 4 | Running => 3 | Finished => 1 end.
Definition phase_weight (p : Phase) : nat :=
  match p with Draining => 2 | Aborting => 1 | _ => 0 end.
Definition tasks_weight (ts : list Task) : nat := fold_right Nat.add 0%nat (map task_weight ts).

(** What is left to do, the hooks the tasks will spawn included: the bound on the
    steps of a drain. *)
Definition drain_measure (s : State) : nat :=
  (phase_weight (phase s) + tasks_weight (connections s) + List.length (hooks s))%nat.

Definition in_drain (s : State) : Prop :=
  phase s = Draining \/ (phase s = Aborting /\ Forall (fun t => t_aborted t = true) (connections s)) \/
  (phase s = Returned (Ok tt) /\ connections s = []).

(** Not the end of a connection of itself, which need not come. *)
Definition of_server (l : Label) : Prop := match l with LEnd _ => False | _ => True end.

#[local] Arguments tasks_weight : simpl never.

Lemma tasks_weight_cons t ts : tasks_weight (t :: ts) = (task_weight t + tasks_weight ts)%nat.
Proof. done. Qed.

Lemma tasks_weight_insert ts i t t' k :
  ts !! i = Some t -> (task_weight t' + k < task_weight t)%nat ->
  (tasks_weight (<[i := t']> ts) + k < tasks_weight ts)%nat.
Proof.
  revert i; induction ts as [|u ts IH]; intros [|i] Hi Hw; cbn in Hi; try done.
  - injection Hi as ->. change (<[0%nat := t']> (t :: ts)) with (t' :: ts).
    rewrite !tasks_weight_cons. lia.
  - change (<[S i := t']> (u :: ts)) with (u :: <[i := t']> ts).
    specialize (IH i Hi Hw). rewrite !tasks_weight_cons. lia.
Qed.

Lemma tasks_weight_delete ts i t :
  ts !! i = Some t -> (tasks_weight (delete i ts) < tasks_weight ts)%nat.
Proof.
  revert i; induction ts as [|u ts IH]; intros [|i] Hi; cbn in Hi; try done.
  - injection Hi as ->. change (delete 0%nat (t :: ts)) with ts.
    rewrite tasks_weight_cons. unfold task_weight. destruct (t_state t); lia.
  - change (delete (S i) (u :: ts)) with (u :: delete i ts).
    specialize (IH i Hi). rewrite !tasks_weight_cons. lia.
Qed.

Lemma tasks_weight_abort ts : tasks_weight (map abort_task ts) = tasks_weight ts.
Proof. induction ts as [|t ts IH]; [done|]. cbn [map]. by rewrite !tasks_weight_cons, IH. Qed.

Section Drain.
Variable addr : SocketAddr.
Variable config : ServerConfig.
Variable shutdown : ShutdownConfig.
Local Notation next := (exec addr config shutdown).
Local Notation runs := (run addr config shutdown).

Lemma guard_drop_fields i s :
  phase (guard_drop shutdown i s) = phase s /\
  connections (guard_drop shutdown i s) = connections s /\
  (List.length (hooks (guard_drop shutdown i s)) <= S (List.length (hooks s)))%nat.
Proof.
  unfold guard_drop, call_disconnected. destruct (has_on_disconnected shutdown); cbn; [|by auto].
  rewrite length_app. cbn. split_and!; [done..|lia].
Qed.

(** The end of a task, of itself or not, with the hook it spawns. *)
Lemma task_end_measure i t a s : connections s !! i = Some t -> t_state t = Running ->
  let s' := guard_drop shutdown (t_info t) (set_task i (mkTask (t_info t) Finished a) s) in
  phase s' = phase s /\
  (tasks_weight (connections s') + List.length (hooks s') < tasks_weight (connections s) + List.length (hooks s))%nat /\
  (tasks_weight (connections s') < tasks_weight (connections s))%nat.
Proof.
  intros Hi Hs s'. destruct (guard_drop_fields (t_info t) (set_task i (mkTask (t_info t) Finished a) s)) as (Hp & Hc & Hh).
  fold s' in Hp, Hc, Hh. rewrite Hp, Hc. split; [done|]. cbn in Hh |- *.
  pose proof (tasks_weight_insert (connections s) i t (mkTask (t_info t) Finished a) 1 Hi) as Hw.
  unfold task_weight in Hw. rewrite Hs in Hw. cbn in Hw. specialize (Hw ltac:(lia)). lia.
Qed.

(** A step of a task leaves the loop where it is and brings the task closer to
    its end. *)
Lemma task_step_measure l s s' :
  task_label l = true -> next l s = Some s' ->
  phase s' = phase s /\
  (tasks_weight (connections s') + List.length (hooks s') < tasks_weight (connections s) + List.length (hooks s))%nat /\
  (tasks_weight (connections s') < tasks_weight (connections s))%nat.
Proof.
  intros Hl He. apply exec_task_inv in He. destruct l as [| | | | | | | | |i|i|i|i|n|i]; try done.
  - destruct He as (t & Hi & Hf & -> & _). pose proof (tasks_weight_delete _ _ _ Hi). cbn. split; [done|]. lia.
  - destruct He as (t & Hi & Hs & Ha & ->).
    pose proof (tasks_weight_insert (connections s) i t (mkTask (t_info t) Running false) 0 Hi) as Hw.
    unfold task_weight in Hw. rewrite Hs in Hw. cbn in Hw |- *. specialize (Hw ltac:(lia)). split; [done|]. lia.
  - destruct He as (t & Hi & Hs & Ha & ->).
    pose proof (tasks_weight_insert (connections s) i t (mkTask (t_info t) Finished true) 0 Hi) as Hw.
    unfold task_weight in Hw. rewrite Hs in Hw. cbn in Hw |- *. specialize (Hw ltac:(lia)). split; [done|]. lia.
  - destruct He as (t & Hi & Hs & Ha & ->). by apply task_end_measure.
  - destruct He as (t & Hi & Hs & ->). by apply task_end_measure.
Qed.

Lemma task_step_aborted l s s' : task_label l = true -> next l s = Some s' ->
  Forall (fun t => t_aborted t = true) (connections s) -> Forall (fun t => t_aborted t = true) (connections s').
Proof.
  intros Hl He Ha. apply exec_task_inv in He. destruct l as [| | | | | | | | |i|i|i|i|n|i]; try done.
  - destruct He as (t & _ & _ & -> & _). by apply Forall_delete.
  - destruct He as (t & Hi & _ & Hf & _). pose proof (Forall_lookup_1 _ _ _ _ Ha Hi). congruence.
  - destruct He as (t & _ & _ & _ & ->). by apply Forall_insert.
  - destruct He as (t & _ & _ & _ & ->). rewrite (proj1 (proj2 (guard_drop_fields _ _))). by apply Forall_insert.
  - destruct He as (t & Hi & _ & ->). rewrite (proj1 (proj2 (guard_drop_fields _ _))).
    apply Forall_insert; [done|]. by apply (Forall_lookup_1 _ _ _ _ Ha Hi).
Qed.

Lemma drain_step l s s' :
  in_drain s -> next l s = Some s' -> in_drain s' /\ (drain_measure s' < drain_measure s)%nat.
Proof.
  intros Hd He. destruct (task_label l) eqn:El.
  - destruct (task_step_measure l s s') as (Hp & Hw & Hc); [done|done|].
    unfold in_drain, drain_measure. rewrite Hp. split; [|lia].
    destruct Hd as [?|[[? Ha]|[? Hn]]]; [auto| |rewrite Hn in Hc; by apply Nat.nlt_0_r in Hc].
    right; left. split; [done|]. by eapply task_step_aborted.
  - pose proof (exec_task_inv _ _ _ _ _ _ He) as Hi. revert He.
    destruct l; try done; [..|destruct Hi as (h & Hh & ->); intros _; split; [exact Hd|];
      unfold drain_measure; cbn; pose proof (lookup_lt_Some _ _ _ Hh); rewrite length_delete by eauto; lia];
      unfold exec; destruct Hd as [Hp|[[Hp Hab]|[Hp Hn]]]; rewrite Hp; try done.
    + destruct (connections s) eqn:Hn; [|done]. intros [= <-].
      unfold in_drain, drain_measure. cbn. rewrite Hn, Hp. split; [auto|cbn; lia].
    + destruct (connections s) eqn:Hn; [|done]. intros [= <-].
      unfold in_drain, drain_measure. cbn. rewrite Hn, Hp. split; [auto|cbn; lia].
    + intros [= <-]. unfold in_drain, drain_measure. cbn. rewrite Hp, tasks_weight_abort.
      split; [|cbn; lia]. right; left. split; [done|]. cbn. apply Forall_map, Forall_forall. done.
Qed.

Lemma run_app ls ls' s : runs (ls ++ ls') s = runs ls s ≫= runs ls'.
Proof.
  revert s; induction ls as [|l ls IH]; intros s; [done|]. cbn.
  destruct (next l s); cbn; auto.
Qed.

Lemma drain_run ls s s' :
  in_drain s -> runs ls s = Some s' ->
  in_drain s' /\ (List.length ls + drain_measure s' <= drain_measure s)%nat.
Proof.
  revert s; induction ls as [|l ls IH]; intros s Hd; cbn; [intros [= ->]; split; [done|lia]|].
  destruct (next l s) as [s1|] eqn:He; [|done]. cbn. intros Hr.
  destruct (drain_step l s s1 Hd He) as [Hd1 Hw]. destruct (IH s1 Hd1 Hr). split; [done|lia].
Qed.

(** The server, the runtime or the timeout can go on until the drain has returned
    and every hook has run, though no connection ever ended of itself. *)
Lemma drain_enabled s : in_drain s ->
  (phase s = Returned (Ok tt) /\ connections s = [] /\ hooks s = []) \/
  exists l s', of_server l /\ next l s = Some s'.
Proof.
  intros [Hp|[[Hp Ha]|[Hp Hn]]].
  - right. exists LDrainTimeout. unfold exec. rewrite Hp. by eexists.
  - right. destruct (connections s) as [|t ts] eqn:Ec.
    { exists LDrained. unfold exec. rewrite Hp, Ec. by eexists. }
    apply Forall_cons in Ha as [Hab _].
    destruct (t_state t) eqn:Es; [exists (LCancel 0)|exists (LKill 0)|exists (LJoin 0)];
      unfold exec; rewrite ?Hp, Ec; cbn; unfold is_finished; rewrite Es, ?Hab; cbn; by eexists.
  - destruct (hooks s) as [|h hs] eqn:Eh; [by left|].
    right. exists (LHook 0). unfold exec. rewrite Eh. by eexists.
Qed.

(** Every drain can be carried to its end so. *)
Lemma drain_completes s :
  in_drain s -> exists ls s', Forall of_server ls /\ runs ls s = Some s' /\
    phase s' = Returned (Ok tt) /\ connections s' = [] /\ hooks s' = [].
Proof.
  remember (drain_measure s) as n eqn:En. revert s En.
  induction (lt_wf n) as [n _ IH]. intros s -> Hd.
  destruct (drain_enabled s Hd) as [Hend|(l & s1 & Hl & He)]; [by exists [], s|].
  destruct (drain_step l s s1 Hd He) as [Hd1 Hw].
  destruct (IH _ Hw s1 eq_refl Hd1) as (ls & s2 & Hls & Hr & Hend).
  exists (l :: ls), s2. split; [by constructor|]. cbn. by rewrite He.
Qed.
End Drain.

(** ** Binding *)

Section BindLemmas.
Variable os : list SockCall -> SockCall -> option IoError.

Lemma sbind_ok {A B} (f : A -> SockM B) (x : SockM A) log b log' :
  sbind f x log = (Ok b, log') -> exists a log1, x log = (Ok a, log1) /\ f a log1 = (Ok b, log').
Proof.
  unfold sbind. destruct (x log) as [[a|e] log1] eqn:E; [|done]. eauto.
Qed.

Lemma bind_socket_ok addr c log l log' :
  bind_socket os addr c log = (Ok l, log') -> l = TunedListener addr.
Proof.
  unfold bind_socket. intros H.
  repeat (apply sbind_ok in H as (? & ? & _ & H)). by injection H as <- <-.
Qed.

Lemma bind_sockets_ok n addr c log ls log' :
  bind_sockets os n addr c log = (Ok ls, log') -> ls = replicate n (TunedListener addr).
Proof.
  revert log ls log'; induction n as [|n IH]; intros log ls log'; cbn; [by intros [= <- <-]|].
  intros (l & log1 & Hl & H)%sbind_ok. apply sbind_ok in H as (ls1 & log2 & Hls & H).
  injection H as <- <-. apply bind_socket_ok in Hl as ->. by apply IH in Hls as ->.
Qed.

(** Socket options are set before the socket is bound, and it listens last,
    with the configured backlog or 1024. *)
Lemma bind_socket_order addr c log l log' :
  bind_socket os addr c log = (Ok l, log') ->
  log' = log ++ [SocketNew addr; SetNonblocking] ++
    (if reuse_address c then [SetReuseAddress] else []) ++
    (if reuse_port c then [SetReusePort] else []) ++
    (match socket_recv_buffer_size c with Some n => [SetRecvBuffer n] | None => [] end) ++
    (match socket_send_buffer_size c with Some n => [SetSendBuffer n] | None => [] end) ++
    [BindTo addr; Listen (default 1024 (backlog c)); FromStd].
Proof.
  assert (forall k lg u lg', scall os k lg = (Ok u, lg') -> lg' = lg ++ [k]) as Hcall.
  { unfold scall. intros k lg u lg'. destruct (os lg k); by intros [= _ <-]. }
  assert (forall b k lg u lg', swhen b (scall os k) lg = (Ok u, lg') ->
    lg' = lg ++ (if b then [k] else [])) as Hwhen.
  { unfold swhen. intros [|] k lg u lg'; [apply Hcall|]. intros [= _ <-]. by rewrite app_nil_r. }
  assert (forall (o : option Z) k lg u lg', sopt o (fun n => scall os (k n)) lg = (Ok u, lg') ->
    lg' = lg ++ match o with Some n => [k n] | None => [] end) as Hopt.
  { unfold sopt. intros [n|] k lg u lg'; [apply Hcall|]. intros [= _ <-]. by rewrite app_nil_r. }
  unfold bind_socket. intros H.
  apply sbind_ok in H as (? & ? & ->%Hcall & H). apply sbind_ok in H as (? & ? & ->%Hcall & H).
  apply sbind_ok in H as (? & ? & ->%Hwhen & H). apply sbind_ok in H as (? & ? & ->%Hwhen & H).
  apply sbind_ok in H as (? & ? & ->%Hopt & H). apply sbind_ok in H as (? & ? & ->%Hopt & H).
  apply sbind_ok in H as (? & ? & ->%Hcall & H). apply sbind_ok in H as (? & ? & ->%Hcall & H).
  apply sbind_ok in H as (? & ? & ->%Hcall & H). injection H as _ <-. by rewrite <- !app_assoc.
Qed.
End BindLemmas.

(** ** Properties *)

Section ServerProperties.
Variable addr : SocketAddr.
Variable config : ServerConfig.
Variable shutdown : ShutdownConfig.

(** C4. The connection limit holds under every interleaving: in each state the
    server reaches, whatever the order in which connections arrive, their tasks
    are polled, end, panic or are aborted between the atomic operations of the
    admission loop, the connections that hold a place are at most the counter
    and the counter is at most the configured limit; the counter never wraps. *)
Theorem admission_bound m s :
  max_connections config = Some m -> in_u64 m ->
  reachable addr config shutdown s ->
  live s <= active s <= m.
Proof.
  intros Hm Hm64 Hr.
  destruct (reachable_inv addr config shutdown s) as [leaked [H1 H2 H3 H4]]; [naive_solver|done|].
  specialize (H3 m Hm). unfold in_u64 in Hm64. pose proof (live_nonneg s) as Hl.
  assert (0 <= pending (phase s)) by (by destruct (phase s)).
  rewrite wrap_u64_id in H2 by (unfold in_u64; lia). lia.
Qed.

(** C11. Draining terminates, though no connection ever ends of itself: from the
    moment the server stops accepting, any sequence of steps, whatever the tasks
    do and whenever the timeout fires, is no longer than a bound known when the
    drain begins; a sequence that neither the server nor the runtime can extend,
    with the connections left to run as long as they like, has returned [Ok] with
    every task joined and every hook run; and any sequence can be extended to such
    an end by steps of the server and the runtime alone. *)
Theorem drain_terminates s ls s' :
  phase s = Draining -> run addr config shutdown ls s = Some s' ->
  (List.length ls <= drain_measure s)%nat /\
  ((forall l, of_server l -> exec addr config shutdown l s' = None) ->
   phase s' = Returned (Ok tt) /\ connections s' = [] /\ hooks s' = []) /\
  exists ls' s'', Forall of_server ls' /\ run addr config shutdown ls' s' = Some s'' /\
    phase s'' = Returned (Ok tt) /\ connections s'' = [] /\ hooks s'' = [].
Proof.
  intros Hp Hr. destruct (drain_run addr config shutdown ls s s') as [Hd Hlen]; [by left|done|].
  split; [lia|]. split; [|by apply drain_completes].
  intros Hstuck. destruct (drain_enabled addr config shutdown s' Hd) as [?|(l & s1 & Hl & He)]; [done|].
  by rewrite (Hstuck l Hl) in He.
Qed.

(** A drain without timeout keeps every guard. *)
Definition orderly (s : State) : Prop :=
  (exists e, phase s = Returned (Err e)) \/
  (counted config shutdown s [] /\
   (aborts (phase s) = false \/ (phase s = Returned (Ok tt) /\ connections s = []))).

Lemma orderly_task_step l s s' :
  task_label l = true ->
  exec addr config shutdown l s = Some s' -> orderly s -> orderly s'.
Proof.
  intros Hl He Ho. destruct (task_step_measure addr config shutdown l s s' Hl He) as (Hp & _ & Hw).
  destruct Ho as [[e Hs]|[Hc [Ha|[_ Hn]]]].
  - left. exists e. by rewrite Hp.
  - right. destruct (counted_task_step addr config shutdown l s s' [] Hl He Hc) as [leaked Hc'].
    rewrite <- Hp in Ha. destruct (counted_calm _ _ _ _ Hc' Ha) as [-> _]. auto.
  - rewrite Hn in Hw. by apply Nat.nlt_0_r in Hw.
Qed.

Lemma orderly_step l s s' :
  (forall m, max_connections config = Some m -> in_u64 m) ->
  l <> LDrainTimeout -> exec addr config shutdown l s = Some s' -> orderly s -> orderly s'.
Proof.
  intros Hm Hne He Ho.
  destruct (task_label l) eqn:El;
    [eapply orderly_task_step; [|done..]; by destruct l|].
  destruct Ho as [[e Hs]|[Hc Ha]].
  { pose proof (exec_task_inv _ _ _ _ _ _ He) as Hi. revert He. unfold exec.
    destruct l; rewrite ?Hs; try done. destruct Hi as (h & _ & ->). intros _. left. by exists e. }
  assert (counted config shutdown s' []) as Hc'.
  { eapply (counted_loop_step addr); [done| |done|done]. by destruct l. }
  pose proof (exec_task_inv _ _ _ _ _ _ He) as Hi. revert He.
  destruct l; try done; [..|destruct Hi as (h & _ & ->); intros _; by right];
    unfold exec; destruct (phase s) eqn:Hp; try done;
    try (destruct Ha as [?|[? ?]]; done); intros He; simplify_eq; try (right; by auto).
  - unfold on_next in *. destruct (handle_accept_result r) as [ms [[st|]|e]]; [..|left; by exists e].
    + right. split; [done|]. destruct (apply_stream_options st config); [by rewrite Hp; auto|by left].
    + right. split; [done|]. destruct (0 <? ms); [by left|by rewrite Hp; auto].
  - right. split; [done|]. left. unfold admit_load. by destruct (max_connections config).
  - right. split; [done|]. left. unfold admit_exchange. destruct (max_connections config); [|by rewrite Hp].
    repeat case_match; done.
  - destruct (connections s) eqn:Hn; [|done]. simplify_eq. right. auto.
Qed.

(** A runtime that lives on runs what is left of the hooks. *)
Lemma run_hooks hs s : hooks s = hs ->
  run addr config shutdown (replicate (List.length hs) (LHook 0)) s =
    Some (mkState (phase s) (active s) (connections s) (shutdown_sent s) [] (ran s ++ hs)).
Proof.
  revert s; induction hs as [|h hs IH]; intros s Hs; cbn [List.length replicate run].
  - rewrite app_nil_r. destruct s. cbn in *. by subst.
  - unfold exec at 1. rewrite Hs. cbn. rewrite (IH (run_hook 0 h s)) by (cbn; by rewrite Hs).
    cbn. by rewrite <- app_assoc.
Qed.

(** C22. Connections are accounted for: when a run of the server, with both hooks
    set, has ended normally without the drain timing out, the counter is back to
    zero; the connected and the disconnected hooks spawned, whether they have run
    or not, are for the same connections the same number of times; and so are
    those that have run once the runtime, if it lives on, has run the rest. *)
Theorem hooks_balanced ls s :
  (forall m, max_connections config = Some m -> in_u64 m) ->
  has_on_connected shutdown = true -> has_on_disconnected shutdown = true ->
  run addr config shutdown ls init = Some s -> LDrainTimeout ∉ ls ->
  phase s = Returned (Ok tt) ->
  active s = 0 /\ connected (spawned s) ≡ₚ disconnected (spawned s) /\
  exists s', run addr config shutdown (replicate (List.length (hooks s)) (LHook 0)) s = Some s' /\
    hooks s' = [] /\ connected (ran s') ≡ₚ disconnected (ran s').
Proof.
  intros Hm Hh1 Hh2 Hr Hnt Hend.
  assert (forall s0, orderly s0 -> run addr config shutdown ls s0 = Some s -> orderly s) as Ho.
  { clear Hr Hend. induction ls as [|l ls' IH]; intros s0 Ho; cbn; [by intros [= ->]|].
    destruct (exec addr config shutdown l s0) as [s1|] eqn:He; [|done]. cbn.
    apply IH; [set_solver|]. eapply orderly_step; [done| |done|done]. set_solver. }
  destruct (Ho init) as [[e He]|[Hc [Ha|[_ Hn]]]]; [|done|congruence|by rewrite Hend in Ha|].
  { right. split; [split; cbn; auto|by left]. }
  destruct Hc as [_ H2 _ H4]. unfold live in H2. rewrite Hn, Hend in *. cbn in H2.
  specialize (H4 Hh1 Hh2). cbn in H4. rewrite app_nil_r in H4.
  split; [done|]. split; [done|]. rewrite (run_hooks (hooks s)) by done. by eexists.
Qed.

(** One failed accept never stops the server: an accept error ends the loop
    exactly when it is fatal (permission denied, a bad descriptor or an invalid
    socket, and not one of the transient kinds), the error is then what the
    server returns; any other error leaves the counter and the connections as
    they are and the loop back at its select, at once or after the 100 ms
    backoff of resource exhaustion. *)
Theorem accept_error_outcome e s :
  phase s = Select ->
  exec addr config shutdown (LNext (Err e)) s = Some (on_next addr config (Err e) s) /\
  let s' := on_next addr config (Err e) s in
  let transient := bool_decide (err_kind e ∈ [ConnectionAborted; WouldBlock; Interrupted]) in
  if is_fatal_accept_error e && negb transient
  then phase s' = Returned (Err e) /\ shutdown_sent s' = shutdown_sent s
  else s' = s \/
    (is_resource_exhaustion e = true /\ phase s' = Backoff 100 /\
     exec addr config shutdown LWake s' = Some s).
Proof.
  intros Hp. unfold exec. rewrite Hp. split; [done|]. unfold on_next, handle_accept_result.
  assert (forall t, at_phase Select (at_phase t s) = s) as Hback.
  { intros t. destruct s. cbn in *. by subst. }
  destruct (err_kind e) eqn:Ek; cbn -[is_fatal_accept_error is_resource_exhaustion];
    rewrite ?andb_false_r, ?andb_true_r; auto;
    (destruct (is_fatal_accept_error e); [done|]);
    (destruct (is_resource_exhaustion e); cbn; [|by auto]); rewrite Hback; auto.
Qed.
End ServerProperties.

(** Binding is total: for every configuration the builder methods reach,
    whatever the operating system and the resolver answer, [bind_with_config]
    returns a server or an error and never the panic of its [expect]; a server
    it returns has one listener per accept worker, and with more than one worker
    they share one resolved address with an explicit port and [SO_REUSEPORT]. *)
Theorem bind_total os tokio_bind lookup_host local_addr addr c :
  Built c ->
  match bind_with_config os tokio_bind lookup_host local_addr addr c with
  | BindPanicked => False
  | BindFailed _ => True
  | Bound ls _ =>
      Z.of_nat (List.length ls) = accept_workers c /\
      (1 < accept_workers c -> reuse_port c = true /\
        exists sa, sa_port sa <> 0 /\
          ls = replicate (Z.to_nat (accept_workers c)) (TunedListener sa))
  end.
Proof.
  intros Hb. pose proof (built_accept_workers c Hb) as Hw.
  assert (forall ls, fst (bind_listeners os tokio_bind lookup_host addr c []) = Ok ls ->
    Z.of_nat (List.length ls) = accept_workers c /\
    (1 < accept_workers c -> reuse_port c = true /\
      exists sa, sa_port sa <> 0 /\
        ls = replicate (Z.to_nat (accept_workers c)) (TunedListener sa))) as Hls.
  { intros ls. unfold bind_listeners.
    destruct (Z.ltb_spec 1 (accept_workers c)) as [H1|H1].
    - destruct (reuse_port c) eqn:Er; [|done]. cbn [andb negb].
      replace (needs_tuned_listener c) with true by (unfold needs_tuned_listener; by rewrite Er).
      cbn [negb]. destruct (lookup_host addr) as [[|sa sas]|]; try done.
      destruct (Z.eqb_spec (sa_port sa) 0); [done|].
      destruct (bind_sockets _ _ _ _ _) as [[ls'|e] log] eqn:Eb; [|done].
      intros [= <-]. apply bind_sockets_ok in Eb as ->. rewrite length_replicate.
      split; [lia|eauto].
    - cbn [andb]. replace (accept_workers c) with 1 in * by lia.
      destruct (needs_tuned_listener c); cbn [negb].
      + destruct (lookup_host addr) as [[|sa sas]|]; try done. cbn [Z.to_nat].
        destruct (bind_sockets _ _ _ _ _) as [[ls'|e] log] eqn:Eb; [|done].
        intros [= <-]. apply bind_sockets_ok in Eb as ->. split; [done|lia].
      + destruct (tokio_bind addr); [done|]. intros [= <-]. split; [done|lia]. }
  unfold bind_with_config. destruct (fst _) as [[|l ls]|e]; [|destruct (local_addr l); auto|done].
  destruct (Hls [] eq_refl) as [Hl _]. cbn in Hl. lia.
Qed.

(** The handshake limit covers the whole connection: behind TLS with a limit, a
    connection whose handshake succeeded in time is cut at the limit however
    much it has still to do, where a plain one is not. *)
Lemma tls_connection_cut limit c t busy :
  handshake_timeout c = Some limit -> 0 <= t < limit -> conn_done busy = None ->
  connection_task Tls c (Some (t, true)) busy None = Some limit /\
  connection_task Plain c None busy None = None /\
  forall h conn sd, exists e, connection_task Tls c h conn sd = Some e /\ e <= limit.
Proof.
  intros Hl Ht Hb. unfold connection_task, handshake_block, timeout, run_connection.
  rewrite Hl, Hb. split; [done|]. split; [done|]. intros h conn sd.
  eexists. split; [reflexivity|]. case_match; lia.
Qed.

(** The 503 has no [Content-Length] header: its text follows nine spaces, so
    the line continues the header line before it. *)
Lemma reject_response_no_content_length :
  existsb (starts_with "Content-Length:")
    (map (trim_end_matches (byte_of_val 13)) (str_split (byte_of_val 10) reject_response)) = false /\
  str_contains "         Content-Length: 42" reject_response = true.
Proof. by vm_compute. Qed.

(** *** Witnesses *)

Module ServerDemo.
Definition sa (port : Z) : SocketAddr := mkAddr (V4 [127; 0; 0; 1]) port.
Definition stream (port : Z) : Stream := mkStream (sa port) (fun _ => None).
Definition config : ServerConfig := set_max_connections 1 server_config_default.
Definition shutdown : ShutdownConfig := on_connected (on_disconnected shutdown_config_default).

(** One connection is admitted, a second turned away, the first ends after the
    shutdown signal. *)
Definition labels : list Label :=
  [LNext (Ok (stream 1)); LLoad; LCompareExchange true; LCompareExchange false; LSpawn;
   LPoll 0; LNext (Ok (stream 2)); LLoad; LCompareExchange false; LWake; LSignal;
   LEnd 0; LJoin 0; LDrained].
Definition before_drain : list Label := take 11 labels.
Definition after_signal : list Label := drop 11 labels.
Definition info : ConnectionInfo := mkInfo (sa 80) (sa 1).
Definition returned (hooks ran : list Hook) : State := mkState (Returned (Ok tt)) 0 [] true hooks ran.
Definition drained : State := returned [OnConnected info; OnDisconnected info] [].
Definition draining : State :=
  mkState Draining 1 [mkTask info Running false] true [OnConnected info] [].

(** The connection that is left never ends: the timeout aborts it. *)
Definition after_timeout : list Label :=
  [LHook 0; LDrainTimeout; LKill 0; LJoin 0; LHook 0; LDrained].
End ServerDemo.
Import ServerDemo.

Lemma run_reachable addr c sh ls s s' :
  run addr c sh ls s = Some s' -> rtc (step addr c sh) s s'.
Proof.
  revert s; induction ls as [|l ls IH]; intros s; cbn; [by intros [= ->]|].
  destruct (exec addr c sh l s) as [s1|] eqn:He; [|done]. cbn. intros Hr.
  eapply rtc_l; [by eapply step_label|]. by apply IH.
Qed.

Lemma admission_bound_witness : live draining <= active draining <= 1.
Proof.
  apply (admission_bound (sa 80) config shutdown 1 draining).
  - reflexivity.
  - by vm_compute.
  - apply (run_reachable _ _ _ before_drain). reflexivity.
Defined.

Lemma drain_terminates_witness :
  (List.length after_timeout <= drain_measure draining)%nat /\
  run (sa 80) config shutdown after_timeout draining =
    Some (returned [] [OnConnected info; OnDisconnected info]).
Proof.
  destruct (drain_terminates (sa 80) config shutdown draining after_timeout
    (returned [] [OnConnected info; OnDisconnected info])) as (Hlen & _ & _); [reflexivity|reflexivity|].
  split; [exact Hlen|reflexivity].
Defined.

Lemma hooks_balanced_witness :
  active drained = 0 /\ connected (spawned drained) ≡ₚ disconnected (spawned drained).
Proof.
  destruct (hooks_balanced (sa 80) config shutdown labels drained) as (Ha & Hb & _).
  - intros m [= <-]. by vm_compute.
  - reflexivity.
  - reflexivity.
  - reflexivity.
  - unfold labels. intros H. repeat (apply elem_of_cons in H as [H|H]; [discriminate|]).
    by apply elem_of_nil in H.
  - reflexivity.
  - by split.
Defined.

(** A hook is a detached task: the server may return before any has run, and a
    connection's two hooks may run in either order. *)
Lemma hooks_unordered :
  run (sa 80) config shutdown labels init = Some drained /\ ran drained = [] /\
  run (sa 80) config shutdown (labels ++ [LHook 1; LHook 0]) init =
    Some (returned [] [OnDisconnected info; OnConnected info]).
Proof. by vm_compute. Qed.

Lemma accept_error_outcome_witness :
  exec (sa 80) config shutdown (LNext (Err (mkIoError OtherKind (Some EMFILE) ""))) init =
  Some (at_phase (Backoff 100) init).
Proof.
  rewrite (proj1 (accept_error_outcome (sa 80) config shutdown
    (mkIoError OtherKind (Some EMFILE) "") init eq_refl)). reflexivity.
Defined.

Lemma bind_total_witness :
  match bind_with_config (fun _ _ => None) (fun _ => None) (fun _ => Ok [sa 80]) (fun _ => Ok (sa 80))
    "h:80" (set_reuse_port true (set_accept_workers 2 server_config_default)) with
  | Bound ls _ => Z.of_nat (List.length ls) = 2
  | _ => False
  end.
Proof.
  refine (proj1 (bind_total (fun _ _ => None) (fun _ => None) (fun _ => Ok [sa 80])
    (fun _ => Ok (sa 80)) "h:80" (set_reuse_port true (set_accept_workers 2 server_config_default)) _)).
  repeat (apply built_step; [constructor|]); constructor.
Defined.
