(* ===== verification/AcceptWorkers.v ===== *)
(** * Accept workers: listeners, channel and accept loop together

    [AcceptWorkers] and [spawn_accept_workers] of [arvik-hyper/src/server.rs],
    and the composition of the workers with the accept loop of [Server].  Each
    listener has a task that accepts connections and hands them over a bounded
    channel the loop receives from; a step is one worker's move between two of
    its awaits, or a step of the loop and its connection tasks.

    tokio's channel is a queue of at most its capacity: a send waits for room
    and fails once the receiver is dropped, a receive takes the oldest item and
    ends when every sender is gone.  What was accepted and what the loop
    received, and from which listener, is kept as ghost state. *)
From S2P Require Import Prelude RustStr Http ServerConfig Server.
From stdpp Require Import base list strings relations.
From Stdlib Require Import ZArith Lia.
Open Scope list_scope.

Definition AcceptResult : Type := result Stream IoError.

(** ** The workers *)

(** Where a worker is: in [listener.accept().await], asleep after an error, in
    [sender.send(..).await], or ended (it returned or was cancelled), with the
    result it held then. *)
Inductive Worker :=
| Accepting
| Pacing (err : IoError)
| Sending (r : AcceptResult)
| Stopped (held : option AcceptResult).

(** The workers with their channel: [aborting] after [tasks.abort_all()],
    [closed] after the receiver is dropped. *)
Record Pool := mkPool {
  workers : list Worker;
  channel : list (nat * AcceptResult);
  aborting : bool;
  closed : bool;
  accepted : list (nat * AcceptResult);
  delivered : list (nat * AcceptResult) }.

Definition CAPACITY : nat := 1024.

Definition spawn_accept_workers (listeners : list Listener) : Pool :=
  mkPool (map (fun _ => Accepting) listeners) [] false false [] [].

Definition set_worker (i : nat) (w : Worker) (p : Pool) : Pool :=
  mkPool (<[i := w]> (workers p)) (channel p) (aborting p) (closed p) (accepted p) (delivered p).
Definition log_accepted (i : nat) (r : AcceptResult) (p : Pool) : Pool :=
  mkPool (workers p) (channel p) (aborting p) (closed p) (accepted p ++ [(i, r)]) (delivered p).
Definition channel_push (i : nat) (r : AcceptResult) (p : Pool) : Pool :=
  mkPool (workers p) (channel p ++ [(i, r)]) (aborting p) (closed p) (accepted p) (delivered p).

(** A success is sent at once, an error after ten milliseconds. *)
Definition after_accept (r : AcceptResult) : Worker :=
  match r with Ok _ => Sending r | Err err => Pacing err end.

Definition in_hand (w : Worker) : list AcceptResult :=
  match w with
  | Accepting => []
  | Pacing err => [Err err]
  | Sending r => [r]
  | Stopped held => match held with Some r => [r] | None => [] end
  end.

Definition is_stopped (w : Worker) : bool := match w with Stopped _ => true | _ => false end.

Inductive WorkerLabel :=
| WAccept (i : nat) (r : AcceptResult)
| WSlept (i : nat)
| WSend (i : nat)
| WStop (i : nat).

(** The channel has a free place. *)
Definition has_room (p : Pool) : bool := (length (channel p) <? CAPACITY)%nat.
#[local] Arguments has_room : simpl never.

(** One move of a worker; [None] when it has to wait. *)
Definition worker_exec (l : WorkerLabel) (p : Pool) : option Pool :=
  match l with
  | WAccept i r =>
      match workers p !! i with
      | Some Accepting => Some (log_accepted i r (set_worker i (after_accept r) p))
      | _ => None
      end
  | WSlept i =>
      match workers p !! i with
      | Some (Pacing err) => Some (set_worker i (Sending (Err err)) p)
      | _ => None
      end
  | WSend i =>
      match workers p !! i with
      | Some (Sending r) =>
          if closed p then Some (set_worker i (Stopped (Some r)) p)
          else if has_room p
               then Some (channel_push i r (set_worker i Accepting p))
               else None
      | _ => None
      end
  | WStop i =>
      match workers p !! i with
      | Some w =>
          if aborting p && negb (is_stopped w)
          then Some (set_worker i (Stopped (head (in_hand w))) p) else None
      | None => None
      end
  end.

(** [accepted.recv()] with an item, and its end. *)
Definition channel_recv (p : Pool) : option (AcceptResult * Pool) :=
  match channel p with
  | (i, r) :: rest =>
      Some (r, mkPool (workers p) rest (aborting p) (closed p) (accepted p) (delivered p ++ [(i, r)]))
  | [] => None
  end.
Definition all_stopped (p : Pool) : bool := forallb is_stopped (workers p).
Definition recv_none (p : Pool) : bool :=
  match channel p with [] => all_stopped p | _ => false end.

(** ** With the accept loop *)

(** Leaving the loop aborts the workers; returning drops the receiver and the
    [JoinSet] of the workers. *)
Definition settle (ph : Phase) (p : Pool) : Pool :=
  match ph with
  | Returned _ => mkPool (workers p) (channel p) true true (accepted p) (delivered p)
  | Draining | Aborting =>
      mkPool (workers p) (channel p) true (closed p) (accepted p) (delivered p)
  | _ => p
  end.

Record Served := mkServed { pool : Pool; loop : State }.

Inductive ServedLabel :=
| SWorker (l : WorkerLabel)
| SRecv | SRecvNone
| SLoop (l : Label).

Section Served.
Variable addr : SocketAddr.
Variable config : ServerConfig.
Variable shutdown : ShutdownConfig.

Definition loop_step (l : Label) (p : Pool) (s : State) : option Served :=
  s' ← exec addr config shutdown l s;
  Some (mkServed (settle (phase s') p) s').

(** [drain_connections] starts when every worker has been joined. *)
Definition waits_for_workers (l : Label) (s : State) : bool :=
  match l with
  | LDrained | LDrainTimeout => true
  | LJoin _ => negb (match phase s with Select => true | _ => false end)
  | _ => false
  end.

Definition served_exec (l : ServedLabel) (s : Served) : option Served :=
  match l with
  | SWorker l => p ← worker_exec l (pool s); Some (mkServed p (loop s))
  | SRecv => '(r, p) ← channel_recv (pool s); loop_step (LNext r) p (loop s)
  | SRecvNone => if recv_none (pool s) then loop_step LChannelClosed (pool s) (loop s) else None
  | SLoop l =>
      match l with
      | LNext _ | LChannelClosed => None
      | _ =>
          if waits_for_workers l (loop s) && negb (all_stopped (pool s)) then None
          else loop_step l (pool s) (loop s)
      end
  end.

Inductive served_step (s s' : Served) : Prop :=
| served_step_label l : served_exec l s = Some s' -> served_step s s'.

(** What a server reaches from its listeners. *)
Definition served_init (listeners : list Listener) : Served :=
  mkServed (spawn_accept_workers listeners) init.
Definition served_reachable (listeners : list Listener) (s : Served) : Prop :=
  rtc served_step (served_init listeners) s.

(** The accept results among the labels of a run. *)
Definition nexts (ls : list Label) : list AcceptResult :=
  omap (fun l => match l with LNext r => Some r | _ => None end) ls.

(** The entries of one listener, in order. *)
Definition from_listener (i : nat) (q : list (nat * AcceptResult)) : list AcceptResult :=
  omap (fun e => if decide (fst e = i) then Some (snd e) else None) q.

Definition hand_of (i : nat) (p : Pool) : list AcceptResult :=
  match workers p !! i with Some w => in_hand w | None => [] end.
Definition hands (ws : list Worker) : nat := sum_list (map (fun w => length (in_hand w)) ws).

#[local] Arguments from_listener : simpl never.
#[local] Arguments hands : simpl never.

(** ** The invariant of the workers *)

Record pool_ok (n : nat) (p : Pool) : Prop := mkPoolOk {
  po_order : forall i, from_listener i (accepted p) = from_listener i (delivered p) ++ from_listener i (channel p) ++ hand_of i p;
  po_room : (length (channel p) <= CAPACITY)%nat;
  po_count : length (accepted p) = (length (delivered p) + length (channel p) + hands (workers p))%nat;
  po_workers : length (workers p) = n }.

Lemma from_app i q q' : from_listener i (q ++ q') = from_listener i q ++ from_listener i q'.
Proof. apply omap_app. Qed.

Lemma from_single i j r : from_listener i [(j, r)] = if decide (j = i) then [r] else [].
Proof. unfold from_listener. cbn. by case_decide. Qed.

Lemma in_hand_le w : (length (in_hand w) <= 1)%nat.
Proof. destruct w as [| | |[]]; cbn; lia. Qed.

Lemma hands_le ws : (hands ws <= length ws)%nat.
Proof.
  unfold hands. induction ws as [|w ws IH]; [done|]. cbn. pose proof (in_hand_le w). lia.
Qed.

Lemma hands_insert ws i w w' :
  ws !! i = Some w ->
  (hands (<[i := w']> ws) + length (in_hand w) = hands ws + length (in_hand w'))%nat.
Proof.
  unfold hands. revert i; induction ws as [|u ws IH]; intros [|i] Hi; cbn in Hi; try done.
  - injection Hi as ->. cbn. lia.
  - change (<[S i := w']> (u :: ws)) with (u :: <[i := w']> ws). specialize (IH i Hi). cbn. lia.
Qed.

Lemma hand_of_set i j w w' p :
  workers p !! i = Some w ->
  hand_of j (set_worker i w' p) = if decide (i = j) then in_hand w' else hand_of j p.
Proof.
  intros Hi. unfold hand_of. cbn. case_decide as Hd.
  - subst. rewrite list_lookup_insert_eq; [done|]. by eapply lookup_lt_Some.
  - by rewrite list_lookup_insert_ne.
Qed.

Lemma hand_of_at i w p : workers p !! i = Some w -> hand_of i p = in_hand w.
Proof. unfold hand_of. by intros ->. Qed.

(** A move that only changes what a worker holds and what it was given or gave. *)
Lemma pool_ok_move n p i w w' got gave p' :
  pool_ok n p -> workers p !! i = Some w ->
  workers p' = <[i := w']> (workers p) ->
  accepted p' = accepted p ++ map (pair i) got ->
  channel p' = channel p ++ map (pair i) gave ->
  delivered p' = delivered p ->
  in_hand w ++ got = gave ++ in_hand w' ->
  (length (channel p') <= CAPACITY)%nat -> pool_ok n p'.
Proof.
  intros [Ho Hr Hc Hn] Hi Hw Ha Hch Hd He Hroom.
  assert (forall j l, from_listener j (map (pair i) l) = if decide (i = j) then l else []) as Hf.
  { intros j l. induction l as [|r l IH]; unfold from_listener in *; cbn; [by case_decide|].
    rewrite IH. by repeat case_decide. }
  split; [|done| |].
  - intros j. rewrite Ha, Hch, Hd, !from_app, !Hf, Ho.
    assert (hand_of j p' = if decide (i = j) then in_hand w' else hand_of j p) as ->.
    { pose proof (hand_of_set i j w w' p Hi) as E. unfold hand_of in *. by rewrite Hw. }
    case_decide; subst; rewrite ?app_nil_r; [|done].
    rewrite (hand_of_at _ _ _ Hi), <- !app_assoc. by rewrite He.
  - rewrite Ha, Hch, Hd, Hw, !length_app, !length_map, Hc.
    apply (f_equal length) in He. rewrite !length_app in He.
    pose proof (hands_insert _ _ _ w' Hi). lia.
  - by rewrite Hw, length_insert.
Qed.

Lemma pool_ok_step n l p p' : worker_exec l p = Some p' -> pool_ok n p -> pool_ok n p'.
Proof.
  intros He Hp. pose proof (po_room n p Hp) as Hr. destruct l as [i r|i|i|i]; cbn in He;
    destruct (workers p !! i) as [w|] eqn:Hi; try done.
  - destruct w; try done. injection He as <-.
    apply (pool_ok_move n p i Accepting (after_accept r) [r] []); try done; cbn; [by rewrite app_nil_r|].
    by destruct r.
  - destruct w as [|err| |]; try done. injection He as <-.
    by apply (pool_ok_move n p i (Pacing err) (Sending (Err err)) [] []); try done; cbn; rewrite app_nil_r.
  - destruct w as [| |r|]; try done. destruct (closed p).
    + injection He as <-.
      by apply (pool_ok_move n p i (Sending r) (Stopped (Some r)) [] []); try done; cbn; rewrite app_nil_r.
    + destruct (has_room p) eqn:Hlt; [|done]. apply Nat.ltb_lt in Hlt. injection He as <-.
      apply (pool_ok_move n p i (Sending r) Accepting [] [r]); try done; cbn; rewrite ?app_nil_r; try done.
      rewrite length_app. cbn. lia.
  - destruct (aborting p && negb (is_stopped w)); [|done]. injection He as <-.
    apply (pool_ok_move n p i w (Stopped (head (in_hand w))) [] []); try done; cbn; rewrite ?app_nil_r;
      try done. by destruct w as [| | |[]].
Qed.

Lemma pool_ok_recv n p r p' : channel_recv p = Some (r, p') -> pool_ok n p -> pool_ok n p'.
Proof.
  unfold channel_recv. destruct (channel p) as [|[i x] rest] eqn:Hch; [done|]. intros [= <- <-] [Ho Hr Hc Hn].
  rewrite Hch in *. cbn [length] in *. split; cbn; [|lia| |done].
  - intros j. change ((i, x) :: rest) with ([(i, x)] ++ rest) in Ho.
    specialize (Ho j). rewrite from_app in Ho |- *. by rewrite Ho, <- !app_assoc.
  - rewrite length_app, Hc. cbn. lia.
Qed.

Lemma pool_ok_settle n ph p : pool_ok n p -> pool_ok n (settle ph p).
Proof. intros [Ho Hr Hc Hn]. by destruct ph; split. Qed.

(** ** The invariant of the whole *)

(** The loop is still in its [loop]. *)
Definition serving (ph : Phase) : bool :=
  match ph with Draining | Aborting | Returned _ => false | _ => true end.

Record served_ok (n : nat) (s : Served) : Prop := mkServedOk {
  so_pool : pool_ok n (pool s);
  so_calm : serving (phase (loop s)) = true ->
    aborting (pool s) = false /\ closed (pool s) = false /\
    Forall (fun w => is_stopped w = false) (workers (pool s));
  so_run : exists ls, run addr config shutdown ls init = Some (loop s) /\
    nexts ls = map snd (delivered (pool s)) }.

Lemma run_snoc ls l s s' s'' :
  run addr config shutdown ls s = Some s' -> exec addr config shutdown l s' = Some s'' ->
  run addr config shutdown (ls ++ [l]) s = Some s''.
Proof.
  revert s; induction ls as [|l' ls IH]; intros s Hr He; cbn in *.
  - injection Hr as ->. by rewrite He.
  - destruct (exec _ _ _ l' s) as [s1|]; [|done]. cbn in *. by apply IH.
Qed.

(** The loop never goes back to accepting. *)
Lemma serving_back l s s' :
  exec addr config shutdown l s = Some s' -> serving (phase s') = true -> serving (phase s) = true.
Proof.
  intros He Hs. destruct (serving (phase s)) eqn:E; [done|]. exfalso.
  assert (phase s' = phase s \/ serving (phase s') = false) as [H|H]; [|congruence..].
  destruct l as [| | | | | | | | |i|i|i|i|n|i].
  10-15: apply exec_task_inv in He.
  1-9: cbn in He; destruct (phase s); try done; try (destruct (connections s); [|done]);
    injection He as <-; by right.
  - by destruct He as (t & _ & _ & -> & _); left.
  - by destruct He as (t & _ & _ & _ & ->); left.
  - by destruct He as (t & _ & _ & _ & ->); left.
  - destruct He as (t & _ & _ & _ & ->); left. exact (proj1 (guard_drop_fields shutdown _ _)).
  - by destruct He as (h & _ & ->); left.
  - destruct He as (t & _ & _ & ->); left. exact (proj1 (guard_drop_fields shutdown _ _)).
Qed.

Lemma settle_fields ph p :
  workers (settle ph p) = workers p /\ delivered (settle ph p) = delivered p /\
  (serving ph = true -> settle ph p = p).
Proof. by destruct ph. Qed.

(** A step of the loop, with the results it received logged by the pool. *)
Lemma served_ok_loop n l p p' s s' :
  served_ok n (mkServed p s) -> pool_ok n p' ->
  workers p' = workers p -> aborting p' = aborting p -> closed p' = closed p ->
  map snd (delivered p') = map snd (delivered p) ++ nexts [l] ->
  loop_step l p' s = Some s' -> served_ok n s'.
Proof.
  intros [_ Hcalm [ls [Hr Hls]]] Hp Hw Ha Hc Hd. unfold loop_step. cbn [pool loop] in *.
  destruct (exec _ _ _ l s) as [s1|] eqn:He; [|done]. cbn. intros [= <-].
  destruct (settle_fields (phase s1) p') as (Hsw & Hsd & Hss). split; cbn [pool loop].
  - by apply pool_ok_settle.
  - intros Hs. rewrite Hss, Hw, Ha, Hc by done. apply Hcalm. by eapply serving_back.
  - exists (ls ++ [l]). split; [by eapply run_snoc|]. rewrite Hsd, Hd, <- Hls. apply omap_app.
Qed.

Lemma worker_exec_calm l p p' : worker_exec l p = Some p' ->
  aborting p' = aborting p /\ closed p' = closed p /\ delivered p' = delivered p /\
  (aborting p = false -> closed p = false ->
   Forall (fun w => is_stopped w = false) (workers p) ->
   Forall (fun w => is_stopped w = false) (workers p')).
Proof.
  intros He. destruct l as [i r|i|i|i]; cbn in He; destruct (workers p !! i) as [w|] eqn:Hi; try done.
  1-3: destruct w; try done.
  3: destruct (closed p) eqn:Ec; [|destruct (has_room p); [|done]].
  5: destruct (aborting p) eqn:Ea; [|done]; destruct (negb (is_stopped w)); [|done].
  all: injection He as <-; cbn; split_and!; try done; intros ? ? Hall; try done;
    apply Forall_insert; try done; by destruct r.
Qed.

Lemma served_ok_step n s s' : served_step s s' -> served_ok n s -> served_ok n s'.
Proof.
  intros [l He] Hs. destruct s as [p s]. pose proof (so_pool n _ Hs) as Hp. cbn [pool] in Hp.
  destruct l as [l| | |l]; cbn [served_exec pool loop] in He.
  - destruct (worker_exec l p) as [p'|] eqn:Hw; [|done]. cbn in He. injection He as <-.
    destruct Hs as [_ Hc Hr]. destruct (worker_exec_calm l p p' Hw) as (Ha & Hcl & Hd & Hf).
    split; cbn [pool loop] in *; [by eapply pool_ok_step| |by rewrite Hd].
    intros Hsv. rewrite Ha, Hcl. destruct (Hc Hsv) as (?&?&?). split_and!; auto.
  - destruct (channel_recv p) as [[r p']|] eqn:Er; [|done].
    change (loop_step (LNext r) p' s = Some s') in He.
    eapply served_ok_loop; [exact Hs|by eapply pool_ok_recv| | | | |exact He];
      revert Er; unfold channel_recv; destruct (channel p) as [|[i x] rest]; try done;
      intros [= <- <-]; try done. cbn. by rewrite map_app.
  - destruct (recv_none p); [|done].
    eapply served_ok_loop; [exact Hs|exact Hp|done..| |exact He]. cbn. by rewrite app_nil_r.
  - assert (nexts [l] = [] /\ loop_step l p s = Some s') as [Hn Hl].
    { destruct l; cbn in He |- *; try done; repeat case_match; done. }
    eapply served_ok_loop; [exact Hs|exact Hp|done..| |exact Hl]. by rewrite Hn, app_nil_r.
Qed.

Lemma served_ok_init listeners : served_ok (length listeners) (served_init listeners).
Proof.
  split; cbn.
  - split; cbn; [|unfold CAPACITY; lia| |by rewrite length_map].
    + intros i. unfold hand_of. cbn. rewrite list_lookup_fmap. by destruct (listeners !! i).
    + induction listeners as [|x xs IH]; [done|]. exact IH.
  - intros _. split_and!; [done..|]. apply Forall_forall. intros w Hw%list_elem_of_In%in_map_iff.
    by destruct Hw as (x & <- & _).
  - by exists [].
Qed.

Lemma served_reachable_ok listeners s :
  served_reachable listeners s -> served_ok (length listeners) s.
Proof.
  intros Hr. pose proof (served_ok_init listeners) as Hi. revert Hi.
  unfold served_reachable in Hr. induction Hr as [|s1 s2 s3 Hs Hr IH]; [done|].
  eauto using served_ok_step.
Qed.

(** While the loop selects, a worker either waits for a connection, or can move
    by itself, or waits for the room that receiving makes. *)
Definition moves (i : nat) (w : Worker) (s : Served) : Prop :=
  w = Accepting \/
  (exists l s', l ∈ [WSlept i; WSend i] /\ served_exec (SWorker l) s = Some s') \/
  (exists s', served_exec SRecv s = Some s').

Lemma selecting_moves n s i w :
  served_ok n s -> phase (loop s) = Select -> workers (pool s) !! i = Some w -> moves i w s.
Proof.
  intros [Hp Hc _] Hs Hi. rewrite Hs in Hc. destruct (Hc eq_refl) as (_ & Hcl & Hall).
  pose proof (Forall_lookup_1 _ _ _ _ Hall Hi) as Hw. destruct w as [|err|r|]; cbn in Hw; try done.
  - by left.
  - right; left. exists (WSlept i). cbn. rewrite Hi. cbn. eexists. split; [set_solver|done].
  - right. destruct (has_room (pool s)) eqn:Hlt.
    + left. exists (WSend i). cbn. rewrite Hi, Hcl, Hlt. cbn.
      eexists. split; [set_solver|done].
    + right. cbn. unfold channel_recv, loop_step. destruct (channel (pool s)) as [|[j x] rest] eqn:Hch.
      { unfold has_room in Hlt. by rewrite Hch in Hlt. }
      cbn. rewrite Hs. cbn. by eexists.
Qed.

Lemma channel_stays_open n s :
  served_ok n s -> (0 < n)%nat -> served_exec SRecvNone s = None.
Proof.
  intros [Hp Hc _] Hn. cbn. unfold recv_none. destruct (channel (pool s)); [|done].
  destruct (all_stopped (pool s)) eqn:Ha; [|done]. unfold loop_step. cbn.
  destruct (phase (loop s)) eqn:Hs; try done. destruct (Hc eq_refl) as (_ & _ & Hall).
  exfalso. pose proof (po_workers _ _ Hp) as Hl. unfold all_stopped in Ha.
  destruct (workers (pool s)) as [|w ws]; [cbn in Hl; lia|].
  apply Forall_cons in Hall as [Hw _]. cbn in Ha. by rewrite Hw in Ha.
Qed.

(** C12. The accept workers do not disturb the accept loop. Whatever the order in
    which listeners accept, workers move and the loop and its connections step,
    on a server bound by [bind_with_config]: the loop's state is one the accept
    loop alone reaches when it is given the results it received; what each
    listener accepted is, in order and without loss or repetition, what the loop
    received from it, then what waits in the channel, then what its worker
    holds; so at most 1024 results and one per listener are ever behind the
    loop; the channel never ends while the loop runs; and while the loop selects
    no worker is stuck. *)
Theorem accept_workers_refine os tokio_bind lookup_host local_addr a listeners s :
  bind_with_config os tokio_bind lookup_host local_addr a config = Bound listeners addr ->
  served_reachable listeners s ->
  (exists ls, run addr config shutdown ls init = Some (loop s) /\
    nexts ls = map snd (delivered (pool s))) /\
  (forall i, from_listener i (accepted (pool s)) =
    from_listener i (delivered (pool s)) ++ from_listener i (channel (pool s)) ++ hand_of i (pool s)) /\
  (length (channel (pool s)) <= 1024)%nat /\
  (length (accepted (pool s)) <= length (delivered (pool s)) + 1024 + length listeners)%nat /\
  served_exec SRecvNone s = None /\
  (phase (loop s) = Select -> forall i w, workers (pool s) !! i = Some w -> moves i w s).
Proof.
  intros Hb Hr%served_reachable_ok. pose proof (so_pool _ _ Hr) as Hp.
  assert (0 < length listeners)%nat as Hn.
  { unfold bind_with_config in Hb. destruct (fst _) as [[|l ls]|]; try done.
    destruct (local_addr l); [|done]. injection Hb as <- _. cbn. lia. }
  pose proof (po_room _ _ Hp). pose proof (hands_le (workers (pool s))) as Hh.
  pose proof (po_count _ _ Hp). rewrite (po_workers _ _ Hp) in Hh. unfold CAPACITY in *.
  split_and!; [apply Hr|apply Hp|lia|lia|by eapply channel_stays_open|].
  intros Hs i w. by apply (selecting_moves _ _ _ _ Hr Hs).
Qed.

(** Executing labels. *)
Fixpoint served_run (ls : list ServedLabel) (s : Served) : option Served :=
  match ls with
  | [] => Some s
  | l :: ls => served_exec l s ≫= served_run ls
  end.

Lemma served_run_reachable listeners ls s :
  served_run ls (served_init listeners) = Some s -> served_reachable listeners s.
Proof.
  unfold served_reachable. generalize (served_init listeners).
  induction ls as [|l ls IH]; intros s0 Hr; cbn in Hr; [by injection Hr as ->|].
  destruct (served_exec l s0) as [s1|] eqn:E; [|done]. cbn in Hr.
  eapply rtc_l; [by exists l|by apply IH].
Qed.
End Served.

(** ** At a concrete server

    Two listeners; both accept, the first also fails once, and a shutdown comes
    while one result is still in the channel and another in a worker's hand. *)
Module Demo.
Definition sa (port : Z) : SocketAddr := mkAddr (V4 [127; 0; 0; 1]%Z) port.
Definition conn (port : Z) : AcceptResult := Ok (mkStream (sa port) (fun _ => None)).
Definition config : ServerConfig :=
  set_reuse_port true (set_accept_workers 2 server_config_default).
Definition refused : AcceptResult := Err (mkIoError ConnectionAborted None "aborted").
Definition labels : list ServedLabel :=
  [SWorker (WAccept 0 (conn 1)); SWorker (WAccept 1 (conn 2)); SWorker (WSend 1);
   SWorker (WSend 0); SRecv; SLoop LLoad; SLoop LSpawn; SWorker (WAccept 0 refused);
   SWorker (WSlept 0); SWorker (WSend 0); SWorker (WAccept 1 (conn 3)); SRecv; SLoop LLoad;
   SLoop LSpawn; SLoop LSignal; SWorker (WStop 0); SWorker (WStop 1); SLoop (LPoll 0);
   SLoop LDrainTimeout].
Definition listeners : list Listener := [TunedListener (sa 80); TunedListener (sa 80)].
Definition final : option Served :=
  served_run (sa 80) config shutdown_config_default labels (served_init listeners).
Definition reached : Served := default (served_init listeners) final.
End Demo.

Lemma demo_reachable :
  served_reachable (Demo.sa 80) Demo.config shutdown_config_default Demo.listeners Demo.reached.
Proof. apply (served_run_reachable _ _ _ _ Demo.labels). vm_compute. reflexivity. Qed.

(** What the loop never received is dropped: the connection a worker held, and
    the error in the channel. *)
Example shutdown_drops_backlog :
  let p := pool Demo.reached in
  (map snd (channel p), hand_of 1 p, length (accepted p), length (delivered p)) =
  ([Demo.refused], [Demo.conn 3], 4, 2)%nat.
Proof. vm_compute. reflexivity. Qed.

Lemma accept_workers_refine_witness :
  served_exec (Demo.sa 80) Demo.config shutdown_config_default SRecvNone Demo.reached = None.
Proof.
  refine (proj1 (proj2 (proj2 (proj2 (proj2
    (accept_workers_refine (Demo.sa 80) Demo.config shutdown_config_default
      (fun _ _ => None) (fun _ => None) (fun _ => Ok [Demo.sa 80]) (fun _ => Ok (Demo.sa 80)) "h:80"
      Demo.listeners Demo.reached _ demo_reachable)))))).
  reflexivity.
Defined.
