(* ===== verification/FileWatch.v ===== *)
(** * Paths by components, and file events

    What the two hot reload watchers ([ConfigWatch], [Tls]) share: the part of
    [std::path] on Unix that compares paths and takes their parents, which works
    on components, and the kinds of event [notify] reports. *)
From S2P Require Import Prelude RustStr.
From stdpp Require Import base list strings.
From Stdlib Require Import Ascii String.
Open Scope string_scope.
Open Scope list_scope.

(** [std::path::Path] as its components. *)
Inductive PathComponent := RootDir | CurDir | ParentDir | Normal (name : string).
#[export] Instance path_component_eq_dec : EqDecision PathComponent.
Proof. solve_decision. Defined.
Definition FsPath := list PathComponent.

(** [Path::components]: empty components and those of a dot are skipped, but for
    a dot a relative path begins with. *)
Definition component (c : string) : option PathComponent :=
  if String.eqb c "" || String.eqb c "." then None
  else if String.eqb c ".." then Some ParentDir else Some (Normal c).
Definition fs_path_of (p : string) : FsPath :=
  if starts_with "/" p then RootDir :: omap component (str_split "/" p)
  else match str_split "/" p with
       | "." :: cs => CurDir :: omap component cs
       | cs => omap component cs
       end.

(** [Path::parent] and [Path::file_name]. *)
Definition path_parent (p : FsPath) : option FsPath :=
  match last p with Some RootDir | None => None | Some _ => Some (removelast p) end.
Definition path_file_name (p : FsPath) : option string :=
  match last p with Some (Normal n) => Some n | _ => None end.

(** [notify::EventKind], as far as the watchers tell them apart. *)
Inductive EventKind := EvAccess | EvCreate | EvModify | EvRemove | EvOther.

Example fs_path_of_samples :
  map fs_path_of ["arvik.toml"; "./a//b/"; "/etc/./x/.."; "/"; ""] =
    [[Normal "arvik.toml"]; [CurDir; Normal "a"; Normal "b"];
     [RootDir; Normal "etc"; Normal "x"; ParentDir]; [RootDir]; []] /\
  map path_parent (map fs_path_of ["arvik.toml"; "./a"; "/a"; "/"; ""]) =
    [Some []; Some [CurDir]; Some [RootDir]; None; None].
Proof. by vm_compute. Qed.
