(* ===== verification/ConfigValue.v ===== *)
(** * Configuration values: merging files and environment

    The value level of [arvik-config/src/lib.rs]: [serde_json::Value] and the
    operations the configuration pipeline runs on it, [merge_values],
    [set_path], [parse_env_override] and [apply_env].  A [Map] is a finite map:
    its keys are unique and nothing here depends on their order. *)
From S2P Require Import Prelude RustStr.
From stdpp Require Import base list strings gmap.
From Stdlib Require Import ZArith Lia Ascii String.
Open Scope string_scope.
Open Scope list_scope.

(** [serde_json::Number]: an integer of either sign, or the bits of a float. *)
Inductive Number := PosInt (n : Z) | NegInt (n : Z) | Float (bits : Z).

Inductive Value :=
| VNull
| VBool (b : bool)
| VNumber (n : Number)
| VString (s : string)
| VArray (l : list Value)
| VObject (m : gmap string Value).

Inductive ConfigError :=
| ErrIo (path : string)
| ErrToml (path : string)
| ErrJson (path : string)
| ErrUnsupportedExtension (path : string)
| ErrEnv (var message : string)
| ErrDecode
| ErrValidation (message : string)
| ErrAddress (addr : string)
| ErrWatch (message : string).

Definition is_object (v : Value) : bool := match v with VObject _ => true | _ => false end.

(** [as_object_mut] of a value just made an object when it was not one. *)
Definition object_or_empty (v : Value) : gmap string Value :=
  match v with VObject m => m | _ => ∅ end.

(** [merge_values]: for each entry of the overlay, [entry(key).or_insert(Null)]
    then the merge of what it holds. *)
Fixpoint merge_values (base overlay : Value) {struct overlay} : Value :=
  match base, overlay with
  | VObject b, VObject o =>
      VObject (map_fold
        (fun key value acc => <[key := merge_values (default VNull (acc !! key)) value]> acc) b o)
  | _, overlay => overlay
  end.

(** [set_path]; the last segment is inserted, the others are entered, made
    objects when they are not.  The paths of the table are not empty. *)
Fixpoint set_path (current : Value) (path : list string) (value : Value) : Value :=
  match path with
  | [] => current
  | [k] => VObject (<[k := value]> (object_or_empty current))
  | k :: path =>
      let m := object_or_empty current in
      VObject (<[k := set_path (default (VObject ∅) (m !! k)) path value]> m)
  end.

(** What a value holds at a path of keys. *)
Fixpoint get_path (v : Value) (path : list string) : option Value :=
  match path with
  | [] => Some v
  | k :: path =>
      match v with VObject m => m !! k ≫= (fun w => get_path w path) | _ => None end
  end.

(** ** Environment overrides *)

Definition u32_max : Z := 4294967295.

Definition parse_bool (var value : string) : result bool ConfigError :=
  let v := to_ascii_lowercase value in
  if bool_decide (v ∈ ["true"; "1"; "yes"; "on"]) then Ok true
  else if bool_decide (v ∈ ["false"; "0"; "no"; "off"]) then Ok false
  else Err (ErrEnv var "expected boolean value").

(** The three macros of [parse_env_override]; a number has its type's maximum
    and name. *)
Inductive EnvKind := EnvBool | EnvString | EnvNumber (max : Z) (ty : string).
Definition env_u16 := EnvNumber u16_max "u16".
Definition env_u32 := EnvNumber u32_max "u32".
Definition env_u64 := EnvNumber u64_max "u64".
Definition env_usize := EnvNumber usize_max "usize".

Definition parse_kind (k : EnvKind) (var value : string) : result Value ConfigError :=
  match k with
  | EnvBool => match parse_bool var value with Ok b => Ok (VBool b) | Err e => Err e end
  | EnvString => Ok (VString value)
  | EnvNumber max ty =>
      match parse_unsigned max value with
      | Some n => Ok (VNumber (PosInt n))
      | None => Err (ErrEnv var ("expected " +:+ ty))
      end
  end.

Definition env_table : list (string * (list string * EnvKind)) :=
  [("SERVER_HOST", (["server"; "host"], EnvString));
   ("SERVER_PORT", (["server"; "port"], env_u16));
   ("SERVER_WORKERS", (["server"; "workers"], env_usize));
   ("SERVER_BACKLOG", (["server"; "backlog"], env_u32));
   ("SERVER_MAX_CONNECTIONS", (["server"; "max_connections"], env_usize));
   ("SERVER_BODY_LIMIT", (["server"; "body_limit"], env_usize));
   ("SERVER_TCP_NODELAY", (["server"; "tcp_nodelay"], EnvBool));
   ("SERVER_TCP_KEEPALIVE_SECS", (["server"; "tcp_keepalive_secs"], env_u64));
   ("SERVER_TCP_KEEPALIVE_INTERVAL_SECS", (["server"; "tcp_keepalive_interval_secs"], env_u64));
   ("SERVER_TCP_KEEPALIVE_RETRIES", (["server"; "tcp_keepalive_retries"], env_u32));
   ("SERVER_REUSE_PORT", (["server"; "reuse_port"], EnvBool));
   ("SERVER_REUSE_ADDRESS", (["server"; "reuse_address"], EnvBool));
   ("SERVER_SOCKET_RECV_BUFFER_SIZE", (["server"; "socket_recv_buffer_size"], env_usize));
   ("SERVER_SOCKET_SEND_BUFFER_SIZE", (["server"; "socket_send_buffer_size"], env_usize));
   ("SERVER_ACCEPT_WORKERS", (["server"; "accept_workers"], env_usize));
   ("HTTP1_KEEP_ALIVE", (["http1"; "keep_alive"], EnvBool));
   ("HTTP1_HALF_CLOSE", (["http1"; "half_close"], EnvBool));
   ("HTTP1_TITLE_CASE_HEADERS", (["http1"; "title_case_headers"], EnvBool));
   ("HTTP1_PRESERVE_HEADER_CASE", (["http1"; "preserve_header_case"], EnvBool));
   ("HTTP1_PIPELINE_FLUSH", (["http1"; "pipeline_flush"], EnvBool));
   ("HTTP2_ONLY", (["http2"; "only"], EnvBool));
   ("HTTP2_ADAPTIVE_WINDOW", (["http2"; "adaptive_window"], EnvBool));
   ("HTTP2_INITIAL_STREAM_WINDOW_SIZE", (["http2"; "initial_stream_window_size"], env_u32));
   ("HTTP2_INITIAL_CONNECTION_WINDOW_SIZE",
     (["http2"; "initial_connection_window_size"], env_u32));
   ("HTTP2_MAX_CONCURRENT_STREAMS", (["http2"; "max_concurrent_streams"], env_u32));
   ("HTTP2_KEEP_ALIVE_INTERVAL_SECS", (["http2"; "keep_alive_interval_secs"], env_u64));
   ("HTTP2_KEEP_ALIVE_TIMEOUT_SECS", (["http2"; "keep_alive_timeout_secs"], env_u64));
   ("HTTP2_MAX_FRAME_SIZE", (["http2"; "max_frame_size"], env_u32));
   ("HTTP2_MAX_SEND_BUF_SIZE", (["http2"; "max_send_buf_size"], env_usize));
   ("HTTP2_MAX_HEADER_LIST_SIZE", (["http2"; "max_header_list_size"], env_u32));
   ("TLS_BACKEND", (["tls"; "backend"], EnvString));
   ("TLS_CERT_PATH", (["tls"; "cert_path"], EnvString));
   ("TLS_KEY_PATH", (["tls"; "key_path"], EnvString));
   ("TLS_PKCS12_PATH", (["tls"; "pkcs12_path"], EnvString));
   ("TLS_PKCS12_PASSWORD", (["tls"; "pkcs12_password"], EnvString));
   ("SHUTDOWN_DRAIN_TIMEOUT_SECS", (["shutdown"; "drain_timeout_secs"], env_u64))].

(** The [match] on the suffix: the first arm whose name it is. *)
Fixpoint env_lookup (suffix : string) (table : list (string * (list string * EnvKind))) :
    option (list string * EnvKind) :=
  match table with
  | [] => None
  | (name, arm) :: table => if String.eqb suffix name then Some arm else env_lookup suffix table
  end.

Definition parse_env_override (suffix var value : string) :
    result (option (list string * Value)) ConfigError :=
  match env_lookup suffix env_table with
  | Some (path, kind) =>
      match parse_kind kind var value with
      | Ok v => Ok (Some (path, v))
      | Err e => Err e
      end
  | None => Ok None
  end.

Definition suffix_starts_with_known_section (suffix : string) : bool :=
  let section := match str_split "_" suffix with s :: _ => s | [] => "" end in
  bool_decide (to_ascii_lowercase section ∈ ["server"; "http1"; "http2"; "shutdown"; "tls"]).

(** The variables of the process, [None] where not UTF-8. *)
Definition EnvVar : Type := option string * option string.

Fixpoint apply_env_vars (prefix : string) (vars : list EnvVar) (root : Value)
    (unknown : list string) : result (Value * list string) ConfigError :=
  match vars with
  | [] => Ok (root, unknown)
  | (Some var, Some value) :: vars =>
      match str_strip_prefix prefix var with
      | None => apply_env_vars prefix vars root unknown
      | Some suffix =>
          match parse_env_override suffix var value with
          | Err e => Err e
          | Ok (Some (path, v)) => apply_env_vars prefix vars (set_path root path v) unknown
          | Ok None =>
              if suffix_starts_with_known_section suffix
              then apply_env_vars prefix vars root (unknown ++ [var])
              else apply_env_vars prefix vars root unknown
          end
      end
  | _ :: vars => apply_env_vars prefix vars root unknown
  end.

Definition env_prefix_of (prefix : string) : string := trim_end_matches "_" prefix +:+ "_".

Definition unknown_message (prefix : string) (unknown : list string) : string :=
  "unknown configuration environment variable(s): " +:+ str_join ", " unknown +:+
  ". Expected names              prefixed with `" +:+ prefix +:+ "` (e.g. " +:+ prefix +:+
  "SERVER_PORT); check for typos.".

Definition apply_env (root : Value) (prefix : string) (vars : list EnvVar) :
    result Value ConfigError :=
  let prefix := env_prefix_of prefix in
  match apply_env_vars prefix vars root [] with
  | Err e => Err e
  | Ok (root, []) => Ok root
  | Ok (_, unknown) => Err (ErrValidation (unknown_message prefix unknown))
  end.

(** ** Merging *)

Lemma merge_lookup (b o : gmap string Value) (k : string) :
  map_fold (fun key value acc => <[key := merge_values (default VNull (acc !! key)) value]> acc) b o
    !! k =
  match o !! k with
  | Some v => Some (merge_values (default VNull (b !! k)) v)
  | None => b !! k
  end.
Proof.
  revert k. apply (map_fold_weak_ind (fun acc m => forall k, acc !! k =
    match m !! k with
    | Some v => Some (merge_values (default VNull (b !! k)) v) | None => b !! k end)); [done|].
  intros i v m acc Hi IH k. destruct (decide (i = k)) as [->|Hne].
  - rewrite !lookup_insert_eq. f_equal. specialize (IH k). rewrite Hi in IH. by rewrite IH.
  - by rewrite !lookup_insert_ne by done.
Qed.

Lemma merge_null v : merge_values VNull v = v.
Proof. by destruct v. Qed.

(** How an overlay covers a path: it holds a value there, it has an object on
    the way that stops short of it, or it holds something else on the way. *)
Inductive Coverage := Covers (v : Value) | Silent | Blocks.

Fixpoint coverage (overlay : Value) (path : list string) : Coverage :=
  match path with
  | [] => Covers overlay
  | k :: path =>
      match overlay with
      | VObject o => match o !! k with Some v => coverage v path | None => Silent end
      | _ => Blocks
      end
  end.

Lemma get_path_coverage v path :
  get_path v path = match coverage v path with Covers w => Some w | _ => None end.
Proof.
  revert v; induction path as [|k path IH]; intros v; [done|]. cbn.
  destruct v as [| | | | |m]; try done. destruct (m !! k); [apply IH|done].
Qed.

(** ** Paths *)

Lemma object_or_empty_get v k path :
  get_path v (k :: path) = object_or_empty v !! k ≫= (fun w => get_path w path).
Proof. by destruct v; cbn; rewrite ?lookup_empty. Qed.

Lemma get_path_object m k path :
  get_path (VObject m) (k :: path) = m !! k ≫= (fun w => get_path w path).
Proof. done. Qed.

Lemma set_path_cons v k path value :
  path <> [] ->
  set_path v (k :: path) value =
    VObject (<[k := set_path (default (VObject ∅) (object_or_empty v !! k)) path value]>
      (object_or_empty v)).
Proof. by destruct path. Qed.

Lemma get_set_path_eq v path value :
  path <> [] -> get_path (set_path v path value) path = Some value.
Proof.
  revert v; induction path as [|k path IH]; intros v Hne; [done|].
  destruct (decide (path = [])) as [->|Hp].
  - cbn. by rewrite lookup_insert_eq.
  - rewrite set_path_cons, get_path_object, lookup_insert_eq by done. cbn. by apply IH.
Qed.

(** Paths that part ways: neither is a prefix of the other. *)
Fixpoint diverge (p q : list string) : Prop :=
  match p, q with
  | k :: p, j :: q => if decide (k = j) then diverge p q else True
  | _, _ => False
  end.

Lemma get_set_path_ne v p q value :
  diverge p q -> get_path (set_path v p value) q = get_path v q.
Proof.
  revert v q; induction p as [|k p IH]; intros v q Hd; [done|].
  destruct q as [|j q]; [done|]. cbn in Hd. rewrite (object_or_empty_get v).
  destruct (decide (p = [])) as [->|Hp].
  - destruct (decide (k = j)) as [->|Hne]; [done|].
    cbn [set_path]. by rewrite get_path_object, lookup_insert_ne.
  - rewrite set_path_cons, get_path_object by done.
    destruct (decide (k = j)) as [->|Hne]; [|by rewrite lookup_insert_ne].
    rewrite lookup_insert_eq. cbn. rewrite IH by done.
    destruct (object_or_empty v !! j); [done|]. cbn.
    destruct q as [|i q]; [by destruct p|]. by rewrite get_path_object, lookup_empty.
Qed.

Lemma diverge_pair (a b c d : string) : [a; b] <> [c; d] -> diverge [a; b] [c; d].
Proof. intros H. cbn. repeat case_decide; subst; done. Qed.

(** Every arm of the table writes below one section. *)
Lemma env_table_paths suffix p k :
  env_lookup suffix env_table = Some (p, k) -> exists s f, p = [s; f].
Proof.
  assert (Forall (fun e => exists s f, fst (snd e) = [s; f]) env_table) as H
    by (repeat constructor; eauto).
  revert H. generalize env_table. induction l as [|[n [p' k']] l IH]; [done|].
  intros [Hp Hl]%Forall_cons. cbn. destruct (String.eqb suffix n); [|by apply IH].
  intros [= <- <-]. exact Hp.
Qed.

(** ** Properties *)

(** C27. What a file says wins over what came before it, key by key, and what it
    does not say is kept: after merging an overlay, a path the overlay covers
    holds the overlay's value (merged into the base's when both are objects,
    and exactly the overlay's otherwise), a path the overlay is silent about
    holds what the base held, and a path below something the overlay made a
    non-object holds nothing. *)
Theorem merge_precedence base overlay path :
  get_path (merge_values base overlay) path =
  match coverage overlay path with
  | Covers v => Some (merge_values (default VNull (get_path base path)) v)
  | Silent => get_path base path
  | Blocks => None
  end.
Proof.
  revert base overlay; induction path as [|k path IH]; intros base overlay; [done|].
  destruct overlay as [| | | | |o]; try by destruct base.
  cbn [coverage].
  assert (is_object base = false -> get_path base (k :: path) = None /\
    merge_values base (VObject o) = VObject o) as Hnot by by destruct base.
  destruct (is_object base) eqn:Hb.
  - destruct base as [| | | | |b]; try done. clear Hnot Hb.
    change (merge_values (VObject b) (VObject o)) with (VObject (map_fold
      (fun key value acc => <[key := merge_values (default VNull (acc !! key)) value]> acc) b o)).
    rewrite !get_path_object, merge_lookup. destruct (o !! k) as [v|]; [|done]. cbn.
    rewrite IH. destruct (b !! k) as [w|]; [done|]. cbn.
    destruct path as [|j path]; [done|]. by destruct (coverage v (j :: path)).
  - destruct (Hnot eq_refl) as [-> ->]. rewrite get_path_object.
    destruct (o !! k) as [v|]; [|done]. cbn. rewrite get_path_coverage.
    destruct (coverage v path); [|done|done]. by rewrite merge_null.
Qed.

(** The value the variables give a path: the last one that overrides it. *)
Fixpoint env_value (prefix : string) (vars : list EnvVar) (path : list string) : option Value :=
  match vars with
  | [] => None
  | (Some var, Some value) :: vars =>
      match env_value prefix vars path with
      | Some v => Some v
      | None =>
          match str_strip_prefix prefix var with
          | Some suffix =>
              match parse_env_override suffix var value with
              | Ok (Some (p, v)) => if decide (p = path) then Some v else None
              | _ => None
              end
          | None => None
          end
      end
  | _ :: vars => env_value prefix vars path
  end.

(** A variable of a known section that is no override. *)
Definition is_typo (prefix : string) (v : EnvVar) : bool :=
  match v with
  | (Some var, Some value) =>
      match str_strip_prefix prefix var with
      | Some suffix =>
          suffix_starts_with_known_section suffix &&
          match parse_env_override suffix var value with Ok (Some _) => false | _ => true end
      | None => false
      end
  | _ => false
  end.

Lemma parse_env_override_path suffix var value p v :
  parse_env_override suffix var value = Ok (Some (p, v)) -> exists s f, p = [s; f].
Proof.
  unfold parse_env_override. destruct (env_lookup suffix env_table) as [[p' k]|] eqn:E; [|done].
  destruct (parse_kind k var value); [|done]. intros [= <- <-]. by eapply env_table_paths.
Qed.

Lemma apply_env_vars_spec prefix vars root unknown root' unknown' s f :
  apply_env_vars prefix vars root unknown = Ok (root', unknown') ->
  get_path root' [s; f] =
    match env_value prefix vars [s; f] with
    | Some v => Some v
    | None => get_path root [s; f]
    end /\
  exists typos, unknown' = unknown ++ typos /\
    (typos = [] -> existsb (is_typo prefix) vars = false).
Proof.
  revert root unknown; induction vars as [|[[var|] [value|]] vars IH]; intros root unknown;
    cbn [apply_env_vars env_value existsb is_typo]; try by apply IH.
  { intros [= <- <-]. split; [done|]. exists []. by rewrite app_nil_r. }
  destruct (str_strip_prefix prefix var) as [suffix|] eqn:Es.
  2: { intros H. destruct (IH _ _ H) as [Hg Ht]. split; [by destruct (env_value prefix vars [s; f])|done]. }
  destruct (parse_env_override suffix var value) as [[[p v]|]|e] eqn:Ep; [..|done].
  - intros H. destruct (IH _ _ H) as [-> Ht]. rewrite andb_false_r. split; [|done].
    destruct (env_value prefix vars [s; f]); [done|].
    apply parse_env_override_path in Ep as (s' & f' & ->).
    case_decide as Hp; [by injection Hp as -> ->; rewrite get_set_path_eq|].
    rewrite get_set_path_ne; [done|]. by apply diverge_pair.
  - rewrite andb_true_r. destruct (suffix_starts_with_known_section suffix) eqn:Ek; cbn [orb].
    + intros H. destruct (IH _ _ H) as [-> (typos & -> & Ht)].
      split; [by destruct (env_value prefix vars [s; f])|].
      exists (var :: typos). by rewrite <- app_assoc.
    + intros H. destruct (IH _ _ H) as [-> Ht]. split; [by destruct (env_value prefix vars [s; f])|done].
Qed.

(** C15. The environment wins over defaults and files, variable by variable,
    and a mistyped variable is never ignored: when the overrides apply, every
    setting holds the value of the last variable that overrides it, parsed at
    its type, every setting no variable overrides holds what it held before,
    and no variable with the prefix, a UTF-8 value, and a section name (whatever
    its case) for its first segment failed to be an override. *)
Theorem env_precedence root prefix vars root' section field :
  apply_env root prefix vars = Ok root' ->
  get_path root' [section; field] =
    match env_value (env_prefix_of prefix) vars [section; field] with
    | Some v => Some v
    | None => get_path root [section; field]
    end /\
  existsb (is_typo (env_prefix_of prefix)) vars = false.
Proof.
  unfold apply_env. intros H.
  destruct (apply_env_vars (env_prefix_of prefix) vars root []) as [[r [|u us]]|e] eqn:E; [|done..].
  injection H as <-.
  destruct (apply_env_vars_spec _ _ _ _ _ _ section field E) as [-> (typos & Hu & Ht)].
  split; [done|]. apply Ht. by destruct typos.
Qed.

Definition env_demo : list EnvVar :=
  [(Some "PATH", Some "/bin"); (Some "ARVIK_SERVER_PORT", Some "9090");
   (Some "ARVIK_HTTP2_ONLY", Some "Yes"); (Some "ARVIK_LOG", Some "debug"); (None, None)].

Lemma env_precedence_witness :
  exists root', apply_env (VObject {["server" := VObject {["port" := VNumber (PosInt 80)]}]})
    "ARVIK" env_demo = Ok root' /\
  get_path root' ["server"; "port"] = Some (VNumber (PosInt 9090)).
Proof.
  eexists. split; [reflexivity|].
  rewrite (proj1 (env_precedence (VObject {["server" := VObject {["port" := VNumber (PosInt 80)]}]})
    "ARVIK" env_demo _ "server" "port" eq_refl)). reflexivity.
Defined.

(** A misspelt variable of a section is refused, a foreign one is not. *)
Example env_typo :
  is_ok (apply_env (VObject ∅) "ARVIK" [(Some "ARVIK_SERVER_MAXCONNECTIONS", Some "5")]) = false /\
  is_ok (apply_env (VObject ∅) "ARVIK" [(Some "ARVIK_LOG", Some "5")]) = true.
Proof. split; by vm_compute. Qed.
