(* ===== verification/Config.v ===== *)
(** * The application configuration

    The typed level of [arvik-config/src/lib.rs]: the sections with their
    defaults, [validate], the conversions to [ServerConfig] and
    [ShutdownConfig], the pipeline from defaults, files and environment to a
    validated configuration, the address to bind, and the hot reload watcher a
    reload at a time ([ConfigWatch] has its steps).

    The file system, the TOML and JSON parsers and serde's conversions between
    [ArvikConfig] and [Value] are parameters.  An integer field is a [Z]; the
    range its Rust type gives it is [typed]. *)
From S2P Require Import Prelude RustStr StaticPath IpAddr ServerConfig Server ConfigValue.
From stdpp Require Import base list strings gmap.
From Stdlib Require Import ZArith Lia Ascii String.
Open Scope string_scope.
Open Scope list_scope.
Open Scope Z_scope.

(** ** Sections *)

Record ServerSection := mkServerSection {
  ss_host : string;
  ss_port : Z;
  ss_workers : option Z;
  ss_backlog : option Z;
  ss_max_connections : option Z;
  ss_body_limit : option Z;
  ss_tcp_nodelay : option bool;
  ss_tcp_keepalive_secs : option Z;
  ss_tcp_keepalive_interval_secs : option Z;
  ss_tcp_keepalive_retries : option Z;
  ss_reuse_port : bool;
  ss_reuse_address : bool;
  ss_socket_recv_buffer_size : option Z;
  ss_socket_send_buffer_size : option Z;
  ss_accept_workers : option Z }.

Definition server_section_default : ServerSection := {|
  ss_host := "127.0.0.1"; ss_port := 8080; ss_workers := None; ss_backlog := None;
  ss_max_connections := None; ss_body_limit := None; ss_tcp_nodelay := None;
  ss_tcp_keepalive_secs := None; ss_tcp_keepalive_interval_secs := None;
  ss_tcp_keepalive_retries := None; ss_reuse_port := false; ss_reuse_address := false;
  ss_socket_recv_buffer_size := None; ss_socket_send_buffer_size := None;
  ss_accept_workers := None |}.

Record Http1Section := mkHttp1Section {
  h1_keep_alive : bool;
  h1_half_close : bool;
  h1_title_case_headers : bool;
  h1_preserve_header_case : bool;
  h1_pipeline_flush : bool }.

Definition http1_section_default : Http1Section := mkHttp1Section true false false false false.

Record Http2Section := mkHttp2Section {
  h2_only : bool;
  h2_adaptive_window : bool;
  h2_initial_stream_window_size : option Z;
  h2_initial_connection_window_size : option Z;
  h2_max_concurrent_streams : option Z;
  h2_keep_alive_interval_secs : option Z;
  h2_keep_alive_timeout_secs : Z;
  h2_max_frame_size : option Z;
  h2_max_send_buf_size : option Z;
  h2_max_header_list_size : option Z }.

Definition http2_section_default : Http2Section := {|
  h2_only := false; h2_adaptive_window := true; h2_initial_stream_window_size := None;
  h2_initial_connection_window_size := None; h2_max_concurrent_streams := Some 1000;
  h2_keep_alive_interval_secs := Some 20; h2_keep_alive_timeout_secs := 10;
  h2_max_frame_size := None; h2_max_send_buf_size := None;
  h2_max_header_list_size := Some (64 * 1024) |}.

Inductive TlsBackend := Rustls | NativeTls.

Record TlsSection := mkTlsSection {
  tls_backend : TlsBackend;
  tls_cert_path : option string;
  tls_key_path : option string;
  tls_pkcs12_path : option string;
  tls_pkcs12_password : option string }.

Definition tls_section_default : TlsSection := mkTlsSection Rustls None None None None.

Record ShutdownSection := mkShutdownSection { sd_drain_timeout_secs : Z }.
Definition shutdown_section_default : ShutdownSection := mkShutdownSection 30.

Record ArvikConfig := mkArvikConfig {
  cfg_server : ServerSection;
  cfg_http1 : Http1Section;
  cfg_http2 : Http2Section;
  cfg_tls : option TlsSection;
  cfg_shutdown : ShutdownSection }.

Definition arvik_config_default : ArvikConfig :=
  mkArvikConfig server_section_default http1_section_default http2_section_default None
    shutdown_section_default.

(** ** Conversions *)

Definition bind_addr_string (c : ArvikConfig) : string :=
  let host := ss_host (cfg_server c) in
  let port := to_dec (ss_port (cfg_server c)) in
  if contains_char ":" host && negb (starts_with "[" host) && negb (ends_with_char "]" host)
  then "[" +:+ host +:+ "]:" +:+ port
  else host +:+ ":" +:+ port.

(** [addr.parse()] of a [std::net::SocketAddr]: host names are not resolved. *)
Definition bind_addr (c : ArvikConfig) : result SockAddr ConfigError :=
  let addr := bind_addr_string c in
  match parse_socket_addr addr with Some a => Ok a | None => Err (ErrAddress addr) end.

(** [if let Some(x) = o { config = set(x) }]. *)
Definition apply_opt {A} (set : A -> ServerConfig -> ServerConfig) (o : option A)
    (c : ServerConfig) : ServerConfig :=
  match o with Some a => set a c | None => c end.

(** [backlog as i32]: the low 32 bits, as a signed integer. *)
Definition as_i32 (n : Z) : Z :=
  let m := n mod 2 ^ 32 in if m <? 2 ^ 31 then m else m - 2 ^ 32.

Definition secs (n : Z) : Z := n * SECOND.

Definition server_config (c : ArvikConfig) : ServerConfig :=
  let s := cfg_server c in
  let h1 := cfg_http1 c in
  let h2 := cfg_http2 c in
  let config := server_config_default in
  let config := set_http1_keep_alive (h1_keep_alive h1) config in
  let config := set_http1_half_close (h1_half_close h1) config in
  let config := set_http1_title_case_headers (h1_title_case_headers h1) config in
  let config := set_http1_preserve_header_case (h1_preserve_header_case h1) config in
  let config := set_http1_pipeline_flush (h1_pipeline_flush h1) config in
  let config := set_http2_only (h2_only h2) config in
  let config := set_http2_adaptive_window (h2_adaptive_window h2) config in
  let config := set_http2_keep_alive_timeout (secs (h2_keep_alive_timeout_secs h2)) config in
  let config := apply_opt set_max_connections (ss_max_connections s) config in
  let config := apply_opt set_tcp_nodelay (ss_tcp_nodelay s) config in
  let config := apply_opt (fun n => set_tcp_keepalive (secs n)) (ss_tcp_keepalive_secs s) config in
  let config := apply_opt (fun n => set_tcp_keepalive_interval (secs n))
                  (ss_tcp_keepalive_interval_secs s) config in
  let config := apply_opt set_tcp_keepalive_retries (ss_tcp_keepalive_retries s) config in
  let config := if ss_reuse_port s then set_reuse_port true config else config in
  let config := if ss_reuse_address s then set_reuse_address true config else config in
  let config := apply_opt (fun n => set_backlog (as_i32 n)) (ss_backlog s) config in
  let config := apply_opt set_socket_recv_buffer_size (ss_socket_recv_buffer_size s) config in
  let config := apply_opt set_socket_send_buffer_size (ss_socket_send_buffer_size s) config in
  let config := apply_opt set_accept_workers (ss_accept_workers s) config in
  let config := apply_opt set_http2_initial_stream_window_size
                  (h2_initial_stream_window_size h2) config in
  let config := apply_opt set_http2_initial_connection_window_size
                  (h2_initial_connection_window_size h2) config in
  let config := match h2_max_concurrent_streams h2 with
                | Some max => set_http2_max_concurrent_streams max config
                | None => http2_unlimited_concurrent_streams config
                end in
  let config := match h2_keep_alive_interval_secs h2 with
                | Some n => set_http2_keep_alive_interval (secs n) config
                | None => http2_disable_keep_alive config
                end in
  let config := apply_opt set_http2_max_frame_size (h2_max_frame_size h2) config in
  let config := apply_opt set_http2_max_send_buf_size (h2_max_send_buf_size h2) config in
  apply_opt set_http2_max_header_list_size (h2_max_header_list_size h2) config.

Definition shutdown_config (c : ArvikConfig) : ShutdownConfig :=
  set_drain_timeout (secs (sd_drain_timeout_secs (cfg_shutdown c))) shutdown_config_default.

(** ** Validation *)

Definition check (ok : bool) (message : string) : result unit ConfigError :=
  if ok then Ok tt else Err (ErrValidation message).

Definition validate_nonzero (value : option Z) (name : string) : result unit ConfigError :=
  check (negb (bool_decide (value = Some 0))) (name +:+ " must be greater than 0").

(** [a?; b]. *)
Definition andthen (a b : result unit ConfigError) : result unit ConfigError :=
  match a with Ok _ => b | Err e => Err e end.
Local Notation "a ;; b" := (andthen a b) (at level 100, right associativity).

Definition validate_tls (t : TlsSection) : result unit ConfigError :=
  match tls_backend t with
  | Rustls =>
      check (bool_decide (is_Some (tls_cert_path t)) && bool_decide (is_Some (tls_key_path t)))
        "tls.cert_path and tls.key_path are required for rustls"
  | NativeTls =>
      check (bool_decide (is_Some (tls_pkcs12_path t)))
        "tls.pkcs12_path is required for native-tls"
  end.

Definition H2_MAX_WINDOW : Z := 2 ^ 31 - 1.
Definition i32_max : Z := 2 ^ 31 - 1.

Definition opt_ok (f : Z -> bool) (o : option Z) : bool :=
  match o with Some n => f n | None => true end.

Definition validate_window (field : string) (value : option Z) : result unit ConfigError :=
  match value with
  | Some size =>
      check (size <=? H2_MAX_WINDOW)
        (field +:+ " must be at most " +:+ to_dec H2_MAX_WINDOW +:+
         " (h2 protocol maximum), got " +:+ to_dec size)
  | None => Ok tt
  end.

Definition validate (c : ArvikConfig) : result unit ConfigError :=
  let s := cfg_server c in
  let h2 := cfg_http2 c in
  check (negb (ss_port s =? 0)) "server.port must be between 1 and 65535";;
  validate_nonzero (ss_workers s) "server.workers";;
  validate_nonzero (ss_backlog s) "server.backlog";;
  validate_nonzero (ss_max_connections s) "server.max_connections";;
  validate_nonzero (ss_body_limit s) "server.body_limit";;
  validate_nonzero (ss_tcp_keepalive_secs s) "server.tcp_keepalive_secs";;
  validate_nonzero (ss_tcp_keepalive_interval_secs s) "server.tcp_keepalive_interval_secs";;
  validate_nonzero (ss_tcp_keepalive_retries s) "server.tcp_keepalive_retries";;
  validate_nonzero (ss_socket_recv_buffer_size s) "server.socket_recv_buffer_size";;
  validate_nonzero (ss_socket_send_buffer_size s) "server.socket_send_buffer_size";;
  validate_nonzero (ss_accept_workers s) "server.accept_workers";;
  check (negb ((1 <? default 1 (ss_accept_workers s)) && negb (ss_reuse_port s)))
    "server.accept_workers greater than 1 requires server.reuse_port = true";;
  check (opt_ok (fun n => n <=? i32_max) (ss_backlog s)) "server.backlog must fit into i32";;
  validate_nonzero (h2_initial_stream_window_size h2) "http2.initial_stream_window_size";;
  validate_nonzero (h2_initial_connection_window_size h2) "http2.initial_connection_window_size";;
  validate_window "http2.initial_stream_window_size" (h2_initial_stream_window_size h2);;
  validate_window "http2.initial_connection_window_size" (h2_initial_connection_window_size h2);;
  validate_nonzero (h2_max_concurrent_streams h2) "http2.max_concurrent_streams";;
  validate_nonzero (h2_max_send_buf_size h2) "http2.max_send_buf_size";;
  validate_nonzero (h2_max_header_list_size h2) "http2.max_header_list_size";;
  check (negb (bool_decide (h2_keep_alive_interval_secs h2 = Some 0)))
    "http2.keep_alive_interval_secs must be greater than 0 or omitted";;
  check (negb (h2_keep_alive_timeout_secs h2 =? 0))
    "http2.keep_alive_timeout_secs must be greater than 0";;
  check (opt_ok (fun n => (16384 <=? n) && (n <=? 16777215)) (h2_max_frame_size h2))
    "http2.max_frame_size must be between 16384 and 16777215";;
  check (negb (sd_drain_timeout_secs (cfg_shutdown c) =? 0))
    "shutdown.drain_timeout_secs must be greater than 0";;
  match cfg_tls c with Some tls => validate_tls tls | None => Ok tt end.

(** ** Loading *)

Record ArvikConfigBuilder := mkBuilder {
  b_files : list string;
  b_env_prefix : string;
  b_defaults : ArvikConfig }.

Definition builder_default : ArvikConfigBuilder := mkBuilder [] "ARVIK" arvik_config_default.
Definition builder_file (path : string) (b : ArvikConfigBuilder) : ArvikConfigBuilder :=
  mkBuilder (b_files b ++ [path]) (b_env_prefix b) (b_defaults b).
Definition builder_env_prefix (prefix : string) (b : ArvikConfigBuilder) : ArvikConfigBuilder :=
  mkBuilder (b_files b) prefix (b_defaults b).
Definition builder_defaults (config : ArvikConfig) (b : ArvikConfigBuilder) : ArvikConfigBuilder :=
  mkBuilder (b_files b) (b_env_prefix b) config.

(** serde_json and toml: what the derived conversions and the parsers answer. *)
Class Serde := {
  to_value : ArvikConfig -> option Value;
  from_value : Value -> option ArvikConfig;
  toml_parse : string -> option (option Value);
  json_parse : string -> option Value }.

(** What the process sees when it loads: the files and the variables. *)
Record World := mkWorld { read_to_string : string -> option string; vars_os : list EnvVar }.

Section Load.
Context `{Serde}.

(** A TOML value is parsed, then converted. *)
Definition load_file (w : World) (path : string) : result Value ConfigError :=
  match read_to_string w path with
  | None => Err (ErrIo path)
  | Some contents =>
      match path_extension path with
      | Some "toml" =>
          match toml_parse contents with
          | None => Err (ErrToml path)
          | Some None => Err ErrDecode
          | Some (Some v) => Ok v
          end
      | Some "json" =>
          match json_parse contents with Some v => Ok v | None => Err (ErrJson path) end
      | _ => Err (ErrUnsupportedExtension path)
      end
  end.

Fixpoint merge_files (w : World) (files : list string) (merged : Value) : result Value ConfigError :=
  match files with
  | [] => Ok merged
  | file :: files =>
      match load_file w file with
      | Err e => Err e
      | Ok value => merge_files w files (merge_values merged value)
      end
  end.

Definition build_inner (w : World) (b : ArvikConfigBuilder) : result ArvikConfig ConfigError :=
  match to_value (b_defaults b) with
  | None => Err ErrDecode
  | Some merged =>
      match merge_files w (b_files b) merged with
      | Err e => Err e
      | Ok merged =>
          match apply_env merged (b_env_prefix b) (vars_os w) with
          | Err e => Err e
          | Ok merged =>
              match from_value merged with
              | None => Err ErrDecode
              | Some config =>
                  match validate config with Err e => Err e | Ok _ => Ok config end
              end
          end
      end
  end.

(** ** The hot reload watcher *)

Record ConfigWatcher := mkWatcher {
  w_current : ArvikConfig;
  w_updates : list (result ArvikConfig ConfigError) }.

Definition push_update (u : result ArvikConfig ConfigError) (cw : ConfigWatcher) : ConfigWatcher :=
  mkWatcher (w_current cw) (w_updates cw ++ [u]).

Definition watcher_new (w : World) (b : ArvikConfigBuilder) : result ConfigWatcher ConfigError :=
  match build_inner w b with Ok c => Ok (mkWatcher c []) | Err e => Err e end.

(** The errors that arrived during the debounce window are forwarded. *)
Fixpoint forward_errors (events : list (result unit string)) (cw : ConfigWatcher) : ConfigWatcher :=
  match events with
  | [] => cw
  | Err e :: events => forward_errors events (push_update (Err (ErrWatch e)) cw)
  | Ok _ :: events => forward_errors events cw
  end.

(** One turn of the task: an event, those that arrive within the 200 ms, and the
    world the reload then reads. *)
Definition watcher_turn (b : ArvikConfigBuilder) (event : result unit string)
    (pending : list (result unit string)) (w : World) (cw : ConfigWatcher) : ConfigWatcher :=
  match event with
  | Err e => push_update (Err (ErrWatch e)) cw
  | Ok _ =>
      let cw := forward_errors pending cw in
      match build_inner w b with
      | Ok config => push_update (Ok config) (mkWatcher config (w_updates cw))
      | Err e => push_update (Err e) cw
      end
  end.

Definition watcher_run (b : ArvikConfigBuilder)
    (turns : list (result unit string * list (result unit string) * World))
    (cw : ConfigWatcher) : ConfigWatcher :=
  fold_left (fun cw t => watcher_turn b (fst (fst t)) (snd (fst t)) (snd t) cw) turns cw.
End Load.

(** The host as an address, plain or, an IPv6 one, in brackets, is bound at the
    configured port. *)
Theorem bind_addr_roundtrip c ip : ip_wf ip -> 0 <= ss_port (cfg_server c) <= 65535 ->
  ss_host (cfg_server c) = show_ip ip \/ ss_host (cfg_server c) = show_host ip ->
  bind_addr c = Ok (mkSockAddr ip 0 (ss_port (cfg_server c))).
Proof.
  intros Hwf Hp Hh. enough (bind_addr_string c = show_host ip +:+ ":" +:+ to_dec (ss_port (cfg_server c))) as E.
  { unfold bind_addr. by rewrite E, parse_socket_show. }
  unfold bind_addr_string. destruct ip as [os|gs]; cbn [show_host show_ip] in *.
  - assert (ss_host (cfg_server c) = show_v4 os) as -> by (by destruct Hh).
    destruct Hwf as [_ Hos]. by rewrite show_v4_no_char.
  - assert (Hfree : forall d, digit_of 16 d = None -> Ascii.eqb d ":" = false -> Ascii.eqb d "." = false ->
      contains_char d (show_v6 gs) = false) by (intros; by apply show_v6_no_char).
    destruct Hh as [-> | ->].
    + assert (starts_with "[" (show_v6 gs) = false) as ->.
      { apply not_true_is_false. intros [t Ht]%starts_with_spec. specialize (Hfree "["%char).
        rewrite Ht, contains_char_app in Hfree. by specialize (Hfree eq_refl eq_refl eq_refl). }
      assert (ends_with_char "]" (show_v6 gs) = false) as ->.
      { apply not_true_is_false. intros [t Ht]%ends_with_char_spec. specialize (Hfree "]"%char).
        rewrite Ht, contains_char_app, orb_true_r in Hfree. by specialize (Hfree eq_refl eq_refl eq_refl). }
      by rewrite show_v6_colon, <- !sapp_assoc.
    + by rewrite andb_false_r.
Qed.

(** ** What the field types guarantee *)

Definition opt_range (max : Z) (o : option Z) : Prop := forall n, o = Some n -> 0 <= n <= max.

Record typed (c : ArvikConfig) : Prop := mkTyped {
  ty_port : 0 <= ss_port (cfg_server c) <= u16_max;
  ty_backlog : opt_range u32_max (ss_backlog (cfg_server c));
  ty_max_connections : opt_range usize_max (ss_max_connections (cfg_server c));
  ty_tcp_keepalive : opt_range u64_max (ss_tcp_keepalive_secs (cfg_server c));
  ty_tcp_keepalive_interval : opt_range u64_max (ss_tcp_keepalive_interval_secs (cfg_server c));
  ty_tcp_keepalive_retries : opt_range u32_max (ss_tcp_keepalive_retries (cfg_server c));
  ty_recv_buffer : opt_range usize_max (ss_socket_recv_buffer_size (cfg_server c));
  ty_send_buffer : opt_range usize_max (ss_socket_send_buffer_size (cfg_server c));
  ty_accept_workers : opt_range usize_max (ss_accept_workers (cfg_server c));
  ty_stream_window : opt_range u32_max (h2_initial_stream_window_size (cfg_http2 c));
  ty_connection_window : opt_range u32_max (h2_initial_connection_window_size (cfg_http2 c));
  ty_max_streams : opt_range u32_max (h2_max_concurrent_streams (cfg_http2 c));
  ty_keep_alive_interval : opt_range u64_max (h2_keep_alive_interval_secs (cfg_http2 c));
  ty_keep_alive_timeout : 0 <= h2_keep_alive_timeout_secs (cfg_http2 c) <= u64_max;
  ty_frame_size : opt_range u32_max (h2_max_frame_size (cfg_http2 c));
  ty_send_buf : opt_range usize_max (h2_max_send_buf_size (cfg_http2 c));
  ty_header_list : opt_range u32_max (h2_max_header_list_size (cfg_http2 c));
  ty_drain_timeout : 0 <= sd_drain_timeout_secs (cfg_shutdown c) <= u64_max }.

(** ** Validation, clause by clause *)

Definition nonzero (o : option Z) : Prop := forall n, o = Some n -> n <> 0.
Definition positive (o : option Z) : Prop := forall n, o = Some n -> 0 < n.

Lemma nonzero_positive max o : opt_range max o -> nonzero o -> positive o.
Proof. intros Hr Hn n Ho. specialize (Hr n Ho). specialize (Hn n Ho). lia. Qed.
Lemma positive_secs o : positive o -> positive (secs <$> o).
Proof. intros Hp m (n & Hn & ->)%fmap_Some. specialize (Hp n Hn). unfold secs, SECOND. lia. Qed.

Lemma andthen_ok a b : andthen a b = Ok tt <-> a = Ok tt /\ b = Ok tt.
Proof. destruct a as [[]|]; cbn; naive_solver. Qed.

Lemma check_ok ok message : check ok message = Ok tt <-> ok = true.
Proof. unfold check. destruct ok; naive_solver. Qed.

Lemma validate_nonzero_ok o name :
  validate_nonzero o name = Ok tt <-> nonzero o.
Proof.
  unfold validate_nonzero, nonzero. rewrite check_ok, negb_true_iff, bool_decide_eq_false. naive_solver.
Qed.

Lemma validate_tls_ok t : validate_tls t = Ok tt <->
  match tls_backend t with
  | Rustls => is_Some (tls_cert_path t) /\ is_Some (tls_key_path t)
  | NativeTls => is_Some (tls_pkcs12_path t)
  end.
Proof.
  unfold validate_tls. destruct (tls_backend t); rewrite check_ok, ?andb_true_iff, !bool_decide_eq_true; done.
Qed.

Lemma validate_window_ok field o :
  validate_window field o = Ok tt <-> forall n, o = Some n -> n <= H2_MAX_WINDOW.
Proof.
  unfold validate_window. destruct o; [|naive_solver]. rewrite check_ok, Z.leb_le. naive_solver.
Qed.

Lemma opt_ok_true f o : opt_ok f o = true <-> forall n, o = Some n -> f n = true.
Proof. destruct o; cbn; naive_solver. Qed.

(** ** The fields of the server configuration *)

Lemma apply_opt_field {A B} (field : ServerConfig -> B) (set : A -> ServerConfig -> ServerConfig) o c :
  (forall a c, field (set a c) = field c) -> field (apply_opt set o c) = field c.
Proof. intros Hs. destruct o; [apply Hs|done]. Qed.

Lemma apply_opt_some {A B} (field : ServerConfig -> option B) (set : A -> ServerConfig -> ServerConfig)
    (g : A -> B) o c :
  (forall a c, field (set a c) = Some (g a)) -> field c = None ->
  field (apply_opt set o c) = g <$> o.
Proof. intros Hs Hc. destruct o; [apply Hs|done]. Qed.

Lemma apply_opt_built {A} (set : A -> ServerConfig -> ServerConfig) o c :
  (forall a, ServerBuilder (set a)) -> Built c -> Built (apply_opt set o c).
Proof. intros Hs Hc. destruct o as [a|]; [exact (built_step (set a) c (Hs a) Hc)|done]. Qed.

(** Skip the setters that leave a field alone. *)
Ltac skip_setters field :=
  repeat first
    [ rewrite (apply_opt_field field) by (intros; reflexivity)
    | match goal with
      | |- context [field (match ?o with Some _ => _ | None => _ end)] => destruct o
      | |- context [field (if ?b then _ else _)] => destruct b
      | |- context [field (?set ?c)] =>
          let H := fresh in
          assert (forall c', field (set c') = field c') as H by (intros; reflexivity);
          rewrite H; clear H
      end ].
Ltac server_field field g :=
  unfold server_config; cbv zeta; skip_setters field;
  (rewrite (apply_opt_some field _ g);
    [rewrite ?option_fmap_id; reflexivity|intros; reflexivity|skip_setters field; reflexivity]).

Section Fields.
Variable c : ArvikConfig.

Lemma server_config_built : Built (server_config c).
Proof.
  unfold server_config. cbv zeta.
  repeat first
    [ apply built_default
    | apply apply_opt_built; [intros; cbv beta; constructor|]
    | apply built_step; [constructor|]
    | match goal with
      | |- Built (match ?o with Some _ => _ | None => _ end) => destruct o
      | |- Built (if ?b then _ else _) => destruct b
      end ].
Qed.

Lemma server_config_backlog : backlog (server_config c) = as_i32 <$> ss_backlog (cfg_server c).
Proof. server_field backlog as_i32. Qed.

Lemma server_config_max_connections :
  max_connections (server_config c) = ss_max_connections (cfg_server c).
Proof. server_field max_connections (@Datatypes.id Z). Qed.

Lemma server_config_stream_window :
  http2_initial_stream_window_size (server_config c) = h2_initial_stream_window_size (cfg_http2 c).
Proof. server_field http2_initial_stream_window_size (@Datatypes.id Z). Qed.

Lemma server_config_connection_window :
  http2_initial_connection_window_size (server_config c) =
  h2_initial_connection_window_size (cfg_http2 c).
Proof. server_field http2_initial_connection_window_size (@Datatypes.id Z). Qed.

Lemma server_config_frame_size :
  http2_max_frame_size (server_config c) = h2_max_frame_size (cfg_http2 c).
Proof. server_field http2_max_frame_size (@Datatypes.id Z). Qed.

Lemma server_config_send_buf :
  http2_max_send_buf_size (server_config c) = h2_max_send_buf_size (cfg_http2 c).
Proof. server_field http2_max_send_buf_size (@Datatypes.id Z). Qed.

Lemma server_config_header_list :
  http2_max_header_list_size (server_config c) =
    match h2_max_header_list_size (cfg_http2 c) with
    | Some n => Some n
    | None => http2_max_header_list_size server_config_default
    end.
Proof.
  unfold server_config. cbv zeta. destruct (h2_max_header_list_size (cfg_http2 c)); [reflexivity|].
  cbn [apply_opt]. skip_setters http2_max_header_list_size; reflexivity.
Qed.

Lemma server_config_tcp_keepalive :
  tcp_keepalive (server_config c) = secs <$> ss_tcp_keepalive_secs (cfg_server c).
Proof. server_field tcp_keepalive secs. Qed.

Lemma server_config_tcp_keepalive_interval :
  tcp_keepalive_interval (server_config c) = secs <$> ss_tcp_keepalive_interval_secs (cfg_server c).
Proof. server_field tcp_keepalive_interval secs. Qed.

Lemma server_config_tcp_keepalive_retries :
  tcp_keepalive_retries (server_config c) = ss_tcp_keepalive_retries (cfg_server c).
Proof. server_field tcp_keepalive_retries (@Datatypes.id Z). Qed.

Lemma server_config_recv_buffer :
  socket_recv_buffer_size (server_config c) = ss_socket_recv_buffer_size (cfg_server c).
Proof. server_field socket_recv_buffer_size (@Datatypes.id Z). Qed.

Lemma server_config_send_buffer :
  socket_send_buffer_size (server_config c) = ss_socket_send_buffer_size (cfg_server c).
Proof. server_field socket_send_buffer_size (@Datatypes.id Z). Qed.

Lemma server_config_accept_workers :
  accept_workers (server_config c) =
  match ss_accept_workers (cfg_server c) with Some n => Z.max n 1 | None => 1 end.
Proof.
  unfold server_config. cbv zeta. skip_setters accept_workers.
  all: destruct (ss_accept_workers (cfg_server c)); [reflexivity|].
  all: cbn [apply_opt]; skip_setters accept_workers; reflexivity.
Qed.

Lemma server_config_reuse_port : reuse_port (server_config c) = ss_reuse_port (cfg_server c).
Proof.
  unfold server_config. cbv zeta.
  destruct (ss_reuse_port (cfg_server c)); skip_setters reuse_port; reflexivity.
Qed.

Lemma server_config_keep_alive_timeout :
  http2_keep_alive_timeout (server_config c) = secs (h2_keep_alive_timeout_secs (cfg_http2 c)).
Proof.
  unfold server_config. cbv zeta. skip_setters http2_keep_alive_timeout; reflexivity.
Qed.

Lemma server_config_max_streams :
  http2_max_concurrent_streams (server_config c) = h2_max_concurrent_streams (cfg_http2 c).
Proof.
  unfold server_config. cbv zeta.
  destruct (h2_max_concurrent_streams (cfg_http2 c)); skip_setters http2_max_concurrent_streams;
    reflexivity.
Qed.

Lemma server_config_keep_alive_interval :
  http2_keep_alive_interval (server_config c) =
  secs <$> h2_keep_alive_interval_secs (cfg_http2 c).
Proof.
  unfold server_config. cbv zeta.
  destruct (h2_keep_alive_interval_secs (cfg_http2 c)); skip_setters http2_keep_alive_interval;
    reflexivity.
Qed.
End Fields.

(** ** Properties *)

(** What the accept loop, the socket calls and hyper require of a server
    configuration: the builder's invariant, [SO_REUSEPORT] for several workers,
    a backlog, window and frame sizes within the protocols' ranges, and no zero
    where zero would refuse every connection or request. *)
Record server_ok (s : ServerConfig) : Prop := mkServerOk {
  ok_built : Built s;
  ok_reuse_port : (1 <? accept_workers s) && negb (reuse_port s) = false;
  ok_backlog : forall n, backlog s = Some n -> 1 <= n <= i32_max;
  ok_max_connections : forall n, max_connections s = Some n -> 1 <= n <= usize_max;
  ok_stream_window : forall n, http2_initial_stream_window_size s = Some n -> 1 <= n <= H2_MAX_WINDOW;
  ok_connection_window : forall n,
    http2_initial_connection_window_size s = Some n -> 1 <= n <= H2_MAX_WINDOW;
  ok_max_streams : forall n, http2_max_concurrent_streams s = Some n -> 1 <= n <= u32_max;
  ok_frame_size : forall n, http2_max_frame_size s = Some n -> 16384 <= n <= 16777215;
  ok_keep_alive_interval : positive (http2_keep_alive_interval s);
  ok_keep_alive_timeout : 0 < http2_keep_alive_timeout s;
  ok_send_buf : positive (http2_max_send_buf_size s);
  ok_header_list : positive (http2_max_header_list_size s);
  ok_tcp_keepalive : positive (tcp_keepalive s);
  ok_tcp_keepalive_interval : positive (tcp_keepalive_interval s);
  ok_tcp_keepalive_retries : positive (tcp_keepalive_retries s);
  ok_recv_buffer : positive (socket_recv_buffer_size s);
  ok_send_buffer : positive (socket_send_buffer_size s) }.

Lemma as_i32_id n : 0 <= n <= i32_max -> as_i32 n = n.
Proof.
  unfold as_i32, i32_max. intros Hn. rewrite Z.mod_small by lia.
  by replace (n <? 2 ^ 31) with true by (symmetry; apply Z.ltb_lt; lia).
Qed.

(** What validation is for: no zero port, limit, size, timeout or number, values
    within the protocols' ranges, and the files TLS needs. *)
Record valid (c : ArvikConfig) : Prop := mkValid {
  va_port : ss_port (cfg_server c) <> 0;
  va_workers : nonzero (ss_workers (cfg_server c));
  va_backlog : nonzero (ss_backlog (cfg_server c));
  va_backlog_i32 : forall n, ss_backlog (cfg_server c) = Some n -> n <= i32_max;
  va_max_connections : nonzero (ss_max_connections (cfg_server c));
  va_body_limit : nonzero (ss_body_limit (cfg_server c));
  va_tcp_keepalive : nonzero (ss_tcp_keepalive_secs (cfg_server c));
  va_tcp_keepalive_interval : nonzero (ss_tcp_keepalive_interval_secs (cfg_server c));
  va_tcp_keepalive_retries : nonzero (ss_tcp_keepalive_retries (cfg_server c));
  va_recv_buffer : nonzero (ss_socket_recv_buffer_size (cfg_server c));
  va_send_buffer : nonzero (ss_socket_send_buffer_size (cfg_server c));
  va_accept_workers : nonzero (ss_accept_workers (cfg_server c));
  va_reuse_port : 1 < default 1 (ss_accept_workers (cfg_server c)) -> ss_reuse_port (cfg_server c) = true;
  va_stream_window : nonzero (h2_initial_stream_window_size (cfg_http2 c));
  va_stream_window_max : forall n, h2_initial_stream_window_size (cfg_http2 c) = Some n -> n <= H2_MAX_WINDOW;
  va_connection_window : nonzero (h2_initial_connection_window_size (cfg_http2 c));
  va_connection_window_max : forall n, h2_initial_connection_window_size (cfg_http2 c) = Some n -> n <= H2_MAX_WINDOW;
  va_max_streams : nonzero (h2_max_concurrent_streams (cfg_http2 c));
  va_send_buf : nonzero (h2_max_send_buf_size (cfg_http2 c));
  va_header_list : nonzero (h2_max_header_list_size (cfg_http2 c));
  va_keep_alive_interval : nonzero (h2_keep_alive_interval_secs (cfg_http2 c));
  va_keep_alive_timeout : h2_keep_alive_timeout_secs (cfg_http2 c) <> 0;
  va_frame_size : forall n, h2_max_frame_size (cfg_http2 c) = Some n -> 16384 <= n <= 16777215;
  va_drain_timeout : sd_drain_timeout_secs (cfg_shutdown c) <> 0;
  va_tls : forall t, cfg_tls c = Some t ->
    match tls_backend t with
    | Rustls => is_Some (tls_cert_path t) /\ is_Some (tls_key_path t)
    | NativeTls => is_Some (tls_pkcs12_path t)
    end }.

Lemma check_nonzero_ok n message : check (negb (n =? 0)) message = Ok tt <-> n <> 0.
Proof. by rewrite check_ok, negb_true_iff, Z.eqb_neq. Qed.

Lemma check_interval_ok o message : check (negb (bool_decide (o = Some 0))) message = Ok tt <-> nonzero o.
Proof. rewrite check_ok, negb_true_iff, bool_decide_eq_false. unfold nonzero. naive_solver. Qed.

Lemma check_reuse_ok n b message :
  check (negb ((1 <? n) && negb b)) message = Ok tt <-> (1 < n -> b = true).
Proof. rewrite check_ok. destruct (Z.ltb_spec 1 n), b; cbn; split; try done; try lia; naive_solver. Qed.

Lemma check_opt_ok f (P : Z -> Prop) o message : (forall n, f n = true <-> P n) ->
  check (opt_ok f o) message = Ok tt <-> forall n, o = Some n -> P n.
Proof. intros Hf. rewrite check_ok, opt_ok_true. naive_solver. Qed.

(** [validate] accepts exactly the valid configurations. *)
Lemma validate_valid c : validate c = Ok tt <-> valid c.
Proof.
  unfold validate. cbv zeta.
  rewrite !andthen_ok, !validate_nonzero_ok, !validate_window_ok.
  rewrite !check_nonzero_ok, !check_interval_ok, check_reuse_ok.
  rewrite (check_opt_ok (fun n => n <=? i32_max) (fun n => n <= i32_max)) by (intros n; apply Z.leb_le).
  rewrite (check_opt_ok (fun n => (16384 <=? n) && (n <=? 16777215)) (fun n => 16384 <= n <= 16777215))
    by (intros n; rewrite andb_true_iff, !Z.leb_le; done).
  assert (match cfg_tls c with Some tls => validate_tls tls | None => Ok tt end = Ok tt <->
    forall t, cfg_tls c = Some t ->
    match tls_backend t with
    | Rustls => is_Some (tls_cert_path t) /\ is_Some (tls_key_path t)
    | NativeTls => is_Some (tls_pkcs12_path t)
    end) as ->.
  { destruct (cfg_tls c) as [t|]; [|done]. rewrite validate_tls_ok. naive_solver. }
  split; [intros H; decompose [and] H; by split|intros []; by split_and!].
Qed.

Lemma valid_server_ok c : typed c -> valid c -> server_ok (server_config c).
Proof.
  intros Ht Hv. destruct Ht, Hv.
  split; rewrite ?server_config_backlog, ?server_config_max_connections, ?server_config_stream_window,
    ?server_config_connection_window, ?server_config_max_streams, ?server_config_frame_size,
    ?server_config_keep_alive_interval, ?server_config_keep_alive_timeout, ?server_config_send_buf,
    ?server_config_header_list, ?server_config_tcp_keepalive, ?server_config_tcp_keepalive_interval,
    ?server_config_tcp_keepalive_retries, ?server_config_recv_buffer, ?server_config_send_buffer;
    try done; try (by eapply nonzero_positive); try (by eapply positive_secs, nonzero_positive).
  - apply server_config_built.
  - rewrite server_config_accept_workers, server_config_reuse_port.
    destruct (ss_accept_workers (cfg_server c)) as [n|]; [|done]. cbn in va_reuse_port0.
    destruct (Z.ltb_spec 1 (Z.max n 1)); [|done]. by rewrite va_reuse_port0 by lia.
  - intros m (n & Hn & ->)%fmap_Some. specialize (va_backlog0 n Hn). specialize (va_backlog_i33 n Hn).
    pose proof (ty_backlog0 n Hn). rewrite as_i32_id by lia. lia.
  - intros n Hn. specialize (va_max_connections0 n Hn). specialize (ty_max_connections0 n Hn). lia.
  - intros n Hn. specialize (va_stream_window0 n Hn). specialize (va_stream_window_max0 n Hn).
    specialize (ty_stream_window0 n Hn). lia.
  - intros n Hn. specialize (va_connection_window0 n Hn). specialize (va_connection_window_max0 n Hn).
    specialize (ty_connection_window0 n Hn). lia.
  - intros n Hn. specialize (va_max_streams0 n Hn). specialize (ty_max_streams0 n Hn). lia.
  - unfold secs, SECOND. lia.
  - intros n Hn. destruct (h2_max_header_list_size (cfg_http2 c)) as [m|].
    + injection Hn as <-. by eapply nonzero_positive.
    + injection Hn as <-. done.
Qed.

(** One setting hyper bounds is not bounded: a send buffer size past [u32::MAX],
    which hyper's builder documents as a panic, validates and is passed on. *)
Lemma send_buf_unbounded c n :
  valid c -> h2_max_send_buf_size (cfg_http2 c) = Some n ->
  H2MaxSendBufSize n ∈ auto_builder (server_config c).
Proof.
  intros _ Hn. unfold auto_builder. rewrite server_config_send_buf, Hn. cbn [when_some].
  repeat (rewrite elem_of_app || rewrite elem_of_cons). tauto.
Qed.

Definition big_send_buf : ArvikConfig :=
  mkArvikConfig server_section_default http1_section_default
    (mkHttp2Section false true None None (Some 1000) (Some 20) 10 None (Some (u32_max + 1)) None)
    None shutdown_section_default.
Example big_send_buf_validates : validate big_send_buf = Ok tt.
Proof. reflexivity. Qed.

Section ConfigProperties.
Context `{Serde}.

Lemma build_inner_valid w b c : build_inner w b = Ok c -> validate c = Ok tt.
Proof.
  unfold build_inner. destruct (to_value _); [|done]. destruct (merge_files _ _ _); [|done].
  destruct (apply_env _ _ _); [|done]. destruct (from_value _) as [c'|]; [|done].
  destruct (validate c') as [[]|] eqn:Hv; [|done]. by intros [= <-].
Qed.


(** The configuration of the last successful update, or the initial one. *)
Definition last_ok (initial : ArvikConfig) (us : list (result ArvikConfig ConfigError)) : ArvikConfig :=
  fold_left (fun c u => match u with Ok c' => c' | Err _ => c end) us initial.

#[local] Arguments last_ok : simpl never.

Lemma last_ok_app initial us us' : last_ok initial (us ++ us') = last_ok (last_ok initial us) us'.
Proof. apply fold_left_app. Qed.

(** What the watcher keeps: a validated configuration, the one last published. *)
Definition watcher_ok (initial : ArvikConfig) (cw : ConfigWatcher) : Prop :=
  validate (w_current cw) = Ok tt /\ w_current cw = last_ok initial (w_updates cw) /\
  Forall (fun u => forall c, u = Ok c -> validate c = Ok tt) (w_updates cw).

Lemma push_err_ok initial e cw : watcher_ok initial cw -> watcher_ok initial (push_update (Err e) cw).
Proof.
  intros (H1 & H2 & H3). unfold watcher_ok. cbn. rewrite last_ok_app, <- H2. split; [done|].
  split; [done|]. apply Forall_app. split; [done|]. by apply Forall_singleton.
Qed.

Lemma forward_errors_ok initial events cw :
  watcher_ok initial cw -> watcher_ok initial (forward_errors events cw).
Proof.
  revert cw; induction events as [|[|e] events IH]; intros cw Hw; [done|by apply IH|].
  by apply IH, push_err_ok.
Qed.

Lemma watcher_turn_ok initial b event pending w cw :
  watcher_ok initial cw -> watcher_ok initial (watcher_turn b event pending w cw).
Proof.
  intros Hw. unfold watcher_turn. destruct event as [|e]; [|by apply push_err_ok].
  pose proof (forward_errors_ok initial pending cw Hw) as (H1 & H2 & H3).
  destruct (build_inner w b) as [c|e] eqn:Hb; [|by apply push_err_ok].
  apply build_inner_valid in Hb. unfold watcher_ok. cbn. rewrite last_ok_app.
  split; [done|]. split; [done|]. apply Forall_app. split; [done|].
  apply Forall_singleton. by intros ? [= <-].
Qed.

Lemma watcher_run_ok initial b turns cw :
  watcher_ok initial cw -> watcher_ok initial (watcher_run b turns cw).
Proof.
  revert cw; induction turns as [|[[ev pending] w] turns IH]; intros cw Hw; [exact Hw|].
  unfold watcher_run. cbn [fold_left fst snd]. by apply IH, watcher_turn_ok.
Qed.

(** Hot reload never publishes a bad configuration: from a watcher that
    started, after any sequence of file events, event errors, bursts and
    changes of the files and variables it reads, the current configuration has
    passed validation and is the last one a successful reload published (the
    initial one before any), so a failed reload changes nothing but the updates. *)
Theorem watcher_current_valid w0 b turns cw0 :
  watcher_new w0 b = Ok cw0 ->
  let cw := watcher_run b turns cw0 in
  validate (w_current cw) = Ok tt /\ w_current cw = last_ok (w_current cw0) (w_updates cw) /\
  Forall (fun u => forall c, u = Ok c -> validate c = Ok tt) (w_updates cw).
Proof.
  intros Hn. assert (watcher_ok (w_current cw0) cw0) as Hw.
  { revert Hn. unfold watcher_new. destruct (build_inner w0 b) eqn:Hb; [|done].
    intros [= <-]. apply build_inner_valid in Hb. by repeat split; cbn; auto. }
  apply (watcher_run_ok (w_current cw0) b turns cw0 Hw).
Qed.
End ConfigProperties.

(** *** Witnesses

    A serde that reads the port and the backlog at their types and takes the
    rest from the defaults. *)
Module ConfigDemo.
Definition as_u (max : Z) (v : option Value) : option Z :=
  match v with
  | Some (VNumber (PosInt n)) => if (0 <=? n) && (n <=? max) then Some n else None
  | _ => None
  end.

Definition with_port_backlog (port : Z) (backlog : option Z) : ArvikConfig :=
  mkArvikConfig
    (mkServerSection "127.0.0.1" port None backlog None None None None None None false false
       None None None)
    http1_section_default http2_section_default None shutdown_section_default.

Definition serde : Serde := {|
  to_value c := Some (VObject {["server" :=
    VObject {["port" := VNumber (PosInt (ss_port (cfg_server c)))]}]});
  from_value v :=
    match as_u u16_max (get_path v ["server"; "port"]) with
    | Some p => Some (with_port_backlog p (as_u u32_max (get_path v ["server"; "backlog"])))
    | None => None
    end;
  toml_parse _ := None;
  json_parse s := if String.eqb s "bad" then None
                  else Some (VObject {["server" := VObject {["backlog" := VNumber (PosInt 64)]}]}) |}.

Lemma as_u_range max v n : as_u max v = Some n -> 0 <= n <= max.
Proof.
  unfold as_u. repeat case_match; try done. intros [= <-]. bool_hyps. lia.
Qed.

Lemma serde_typed v c : from_value (Serde := serde) v = Some c -> typed c.
Proof.
  cbn. destruct (as_u u16_max _) as [p|] eqn:Hp; [|done]. intros [= <-].
  apply as_u_range in Hp. split; cbn; try (by intros ? [=]); try (by intros ? [= <-]); try done.
  intros n Hn. by apply as_u_range in Hn.
Qed.

Definition world (contents : string) : World :=
  mkWorld (fun _ => Some contents) [(Some "ARVIK_SERVER_PORT", Some "9090")].
Definition builder : ArvikConfigBuilder := builder_file "app.json" builder_default.
Definition loaded : ArvikConfig := with_port_backlog 9090 (Some 64).
End ConfigDemo.
Import ConfigDemo.


(** A reload of a broken file keeps the configuration. *)
Lemma watcher_current_valid_witness :
  let cw := watcher_run (H := serde) builder [(Ok tt, [], world "bad")] (mkWatcher loaded []) in
  w_current cw = loaded /\ w_updates cw = [Err (ErrJson "app.json")].
Proof.
  pose proof (watcher_current_valid (H := serde) (world "good") builder
    [(Ok tt, [], world "bad")] (mkWatcher loaded [])
    ltac:(vm_compute; reflexivity)) as (_ & H & _).
  split; [exact H|reflexivity].
Defined.
