(* ===== verification/ConfigWatch.v ===== *)
(** * Hot reload of the configuration, step by step

    [ConfigWatcher] of [arvik-config/src/lib.rs] with everything it runs
    against: the directories it watches, the notifier, the channel of events,
    the task that debounces, drains and reloads file by file, and a client that
    calls [next] and [current].  Files may change between any two steps.
    [Config.watcher_turn] is the same task seen one reload at a time.

    [notify] is a queue of reports not yet delivered to the callback: a change
    of a file in a watched directory is reported, errors and spurious events may
    be, and [opens] says whether opening a file is (on Linux it is, as an access
    event).  The start is stepped too: the files are loaded before their
    directories are watched, and may change in between.  The variables of the
    environment do not change. *)
From S2P Require Import Prelude RustStr FileWatch ConfigValue Config.
From stdpp Require Import base list strings gmap.
From Stdlib Require Import ZArith Lia Ascii String.
Open Scope string_scope.
Open Scope list_scope.

Section Watch.
Context `{Serde}.
Context (b : ArvikConfigBuilder) (vars : list EnvVar).

Definition Read := string -> option string.
Definition Event := result EventKind string.

Definition is_watched (dirs : list FsPath) (file : string) : bool :=
  match path_parent (fs_path_of file) with Some dir => bool_decide (dir ∈ dirs) | None => false end.

Definition differs (read read' : Read) (file : string) : bool :=
  negb (bool_decide (read file = read' file)).

(** What a change of the files makes the notifier report. *)
Definition edit_report (dirs : list FsPath) (read read' : Read) : list Event :=
  if existsb (fun f => differs read read' f && is_watched dirs f) (b_files b) then [Ok EvModify] else [].

(** The rest of [build_inner] once the files are merged. *)
Definition finish_load (merged : Value) : result ArvikConfig ConfigError :=
  match apply_env merged (b_env_prefix b) vars with
  | Err e => Err e
  | Ok merged =>
      match from_value merged with
      | None => Err ErrDecode
      | Some config => match validate config with Err e => Err e | Ok _ => Ok config end
      end
  end.

(** ** Starting

    [ConfigWatcher::new] up to the task it spawns: it loads the files, one after
    the other, makes a notifier, and watches the parent directory of each file,
    once; files may change between any two of its steps, and what changes in a
    directory before it is watched is reported to nobody. *)

(** The directory of a file, watched unless it is. *)
Definition watch_parent (watch : FsPath -> option string) (file : string) (watched : list FsPath)
  : result (list FsPath) ConfigError :=
  match path_parent (fs_path_of file) with
  | None => Ok watched
  | Some dir =>
      if decide (dir ∈ watched) then Ok watched
      else match watch dir with Some e => Err (ErrWatch e) | None => Ok (watched ++ [dir]) end
  end.

Inductive StartPhase :=
| StartLoading (rest : list string) (merged : Value)
| MakingNotifier (config : ArvikConfig)
| Watching (rest : list string) (config : ArvikConfig)
| Started (config : ArvikConfig)
| NotStarted (e : ConfigError).

Record Starting := mkStarting {
  st_read : Read;
  st_watched : list FsPath;
  st_reports : list Event;
  st_phase : StartPhase }.

Definition st_at (p : StartPhase) (s : Starting) : Starting :=
  mkStarting (st_read s) (st_watched s) (st_reports s) p.

Definition starting (read : Read) : Starting :=
  mkStarting read [] []
    match to_value (b_defaults b) with
    | None => NotStarted ErrDecode
    | Some merged => StartLoading (b_files b) merged
    end.

(** One step of [ConfigWatcher::new].  [notifier] is the error of making a
    notifier, if any, [watch] that of watching a directory. *)
Definition start_step (notifier : option string) (watch : FsPath -> option string) (s : Starting) : Starting :=
  match st_phase s with
  | StartLoading (file :: rest) merged =>
      match load_file (mkWorld (st_read s) vars) file with
      | Err e => st_at (NotStarted e) s
      | Ok value => st_at (StartLoading rest (merge_values merged value)) s
      end
  | StartLoading [] merged =>
      match finish_load merged with
      | Err e => st_at (NotStarted e) s
      | Ok initial => st_at (MakingNotifier initial) s
      end
  | MakingNotifier initial =>
      match notifier with
      | Some e => st_at (NotStarted (ErrWatch e)) s
      | None => st_at (Watching (b_files b) initial) s
      end
  | Watching (file :: rest) initial =>
      match watch_parent watch file (st_watched s) with
      | Err e => st_at (NotStarted e) s
      | Ok watched => mkStarting (st_read s) watched (st_reports s) (Watching rest initial)
      end
  | Watching [] initial => st_at (Started initial) s
  | Started _ | NotStarted _ => s
  end.

(** [StartEdit]: the files change, meanwhile. *)
Inductive StartOp := StartEdit (read : Read) | StartStep.

Definition start_op notifier watch (s : Starting) (op : StartOp) : Starting :=
  match op with
  | StartEdit read =>
      mkStarting read (st_watched s) (st_reports s ++ edit_report (st_watched s) (st_read s) read) (st_phase s)
  | StartStep => start_step notifier watch s
  end.

(** [ConfigWatcher::new] among the changes of the files. *)
Definition config_watcher_new notifier watch (read : Read) (ops : list StartOp) : Starting :=
  fold_left (start_op notifier watch) ops (starting read).

(** ** The system *)

Context (dirs : list FsPath) (opens : bool).

(** Where the task is: receiving, sleeping, draining the channel, loading the
    files that are left over what is merged, about to publish what the reload
    gave, and about to send it, the configuration being published. *)
Inductive TaskPhase :=
| Receiving
| Sleeping
| Draining
| LoadingFiles (rest : list string) (merged : Value)
| Loaded (r : result ArvikConfig ConfigError)
| Sending (config : ArvikConfig).

(** [reports] is what the notifier has still to deliver, [events] the channel.
    Ghost state: [received], what the client took from the updates; [history],
    the configurations published; [last_load], what the last reload gave. *)
Record System := mkSystem {
  sys_read : Read;
  reports : list Event;
  events : list Event;
  task : TaskPhase;
  watcher : ConfigWatcher;
  received : list (result ArvikConfig ConfigError);
  history : list ArvikConfig;
  last_load : result ArvikConfig ConfigError }.

Definition with_task (p : TaskPhase) (s : System) : System :=
  mkSystem (sys_read s) (reports s) (events s) p (watcher s) (received s) (history s) (last_load s).
Definition with_events (es : list Event) (s : System) : System :=
  mkSystem (sys_read s) (reports s) es (task s) (watcher s) (received s) (history s) (last_load s).
Definition report (es : list Event) (s : System) : System :=
  mkSystem (sys_read s) (reports s ++ es) (events s) (task s) (watcher s) (received s) (history s)
    (last_load s).
(** [update_tx.send]. *)
Definition send (u : result ArvikConfig ConfigError) (s : System) : System :=
  mkSystem (sys_read s) (reports s) (events s) (task s) (push_update u (watcher s)) (received s)
    (history s) (last_load s).
(** [*current = config.clone()] under the write lock. *)
Definition publish (config : ArvikConfig) (s : System) : System :=
  mkSystem (sys_read s) (reports s) (events s) (task s)
    (mkWatcher config (w_updates (watcher s))) (received s) (history s ++ [config]) (last_load s).
Definition reloaded (r : result ArvikConfig ConfigError) (s : System) : System :=
  mkSystem (sys_read s) (reports s) (events s) (Loaded r) (watcher s) (received s) (history s) r.

(** What opening a file makes the notifier report. *)
Definition open_report (read : Read) (file : string) : list Event :=
  match read file with
  | Some _ => if opens && is_watched dirs file then [Ok EvAccess] else []
  | None => []
  end.

(** One step of the task. *)
Definition reload_step (s : System) : System :=
  match task s with
  | Receiving =>
      match events s with
      | [] => s
      | Err e :: es => send (Err (ErrWatch e)) (with_events es s)
      | Ok _ :: es => with_task Sleeping (with_events es s)
      end
  | Sleeping => with_task Draining s
  | Draining =>
      match events s with
      | Err e :: es => send (Err (ErrWatch e)) (with_events es s)
      | Ok _ :: es => with_events es s
      | [] =>
          match to_value (b_defaults b) with
          | None => reloaded (Err ErrDecode) s
          | Some merged => with_task (LoadingFiles (b_files b) merged) s
          end
      end
  | LoadingFiles (file :: rest) merged =>
      let s := report (open_report (sys_read s) file) s in
      match load_file (mkWorld (sys_read s) vars) file with
      | Err e => reloaded (Err e) s
      | Ok value => with_task (LoadingFiles rest (merge_values merged value)) s
      end
  | LoadingFiles [] merged => reloaded (finish_load merged) s
  | Loaded (Ok config) => with_task (Sending config) (publish config s)
  | Loaded (Err e) => with_task Receiving (send (Err e) s)
  | Sending config => with_task Receiving (send (Ok config) s)
  end.

(** [ConfigWatcher::next]: the oldest update; without one it waits. *)
Definition next_update (s : System) : option (result ArvikConfig ConfigError * System) :=
  match w_updates (watcher s) with
  | [] => None
  | u :: us =>
      Some (u, mkSystem (sys_read s) (reports s) (events s) (task s)
                 (mkWatcher (w_current (watcher s)) us) (received s ++ [u]) (history s) (last_load s))
  end.

(** [ConfigWatcher::current]. *)
Definition current (s : System) : ArvikConfig := w_current (watcher s).

Inductive SysOp :=
| OpEdit (read : Read)
| OpReport (e : Event)
| OpDeliver
| OpTask
| OpNext.

Definition sys_step (s : System) (op : SysOp) : System :=
  match op with
  | OpEdit read =>
      report (edit_report dirs (sys_read s) read)
        (mkSystem read (reports s) (events s) (task s) (watcher s) (received s) (history s) (last_load s))
  | OpReport e => report [e] s
  | OpDeliver =>
      match reports s with
      | [] => s
      | e :: es => mkSystem (sys_read s) es (events s ++ [e]) (task s) (watcher s) (received s)
                     (history s) (last_load s)
      end
  | OpTask => reload_step s
  | OpNext => match next_update s with Some (_, s') => s' | None => s end
  end.

Definition sys_run (ops : list SysOp) (s : System) : System := fold_left sys_step ops s.

(** The system when [ConfigWatcher::new] has returned and the task has not run. *)
Definition sys_init (st : Starting) (initial : ArvikConfig) : System :=
  mkSystem (st_read st) (st_reports st) [] Receiving (mkWatcher initial []) [] [] (Ok initial).

Definition quiescent (s : System) : Prop := reports s = [] /\ events s = [] /\ task s = Receiving.

(** ** Facts *)

(** A report that something changed: the errors of the notifier are none. *)
Definition has_change (es : list Event) : bool := existsb is_ok es.

Lemma has_change_app es es' : has_change (es ++ es') = has_change es || has_change es'.
Proof. apply existsb_app. Qed.

(** What a load gives from where it is, and what a whole load would give now. *)
Definition remaining_load (read : Read) (rest : list string) (merged : Value)
  : result ArvikConfig ConfigError :=
  match merge_files (mkWorld read vars) rest merged with
  | Err e => Err e
  | Ok merged => finish_load merged
  end.
Definition load_now (s : System) : result ArvikConfig ConfigError :=
  build_inner (mkWorld (sys_read s) vars) b.

Lemma build_inner_remaining read :
  build_inner (mkWorld read vars) b =
    match to_value (b_defaults b) with
    | None => Err ErrDecode
    | Some merged => remaining_load read (b_files b) merged
    end.
Proof.
  unfold build_inner, remaining_load, finish_load. destruct (to_value _); [|done].
  by destruct (merge_files _ _ _).
Qed.

Lemma load_file_ext read read' file : read file = read' file ->
  load_file (mkWorld read vars) file = load_file (mkWorld read' vars) file.
Proof. intros E. unfold load_file. cbn. by rewrite E. Qed.

Lemma remaining_load_ext read read' rest merged : (forall f, f ∈ rest -> read f = read' f) ->
  remaining_load read rest merged = remaining_load read' rest merged.
Proof.
  unfold remaining_load. revert merged; induction rest as [|f rest IH]; intros merged E; [done|].
  cbn [merge_files]. rewrite (load_file_ext read read') by (apply E; left).
  destruct (load_file _ f); [|done]. apply IH. intros g Hg. apply E. by right.
Qed.

Lemma build_inner_ext read read' : (forall f, f ∈ b_files b -> read f = read' f) ->
  build_inner (mkWorld read vars) b = build_inner (mkWorld read' vars) b.
Proof.
  intros E. rewrite !build_inner_remaining. destruct (to_value _); [|done]. by apply remaining_load_ext.
Qed.

Lemma finish_load_valid merged c : finish_load merged = Ok c -> validate c = Ok tt.
Proof.
  unfold finish_load. destruct (apply_env _ _ _); [|done]. destruct (from_value _) as [c'|]; [|done].
  destruct (validate c') as [[]|] eqn:E; [|done]. by intros [= <-].
Qed.

Lemma differs_eq read read' f : differs read read' f = false -> read f = read' f.
Proof. unfold differs. by case_bool_decide. Qed.

(** *** What a reload has published and sent *)

Definition oks (us : list (result ArvikConfig ConfigError)) : list ArvikConfig :=
  omap (fun u => match u with Ok c => Some c | Err _ => None end) us.
Definition update_log (s : System) : list (result ArvikConfig ConfigError) :=
  received s ++ w_updates (watcher s).

Definition unsent (p : TaskPhase) : list ArvikConfig :=
  match p with Sending c => [c] | _ => [] end.

Definition quiet (p : TaskPhase) : Prop :=
  match p with Loaded _ | Sending _ => False | _ => True end.

(** The current configuration is the last one published, the updates tell what
    was published in order, and the last reload's result is on its way or has
    arrived. *)
Record published (initial cur : ArvikConfig) (hist : list ArvikConfig)
    (log : list (result ArvikConfig ConfigError)) (p : TaskPhase) (last : result ArvikConfig ConfigError)
    : Prop := mkPublished {
  pb_history : hist = oks log ++ unsent p;
  pb_valid : Forall (fun c => validate c = Ok tt) (initial :: hist);
  pb_current : cur = List.last hist initial;
  pb_phase : match p with Loaded r => last = r | Sending c => last = Ok c | _ => True end;
  pb_last : match last with
            | Ok c => validate c = Ok tt /\ (p = Loaded last \/ cur = c)
            | Err e => p = Loaded last \/ Err e ∈ log
            end }.
Definition sys_published (initial : ArvikConfig) (s : System) : Prop :=
  published initial (current s) (history s) (update_log s) (task s) (last_load s).

Lemma oks_app us us' : oks (us ++ us') = oks us ++ oks us'.
Proof. apply omap_app. Qed.

Lemma send_log u s : update_log (send u s) = update_log s ++ [u].
Proof. unfold update_log. cbn. by rewrite app_assoc. Qed.

Lemma quiet_last p last cur (log : list (result ArvikConfig ConfigError)) : quiet p ->
  match last with
  | Ok c => validate c = Ok tt /\ (p = Loaded last \/ cur = c)
  | Err e => p = Loaded last \/ Err e ∈ log
  end ->
  match last with
  | Ok c => validate c = Ok tt /\ cur = c
  | Err e => Err e ∈ log
  end.
Proof. destruct last; [intros Hq [Hv [-> |?]]|intros Hq [-> |?]]; done. Qed.

Lemma published_quiet initial cur hist log p p' last : quiet p -> quiet p' ->
  published initial cur hist log p last -> published initial cur hist log p' last.
Proof.
  intros Hq Hq' [Hh Hv Hc Hp Hl]. apply (quiet_last p) in Hl; [|done]. split; try done.
  - rewrite Hh. f_equal. by destruct p, p'.
  - by destruct p'.
  - destruct last; [destruct Hl|]; eauto.
Qed.

Lemma published_error initial cur hist log p last e : quiet p ->
  published initial cur hist log p last -> published initial cur hist (log ++ [Err e]) p last.
Proof.
  intros Hq [Hh Hv Hc Hp Hl]. apply (quiet_last p) in Hl; [|done]. split; try done.
  - by rewrite oks_app, app_nil_r.
  - destruct last; [destruct Hl; eauto|right]. apply elem_of_app. by left.
Qed.

Lemma published_loaded initial cur hist log p last r : quiet p -> (forall c, r = Ok c -> validate c = Ok tt) ->
  published initial cur hist log p last -> published initial cur hist log (Loaded r) r.
Proof.
  intros Hq Hr [Hh Hv Hc _ _]. split; try done.
  - rewrite Hh. by destruct p.
  - destruct r; eauto.
Qed.

Lemma published_publish initial cur hist log c last :
  published initial cur hist log (Loaded (Ok c)) last ->
  published initial c (hist ++ [c]) log (Sending c) last.
Proof.
  intros [Hh Hv Hc -> [Hvc _]]. split; try done.
  - by rewrite Hh, app_nil_r.
  - apply Forall_cons in Hv as [? ?]. constructor; [done|]. apply Forall_app. by repeat constructor.
  - by rewrite last_last.
  - eauto.
Qed.

Lemma published_sent initial cur hist log p last u :
  match u with Ok c => p = Sending c | Err e => p = Loaded (Err e) end ->
  published initial cur hist log p last -> published initial cur hist (log ++ [u]) Receiving last.
Proof.
  destruct u as [c|e]; intros -> [Hh Hv Hc -> Hl]; split; try done; rewrite ?oks_app; cbn.
  - by rewrite app_nil_r.
  - destruct Hl as [? [[=]|?]]. eauto.
  - by rewrite Hh, !app_nil_r.
  - right. apply elem_of_app. right. by left.
Qed.

Lemma reload_step_published initial s : sys_published initial s -> sys_published initial (reload_step s).
Proof.
  unfold sys_published, reload_step. intros Hp. destruct (task s) as [| | |[|file rest] merged|[c|e]|c] eqn:Ep.
  - destruct (events s) as [|[k|e] es]; [by rewrite Ep|by apply (published_quiet _ _ _ _ Receiving)|].
    rewrite send_log. cbn. rewrite Ep. by apply published_error.
  - by apply (published_quiet _ _ _ _ Sleeping).
  - destruct (events s) as [|[k|e] es]; [|by cbn; rewrite Ep|].
    + destruct (to_value _); [by apply (published_quiet _ _ _ _ Draining)|].
      by apply (published_loaded _ _ _ _ Draining (last_load s)).
    + rewrite send_log. cbn. rewrite Ep. by apply published_error.
  - apply (published_loaded _ _ _ _ (LoadingFiles [] merged) (last_load s)); [done| |done].
    apply finish_load_valid.
  - destruct (load_file _ file) as [v|e].
    + by apply (published_quiet _ _ _ _ (LoadingFiles (file :: rest) merged)).
    + by apply (published_loaded _ _ _ _ (LoadingFiles (file :: rest) merged) (last_load s)).
  - by apply published_publish in Hp.
  - change (published initial (current s) (history s) (update_log (send (Err e) s)) Receiving (last_load s)).
    rewrite send_log. by eapply published_sent; [|exact Hp].
  - change (published initial (current s) (history s) (update_log (send (Ok c) s)) Receiving (last_load s)).
    rewrite send_log. by eapply published_sent; [|exact Hp].
Qed.

Lemma sys_step_published initial s op : sys_published initial s -> sys_published initial (sys_step s op).
Proof.
  intros Hp. destruct op; cbn; [exact Hp|exact Hp|by destruct (reports s)|by apply reload_step_published|].
  unfold next_update. destruct (w_updates (watcher s)) as [|u us] eqn:E; [done|].
  unfold sys_published, update_log in *. cbn. rewrite E in Hp. by rewrite <- app_assoc.
Qed.

Lemma sys_run_app ops ops' s : sys_run (ops ++ ops') s = sys_run ops' (sys_run ops s).
Proof. apply fold_left_app. Qed.

Lemma sys_run_inv (P : System -> Prop) ops s :
  (forall s op, P s -> P (sys_step s op)) -> P s -> P (sys_run ops s).
Proof. intros Hs. revert s; induction ops as [|op ops IH]; intros s HP; [done|]. by apply IH, Hs. Qed.

(** *** Nothing is missed *)

Definition covered : Prop := Forall (fun f => is_watched dirs f = true) (b_files b).

(** When no report of a change is on its way, the last reload, or the one that
    runs, gives what a load would give now. *)
Definition tracks (s : System) : Prop :=
  match task s with LoadingFiles rest _ => rest ⊆ b_files b | _ => True end /\
  (has_change (reports s) = false -> has_change (events s) = false ->
   match task s with
   | Sleeping | Draining => True
   | LoadingFiles rest merged => remaining_load (sys_read s) rest merged = load_now s
   | _ => last_load s = load_now s
   end).

Lemma edit_unreported read read' : covered ->
  existsb (fun f => differs read read' f && is_watched dirs f) (b_files b) = false ->
  forall f, f ∈ b_files b -> read f = read' f.
Proof.
  intros Hc Hx f Hf. apply differs_eq. destruct (differs read read' f) eqn:Hd; [|done].
  assert (existsb (fun f => differs read read' f && is_watched dirs f) (b_files b) = true); [|congruence].
  apply existsb_exists. exists f. split; [by apply list_elem_of_In|].
  rewrite Hd. by apply (proj1 (Forall_forall _ _) Hc f).
Qed.

Lemma edit_tracks read s : covered -> tracks s -> tracks (sys_step s (OpEdit read)).
Proof.
  intros Hc [Hsub Ht]. cbn. split; [done|]. cbn. rewrite has_change_app.
  intros [Hr Hx]%orb_false_iff He. specialize (Ht Hr He). unfold edit_report in Hx.
  destruct (existsb _ _) eqn:E; [done|]. pose proof (edit_unreported (sys_read s) read Hc E) as Heq.
  unfold load_now in *. cbn.
  rewrite <- (build_inner_ext (sys_read s) read) by done.
  destruct (task s) as [| | |rest merged| |]; try done.
  rewrite <- Ht. symmetry. apply remaining_load_ext. intros f Hf. by apply Heq, Hsub.
Qed.

Lemma load_file_tracks s file rest merged : task s = LoadingFiles (file :: rest) merged ->
  tracks s -> tracks (reload_step s).
Proof.
  unfold tracks, reload_step. intros Ep. rewrite Ep. intros [Hsub Ht].
  set (s1 := report _ s).
  assert (Hs1 : has_change (reports s1) = false -> has_change (events s1) = false ->
    remaining_load (sys_read s1) (file :: rest) merged = load_now s1).
  { intros Hr. cbn in Hr. rewrite has_change_app in Hr. apply orb_false_iff in Hr as [Hr _].
    intros He. by apply Ht. }
  unfold remaining_load in *. cbn [merge_files] in Hs1. cbn [sys_read s1 report] in *.
  destruct (load_file _ file) as [v|e]; cbn.
  - split; [|exact Hs1]. intros f Hf. apply Hsub. by right.
  - split; [done|exact Hs1].
Qed.

Lemma reload_step_tracks s : tracks s -> tracks (reload_step s).
Proof.
  destruct (task s) as [| | |[|file rest] merged|[c|e]|c] eqn:Ep; [..|exact (load_file_tracks s file rest merged Ep)| | |];
    unfold tracks, reload_step; rewrite Ep.
  - intros [_ Ht]. destruct (events s) as [|[k|e] es] eqn:Ee; cbn; rewrite ?Ep, ?Ee; auto.
  - done.
  - intros _. destruct (events s) as [|[k|e] es] eqn:Ee; cbn; rewrite ?Ep; try done.
    unfold load_now. rewrite build_inner_remaining. destruct (to_value _) eqn:Ev; split; cbn; rewrite ?Ev; done.
  - intros [_ Ht]. split; [done|]. exact Ht.
  - intros [_ Ht]. by split.
  - intros [_ Ht]. by split.
  - intros [_ Ht]. by split.
Qed.

Lemma sys_step_tracks s op : covered -> tracks s -> tracks (sys_step s op).
Proof.
  intros Hc Ht. destruct op as [read|e| | |]; [by apply edit_tracks|..|by apply reload_step_tracks|].
  - destruct Ht as [Hsub Ht]. split; [done|]. cbn. rewrite has_change_app.
    intros [Hr _]%orb_false_iff. by apply Ht.
  - cbn. destruct (reports s) as [|e es] eqn:Er; [done|]. destruct Ht as [Hsub Ht]. split; [done|].
    cbn. rewrite has_change_app. cbn. intros Hr [He Hk]%orb_false_iff. apply Ht; [|done].
    rewrite Er. cbn. rewrite orb_false_r in Hk. by rewrite Hk.
  - cbn. unfold next_update. by destruct (w_updates (watcher s)).
Qed.

(** A load under way reads files of the configuration. *)
Definition loads_files (s : System) : Prop :=
  match task s with LoadingFiles rest _ => rest ⊆ b_files b | _ => True end.

Lemma sys_step_loads_files s op : loads_files s -> loads_files (sys_step s op).
Proof.
  unfold loads_files. intros Hs. destruct op as [read|e| | |]; cbn; [exact Hs|exact Hs|destruct (reports s); exact Hs| |].
  - unfold reload_step. destruct (task s) as [| | |[|file rest] merged|[c|e]|c] eqn:Ep; try done.
    + destruct (events s) as [|[k|e] es]; cbn; by rewrite ?Ep.
    + destruct (events s) as [|[k|e] es]; cbn; rewrite ?Ep; try done. destruct (to_value _) as [v|]; [by intros f|done].
    + destruct (load_file _ file); cbn; [|done]. intros f Hf. apply Hs. by right.
  - unfold next_update. by destruct (w_updates (watcher s)).
Qed.

(** A change is reported at some time of a run. *)
Definition reported (ops : list SysOp) (s : System) : Prop :=
  exists before after, ops = before ++ after /\ has_change (reports (sys_run before s)) = true.

(** After a report nothing is missed, whatever was before it. *)
Lemma reported_tracks ops s : covered -> loads_files s -> reported ops s -> tracks (sys_run ops s).
Proof.
  intros Hc Hl (before & after & -> & Hr). rewrite sys_run_app.
  apply (sys_run_inv tracks); [by intros; apply sys_step_tracks|]. split; [|by rewrite Hr].
  by apply (sys_run_inv loads_files); [intros; apply sys_step_loads_files|].
Qed.

(** *** A reload as one turn

    What the task makes of its state when nothing else happens, up to reports
    and ghost state. *)
Definition becomes (s : System) (es : list Event) (p : TaskPhase) (cw : ConfigWatcher) : Prop :=
  exists n, let s' := sys_run (replicate n OpTask) s in
    sys_read s' = sys_read s /\ events s' = es /\ task s' = p /\ watcher s' = cw.

Lemma becomes_step s es p cw : sys_read (reload_step s) = sys_read s ->
  becomes (reload_step s) es p cw -> becomes s es p cw.
Proof. intros Hr (n & H1 & H2). exists (S n). cbn -[reload_step]. by rewrite <- Hr. Qed.

Lemma becomes_here s es p cw : events s = es -> task s = p -> watcher s = cw -> becomes s es p cw.
Proof. intros. by exists 0%nat. Qed.

Definition of_event (e : Event) : result unit string := match e with Ok _ => Ok tt | Err e => Err e end.

Lemma load_becomes rest merged s : events s = [] -> task s = LoadingFiles rest merged ->
  becomes s [] Receiving
    match remaining_load (sys_read s) rest merged with
    | Ok c => push_update (Ok c) (mkWatcher c (w_updates (watcher s)))
    | Err e => push_update (Err e) (watcher s)
    end.
Proof.
  revert merged s; induction rest as [|file rest IH]; intros merged s He Ht;
    (apply becomes_step; [unfold reload_step; rewrite Ht; by repeat case_match|]);
    unfold reload_step, remaining_load; rewrite Ht; cbn [merge_files].
  - destruct (finish_load merged) as [c|e]; do 2 (try (apply becomes_step; [done|]; cbn));
      by apply becomes_here.
  - destruct (load_file _ file) as [v|e].
    + exact (IH _ (with_task (LoadingFiles rest (merge_values merged v))
               (report (open_report (sys_read s) file) s)) He eq_refl).
    + apply becomes_step; [done|]. by apply becomes_here.
Qed.

Lemma drain_becomes es s p cw : task s = Draining -> events s = es ->
  (forall s', sys_read s' = sys_read s -> task s' = Draining -> events s' = [] ->
     watcher s' = forward_errors (map of_event es) (watcher s) -> becomes s' [] p cw) ->
  becomes s [] p cw.
Proof.
  revert s; induction es as [|e es IH]; intros s Ht He Hk; [by apply Hk|].
  assert (reload_step s = match e with
            | Ok _ => with_events es s
            | Err e => send (Err (ErrWatch e)) (with_events es s)
            end) as Hs by (unfold reload_step; by rewrite Ht, He; destruct e).
  apply becomes_step; [by rewrite Hs; destruct e|]. rewrite Hs.
  apply IH; [by destruct e..|]. intros s' Hr Ht' He' Hw. apply Hk; try done; [by rewrite Hr; destruct e|].
  rewrite Hw. by destruct e.
Qed.

(** *** Settling *)

Definition phase_weight (p : TaskPhase) : nat :=
  match p with
  | Receiving => 0
  | Sleeping => List.length (b_files b) + 5
  | Draining => List.length (b_files b) + 4
  | LoadingFiles rest _ => List.length rest + 3
  | Loaded _ => 2
  | Sending _ => 1
  end.

(** What there is to do: deliver each report, handle each event, reload. *)
Definition work (s : System) : nat :=
  (2 * List.length (reports s) + List.length (events s)) * (List.length (b_files b) + 6)
  + phase_weight (task s).

Definition idle (s : System) : Prop := events s = [] /\ task s = Receiving.

Lemma reload_step_work s : opens = false -> idle s \/ (work (reload_step s) < work s)%nat.
Proof.
  intros Ho. unfold work, reload_step, idle. destruct (task s) as [| | |[|file rest] merged|[c|e]|c] eqn:Ep.
  - destruct (events s) as [|[k|e] es]; [by left|right; cbn; nia|right; cbn; rewrite Ep; cbn; nia].
  - right. cbn. lia.
  - right. destruct (events s) as [|[k|e] es] eqn:Ee; cbn; rewrite ?Ep; cbn; [|nia..].
    destruct (to_value _); cbn; rewrite Ee; cbn; lia.
  - right. cbn. lia.
  - right. assert (open_report (sys_read s) file = []) as Hr.
    { unfold open_report. rewrite Ho. by destruct (sys_read s file). }
    destruct (load_file _ file); cbn; rewrite Hr, app_nil_r; lia.
  - right. cbn. lia.
  - right. cbn. lia.
  - right. cbn. lia.
Qed.

Lemma idle_reload_step s : idle s -> reload_step s = s.
Proof. intros [He Ht]. unfold reload_step. by rewrite Ht, He. Qed.

Lemma deliver_work s :
  reports s = [] /\ sys_step s OpDeliver = s \/ (work (sys_step s OpDeliver) < work s)%nat.
Proof.
  cbn. destruct (reports s) as [|e es] eqn:Er; [by left|right]. unfold work. cbn. rewrite length_app.
  cbn. lia.
Qed.

(** A delivery and a step of the task get closer to the end, or are there. *)
Definition one_round : list SysOp := [OpDeliver; OpTask].

Lemma one_round_work s : opens = false ->
  quiescent s /\ sys_run one_round s = s \/ (work (sys_run one_round s) < work s)%nat.
Proof.
  intros Ho. change (sys_run one_round s) with (reload_step (sys_step s OpDeliver)).
  destruct (deliver_work s) as [[Hr ->]|Hd].
  - destruct (reload_step_work s Ho) as [Hi|Hw]; [left|by right].
    split; [by destruct Hi|by apply idle_reload_step].
  - right. destruct (reload_step_work (sys_step s OpDeliver) Ho) as [Hi|Hw]; [|lia].
    by rewrite idle_reload_step.
Qed.

Lemma rounds_settle n s : opens = false -> (work s <= n)%nat ->
  quiescent (sys_run (List.concat (replicate n one_round)) s).
Proof.
  intros Ho. revert s; induction n as [|n IH]; intros s Hn; cbn [replicate List.concat].
  - destruct (one_round_work s Ho) as [[Hq _]|Hw]; [exact Hq|lia].
  - rewrite sys_run_app. destruct (one_round_work s Ho) as [[Hq Heq]|Hw]; [|apply IH; lia].
    rewrite Heq. destruct n as [|n]; [exact Hq|].
    clear -Hq Heq. induction (S n) as [|k IHk]; [exact Hq|]. cbn [replicate List.concat].
    by rewrite sys_run_app, Heq.
Qed.

(** *** A reload that feeds itself *)

(** A reload is to come, or runs and has not opened the first file yet. *)
Definition stirred (s : System) : Prop :=
  has_change (reports s) = true \/ has_change (events s) = true \/
  match task s with
  | Sleeping | Draining => True
  | LoadingFiles rest _ => rest = b_files b
  | _ => False
  end.

Lemma stirred_not_quiescent s : stirred s -> ~ quiescent s.
Proof. intros Hs (Hr & He & Ht). unfold stirred in Hs. rewrite Hr, He, Ht in Hs. by destruct Hs as [|[|]]. Qed.

Lemma reload_step_stirred file rest s : opens = true -> b_files b = file :: rest ->
  is_watched dirs file = true -> to_value (b_defaults b) <> None -> sys_read s file <> None ->
  stirred s -> stirred (reload_step s).
Proof.
  intros Ho Hb Hw Hv Hread. unfold stirred, reload_step.
  destruct (task s) as [| | |[|f fs] merged|[c|e]|c] eqn:Ep; try (cbn; tauto).
  - destruct (events s) as [|[k|e] es] eqn:Ee; cbn; rewrite ?Ep, ?Ee; cbn; tauto.
  - intros _. destruct (events s) as [|[k|e] es] eqn:Ee; cbn; rewrite ?Ep; try tauto.
    destruct (to_value _) eqn:E; [|done]. cbn. tauto.
  - intros [Hs|[Hs|Hs]]; [by left|by right; left|]. by rewrite Hb in Hs.
  - intros Hs. assert (Hrep : has_change (reports s ++ open_report (sys_read s) f) = true \/
      has_change (events s) = true).
    { rewrite has_change_app. destruct Hs as [Hs|[Hs|Hs]]; [rewrite Hs; by left|by right|left].
      rewrite Hb in Hs. injection Hs as -> ->. unfold open_report.
      destruct (sys_read s file); [|done]. rewrite Ho, Hw. apply orb_true_r. }
    destruct (load_file _ f); cbn; tauto.
Qed.

Lemma reload_step_read s : sys_read (reload_step s) = sys_read s.
Proof. unfold reload_step. by repeat case_match. Qed.

Lemma sys_step_stirred file rest s op : opens = true -> b_files b = file :: rest ->
  is_watched dirs file = true -> to_value (b_defaults b) <> None -> sys_read s file <> None ->
  stirred s -> stirred (sys_step s op).
Proof.
  intros Ho Hb Hw Hv Hread Hs. destruct op as [read|e| | |]; [..|by eapply reload_step_stirred|].
  - unfold stirred in *. cbn. rewrite has_change_app. destruct Hs as [-> |Hs]; [by left|by right].
  - unfold stirred in *. cbn. rewrite has_change_app. destruct Hs as [-> |Hs]; [by left|by right].
  - cbn. destruct (reports s) as [|e es] eqn:Er; [done|]. unfold stirred in *. cbn.
    rewrite Er in Hs. rewrite has_change_app. cbn in *. rewrite orb_false_r.
    destruct (is_ok e), (has_change es); cbn in *; rewrite ?orb_true_r, ?orb_false_r; tauto.
  - cbn. unfold next_update. by destruct (w_updates (watcher s)).
Qed.
End Watch.

(** ** Properties *)

Section Properties.
Context `{Serde}.
Context (b : ArvikConfigBuilder) (vars : list EnvVar).

(** What [ConfigWatcher::new] has done at each of its steps: the directories of
    the files it is past are watched, none twice, and what it loaded is valid. *)
Definition watches (dirs : list FsPath) (file : string) : Prop :=
  forall d, path_parent (fs_path_of file) = Some d -> d ∈ dirs.
Definition starting_ok (st : Starting) : Prop :=
  NoDup (st_watched st) /\
  match st_phase st with
  | MakingNotifier c => validate c = Ok tt
  | Watching rest c => validate c = Ok tt /\
      forall f, f ∈ b_files b -> f ∈ rest \/ watches (st_watched st) f
  | Started c => validate c = Ok tt /\ forall f, f ∈ b_files b -> watches (st_watched st) f
  | _ => True
  end.

Lemma watch_parent_ok watch file watched ds : watch_parent watch file watched = Ok ds ->
  watched ⊆ ds /\ watches ds file /\ (NoDup watched -> NoDup ds).
Proof.
  unfold watch_parent, watches. destruct (path_parent (fs_path_of file)) as [d|]; [|intros [= ->]; by split_and!].
  destruct (decide (d ∈ watched)); [intros [= ->]; split_and!; [done|by intros ? [= <-]|done]|].
  destruct (watch d); [done|]. intros [= <-]. split_and!; [set_solver|intros ? [= <-]; set_solver|].
  intros Hn. apply NoDup_app. split_and!; [done|set_solver|apply NoDup_singleton].
Qed.

Lemma start_op_ok notifier watch st op : starting_ok st -> starting_ok (start_op b vars notifier watch st op).
Proof.
  unfold starting_ok. intros [Hn Hs]. destruct op as [read|]; [done|]. cbn. unfold start_step.
  destruct (st_phase st) as [[|file rest] merged|c|[|file rest] c|c|e] eqn:Ep; rewrite ?Ep; try done.
  - destruct (finish_load b vars merged) as [c|e] eqn:Hf; [|done]. split; [done|]. by eapply finish_load_valid.
  - by destruct (load_file _ file).
  - destruct notifier; [done|]. split; [done|]. split; [done|]. intros f Hf. by left.
  - split; [done|]. destruct Hs as [Hv Hw]. split; [done|]. intros f Hf.
    destruct (Hw f Hf) as [[]%not_elem_of_nil|]; done.
  - destruct (watch_parent _ _ _) as [ds|e] eqn:Ew; [|done]. apply watch_parent_ok in Ew as (Hsub & Hfile & Hnd).
    cbn. split; [by apply Hnd|]. destruct Hs as [Hv Hw]. split; [done|]. intros f Hf.
    destruct (Hw f Hf) as [[->|Hr]%elem_of_cons|Hwf]; [by right|by left|]. right. intros d Hd. by apply Hsub, Hwf.
Qed.

Lemma new_ok notifier watch read ops : starting_ok (config_watcher_new b vars notifier watch read ops).
Proof.
  unfold config_watcher_new. assert (starting_ok (starting b read)) as Hs.
  { split; [constructor|]. cbn. by destruct (to_value _). }
  revert Hs. generalize (starting b read). induction ops as [|op ops IH]; intros st Hs; [done|].
  by apply IH, start_op_ok.
Qed.

Lemma started_covered st c : starting_ok st -> st_phase st = Started c ->
  Forall (fun f => path_parent (fs_path_of f) <> None) (b_files b) ->
  validate c = Ok tt /\ covered b (st_watched st).
Proof.
  intros [_ Hs] Hp Hpar. rewrite Hp in Hs. destruct Hs as [Hv Hw]. split; [done|].
  apply Forall_forall. intros f Hf. unfold is_watched.
  destruct (path_parent (fs_path_of f)) as [d|] eqn:Hd; [|by apply (proj1 (Forall_forall _ _) Hpar f) in Hd].
  apply bool_decide_eq_true. by apply (Hw f Hf).
Qed.

Lemma started_published st c : validate c = Ok tt -> sys_published c (sys_init st c).
Proof. intros Hv. split; cbn; eauto. Qed.

(** While no file changes, what is loaded is what the files say. *)
Definition undisturbed (st : Starting) : Prop :=
  let now := build_inner (mkWorld (st_read st) vars) b in
  match st_phase st with
  | StartLoading rest merged => remaining_load b vars (st_read st) rest merged = now
  | MakingNotifier c | Watching _ c | Started c => now = Ok c
  | NotStarted _ => True
  end.

Lemma start_step_undisturbed notifier watch st : undisturbed st -> undisturbed (start_step b vars notifier watch st).
Proof.
  unfold undisturbed, start_step. intros Hs.
  destruct (st_phase st) as [[|file rest] merged|c|[|file rest] c|c|e] eqn:Ep; rewrite ?Ep; try done.
  - unfold remaining_load in Hs. cbn in Hs. by destruct (finish_load b vars merged).
  - unfold remaining_load in Hs. cbn [merge_files] in Hs. by destruct (load_file _ file).
  - by destruct notifier.
  - by destruct (watch_parent _ _ _).
Qed.

Lemma new_undisturbed notifier watch read n initial :
  let st := config_watcher_new b vars notifier watch read (replicate n StartStep) in
  st_phase st = Started initial -> build_inner (mkWorld (st_read st) vars) b = Ok initial.
Proof.
  intros st Hst. assert (undisturbed st) as Hu; [|unfold undisturbed in Hu; by rewrite Hst in Hu].
  unfold st, config_watcher_new. assert (undisturbed (starting b read)) as Hs.
  { unfold undisturbed. cbn. rewrite build_inner_remaining. by destruct (to_value _). }
  revert Hs. generalize (starting b read). clear. induction n as [|n IH]; intros s Hs; [done|].
  by apply IH, start_step_undisturbed.
Qed.

(** C29. Hot reload converges, and never publishes a bad configuration.  From a
    watcher that started, however changes of the files interleave with the start,
    and changes, reports of the notifier, their delivery, the steps of the task and
    calls of [next] afterwards: the current configuration has passed validation and
    is the last one published; and [next] gives the published configurations in
    order, none before it is current.  If the files still say, when the watcher has
    started, what it loaded, or from the first report of a change on: once no
    report is pending and the task waits, the current configuration is what the
    files and variables now say, or the client has been sent the error they give. *)
Theorem config_watcher_converges read notifier watch opens sops initial ops :
  let st := config_watcher_new b vars notifier watch read sops in
  st_phase st = Started initial ->
  Forall (fun f => path_parent (fs_path_of f) <> None) (b_files b) ->
  let s0 := sys_init st initial in
  let s := sys_run b vars (st_watched st) opens ops s0 in
  validate (current s) = Ok tt /\ current s = List.last (history s) initial /\
  oks (update_log s) `prefix_of` history s /\
  (build_inner (mkWorld (st_read st) vars) b = Ok initial \/ reported b vars (st_watched st) opens ops s0 ->
   has_change (reports s) = false -> has_change (events s) = false -> task s = Receiving ->
   match build_inner (mkWorld (sys_read s) vars) b with
   | Ok c => current s = c
   | Err e => Err e ∈ update_log s
   end).
Proof.
  intros st Hst Hp s0 s. destruct (started_covered st initial) as [Hv0 Hc]; [apply new_ok|done|done|].
  pose proof (started_published st initial Hv0) as Hi.
  apply (sys_run_inv b vars (st_watched st) opens (sys_published initial) ops) in Hi;
    [|by intros; apply sys_step_published].
  fold s0 s in Hi. destruct Hi as [Hh Hv Hcur _ Hlast].
  split_and!; [|done|rewrite Hh; by apply prefix_app_r|].
  - rewrite Hcur. destruct (history s) as [|c hs] eqn:E using rev_ind; [by apply Forall_inv in Hv|].
    rewrite last_last. apply Forall_cons in Hv as [_ Hv]. by apply Forall_app in Hv as [_ Hv%Forall_inv].
  - intros Hfresh Hr He Hw.
    assert (tracks b vars s) as [_ Ht].
    { destruct Hfresh as [Hf|Hf]; [|by apply reported_tracks].
      apply (sys_run_inv b vars (st_watched st) opens (tracks b vars)); [by intros; apply sys_step_tracks|].
      split; [done|]. intros _ _. by symmetry. }
    specialize (Ht Hr He). rewrite Hw in Ht, Hlast.
    fold (load_now b vars s). rewrite <- Ht. destruct (last_load s); [|by destruct Hlast].
    by destruct Hlast as [_ [|]].
Qed.

(** The task, left to itself, makes the turn [Config.watcher_turn]: from an event
    received with others pending, it comes back to receiving with the watcher
    that turn gives. *)
Theorem reload_step_turn dirs opens (s : System) k pending :
  task s = Receiving -> events s = Ok k :: pending ->
  becomes b vars dirs opens s [] Receiving
    (watcher_turn b (Ok tt) (map of_event pending) (mkWorld (sys_read s) vars) (watcher s)).
Proof.
  intros Ht He. do 2 (apply becomes_step; [unfold reload_step; cbn; by rewrite ?Ht, ?He|]).
  assert (reload_step b vars dirs opens (reload_step b vars dirs opens s) =
    with_task Draining (with_task Sleeping (with_events pending s))) as ->.
  { unfold reload_step at 2. by rewrite Ht, He. }
  eapply drain_becomes; [done|reflexivity|]. intros s' Hr Ht' He' Hw. cbn in Hr, Hw.
  unfold watcher_turn. rewrite <- Hr, <- Hw, build_inner_remaining.
  apply becomes_step; [unfold reload_step; rewrite Ht', He'; by destruct (to_value _)|].
  unfold reload_step. rewrite Ht', He'. destruct (to_value (b_defaults b)) as [merged|].
  - pose proof (load_becomes b vars dirs opens (b_files b) merged
      (with_task (LoadingFiles (b_files b) merged) s') He' eq_refl) as Hl.
    by destruct (remaining_load _ _ _ _).
  - apply becomes_step; [done|]. by apply becomes_here.
Qed.

(** It settles: when opening a file is not reported, the task and the deliveries
    taking turns come to rest, after at most as many turns as there is work. *)
Theorem config_watcher_settles dirs (s : System) n : (work b s <= n)%nat ->
  quiescent (sys_run b vars dirs false (List.concat (replicate n one_round)) s).
Proof. by apply rounds_settle. Qed.

(** When it is, a reload feeds itself: every event starts one, whatever its
    kind, and reading the files makes the next event.  Once stirred, the system
    never comes to rest again while the first file can be opened. *)
Theorem reload_feeds_itself dirs file rest ops (s : System) :
  b_files b = file :: rest -> is_watched dirs file = true -> to_value (b_defaults b) <> None ->
  sys_read s file <> None ->
  Forall (fun op => match op with OpEdit read => read file <> None | _ => True end) ops ->
  stirred b s -> ~ quiescent (sys_run b vars dirs true ops s).
Proof.
  intros Hb Hw Hv Hread Hops Hs. apply (stirred_not_quiescent b).
  revert s Hread Hs; induction ops as [|op ops IH]; intros s Hread Hs; [exact Hs|].
  apply Forall_cons in Hops as [Hop Hops]. apply (IH Hops).
  - destruct op; cbn; [done|done|by destruct (reports s)| |].
    + by rewrite reload_step_read.
    + unfold next_update. by destruct (w_updates (watcher s)).
  - by apply (sys_step_stirred b vars dirs true file rest).
Qed.
End Properties.

(** ** A concrete run

    The file is broken, then repaired; the client takes the error. *)
Module Edits.
Import ConfigDemo.
Definition holding (contents : string) : Read := fun _ => Some contents.
Definition vars : list EnvVar := vars_os (world "good").
Definition rounds (n : nat) : list SysOp := List.concat (replicate n one_round).
Definition ops : list SysOp :=
  OpEdit (holding "bad") :: rounds 8 ++ [OpNext; OpReport (Err "overflow")] ++
  OpEdit (holding "good") :: rounds 9.
(** [ConfigWatcher::new], with a change of the files after so many steps. *)
Definition start (edited : list (nat * Read)) : Starting :=
  config_watcher_new (H := serde) builder vars None (fun _ => None) (holding "good")
    (flat_map (fun e => replicate (fst e) StartStep ++ [StartEdit (snd e)]) edited ++ replicate 6 StartStep).
Definition run (opens : bool) (ops : list SysOp) : System :=
  sys_run (H := serde) builder vars [[]] opens ops (sys_init (start []) loaded).
End Edits.

Lemma config_watcher_converges_witness :
  let s := Edits.run false Edits.ops in
  current s = ConfigDemo.loaded /\ received s = [Err (ErrJson "app.json")] /\
  w_updates (watcher s) = [Err (ErrWatch "overflow"); Ok ConfigDemo.loaded].
Proof.
  pose proof (config_watcher_converges (H := ConfigDemo.serde) ConfigDemo.builder Edits.vars
    (Edits.holding "good") None (fun _ => None) false (replicate 6 StartStep) ConfigDemo.loaded Edits.ops
    ltac:(vm_compute; reflexivity) ltac:(repeat constructor; vm_compute; discriminate)) as (_ & _ & _ & W).
  split; [|split; vm_compute; reflexivity].
  specialize (W (or_introl (new_undisturbed (H := ConfigDemo.serde) ConfigDemo.builder Edits.vars None
    (fun _ => None) (Edits.holding "good") 6 ConfigDemo.loaded ltac:(vm_compute; reflexivity)))).
  specialize (W ltac:(vm_compute; reflexivity) ltac:(vm_compute; reflexivity) ltac:(vm_compute; reflexivity)).
  match type of W with match ?o with _ => _ end =>
    replace o with (Ok (E := ConfigError) ConfigDemo.loaded) in W by (vm_compute; reflexivity) end.
  exact W.
Defined.

(** A change between the load and the watch is not seen: the watcher starts with
    the old configuration, at rest, with nothing to report the change, ever; the
    same change one step later, with the directory watched, is reported. *)
Theorem edit_before_watch_missed :
  let missed := Edits.start [(3, Edits.holding "bad")] in
  let seen := Edits.start [(4, Edits.holding "bad")] in
  st_phase missed = Started ConfigDemo.loaded /\
  quiescent (sys_init missed ConfigDemo.loaded) /\
  build_inner (H := ConfigDemo.serde) (mkWorld (st_read missed) Edits.vars) ConfigDemo.builder =
    Err (ErrJson "app.json") /\
  st_phase seen = Started ConfigDemo.loaded /\ st_reports seen = [Ok EvModify].
Proof. by vm_compute. Qed.

(** One edit and thirty rounds: one reload, or six and no end. *)
Example one_edit_many_reloads :
  let edit := OpEdit (Edits.holding "bad") :: Edits.rounds 30 in
  List.length (w_updates (watcher (Edits.run false edit))) = 1%nat /\
  List.length (w_updates (watcher (Edits.run true edit))) = 6%nat.
Proof. by vm_compute. Qed.
