(* ===== verification/Responses.v ===== *)
(** * Response conversions and framework errors

    [arvik-core/src/into_response.rs], [into_response_parts.rs],
    [stream_body.rs] and [error.rs]: the values a handler may return, the tuples that override a
    status or add headers, the header sets collected in [ResponseParts], the
    preload links, and the error types with their JSON bodies.

    A trait is a class and an [impl] an instance.  What these files take from
    other crates are parameters: [serde_json]'s serialiser, the reason phrases
    of [http::StatusCode], and the consuming iterator of [http::HeaderMap],
    whose documented order is the law [HeaderIterLaws]. *)
From S2P Require Import Prelude RustStr HttpCrate Body Http.
From stdpp Require Import base list strings sets.
From Stdlib Require Import ZArith Lia Ascii String.
Open Scope string_scope.
Open Scope list_scope.

(** ** Interfaces of other crates *)

(** [serde_json::Value], as far as the code builds one. *)
Inductive Json :=
| JString (s : string)
| JNumber (n : Z)
| JBool (b : bool)
| JObject (fields : list (string * Json)).

Class CoreCrates : Type := {
  canonical_reason : Z -> option string;  (* StatusCode::canonical_reason *)
  status_to_string : Z -> string;         (* Display for StatusCode *)
  json_to_string : Json -> string }.      (* Value::to_string *)

(** [HeaderMap::into_iter]: "for each yielded item that has [None] provided for
    the [HeaderName], the associated header name is the same as that of the
    previously yielded item", names in an order the crate leaves open. *)
Class HeaderIter `{HttpCrate} : Type :=
  hm_into_iter : HeaderMap -> list (option string * string).

Definition header_group (k : string) (vs : list string) : list (option string * string) :=
  match vs with
  | [] => []
  | v :: vs => (Some k, v) :: map (fun v => (None, v)) vs
  end.

Class HeaderIterLaws `(HI : HeaderIter) : Prop :=
  hm_iter_groups m : exists keys, NoDup keys /\
    (forall k, hm_get_all m k <> [] -> k ∈ keys) /\
    hm_into_iter m = List.concat (map (fun k => header_group k (hm_get_all m k)) keys).

#[export] Instance ListHeaderIter : HeaderIter (H := ListHttp) := fun m =>
  List.concat (map (fun k => header_group k (ListHttp.get_all m k)) (remove_dups (map fst m))).

#[export] Instance ListHeaderIterLaws : HeaderIterLaws ListHeaderIter.
Proof.
  intros m. exists (remove_dups (map fst m)). split_and!; [apply NoDup_remove_dups| |done].
  intros k Hk. apply elem_of_remove_dups. simpl in Hk. unfold ListHttp.get_all in Hk.
  destruct (List.filter _ m) as [|[k' v] l] eqn:E; [done|].
  assert (Hin : In (k', v) (List.filter (fun kv => String.eqb (fst kv) k) m))
    by (rewrite E; by left).
  apply filter_In in Hin as [Hin Heq]. simpl in Heq. apply String.eqb_eq in Heq as ->.
  apply list_elem_of_fmap. exists (k, v). split; [done|]. by apply list_elem_of_In.
Qed.

(** ** [IntoResponse] *)

Section Responses.
Context `{HttpCrate} `{CoreCrates} {HI : HeaderIter}.

Class IntoResponse (T : Type) : Type := response_of : T -> Response.

#[export] Instance response_identity : IntoResponse Response := fun r => r.

(** [StatusCode], and the unit value as [StatusCode::OK]. *)
Definition status_response (status : Z) : Response := rb_empty (rb_status status rb_new).
Definition unit_response : Response := status_response 200.

(** [String] and [&'static str]; [Bytes] and [Vec<u8>]. *)
Definition string_response (s : string) : Response :=
  rb_body (body_from_bytes s) (rb_header CONTENT_TYPE TEXT_PLAIN_UTF8 rb_new).
Definition bytes_response (b : string) : Response :=
  rb_body (body_from_bytes b) (rb_header CONTENT_TYPE "application/octet-stream" rb_new).

Definition html_response (s : string) : Response :=
  rb_body (body_from_bytes s) (rb_header CONTENT_TYPE "text/html; charset=utf-8" rb_new).

#[export] Instance unit_into_response : IntoResponse unit := fun _ => unit_response.
#[export] Instance infallible_into_response : IntoResponse Empty_set :=
  fun e => match e with end.
#[export] Instance result_into_response {T E} `{IntoResponse T} `{IntoResponse E} :
  IntoResponse (result T E) :=
  fun r => match r with Ok v => response_of v | Err e => response_of e end.

(** [StreamBody] of [stream_body.rs]: each item is a data frame or an error; the
    size hint is the trait's default. *)
Record StreamBody := mkStreamBody { stream_items : list (result string BoxError) }.
Definition stream_body_frame (item : result string BoxError) : FrameResult :=
  match item with Ok bytes => Ok (DataFrame bytes) | Err e => Err e end.
#[export] Instance stream_body_response : IntoResponse StreamBody := fun s =>
  rb_body (body_new id (map stream_body_frame (stream_items s)) (fun _ => mkHint 0 None)) rb_new.

(** [core::Json<T>]; [to_writer] is [serde_json::to_writer] at [T]. *)
Definition core_json_response {T} (to_writer : T -> result string string) (v : T) : Response :=
  match to_writer v with
  | Ok bytes => rb_body (body_from_bytes bytes) (rb_header CONTENT_TYPE "application/json" rb_new)
  | Err _ =>
      rb_body (body_from_bytes ("{" +:+ quoted "error" +:+ ":" +:+ quoted "Serialization failed"
                 +:+ "," +:+ quoted "code" +:+ ":500}"))
        (rb_header CONTENT_TYPE "application/json" (rb_status 500 rb_new))
  end.

(** [ResponseBuilder::json]. *)
Definition rb_json {T} (to_writer : T -> result string string) (v : T) (b : Builder) : Response :=
  match to_writer v with
  | Ok bytes => rb_body (body_from_bytes bytes) (rb_header_str CONTENT_TYPE "application/json" b)
  | Err _ =>
      rb_body (body_from_bytes ("{" +:+ quoted "error" +:+ ":" +:+ quoted "Internal Server Error"
                 +:+ "," +:+ quoted "code" +:+ ":500}"))
        (rb_header_str CONTENT_TYPE "application/json" (rb_status 500 rb_new))
  end.

(** [Trailers]: [with_trailers] is [BodyExt::with_trailers] of a body with
    trailers that are ready. *)
Definition trailers_response {R} `{IntoResponse R}
    (with_trailers : Body -> HeaderMap -> Body) (response : R) (trailers : HeaderMap) : Response :=
  let r := response_of response in
  mkResponse (res_status r) (res_headers r) (res_matched_path r)
    (with_trailers (res_body r) trailers).

(** ** Tuples with a status or an array of headers *)

Definition set_status (s : Z) (r : Response) : Response :=
  mkResponse s (res_headers r) (res_matched_path r) (res_body r).

(** [(StatusCode, T)]. *)
Definition with_status {T} `{IntoResponse T} (status : Z) (body : T) : Response :=
  set_status status (response_of body).

(** The loop of [([(K, V); N], T)]: a pair that does not convert is dropped. *)
Fixpoint insert_headers {K V} (name : K -> option string) (value : V -> option string)
    (l : list (K * V)) (h : HeaderMap) : HeaderMap :=
  match l with
  | [] => h
  | (k, v) :: l =>
      insert_headers name value l
        match name k, value v with Some k, Some v => hm_insert h k v | _, _ => h end
  end.

Section Pairs.
Context {K V : Type} (name : K -> option string) (value : V -> option string).

Definition with_header_array {T} `{IntoResponse T} (headers : list (K * V)) (body : T) : Response :=
  let r := response_of body in
  set_res_headers (insert_headers name value headers (res_headers r)) r.

Definition with_status_header_array {T} `{IntoResponse T}
    (status : Z) (headers : list (K * V)) (body : T) : Response :=
  let r := set_status status (response_of body) in
  set_res_headers (insert_headers name value headers (res_headers r)) r.
End Pairs.

(** ** [IntoResponseParts] *)

Record ResponseParts := mkParts { parts_headers : HeaderMap }.
Definition parts_new : ResponseParts := mkParts hm_empty.

Class IntoResponseParts (P : Type) : Type := {
  PartsError : Type;
  parts_error_response : IntoResponse PartsError;
  into_response_parts : P -> ResponseParts -> result ResponseParts PartsError }.

(** The loop over a consumed header map: an item without a name is skipped. *)
Definition append_named (l : list (option string * string)) (h : HeaderMap) : HeaderMap :=
  fold_left (fun h kv => match fst kv with Some k => hm_append h k (snd kv) | None => h end) l h.

Definition apply_to (p : ResponseParts) (r : Response) : Response :=
  set_res_headers (append_named (hm_into_iter (parts_headers p)) (res_headers r)) r.

Definition apply_parts {P} {IP : IntoResponseParts P} (v : P) (r : Response) : Response :=
  match into_response_parts v parts_new with
  | Ok acc => apply_to acc r
  | Err e => @response_of _ parts_error_response e
  end.

(** [(P, R)], [(P1, P2, R)] and [(StatusCode, P, R)]. *)
Definition with_parts {P R} {IP : IntoResponseParts P} `{IntoResponse R} (p : P) (body : R) : Response :=
  apply_parts p (response_of body).
Definition with_two_parts {P1 P2 R} {IP1 : IntoResponseParts P1} {IP2 : IntoResponseParts P2}
    `{IntoResponse R} (p1 : P1) (p2 : P2) (body : R) : Response :=
  apply_parts p2 (apply_parts p1 (response_of body)).
Definition with_status_parts {P R} {IP : IntoResponseParts P} `{IntoResponse R}
    (status : Z) (p : P) (body : R) : Response :=
  apply_parts p (set_status status (response_of body)).

(** [AppendHeaders]. *)
Fixpoint append_headers {K V} (name : K -> option string) (value : V -> option string)
    (l : list (K * V)) (p : ResponseParts) : ResponseParts :=
  match l with
  | [] => p
  | (k, v) :: l =>
      append_headers name value l
        match name k, value v with
        | Some k, Some v => mkParts (hm_append (parts_headers p) k v)
        | _, _ => p
        end
  end.

Record AppendHeaders (K V : Type) := mkAppend {
  ah_name : K -> option string; ah_value : V -> option string; ah_items : list (K * V) }.

#[export] Instance append_headers_parts {K V} : IntoResponseParts (AppendHeaders K V) := {
  PartsError := Empty_set;
  parts_error_response := infallible_into_response;
  into_response_parts a p := Ok (append_headers (ah_name _ _ a) (ah_value _ _ a) (ah_items _ _ a) p) }.

(** A [HeaderMap] as a header set. *)
Definition header_map_parts (h : HeaderMap) (p : ResponseParts) : ResponseParts :=
  mkParts (append_named (hm_into_iter h) (parts_headers p)).

#[export] Instance header_map_into_parts : IntoResponseParts HeaderMap := {
  PartsError := Empty_set;
  parts_error_response := infallible_into_response;
  into_response_parts h p := Ok (header_map_parts h p) }.
End Responses.

Arguments IntoResponse {_} T.
Arguments AppendHeaders K V : clear implicits.
Arguments mkAppend {K V}.

(** ** Preload links *)

Definition LINK := "link".

Record PreloadLink := mkPreload {
  pl_href : string;
  pl_as : option string;
  pl_mime : option string;
  pl_crossorigin : bool }.

#[export] Instance rebuild_preload : Rebuild PreloadLink :=
  fun r => mkPreload (pl_href r) (pl_as r) (pl_mime r) (pl_crossorigin r).

Definition preload_new (href : string) : PreloadLink := mkPreload href None None false.
Definition preload_as (v : string) (l : PreloadLink) : PreloadLink := (l <| pl_as := Some v |>)%rust.
Definition preload_mime (v : string) (l : PreloadLink) : PreloadLink := (l <| pl_mime := Some v |>)%rust.
Definition preload_crossorigin (l : PreloadLink) : PreloadLink := (l <| pl_crossorigin := true |>)%rust.
Definition preload_script (href : string) : PreloadLink := preload_as "script" (preload_new href).
Definition preload_style (href : string) : PreloadLink := preload_as "style" (preload_new href).
Definition preload_font (href : string) : PreloadLink :=
  preload_crossorigin (preload_as "font" (preload_new href)).
Definition preload_image (href : string) : PreloadLink := preload_as "image" (preload_new href).

Definition preload_text (l : PreloadLink) : string :=
  "<" +:+ pl_href l +:+ ">; rel=preload"
    +:+ match pl_as l with Some v => "; as=" +:+ v | None => "" end
    +:+ match pl_mime l with Some v => "; type=" +:+ quoted v | None => "" end
    +:+ (if pl_crossorigin l then "; crossorigin" else "").

Section Preload.
Context `{HttpCrate}.

Definition preload_header_value (l : PreloadLink) : option string := hv_from_str (preload_text l).

(** [Preload]: a link that is no header value is left out. *)
Fixpoint preload_parts (ls : list PreloadLink) (p : ResponseParts) : ResponseParts :=
  match ls with
  | [] => p
  | l :: ls =>
      preload_parts ls
        match preload_header_value l with
        | Some v => mkParts (hm_append (parts_headers p) LINK v)
        | None => p
        end
  end.
End Preload.

Record Preload := mkPreloads { preload_links : list PreloadLink }.
#[export] Instance preload_into_parts `{HttpCrate} : IntoResponseParts Preload := {
  PartsError := Empty_set;
  parts_error_response := infallible_into_response;
  into_response_parts a p := Ok (preload_parts (preload_links a) p) }.

(** ** [Error] and [ErrorResponse] *)

Section Errors.
Context `{HttpCrate} `{CoreCrates}.

(** [struct Error]: a boxed error is the text its [Display] writes. *)
Record Error := mkError {
  err_inner : string;
  err_status : Z;
  err_public : option string }.

Definition error_new (inner : string) : Error := mkError inner 500 None.
Definition error_from_status (status : Z) : Error :=
  let reason := default "Unknown Error" (canonical_reason status) in
  mkError reason status (Some reason).
Definition error_with_status (status : Z) (e : Error) : Error :=
  mkError (err_inner e) status (err_public e).
Definition error_with_message (msg : string) (e : Error) : Error :=
  mkError (err_inner e) (err_status e) (Some msg).
(** [From<serde_json::Error>]. *)
Definition error_from_json (inner : string) : Error := error_with_status 400 (error_new inner).

(** [Display]. *)
Definition error_display (e : Error) : string :=
  match err_public e with
  | Some msg => msg +:+ " (" +:+ status_to_string (err_status e) +:+ ")"
  | None => status_to_string (err_status e)
  end.

Record ErrorResponse := mkErrorResponse {
  er_status : Z;
  er_message : option string;
  er_request_id : option string }.

Definition error_response_new (status : Z) : ErrorResponse := mkErrorResponse status None None.
Definition error_message (msg : string) (e : ErrorResponse) : ErrorResponse :=
  mkErrorResponse (er_status e) (Some msg) (er_request_id e).
Definition error_request_id (id : string) (e : ErrorResponse) : ErrorResponse :=
  mkErrorResponse (er_status e) (er_message e) (Some id).

Definition build_body (e : ErrorResponse) : string :=
  let msg := match er_message e with
             | Some m => m
             | None => default "Internal Server Error" (canonical_reason (er_status e))
             end in
  json_to_string (JObject (match er_request_id e with
    | Some rid => [("error", JString msg); ("code", JNumber (er_status e)); ("request_id", JString rid)]
    | None => [("error", JString msg); ("code", JNumber (er_status e))]
    end)).

#[export] Instance error_response_into_response : IntoResponse ErrorResponse := fun e =>
  rb_body (body_from_bytes (build_body e))
    (rb_header_str CONTENT_TYPE "application/json" (rb_status (er_status e) rb_new)).

Definition error_into_response (e : Error) : Response :=
  let message := match err_public e with
                 | Some m => m
                 | None => default "Internal Server Error" (canonical_reason (err_status e))
                 end in
  response_of (error_message message (error_response_new (err_status e))).

#[export] Instance error_is_response : IntoResponse Error := error_into_response.
End Errors.

(** ** Facts *)

Section Facts.
Context `{HL : HttpLaws} {HI : HeaderIter} {HIL : HeaderIterLaws HI}.

(** Nothing but the status and the public message reaches the client. *)
Lemma error_response_of_public `{CoreCrates} e :
  let msg := default (default "Internal Server Error" (canonical_reason (err_status e))) (err_public e) in
  let r := error_into_response e in
  res_status r = err_status e /\
  hm_get_all (res_headers r) CONTENT_TYPE = ["application/json"] /\
  to_bytes (res_body r)
    = Ok (json_to_string (JObject [("error", JString msg); ("code", JNumber (err_status e))])).
Proof.
  unfold error_into_response, response_of, error_response_into_response, rb_header_str.
  rewrite hv_from_str_visible by done.
  split_and!; [done|cbn; by headers|].
  cbn [res_body rb_body rb_header rb_status rb_new]. rewrite to_bytes_from_bytes.
  unfold build_body. by destruct (err_public e).
Qed.

Lemma append_named_app l1 l2 h : append_named (l1 ++ l2) h = append_named l2 (append_named l1 h).
Proof. apply fold_left_app. Qed.

Lemma append_named_unnamed vs h : append_named (map (fun v => (None, v)) vs) h = h.
Proof. revert h; induction vs; intros; [done|]. by apply IHvs. Qed.

Lemma append_named_group k vs h k' :
  hm_get_all (append_named (header_group k vs) h) k'
    = hm_get_all h k' ++ if decide (k = k') then take 1 vs else [].
Proof.
  destruct vs as [|v vs]; cbn [header_group].
  - cbn. destruct (decide _); by rewrite app_nil_r.
  - change (append_named _ h) with (append_named (map (fun v => (None, v)) vs) (hm_append h k v)).
    rewrite append_named_unnamed. destruct (decide (k = k')) as [->|].
    + by rewrite hm_all_append_eq.
    + by rewrite hm_all_append_ne, app_nil_r.
Qed.

Lemma append_named_groups m keys h k : NoDup keys ->
  hm_get_all (append_named (List.concat (map (fun k => header_group k (hm_get_all m k)) keys)) h) k
    = hm_get_all h k ++ if decide (k ∈ keys) then take 1 (hm_get_all m k) else [].
Proof.
  revert h; induction keys as [|j keys IH]; intros h Hnd; inversion_clear Hnd; cbn [map List.concat].
  - cbn. by rewrite app_nil_r.
  - rewrite append_named_app, IH, append_named_group by done.
    destruct (decide (j = k)) as [->|Hne].
    + rewrite (decide_False (P := k ∈ keys)) by done.
      by rewrite (decide_True (P := k ∈ k :: keys)), app_nil_r by set_solver.
    + rewrite app_nil_r. destruct (decide (k ∈ keys));
        [rewrite (decide_True (P := k ∈ j :: keys)) by set_solver
        |rewrite (decide_False (P := k ∈ j :: keys)) by set_solver]; done.
Qed.

(** Consuming a header map and appending what carries a name keeps the first
    value of each name. *)
Lemma append_into_iter m h k :
  hm_get_all (append_named (hm_into_iter m) h) k = hm_get_all h k ++ take 1 (hm_get_all m k).
Proof.
  destruct (hm_iter_groups m) as (keys & Hnd & Hin & ->).
  rewrite append_named_groups by done. destruct (decide _) as [|Hn]; [done|].
  destruct (hm_get_all m k) eqn:E; [done|]. exfalso. apply Hn, Hin. by rewrite E.
Qed.

(** What [AppendHeaders] collects for a name. *)
Definition pair_value {K V} (name : K -> option string) (value : V -> option string) (k : string)
    (kv : K * V) : option string :=
  match name (fst kv), value (snd kv) with
  | Some k', Some v => if String.eqb k' k then Some v else None
  | _, _ => None
  end.

Lemma append_headers_all {K V} (name : K -> option string) (value : V -> option string) l p k :
  hm_get_all (parts_headers (append_headers name value l p)) k
    = hm_get_all (parts_headers p) k ++ omap (pair_value name value k) l.
Proof.
  revert p; induction l as [|[a b] l IH]; intros p; simpl; [by rewrite app_nil_r|].
  rewrite IH. unfold pair_value at 2. simpl.
  destruct (name a) as [k'|]; [|done]. destruct (value b) as [v|]; [|done]. simpl.
  destruct (String.eqb_spec k' k) as [->|].
  - by rewrite hm_all_append_eq, <- app_assoc.
  - by rewrite hm_all_append_ne.
Qed.

Lemma preload_parts_all ls p :
  hm_get_all (parts_headers (preload_parts ls p)) LINK
    = hm_get_all (parts_headers p) LINK ++ omap preload_header_value ls.
Proof.
  revert p; induction ls as [|l ls IH]; intros p; simpl; [by rewrite app_nil_r|].
  rewrite IH. destruct (preload_header_value l); [|done].
  simpl. by rewrite hm_all_append_eq, <- app_assoc.
Qed.
End Facts.

(** A header set with two cookies. *)
Definition two_cookies : AppendHeaders string string :=
  mkAppend Some hv_from_str [(SET_COOKIE, "a=1"); (SET_COOKIE, "b=2")].

(** ** Properties *)

(** Streaming adds nothing and loses nothing: the response is a 200 without
    headers whose frames are the stream's items; read to its end it is their
    concatenation, or the first error, as with [Body::from_stream]; and its
    length is never announced. *)
Theorem stream_body_streams `{HttpCrate} items :
  let res := response_of (mkStreamBody items) in
  res_status res = 200%Z /\ body_frames (res_body res) = map stream_body_frame items /\
  to_bytes (res_body res) = to_bytes (body_from_stream items) /\
  sh_upper (size_hint (res_body res)) = None /\
  (forall chunks, items = map Ok chunks -> to_bytes (res_body res) = Ok (concat_bytes chunks)).
Proof.
  cbn zeta. unfold response_of, stream_body_response. cbn [stream_items]. set (b := body_new _ _ _).
  assert (body_frames b = map stream_body_frame items) as Hf.
  { cbn. rewrite map_map. apply map_ext. by intros [d|e]. }
  change (res_body (rb_body b rb_new)) with b. unfold to_bytes. rewrite Hf.
  split_and!; [done..|]. clear. intros chunks ->.
  induction chunks as [|c cs IH]; [done|]. cbn in IH |- *. by rewrite IH.
Qed.

(** A header set prepended to a response value keeps the value's status and
    body, and of the values the set holds for a name exactly the first is
    added, after those the value already had: the loop over the consumed map
    skips the items that carry no name, so a second [Set-Cookie] or [Link] of
    the same set is lost.  A set that fails gives its own error response. *)
Theorem with_parts_first_value `{HL : HttpLaws} {HI : HeaderIter} {HIL : HeaderIterLaws HI}
    {P R} {IP : IntoResponseParts P} {IR : IntoResponse R} (p : P) (body : R) :
  match into_response_parts p parts_new with
  | Ok acc =>
      res_status (with_parts p body) = res_status (response_of body) /\
      res_body (with_parts p body) = res_body (response_of body) /\
      forall k, hm_get_all (res_headers (with_parts p body)) k
        = hm_get_all (res_headers (response_of body)) k ++ take 1 (hm_get_all (parts_headers acc) k)
  | Err e => with_parts p body = @response_of _ _ parts_error_response e
  end.
Proof.
  unfold with_parts, apply_parts. destruct (into_response_parts p parts_new) as [acc|e]; [|done].
  split_and!; [done..|]. intros k. apply append_into_iter.
Qed.

(** Of two cookies one arrives. *)
Lemma with_parts_first_value_witness :
  @hm_get_all ListHttp (parts_headers (append_headers Some hv_from_str (ah_items _ _ two_cookies) parts_new))
    SET_COOKIE = ["a=1"; "b=2"] /\
  @hm_get_all ListHttp (res_headers (with_parts two_cookies tt)) SET_COOKIE = ["a=1"].
Proof.
  split; [reflexivity|].
  pose proof (with_parts_first_value (H := ListHttp) two_cookies tt) as W.
  cbn [into_response_parts append_headers_parts] in W. destruct W as (_ & _ & W).
  rewrite W. reflexivity.
Defined.
