(* ===== verification/PathDe.v ===== *)
(** * The path parameter deserializer

    [arvik-extract/src/path_de.rs]: the serde [Deserializer] that turns the
    captured path parameters into a value.

    A serde deserializer answers a type's request ([deserialize_bool],
    [deserialize_tuple], ...) with one call on the type's visitor.  [DeMethod] is
    the request, [VisitorCall] the call, and a deserialization function gives
    the call or the error message; what a visitor does with it is the
    [Deserialize] impl of the user's type, outside the repository.  The sequence
    and map accessors are state machines over an index, as in the source.  The
    integers implemented are those of 8 to 64 bits; for the others serde's default
    method answers with an error. *)
From S2P Require Import Prelude RustStr.
From stdpp Require Import base list strings option.
From Stdlib Require Import ZArith Lia Ascii String.
Open Scope string_scope.
Open Scope list_scope.

(** ** Signed integers as text *)

(** [s.parse::<iN>()] for a type of range [-max - 1 .. max]. *)
Definition parse_signed (max : Z) (s : string) : option Z :=
  match s with
  | EmptyString => None
  | String a s' =>
      if Ascii.eqb a "-" then
        match s' with EmptyString => None | _ => Z.opp <$> parse_digits (max + 1) 0 s' end
      else parse_unsigned max s
  end.

(** [n.to_string()] of a signed integer. *)
Definition to_dec_signed (n : Z) : string :=
  if (n <? 0)%Z then "-" +:+ to_dec (- n) else to_dec n.

(** ** Requests and answers *)

Inductive IntWidth := W8 | W16 | W32 | W64 | W128.
Record IntType := mkInt { int_signed : bool; int_width : IntWidth }.
Definition int_bits (t : IntType) : Z :=
  match int_width t with W8 => 8 | W16 => 16 | W32 => 32 | W64 => 64 | W128 => 128 end.

(** The widths the deserializers have a method for; the 128-bit ones are left to
    [serde]'s default. *)
Definition int_implemented (t : IntType) : bool := match int_width t with W128 => false | _ => true end.

Inductive DeMethod :=
| DAny | DBool | DInt (t : IntType) | DF32 | DF64 | DChar | DStr | DString | DBytes | DByteBuf
| DOption | DUnit | DUnitStruct | DNewtypeStruct | DSeq | DTuple | DTupleStruct | DMap | DStruct
| DEnum | DIdentifier | DIgnoredAny.

(** The largest value of an integer type. *)
Definition int_max (t : IntType) : Z :=
  (if int_signed t then 2 ^ (int_bits t - 1) - 1 else 2 ^ int_bits t - 1)%Z.
Definition int_min (t : IntType) : Z := (if int_signed t then - 2 ^ (int_bits t - 1) else 0)%Z.

Definition int_name (t : IntType) : string :=
  (if int_signed t then "i" else "u") +:+ to_dec (int_bits t).

(** [str::parse] at an integer type. *)
Definition parse_int (t : IntType) (s : string) : option Z :=
  if int_signed t then parse_signed (int_max t) s else parse_unsigned (int_max t) s.

(** [stringify!($method)]. *)
Definition method_name (m : DeMethod) : string :=
  "deserialize_" +:+
  match m with
  | DAny => "any" | DBool => "bool" | DInt t => int_name t | DF32 => "f32" | DF64 => "f64"
  | DChar => "char" | DStr => "str" | DString => "string" | DBytes => "bytes"
  | DByteBuf => "byte_buf" | DOption => "option" | DUnit => "unit" | DUnitStruct => "unit_struct"
  | DNewtypeStruct => "newtype_struct" | DSeq => "seq" | DTuple => "tuple"
  | DTupleStruct => "tuple_struct" | DMap => "map" | DStruct => "struct" | DEnum => "enum"
  | DIdentifier => "identifier" | DIgnoredAny => "ignored_any"
  end.

Definition Params : Type := list (string * string).

(** [PathSeqAccess] and [PathMapAccess]: the parameters and an index. *)
Record PathSeqAccess := mkSeqAccess { seq_params : Params; seq_index : nat }.
Record PathMapAccess := mkMapAccess { map_params : Params; map_index : nat }.

(** [ValueDeserializer], [StringEnumDeserializer] and [StrDeserializer] wrap a
    string. *)
Record ValueDeserializer := ValueDe { value_of : string }.
Record StringEnumDeserializer := EnumDe { enum_of : string }.
Record StrDeserializer := StrDe { str_of : string }.
Record PathDeserializer := PathDe { path_params : Params }.

Section Deserialize.
(** [str::parse::<f32>] and [::<f64>], of the standard library. *)
Context {F32 F64 : Type} (parse_f32 : string -> option F32) (parse_f64 : string -> option F64).

Inductive VisitorCall :=
| VisitBool (b : bool)
| VisitInt (t : IntType) (z : Z)
| VisitF32 (f : F32)
| VisitF64 (f : F64)
| VisitChar (c : string)
| VisitStr (s : string)
| VisitSome (d : ValueDeserializer)
| VisitNewtypePath (d : PathDeserializer)
| VisitNewtypeValue (d : ValueDeserializer)
| VisitSeq (a : PathSeqAccess)
| VisitMap (a : PathMapAccess)
| VisitEnum (d : StringEnumDeserializer).

(** [chars()] yields exactly one: a lead byte and its continuation bytes. *)
Definition single_char (s : string) : bool :=
  match s with EmptyString => false | String _ rest => str_forall utf8_cont rest end.

Definition backticked (s : string) : string := "`" +:+ s +:+ "`".

Definition deserialize_bool (s : string) : result VisitorCall string :=
  if (s =? "true")%string || (s =? "1")%string then Ok (VisitBool true)
  else if (s =? "false")%string || (s =? "0")%string then Ok (VisitBool false)
  else Err ("invalid boolean: " +:+ backticked s).

Definition deserialize_int (t : IntType) (s : string) : result VisitorCall string :=
  match parse_int t s with
  | Some v => Ok (VisitInt t v)
  | None => Err ("invalid " +:+ int_name t +:+ ": " +:+ backticked s)
  end.

(** [serde]'s provided [deserialize_i128] and [deserialize_u128]. *)
Definition not_supported (t : IntType) : result VisitorCall string := Err (int_name t +:+ " is not supported").

Definition deserialize_char (s : string) : result VisitorCall string :=
  if single_char s then Ok (VisitChar s) else Err ("invalid char: " +:+ backticked s).

(** [Deserializer for ValueDeserializer]. *)
Definition value_deserialize (m : DeMethod) (d : ValueDeserializer) : result VisitorCall string :=
  let s := value_of d in
  match m with
  | DBool => deserialize_bool s
  | DInt t => if int_implemented t then deserialize_int t s else not_supported t
  | DF32 => match parse_f32 s with
            | Some v => Ok (VisitF32 v) | None => Err ("invalid f32: " +:+ backticked s) end
  | DF64 => match parse_f64 s with
            | Some v => Ok (VisitF64 v) | None => Err ("invalid f64: " +:+ backticked s) end
  | DChar => deserialize_char s
  | DOption => Ok (VisitSome d)
  | DNewtypeStruct => Ok (VisitNewtypeValue d)
  | DEnum => Ok (VisitEnum (EnumDe s))
  | _ => Ok (VisitStr s)
  end.

(** The requests [delegate_single!] covers. *)
Definition delegated (m : DeMethod) : bool :=
  match m with
  | DBool | DF32 | DF64 | DChar | DStr | DString | DBytes | DByteBuf => true
  | DInt t => int_implemented t
  | _ => false
  end.

(** [deserialize_map] of the path: [PathMapAccess::new]. *)
Definition visit_params_map (params : Params) : VisitorCall := VisitMap (mkMapAccess params 0).
Definition visit_params_seq (params : Params) : VisitorCall := VisitSeq (mkSeqAccess params 0).

(** [self.params.len() == 1]: that parameter's value. *)
Definition single_param (params : Params) : option string :=
  match params with [(_, v)] => Some v | _ => None end.

Definition path_deserialize_any (params : Params) : VisitorCall :=
  match single_param params with Some v => VisitStr v | None => visit_params_map params end.

(** [Deserializer for PathDeserializer]. *)
Definition path_deserialize (m : DeMethod) (d : PathDeserializer) : result VisitorCall string :=
  let params := path_params d in
  match m with
  | DMap | DStruct => Ok (visit_params_map params)
  | DSeq | DTuple | DTupleStruct => Ok (visit_params_seq params)
  | DNewtypeStruct => Ok (VisitNewtypePath d)
  | DEnum =>
      match single_param params with
      | Some v => Ok (VisitEnum (EnumDe v))
      | None => Err "enums can only be extracted from a single path parameter"
      end
  | DOption =>
      match single_param params with
      | Some v => value_deserialize DOption (ValueDe v)
      | None => Err "expected single path parameter for option"
      end
  | m =>
      if delegated m then
        match single_param params with
        | Some v => value_deserialize m (ValueDe v)
        | None => Err ("expected single path parameter for " +:+ method_name m)
        end
      else match m with
           | DInt t => not_supported t
           | _ => Ok (path_deserialize_any params)
           end
  end.

(** [Deserializer for StrDeserializer]: every request it has a method for is
    [deserialize_any]. *)
Definition key_deserialize (m : DeMethod) (d : StrDeserializer) : result VisitorCall string :=
  match m with
  | DInt t => if int_implemented t then Ok (VisitStr (str_of d)) else not_supported t
  | _ => Ok (VisitStr (str_of d))
  end.
End Deserialize.

(** ** Accessors *)

(** [next_element_seed]: the deserializer of the next value. *)
Definition next_element (a : PathSeqAccess) : option ValueDeserializer * PathSeqAccess :=
  match seq_params a !! seq_index a with
  | None => (None, a)
  | Some (_, v) => (Some (ValueDe v), mkSeqAccess (seq_params a) (S (seq_index a)))
  end.

(** [next_key_seed] does not advance; [next_value_seed] indexes without a check
    and panics ([None]) past the end. *)
Definition next_key (a : PathMapAccess) : option StrDeserializer :=
  match map_params a !! map_index a with None => None | Some (k, _) => Some (StrDe k) end.
Definition next_value (a : PathMapAccess) : option (ValueDeserializer * PathMapAccess) :=
  match map_params a !! map_index a with
  | None => None
  | Some (_, v) => Some (ValueDe v, mkMapAccess (map_params a) (S (map_index a)))
  end.

(** A visitor that reads every element: what a [Vec] or a tuple gets.  The fuel
    is the number of elements it asks for. *)
Fixpoint drain_seq (n : nat) (a : PathSeqAccess) : list string :=
  match n with
  | O => []
  | S n => match next_element a with
           | (None, _) => []
           | (Some d, a) => value_of d :: drain_seq n a
           end
  end.

(** A visitor that reads every entry: what a struct or a map gets. *)
Fixpoint drain_map (n : nat) (a : PathMapAccess) : option (list (string * string)) :=
  match n with
  | O => Some []
  | S n => match next_key a with
           | None => Some []
           | Some k => match next_value a with
                       | None => None
                       | Some (v, a) => cons (str_of k, value_of v) <$> drain_map n a
                       end
           end
  end.

(** [VariantAccess for UnitVariant]: only unit variants exist. *)
Inductive VariantKind := UnitKind | NewtypeKind | TupleKind | StructKind.
Definition variant_access (k : VariantKind) : result unit string :=
  match k with
  | UnitKind => Ok tt
  | NewtypeKind => Err "newtype variants not supported"
  | TupleKind => Err "tuple variants not supported"
  | StructKind => Err "struct variants not supported"
  end.
(** [variant_seed]: the variant's name and its [UnitVariant]. *)
Definition variant_seed (d : StringEnumDeserializer) : ValueDeserializer := ValueDe (enum_of d).

(** ** Facts *)

Lemma to_dec_no_sign n : (0 <= n)%Z ->
  exists a s, to_dec n = String a s /\ is_ascii_digit a = true.
Proof.
  intros Hn. destruct (to_dec_spec n Hn) as (Hne & Hd & _).
  destruct (to_dec n) as [|a s]; [done|]. simpl in Hd. bool_hyps. eauto.
Qed.

Lemma parse_signed_roundtrip max z :
  (- max - 1 <= z <= max)%Z -> parse_signed max (to_dec_signed z) = Some z.
Proof.
  intros Hz. unfold to_dec_signed. destruct (z <? 0)%Z eqn:E; bool_hyps.
  - destruct (to_dec_spec (- z) ltac:(lia)) as (Hne & _ & Hp).
    specialize (Hp (max + 1)%Z "" ltac:(lia)). rewrite sapp_nil_r in Hp.
    change ("-" +:+ to_dec (- z)) with (String "-" (to_dec (- z))). unfold parse_signed.
    change (Ascii.eqb "-" "-") with true. cbn iota.
    destruct (to_dec (- z)); [done|]. rewrite Hp. simpl. f_equal. lia.
  - destruct (to_dec_no_sign z ltac:(lia)) as (a & s & Hs & Ha).
    pose proof (parse_unsigned_to_dec max z ltac:(lia)) as Hp. rewrite Hs in *.
    unfold parse_signed. destruct (Ascii.eqb_spec a "-") as [->|]; [by cbn in Ha|done].
Qed.

Lemma parse_signed_bound max s z :
  (0 <= max)%Z -> parse_signed max s = Some z -> (- max - 1 <= z <= max)%Z.
Proof.
  intros Hmax. unfold parse_signed. destruct s as [|a s]; [done|].
  destruct (Ascii.eqb a "-").
  - destruct s as [|b s]; [done|]. destruct (parse_digits _ _ _) as [n|] eqn:E; [|done].
    apply parse_digits_bound in E; [|lia]. intros [= <-]. lia.
  - intros Hp. apply parse_unsigned_bound in Hp; lia.
Qed.

Lemma int_bits_pos t : (1 <= int_bits t)%Z.
Proof. unfold int_bits. by destruct (int_width t). Qed.

Lemma int_max_nonneg t : (1 <= int_bits t)%Z -> (0 <= int_max t)%Z.
Proof.
  intros Hb. unfold int_max. destruct (int_signed t).
  - pose proof (Z.pow_pos_nonneg 2 (int_bits t - 1) ltac:(lia) ltac:(lia)). lia.
  - pose proof (Z.pow_pos_nonneg 2 (int_bits t) ltac:(lia) ltac:(lia)). lia.
Qed.

Lemma parse_int_roundtrip t z :
  (int_min t <= z <= int_max t)%Z -> parse_int t (to_dec_signed z) = Some z.
Proof.
  unfold int_min, int_max, parse_int, int_max. destruct (int_signed t); intros Hz.
  - apply parse_signed_roundtrip. lia.
  - unfold to_dec_signed. rewrite (proj2 (Z.ltb_ge z 0)) by lia. apply parse_unsigned_to_dec. lia.
Qed.

Lemma parse_int_bound t s z :
  (1 <= int_bits t)%Z -> parse_int t s = Some z -> (int_min t <= z <= int_max t)%Z.
Proof.
  intros Hb. pose proof (int_max_nonneg t Hb) as Hm. revert Hm.
  unfold int_min, parse_int, int_max. destruct (int_signed t); intros Hm Hp.
  - apply parse_signed_bound in Hp; lia.
  - apply parse_unsigned_bound in Hp; lia.
Qed.

Lemma drain_seq_spec n a :
  drain_seq n a = take n (drop (seq_index a) (map snd (seq_params a))).
Proof.
  revert a; induction n as [|n IH]; intros [ps i]; [done|].
  cbn [drain_seq]. unfold next_element. cbn [seq_params seq_index].
  destruct (ps !! i) as [[k v]|] eqn:E; cbn iota beta.
  - rewrite IH. cbn [seq_params seq_index value_of].
    rewrite (drop_S (map snd ps) v i) by (etrans; [apply list_lookup_fmap|]; cbn; by setoid_rewrite E). done.
  - apply lookup_ge_None in E. by rewrite drop_ge, take_nil by (by rewrite length_map).
Qed.

Lemma drain_map_spec n a :
  drain_map n a = Some (take n (drop (map_index a) (map_params a))).
Proof.
  revert a; induction n as [|n IH]; intros [ps i]; [done|].
  cbn [drain_map]. unfold next_key, next_value. cbn [map_params map_index].
  destruct (ps !! i) as [[k v]|] eqn:E.
  - rewrite IH. cbn. by rewrite (drop_S ps (k, v) i E).
  - apply lookup_ge_None in E. by rewrite drop_ge, take_nil by done.
Qed.

(** ** Scalars *)

(** The values of the scalar types a parameter can hold, their text, and the
    request and the visitor call of their types. *)
Inductive Scalar :=
| ScBool (b : bool) | ScInt (t : IntType) (z : Z) | ScChar (c : string) | ScStr (s : string).

Definition scalar_ok (v : Scalar) : Prop :=
  match v with
  | ScInt t z => int_implemented t = true /\ (int_min t <= z <= int_max t)%Z
  | ScChar c => single_char c = true
  | _ => True
  end.

Definition show (v : Scalar) : string :=
  match v with
  | ScBool b => if b then "true" else "false"
  | ScInt _ z => to_dec_signed z
  | ScChar c => c
  | ScStr s => s
  end.

Definition method_of (v : Scalar) : DeMethod :=
  match v with ScBool _ => DBool | ScInt t _ => DInt t | ScChar _ => DChar | ScStr _ => DString end.

Section Roundtrip.
Context {F32 F64 : Type} (parse_f32 : string -> option F32) (parse_f64 : string -> option F64).

Definition visit_of (v : Scalar) : VisitorCall (F32 := F32) (F64 := F64) :=
  match v with
  | ScBool b => VisitBool b | ScInt t z => VisitInt t z | ScChar c => VisitChar c | ScStr s => VisitStr s
  end.

(** The parameter's text is read back as the value. *)
Definition reads (v : Scalar) (s : string) : Prop :=
  value_deserialize parse_f32 parse_f64 (method_of v) (ValueDe s) = Ok (visit_of v).

Lemma value_roundtrip v : scalar_ok v -> reads v (show v).
Proof.
  unfold reads. destruct v as [[]|t z|c|s]; intros Hok; try reflexivity; cbn in *.
  - destruct Hok as [-> Hz]. unfold deserialize_int. by rewrite parse_int_roundtrip.
  - unfold deserialize_char. by rewrite Hok.
Qed.

Lemma path_single_value k s v : scalar_ok v ->
  path_deserialize parse_f32 parse_f64 (method_of v) (PathDe [(k, s)])
    = value_deserialize parse_f32 parse_f64 (method_of v) (ValueDe s).
Proof. destruct v as [|t z| |]; try done. intros [Ht _]. unfold path_deserialize. cbn. by rewrite Ht. Qed.

Lemma reads_all vs : Forall scalar_ok vs -> Forall2 reads vs (map show vs).
Proof. induction 1; constructor; [by apply value_roundtrip|done]. Qed.
End Roundtrip.

(** ** Properties *)

(** C25. Path parameters read back what was written: when the parameters of a
    route are the texts of well-formed booleans, integers of 8 to 64
    bits, characters and strings, a tuple type gets exactly these values in order,
    a struct type exactly these names with these values (its reader never
    indexes past the end), and a scalar type the value of a single
    parameter. *)
Theorem path_params_roundtrip {F32 F64} (p32 : string -> option F32) (p64 : string -> option F64)
    (vs : list (string * Scalar)) :
  Forall scalar_ok (map snd vs) ->
  let params := map (fun kv => (fst kv, show (snd kv))) vs in
  (exists a, path_deserialize p32 p64 DTuple (PathDe params) = Ok (VisitSeq a) /\
     Forall2 (reads p32 p64) (map snd vs) (drain_seq (List.length vs) a)) /\
  (exists a entries, path_deserialize p32 p64 DStruct (PathDe params) = Ok (VisitMap a) /\
     drain_map (List.length vs) a = Some entries /\ map fst entries = map fst vs /\
     Forall2 (reads p32 p64) (map snd vs) (map snd entries)) /\
  (forall k v, vs = [(k, v)] ->
     path_deserialize p32 p64 (method_of v) (PathDe params) = Ok (visit_of v)).
Proof.
  intros Hok params.
  assert (Hone : forall k v, vs = [(k, v)] ->
     path_deserialize p32 p64 (method_of v) (PathDe params) = Ok (visit_of v)).
  { intros k v ->. assert (scalar_ok v) as Hv by by inversion Hok.
    unfold params. cbn [map fst snd]. rewrite path_single_value by done. by apply value_roundtrip. }
  assert (Hlen : List.length params = List.length vs) by apply length_map.
  assert (Hfst : map fst params = map fst vs) by (unfold params; by rewrite map_map).
  assert (Hsnd : map snd params = map show (map snd vs)) by (unfold params; by rewrite !map_map).
  pose proof (reads_all p32 p64 _ Hok) as Hall. rewrite <- Hsnd in Hall.
  clearbody params. split_and!; [| |done].
  - eexists. split; [reflexivity|]. rewrite drain_seq_spec. cbn [seq_params seq_index].
    by rewrite drop_0, take_ge by (apply Nat.eq_le_incl; etrans; [apply length_map|exact Hlen]).
  - eexists _, params. split; [reflexivity|]. rewrite drain_map_spec. cbn [map_params map_index].
    by rewrite drop_0, take_ge by (apply Nat.eq_le_incl; exact Hlen).
Qed.

Lemma path_params_roundtrip_witness :
  exists a, path_deserialize (F32 := Z) (F64 := Z) (fun _ => None) (fun _ => None) DTuple
      (PathDe [("id", "-128"); ("page", "65535"); ("draft", "true"); ("name", "ann")]) = Ok (VisitSeq a) /\
    drain_seq 4 a = ["-128"; "65535"; "true"; "ann"] /\
    reads (F32 := Z) (F64 := Z) (fun _ => None) (fun _ => None) (ScInt (mkInt true W8) (-128)) "-128".
Proof.
  pose proof (path_params_roundtrip (F32 := Z) (F64 := Z) (fun _ => None) (fun _ => None)
    [("id", ScInt (mkInt true W8) (-128)); ("page", ScInt (mkInt false W16) 65535);
     ("draft", ScBool true); ("name", ScStr "ann")]) as W.
  destruct W as ((a & Ha & Hr) & _).
  { repeat constructor; vm_compute; done. }
  exists a. injection Ha as <-. split; [reflexivity|]. split; [reflexivity|].
  by inversion Hr.
Defined.

(** A 128-bit integer is refused as a parameter, in a tuple or a struct, and as a
    key, whatever the text. *)
Theorem path_int128_refused {F32 F64} (p32 : string -> option F32) (p64 : string -> option F64) sg s params :
  let t := mkInt sg W128 in
  let e := Err ((if sg then "i128" else "u128") +:+ " is not supported") in
  value_deserialize p32 p64 (DInt t) (ValueDe s) = e /\
  path_deserialize p32 p64 (DInt t) (PathDe params) = e /\
  key_deserialize (F32 := F32) (F64 := F64) (DInt t) (StrDe s) = e.
Proof. by destruct sg. Qed.

(** An integer parameter is only read when it is in the range of its type. *)
Theorem path_int_in_range {F32 F64} t s (c : VisitorCall (F32 := F32) (F64 := F64)) :
  deserialize_int t s = Ok c ->
  exists z, c = VisitInt t z /\ (int_min t <= z <= int_max t)%Z.
Proof.
  unfold deserialize_int. destruct (parse_int t s) as [z|] eqn:E; [|done].
  intros [= <-]. eauto using parse_int_bound, int_bits_pos.
Qed.
