(* ===== verification/Extract.v ===== *)
(** * Extraction and handlers

    [arvik-core/src/extract.rs], [handler.rs] and [request_parts.rs]: the two
    extraction traits and a handler with any number of extractors, with its
    specification as a relation.

    A trait is a class, an [impl] an instance.  The [async] functions act on a
    world [W]: they take it and give the new one, so a theorem can say which of
    them ran. *)
From S2P Require Import Prelude RustStr HttpCrate Body Http Responses.
From stdpp Require Import base list strings sets.
From Stdlib Require Import ZArith Lia Ascii String.
Open Scope string_scope.
Open Scope list_scope.

(** ** Request parts *)

Section Parts.
Context `{HttpCrate}.

Record RequestParts := mkRequestParts {
  rp_method : Method;
  rp_uri : Uri;
  rp_headers : HeaderMap;
  rp_ext : Extensions }.

Definition into_request_parts (r : Request) : RequestParts * Body :=
  (mkRequestParts (req_method r) (req_uri r) (req_headers r) (req_ext r), req_body r).

(** [Request::from_request_parts]. *)
Definition request_of_parts (p : RequestParts) (b : Body) : Request :=
  mkRequest (rp_method p) (rp_uri p) (rp_headers p) (rp_ext p) b.

(** Splitting and putting together are inverse. *)
Lemma request_parts_roundtrip r :
  request_of_parts (fst (into_request_parts r)) (snd (into_request_parts r)) = r.
Proof. by destruct r. Qed.
End Parts.

(** ** The traits *)

Section Traits.
Context `{HttpCrate} {S W : Type}.

Class FromRequestParts (T : Type) : Type := {
  PartsRejection : Type;
  parts_rejection_response : IntoResponse PartsRejection;
  from_request_parts : RequestParts -> S -> W -> result T PartsRejection * RequestParts * W }.

(** The marker of [FromRequest]. *)
Inductive Via := ViaRequest | ViaParts.

Class FromRequest (M : Via) (T : Type) : Type := {
  Rejection : Type;
  rejection_response : IntoResponse Rejection;
  from_request : Request -> S -> W -> result T Rejection * W }.

(** Every parts extractor is a request extractor; the body is dropped. *)
#[export] Instance via_parts {T} {E : FromRequestParts T} : FromRequest ViaParts T := {
  Rejection := PartsRejection;
  rejection_response := parts_rejection_response;
  from_request req state w :=
    let (parts, _) := into_request_parts req in
    let '(r, _, w) := from_request_parts parts state w in (r, w) }.

(** [Option<T>] and [Result<T, T::Rejection>] never reject. *)
#[export] Instance option_extractor {T} {E : FromRequestParts T} : FromRequestParts (option T) := {
  PartsRejection := Empty_set;
  parts_rejection_response := infallible_into_response;
  from_request_parts parts state w :=
    let '(r, parts, w) := from_request_parts parts state w in (Ok (result_ok r), parts, w) }.
#[export] Instance result_extractor {T} {E : FromRequestParts T} :
  FromRequestParts (result T PartsRejection) := {
  PartsRejection := Empty_set;
  parts_rejection_response := infallible_into_response;
  from_request_parts parts state w :=
    let '(r, parts, w) := from_request_parts parts state w in (Ok r, parts, w) }.

(** ** Handlers *)

(** The type of [async fn(T1, .., Tn, Tlast) -> Res]. *)
Fixpoint handler_fn (Ts : list Type) (Last Out : Type) : Type :=
  match Ts with
  | [] => Last -> Out
  | T :: Ts => T -> handler_fn Ts Last Out
  end.

(** The extractors of all arguments but the last. *)
Inductive PartsList : list Type -> Type :=
| PNil : PartsList []
| PCons {T Ts} (E : FromRequestParts T) (es : PartsList Ts) : PartsList (T :: Ts).

Section Call.
Context {M : Via} {L Res : Type} {EL : FromRequest M L} {IR : IntoResponse Res}.

(** The body of [impl_handler!]. *)
Fixpoint call_extractors {Ts} (es : PartsList Ts) :
    handler_fn Ts L (W -> Res * W) -> RequestParts -> Body -> S -> W -> Response * W :=
  match es with
  | PNil => fun self parts body state w =>
      let req := request_of_parts parts body in
      match from_request req state w with
      | (Ok value, w) => let (res, w) := self value w in (response_of res, w)
      | (Err rejection, w) => (@response_of _ _ rejection_response rejection, w)
      end
  | PCons E es => fun self parts body state w =>
      match from_request_parts parts state w with
      | (Ok value, parts, w) => call_extractors es (self value) parts body state w
      | (Err rejection, _, w) => (@response_of _ _ parts_rejection_response rejection, w)
      end
  end.

(** [Handler::call] for one to sixteen arguments. *)
Definition handler_call {Ts} (es : PartsList Ts) (self : handler_fn Ts L (W -> Res * W))
    (req : Request) (state : S) (w : W) : Response * W :=
  let (parts, body) := into_request_parts req in
  call_extractors es self parts body state w.
End Call.

(** [Handler::call] without arguments. *)
Definition handler0_call {Res} {IR : IntoResponse Res} (self : W -> Res * W)
    (req : Request) (state : S) (w : W) : Response * W :=
  let (res, w) := self w in (response_of res, w).

(** ** Specification of a handler call *)

Fixpoint hlist (Ts : list Type) : Type :=
  match Ts with [] => unit | T :: Ts => (T * hlist Ts)%type end.
Fixpoint apply_handler {Ts L Out} : handler_fn Ts L Out -> hlist Ts -> L -> Out :=
  match Ts with
  | [] => fun f _ => f
  | T :: Ts => fun f vs => apply_handler (f (fst vs)) (snd vs)
  end.

(** All parts extractors succeed, each on the parts its predecessor left. *)
Inductive extracted (state : S) : forall {Ts}, PartsList Ts -> RequestParts -> W ->
    hlist Ts -> RequestParts -> W -> Prop :=
| extracted_nil p w : extracted state PNil p w tt p w
| extracted_cons {T Ts} (E : FromRequestParts T) (es : PartsList Ts) p w v p1 w1 vs p2 w2 :
    from_request_parts p state w = (Ok v, p1, w1) ->
    extracted state es p1 w1 vs p2 w2 ->
    extracted state (PCons E es) p w (v, vs) p2 w2.

(** An extractor fails after those before it succeeded: its rejection is the
    response, and the world is as it left it. *)
Inductive rejected (state : S) : forall {Ts}, PartsList Ts -> RequestParts -> W ->
    Response -> W -> Prop :=
| rejected_here {T Ts} (E : FromRequestParts T) (es : PartsList Ts) p w e p1 w1 :
    from_request_parts p state w = (Err e, p1, w1) ->
    rejected state (PCons E es) p w (@response_of _ _ parts_rejection_response e) w1
| rejected_later {T Ts} (E : FromRequestParts T) (es : PartsList Ts) p w v p1 w1 r w2 :
    from_request_parts p state w = (Ok v, p1, w1) ->
    rejected state es p1 w1 r w2 ->
    rejected state (PCons E es) p w r w2.

Lemma call_rejected {M L Res} {EL : FromRequest M L} {IR : IntoResponse Res}
    {Ts} (es : PartsList Ts) (self : handler_fn Ts L (W -> Res * W)) p b state w r w' :
  rejected state es p w r w' -> call_extractors es self p b state w = (r, w').
Proof. induction 1 as [T Ts E es p w e p1 w1 He|T Ts E es p w v p1 w1 r w2 Hv _ IH];
  cbn; [by rewrite He|rewrite Hv; apply IH]. Qed.

Lemma call_extracted {M L Res} {EL : FromRequest M L} {IR : IntoResponse Res}
    {Ts} (es : PartsList Ts) (self : handler_fn Ts L (W -> Res * W)) p b state w vs p' w' :
  extracted state es p w vs p' w' ->
  call_extractors es self p b state w
    = call_extractors PNil (apply_handler self vs) p' b state w'.
Proof. induction 1 as [|T Ts E es p w v p1 w1 vs p2 w2 Hv _ IH]; [done|]. cbn. rewrite Hv. apply IH. Qed.

Lemma extraction_total state {Ts} (es : PartsList Ts) p w :
  (exists r w', rejected state es p w r w') \/
  (exists vs p' w', extracted state es p w vs p' w').
Proof.
  revert p w; induction es as [|T Ts E es IH]; intros p w.
  - right. eexists _, _, _. constructor.
  - destruct (from_request_parts p state w) as [[[v|e] p1] w1] eqn:Ee.
    + destruct (IH p1 w1) as [(r & w2 & Hr)|(vs & p2 & w2 & Hv)].
      * left. eexists _, _. eapply rejected_later; eauto.
      * right. eexists _, _, _. eapply extracted_cons; eauto.
    + left. eexists _, _. eapply rejected_here; eauto.
Qed.
End Traits.

Arguments FromRequestParts {_} S W T.
Arguments FromRequest {_} S W M T.
Arguments PartsList {_} S W Ts.

(** ** Property *)

(** What the last argument's extractor and the handler do once the values of
    the other arguments are there. *)
Definition last_step `{HttpCrate} {S W M L Res} {EL : FromRequest S W M L} {IR : IntoResponse Res}
    (state : S) (handler : L -> W -> Res * W) (req : Request) (w : W) (r : Response) (w' : W) : Prop :=
  match from_request req state w with
  | (Err e, w1) => r = @response_of _ _ rejection_response e /\ w' = w1
  | (Ok v, w1) => exists res, handler v w1 = (res, w') /\ r = response_of res
  end.

(** C8. A handler call is sequential extraction.  It gives [r] and [w'] exactly
    when some parts extractor, the ones before it having succeeded, rejects
    with [r] in [w'], and then neither a later extractor nor the handler has
    run; or all succeed, and the last extractor, on the request put together
    from the parts they left and the untouched body, rejects with [r] or gives
    the value the handler turns into [r]. *)
Theorem handler_call_refines `{HttpCrate} {S W M L Res} {EL : FromRequest S W M L}
    {IR : IntoResponse Res} {Ts} (es : PartsList S W Ts)
    (self : handler_fn Ts L (W -> Res * W)) req state w r w' :
  let parts := fst (into_request_parts req) in
  handler_call es self req state w = (r, w') <->
  rejected state es parts w r w' \/
  exists vs p1 w1, extracted state es parts w vs p1 w1 /\
    last_step state (apply_handler self vs) (request_of_parts p1 (req_body req)) w1 r w'.
Proof.
  cbn zeta. unfold handler_call. destruct (into_request_parts req) as [p b] eqn:Ep.
  assert (b = req_body req) as -> by (by injection Ep). cbn [fst].
  assert (Hlast : forall f p1 w1, call_extractors PNil f p1 (req_body req) state w1 = (r, w') <->
    last_step state f (request_of_parts p1 (req_body req)) w1 r w').
  { intros f p1 w1. cbn. unfold last_step.
    destruct (from_request _ _ _) as [[v|e] w2]; [destruct (f v w2) as [res w3]|]; naive_solver. }
  split.
  - intros Hc. destruct (extraction_total state es p w) as [(r1 & w1 & Hr)|(vs & p1 & w1 & Hx)].
    + left. rewrite (call_rejected es self _ _ _ _ _ _ Hr) in Hc. by injection Hc as <- <-.
    + right. exists vs, p1, w1. split; [done|]. apply Hlast.
      by rewrite <- (call_extracted es self _ _ _ _ _ _ _ Hx).
  - intros [Hr|(vs & p1 & w1 & Hx & Hl)].
    + by apply call_rejected.
    + rewrite (call_extracted es self _ _ _ _ _ _ _ Hx). by apply Hlast.
Qed.
