(* ===== verification/Extractors.v ===== *)
(** * The extractors

    The body extractors of [arvik-core/src/extract.rs] and the crate
    [arvik-extract]: the rejections with their responses, the JSON and form
    bodies with their content type checks, and the extractors of the query, the
    path, a header, the state and the request extensions, plain and validated.

    serde's [from_slice] and [from_str] at a type, the [mime] and [headers]
    parsers, the [validator] derive and the texts of foreign errors are
    parameters. *)
From S2P Require Import Prelude RustStr HttpCrate Body Http Responses PathDe Extract BodyLimit.
From stdpp Require Import base list strings sets.
From Stdlib Require Import ZArith Lia Ascii String.
Open Scope string_scope.
Open Scope list_scope.

(** ** Rejections *)

Section Rejections.
Context `{HttpCrate}.

(** The response every rejection of the crate builds: its status and text. *)
Definition text_rejection (status : Z) (text : string) : Response :=
  rb_body (body_from_bytes text) (rb_header_str CONTENT_TYPE TEXT_PLAIN_UTF8 (rb_status status rb_new)).

(** ... or without a content type. *)
Definition bare_rejection (status : Z) (text : string) : Response :=
  rb_body (body_from_bytes text) (rb_status status rb_new).

Inductive PathRejection :=
| MissingPathParams
| PathDeserializationFailed (msg : string).
Definition path_rejection_text (e : PathRejection) : string :=
  match e with
  | MissingPathParams => "No path parameters found"
  | PathDeserializationFailed msg => "Invalid path parameters: " +:+ msg
  end.
Definition path_rejection_status (e : PathRejection) : Z :=
  match e with MissingPathParams => 500 | PathDeserializationFailed _ => 400 end.
#[export] Instance path_rejection_response : IntoResponse PathRejection :=
  fun e => text_rejection (path_rejection_status e) (path_rejection_text e).

Inductive QueryRejection :=
| MissingQueryString
| QueryDeserializationFailed (msg : string).
Definition query_rejection_text (e : QueryRejection) : string :=
  match e with
  | MissingQueryString => "Missing query string"
  | QueryDeserializationFailed msg => "Invalid query string: " +:+ msg
  end.
#[export] Instance query_rejection_response : IntoResponse QueryRejection :=
  fun e => text_rejection 400 (query_rejection_text e).

Inductive JsonRejection :=
| JsonBodyReadFailed (msg : string)
| MissingJsonContentType
| JsonDeserializationFailed (msg : string)
| JsonPayloadTooLarge.
Definition json_rejection_text (e : JsonRejection) : string :=
  match e with
  | JsonBodyReadFailed msg => "Failed to read request body: " +:+ msg
  | MissingJsonContentType => "Expected Content-Type: application/json"
  | JsonDeserializationFailed msg => "Invalid JSON: " +:+ msg
  | JsonPayloadTooLarge => "Request payload exceeds the maximum allowed size"
  end.
Definition json_rejection_status (e : JsonRejection) : Z :=
  match e with
  | MissingJsonContentType => 415
  | JsonPayloadTooLarge => 413
  | _ => 400
  end.
#[export] Instance json_rejection_response : IntoResponse JsonRejection :=
  fun e => text_rejection (json_rejection_status e) (json_rejection_text e).

Inductive FormRejection :=
| FormBodyReadFailed (msg : string)
| FormInvalidContentType
| FormDeserializationFailed (msg : string)
| FormPayloadTooLarge.
Definition form_rejection_text (e : FormRejection) : string :=
  match e with
  | FormBodyReadFailed msg => "Failed to read request body: " +:+ msg
  | FormInvalidContentType => "Expected Content-Type: application/x-www-form-urlencoded"
  | FormDeserializationFailed msg => "Invalid form data: " +:+ msg
  | FormPayloadTooLarge => "Request payload exceeds the maximum allowed size"
  end.
Definition form_rejection_status (e : FormRejection) : Z :=
  match e with
  | FormInvalidContentType => 415
  | FormPayloadTooLarge => 413
  | _ => 400
  end.
#[export] Instance form_rejection_response : IntoResponse FormRejection :=
  fun e => text_rejection (form_rejection_status e) (form_rejection_text e).

Inductive TypedHeaderRejection :=
| TypedHeaderMissing (name : string)
| TypedHeaderDecodeFailed (msg : string).
Definition typed_header_rejection_text (e : TypedHeaderRejection) : string :=
  match e with
  | TypedHeaderMissing name => "Missing header: " +:+ name
  | TypedHeaderDecodeFailed msg => "Invalid header value: " +:+ msg
  end.
#[export] Instance typed_header_rejection_response : IntoResponse TypedHeaderRejection :=
  fun e => text_rejection 400 (typed_header_rejection_text e).

Inductive ExtensionRejection := MissingExtension (type_name : string).
#[export] Instance extension_rejection_response : IntoResponse ExtensionRejection :=
  fun '(MissingExtension t) => text_rejection 500 ("Missing request extension: " +:+ t).

(** [MatchedPathRejection] and [ConnectInfoRejection] set no content type. *)
Inductive MatchedPathRejection := NoMatchedPath.
#[export] Instance matched_path_rejection_response : IntoResponse MatchedPathRejection :=
  fun _ => bare_rejection 500 "No matched path available".
Inductive ConnectInfoRejection := NoConnectInfo.
#[export] Instance connect_info_rejection_response : IntoResponse ConnectInfoRejection :=
  fun _ => bare_rejection 500 "Missing ConnectInfo. Did you configure the server to insert it?".

(** Rejections that are public but that no extractor of the framework returns:
    [StateRejection], [BodyRejection] and [StringRejection]. *)
Inductive StateRejection := NoState.
#[export] Instance state_rejection_response : IntoResponse StateRejection :=
  fun _ => text_rejection 500 "State not configured. Use `.with_state(state)` on your Router".
Inductive BodyRejection := BodyUnread (msg : string).
#[export] Instance body_rejection_response : IntoResponse BodyRejection :=
  fun '(BodyUnread msg) => text_rejection 400 ("Failed to read request body: " +:+ msg).
Inductive StringRejection :=
| BodyReadFailed (msg : string)
| InvalidUtf8 (msg : string).
Definition string_rejection_text (e : StringRejection) : string :=
  match e with
  | BodyReadFailed msg => "Failed to read request body: " +:+ msg
  | InvalidUtf8 msg => "Request body is not valid UTF-8: " +:+ msg
  end.
#[export] Instance string_rejection_response : IntoResponse StringRejection :=
  fun e => text_rejection 400 (string_rejection_text e).
End Rejections.

(** ** Content types *)

(** What [str::parse::<Mime>] gives: lowercase names. *)
Record Mime := mkMime { mime_type : string; mime_subtype : string; mime_suffix : option string }.

Section ContentTypes.
Context `{HttpCrate} (mime_parse : string -> option Mime).

(** [strip_ascii_case_prefix]; the slices are at bytes, [slices_ok] says that
    the cut is at a character boundary, where Rust does not panic. *)
Definition strip_ascii_case_prefix (value prefix : string) : option string :=
  let n := String.length prefix in
  if (n <=? String.length value)%nat && eq_ignore_ascii_case (str_take n value) prefix
  then Some (str_drop n value) else None.

Definition slices_ok (value prefix : string) : bool :=
  match str_drop (String.length prefix) value with
  | EmptyString => true
  | String a _ => negb (utf8_cont a)
  end.

(** [rest.is_empty() || rest.starts_with(';') || rest.trim_start().starts_with(';')]. *)
Definition parameters_follow (rest : string) : bool :=
  str_is_empty rest || starts_with ";" rest || starts_with ";" (trim_start rest).

Definition mime_is_json (m : Mime) : bool :=
  (mime_type m =? "application")%string &&
  ((mime_subtype m =? "json")%string ||
   match mime_suffix m with Some s => (s =? "json")%string | None => false end).

(** [json_content_type] on the text of the header. *)
Definition json_content_type_str (ct : string) : bool :=
  eq_ignore_ascii_case ct "application/json" ||
  match strip_ascii_case_prefix ct "application/json" with
  | Some rest => parameters_follow rest
  | None => false
  end ||
  match mime_parse ct with Some m => mime_is_json m | None => false end.

Definition json_content_type (h : HeaderMap) : bool :=
  match hm_get_str h CONTENT_TYPE with None => false | Some ct => json_content_type_str ct end.

Definition form_content_type (h : HeaderMap) : bool :=
  match hm_get_str h CONTENT_TYPE with
  | None => false
  | Some ct =>
      eq_ignore_ascii_case ct "application/x-www-form-urlencoded" ||
      match mime_parse ct with
      | Some m => (mime_type m =? "application")%string &&
                  (mime_subtype m =? "x-www-form-urlencoded")%string
      | None => false
      end
  end.
End ContentTypes.

(** ** Body extractors *)

Section BodyExtractors.
Context `{HttpCrate} `{CoreCrates} {S W : Type}.
(** The [Display] of [FromUtf8Error] on the bytes. *)
Context (utf8_error : string -> string).

(** [Display for BoxError], [BodyTooLarge] and [BodyLimitError]. *)
Definition box_error_text (e : BoxError) : string :=
  match e with
  | BodyTooLarge => "request body exceeds the maximum allowed size"
  | OtherError msg => msg
  end.
Definition body_limit_error_text (e : BodyLimitError) : string :=
  match e with
  | TooLarge => "request body exceeds the maximum allowed size"
  | ReadError e => "failed to read request body: " +:+ box_error_text e
  end.

Definition request_limit (req : Request) : Z := resolve_limit (ext_body_limit (req_ext req)).

Definition body_limit_rejection (e : BodyLimitError) : Error :=
  if is_payload_too_large e
  then error_with_status 413 (error_new (body_limit_error_text e))
  else error_new (body_limit_error_text e).

(** [FromRequest for Bytes] and [for String]. *)
Definition bytes_from_request (req : Request) : result string Error :=
  map_err body_limit_rejection (to_bytes_limited (req_body req) (request_limit req)).

Definition string_from_request (req : Request) : result string Error :=
  result_bind (fun bytes =>
    if utf8_valid bytes then Ok bytes
    else Err (error_with_status 400 (error_new (utf8_error bytes))))
    (bytes_from_request req).

#[export] Instance body_extractor : FromRequest S W ViaRequest Body := {
  Rejection := Empty_set;
  rejection_response := infallible_into_response;
  from_request req _ w := (Ok (req_body req), w) }.
#[export] Instance request_extractor : FromRequest S W ViaRequest Request := {
  Rejection := Empty_set;
  rejection_response := infallible_into_response;
  from_request req _ w := (Ok req, w) }.

(** *** JSON and forms *)

Section Typed.
Context {T : Type} (mime_parse : string -> option Mime).
(** serde at [T]: the value, or the error's text. *)
Context (from_slice : string -> result T string).

(** [Json::from_request]. *)
Definition json_from_request (req : Request) : result T JsonRejection :=
  if negb (json_content_type mime_parse (req_headers req)) then Err MissingJsonContentType
  else
    match to_bytes_limited (req_body req) (request_limit req) with
    | Ok bytes => map_err JsonDeserializationFailed (from_slice bytes)
    | Err e => if is_payload_too_large e then Err JsonPayloadTooLarge
               else Err (JsonBodyReadFailed (body_limit_error_text e))
    end.

(** [Form::from_request]. *)
Definition form_from_request (req : Request) : result T FormRejection :=
  if negb (form_content_type mime_parse (req_headers req)) then Err FormInvalidContentType
  else
    match to_bytes_limited (req_body req) (request_limit req) with
    | Ok bytes => map_err FormDeserializationFailed (from_slice bytes)
    | Err e => if is_payload_too_large e then Err FormPayloadTooLarge
               else Err (FormBodyReadFailed (body_limit_error_text e))
    end.

(** [Json]'s response; [to_writer] is [serde_json::to_writer]. *)
Definition json_response (to_writer : T -> result string string) (v : T) : Response :=
  match to_writer v with
  | Ok bytes => rb_body (body_from_bytes bytes) (rb_header CONTENT_TYPE "application/json" rb_new)
  | Err err =>
      rb_body (body_from_bytes ("{" +:+ quoted "error" +:+ ":"
                 +:+ quoted ("JSON serialization failed: " +:+ err) +:+ "}"))
        (rb_header CONTENT_TYPE "application/json" (rb_status 500 rb_new))
  end.

(** An extractor that only reads the request. *)
Definition reading_request (R : Type) (IR : IntoResponse R) (f : Request -> result T R) :
  FromRequest S W ViaRequest T :=
  {| Rejection := R; rejection_response := IR; from_request req _ w := (f req, w) |}.

Definition json_extractor : FromRequest S W ViaRequest T :=
  reading_request JsonRejection json_rejection_response json_from_request.
Definition form_extractor : FromRequest S W ViaRequest T :=
  reading_request FormRejection form_rejection_response form_from_request.
End Typed.
End BodyExtractors.

(** ** Parts extractors *)

Section PartsExtractors.
Context `{HttpCrate} {S W : Type}.

(** An extractor that only reads the parts. *)
Definition reading {T} (R : Type) (IR : IntoResponse R) (f : RequestParts -> S -> result T R) :
  FromRequestParts S W T :=
  {| PartsRejection := R; parts_rejection_response := IR;
     from_request_parts parts state w := (f parts state, parts, w) |}.

(** [Method], [Uri] and [HeaderMap]. *)
#[export] Instance method_extractor : FromRequestParts S W Method :=
  reading Empty_set infallible_into_response (fun p _ => Ok (rp_method p)).
#[export] Instance uri_extractor : FromRequestParts S W Uri :=
  reading Empty_set infallible_into_response (fun p _ => Ok (rp_uri p)).
#[export] Instance header_map_extractor : FromRequestParts S W HeaderMap :=
  reading Empty_set infallible_into_response (fun p _ => Ok (rp_headers p)).

(** [OriginalUri]: the extension, or the current URI. *)
Definition original_uri_of (p : RequestParts) : Uri :=
  default (rp_uri p) (ext_original_uri (rp_ext p)).
Definition original_uri_extractor : FromRequestParts S W Uri :=
  reading Empty_set infallible_into_response (fun p _ => Ok (original_uri_of p)).

(** [State]: [from_ref] is the user's [FromRef]. *)
Definition state_extractor {T} (from_ref : S -> T) : FromRequestParts S W T :=
  reading Empty_set infallible_into_response (fun _ state => Ok (from_ref state)).

(** [Extension] at one of the types the framework inserts. *)
Definition extension_of {T} (type_name : string) (get : Extensions -> option T) (p : RequestParts)
  : result T ExtensionRejection :=
  match get (rp_ext p) with Some v => Ok v | None => Err (MissingExtension type_name) end.
Definition extension_extractor {T} (type_name : string) (get : Extensions -> option T) :
  FromRequestParts S W T :=
  reading ExtensionRejection extension_rejection_response (fun p _ => extension_of type_name get p).

Definition matched_path_of (p : RequestParts) : result string MatchedPathRejection :=
  match ext_matched_path (rp_ext p) with Some m => Ok m | None => Err NoMatchedPath end.
Definition matched_path_extractor : FromRequestParts S W string :=
  reading MatchedPathRejection matched_path_rejection_response (fun p _ => matched_path_of p).

(** [ConnectInfo] at its extension. *)
Definition connect_info_of {T} (get : Extensions -> option T) (p : RequestParts)
  : result T ConnectInfoRejection :=
  match get (rp_ext p) with Some v => Ok v | None => Err NoConnectInfo end.

Definition raw_path_params_of (p : RequestParts) : list (string * string) :=
  default [] (ext_path_params (rp_ext p)).

Section Typed.
Context {T : Type}.

(** [Path]: [deserialize] is [T::deserialize] on the path deserializer. *)
Definition path_of (deserialize : PathDeserializer -> result T string) (p : RequestParts)
  : result T PathRejection :=
  match ext_path_params (rp_ext p) with
  | None => Err MissingPathParams
  | Some pairs => map_err PathDeserializationFailed (deserialize (PathDe pairs))
  end.
Definition path_extractor (deserialize : PathDeserializer -> result T string) :
  FromRequestParts S W T :=
  reading PathRejection path_rejection_response (fun p _ => path_of deserialize p).

(** [Query]: [from_str] is [serde_urlencoded::from_str] at [T]. *)
Definition query_of (from_str : string -> result T string) (p : RequestParts)
  : result T QueryRejection :=
  map_err QueryDeserializationFailed (from_str (default "" (uri_query (rp_uri p)))).
Definition query_extractor (from_str : string -> result T string) : FromRequestParts S W T :=
  reading QueryRejection query_rejection_response (fun p _ => query_of from_str p).

(** [TypedHeader]: [decode] is the header's [Header::decode] on its values. *)
Definition typed_header_of (name : string) (decode : list string -> result T string)
    (p : RequestParts) : result T TypedHeaderRejection :=
  map_err (fun e => match hm_get (rp_headers p) name with
                    | None => TypedHeaderMissing name
                    | Some _ => TypedHeaderDecodeFailed e
                    end)
    (decode (hm_get_all (rp_headers p) name)).
Definition typed_header_extractor (name : string) (decode : list string -> result T string) :
  FromRequestParts S W T :=
  reading TypedHeaderRejection typed_header_rejection_response
    (fun p _ => typed_header_of name decode p).
End Typed.
End PartsExtractors.

(** ** Facts *)

Section Facts.
Context `{HL : HttpLaws}.

Lemma text_rejection_spec status text :
  res_status (text_rejection status text) = status /\
  hm_get_all (res_headers (text_rejection status text)) CONTENT_TYPE = [TEXT_PLAIN_UTF8] /\
  to_bytes (res_body (text_rejection status text)) = Ok text.
Proof.
  unfold text_rejection, rb_header_str. rewrite hv_from_str_visible by done.
  split_and!; [done|cbn; by headers|].
  cbn [res_body rb_body rb_header rb_status rb_new]. apply to_bytes_from_bytes.
Qed.

Lemma str_drop_forall f n s : str_forall f s = true -> str_forall f (str_drop n s) = true.
Proof.
  revert s; induction n as [|n IH]; intros [|a s]; cbn; [done..|]. intros Hs. bool_hyps. auto.
Qed.

(** The slices of [strip_ascii_case_prefix] never panic: the text of a header
    is ASCII. *)
Lemma json_slices_ok h ct prefix :
  hm_get_str h CONTENT_TYPE = Some ct -> slices_ok ct prefix = true.
Proof.
  unfold hm_get_str, slices_ok. destruct (hm_get h CONTENT_TYPE) as [v|]; cbn; [|done].
  intros Hv. apply (hv_to_str_ascii v) in Hv as Ha.
  apply (str_drop_forall _ (String.length prefix)) in Ha.
  destruct (str_drop _ _) as [|a s]; [done|]. cbn in Ha. bool_hyps.
  unfold is_ascii, utf8_cont, in_range in *. bool_hyps.
  rewrite (proj2 (Z.leb_gt 128 (byte_val a))) by lia. done.
Qed.

Lemma str_take_app p s : str_take (String.length p) (p +:+ s) = p.
Proof. induction p as [|a p IH]; cbn; [by destruct s|by rewrite IH]. Qed.
Lemma str_drop_app p s : str_drop (String.length p) (p +:+ s) = s.
Proof. induction p as [|a p IH]; cbn; [by destruct s|done]. Qed.

(** The JSON media type in any case is accepted, alone or with parameters,
    whatever the [mime] parser says of them. *)
Lemma json_content_type_accepts mime_parse name params :
  eq_ignore_ascii_case name "application/json" = true -> parameters_follow params = true ->
  json_content_type_str mime_parse (name +:+ params) = true.
Proof.
  intros Hn Hp. unfold json_content_type_str, strip_ascii_case_prefix.
  assert (Hlen : String.length name = String.length "application/json").
  { unfold eq_ignore_ascii_case in Hn. apply String.eqb_eq in Hn.
    rewrite <- (length_str_map to_ascii_lowercase_char name).
    unfold to_ascii_lowercase in Hn. by rewrite Hn. }
  rewrite <- Hlen, str_take_app, str_drop_app, Hn, length_sapp.
  rewrite (proj2 (Nat.leb_le _ _)) by lia. cbn [andb]. by rewrite Hp, orb_true_r.
Qed.
End Facts.

(** ** Properties *)

(** A JSON body, as its extractor's reference reads it: the whole body, with
    no limit in the loop. *)
Definition json_reference `{HttpCrate} {T} (mime_parse : string -> option Mime)
    (from_slice : string -> result T string) (req : Request) : result T JsonRejection :=
  if negb (json_content_type mime_parse (req_headers req)) then Err MissingJsonContentType
  else if (request_limit req <? data_len (body_frames (req_body req)))%Z then Err JsonPayloadTooLarge
  else match to_bytes (req_body req) with
       | Ok bytes => map_err JsonDeserializationFailed (from_slice bytes)
       | Err e => Err (JsonBodyReadFailed (body_limit_error_text (ReadError e)))
       end.

(** On a body of data frames the extractor is its reference. *)
Lemma json_extractor_reference `{HttpCrate} {T} mime_parse (from_slice : string -> result T string) req :
  in_u64 (request_limit req) -> (data_len (body_frames (req_body req)) <= u64_max)%Z ->
  all_data (body_frames (req_body req)) -> truthful_upper (req_body req) ->
  json_from_request mime_parse from_slice req = json_reference mime_parse from_slice req.
Proof.
  intros Hl Hm Hd Ht. unfold json_from_request, json_reference.
  destruct (json_content_type _ _); [|done]. cbn [negb].
  pose proof (proj2 (to_bytes_limited_correct (req_body req) _ Hl Hm) Hd Ht) as Hc.
  rewrite Z.ltb_antisym. destruct (data_len _ <=? _)%Z; cbn [negb].
  - destruct Hc as (s & -> & ->). done.
  - by rewrite Hc.
Qed.

(** C19. A JSON handler never sees a bad body. Take a handler whose last argument
    is [Json], behind a route limit, whose other extractors succeed without
    replacing headers or extensions. On a body of data frames it answers 415
    when the content type is not JSON, 413 when the body is over the limit,
    400 with serde's message when it does not deserialize, the handler not run
    and the world as the extractors left it; otherwise the handler is called on
    the value of the whole body. *)
Theorem json_handler_outcome `{HttpCrate} {S W T Res} {IR : IntoResponse Res} {Ts}
    mime_parse (from_slice : string -> result T string) (es : PartsList S W Ts)
    (self : handler_fn Ts T (W -> Res * W)) limit req state w vs p1 w1 :
  let body := req_body req in
  let EJ := json_extractor mime_parse from_slice in
  let out := default_body_limit_layer limit
               (fun req w => handler_call (EL := EJ) es self req state w) req w in
  in_u64 limit -> (data_len (body_frames body) <= u64_max)%Z ->
  all_data (body_frames body) -> truthful_upper body ->
  extracted state es (mkRequestParts (req_method req) (req_uri req) (req_headers req)
    (ext_with_body_limit limit (req_ext req))) w vs p1 w1 ->
  rp_headers p1 = req_headers req -> ext_body_limit (rp_ext p1) = Some limit ->
  if negb (json_content_type mime_parse (req_headers req))
  then out = (text_rejection 415 "Expected Content-Type: application/json", w1)
  else if (limit <? data_len (body_frames body))%Z
  then out = (text_rejection 413 "Request payload exceeds the maximum allowed size", w1)
  else exists bytes, to_bytes body = Ok bytes /\
    match from_slice bytes with
    | Err msg => out = (text_rejection 400 ("Invalid JSON: " +:+ msg), w1)
    | Ok v => out = let (res, w2) := apply_handler self vs v w1 in (response_of res, w2)
    end.
Proof.
  cbn zeta. intros Hl Hm Hd Ht Hx Hh He.
  unfold default_body_limit_layer, handler_call. cbn [into_request_parts set_req_ext req_method
    req_uri req_headers req_ext req_body].
  rewrite (call_extracted es self _ _ _ _ _ _ _ Hx). cbn [call_extractors].
  set (r1 := request_of_parts p1 (req_body req)).
  assert (Hr : request_limit r1 = limit) by (unfold request_limit; cbn; by rewrite He).
  cbn [from_request json_extractor reading_request].
  rewrite json_extractor_reference by (rewrite ?Hr; done).
  unfold json_reference. rewrite Hr. cbn [r1 request_of_parts req_headers req_body]. rewrite Hh.
  destruct (json_content_type _ _); [|done]. cbn [negb].
  destruct (limit <? _)%Z eqn:E; [done|]. bool_hyps.
  pose proof (proj2 (to_bytes_limited_correct (req_body req) limit Hl Hm) Hd Ht) as Hc.
  rewrite (proj2 (Z.leb_le _ _)) in Hc by done. destruct Hc as (s & _ & ->).
  exists s. split; [done|]. by destruct (from_slice s).
Qed.

(** A two-argument handler [async fn(Method, Json)] under a limit of 4 bytes,
    on a body of 5. *)
Lemma json_handler_outcome_witness :
  default_body_limit_layer (H := ListHttp) 4
    (fun req w => handler_call (M := ViaRequest) (Ts := @cons Type Method [])
       (EL := json_extractor (fun _ => None) Ok)
       (IR := fun b => rb_text b rb_new) (PCons method_extractor PNil)
       (fun (_ : Method) (v : string) (w : nat) => (v, S w)) req tt w)
    (mkRequest POST (mkUri None None "/" None) [(CONTENT_TYPE, "Application/JSON; charset=utf-8")]
       no_ext (body_from_bytes "12345")) 7
  = (text_rejection 413 "Request payload exceeds the maximum allowed size", 7).
Proof.
  pose proof (json_handler_outcome (H := ListHttp) (S := unit) (W := nat) (T := string)
    (IR := fun b => rb_text b rb_new) (Ts := @cons Type Method [])
    (fun _ => None) Ok (PCons method_extractor PNil)
    (fun (_ : Method) (v : string) (w : nat) => (v, S w)) 4
    (mkRequest POST (mkUri None None "/" None) [(CONTENT_TYPE, "Application/JSON; charset=utf-8")]
       no_ext (body_from_bytes "12345")) tt 7
    (POST, tt) (mkRequestParts POST (mkUri None None "/" None)
       [(CONTENT_TYPE, "Application/JSON; charset=utf-8")] (ext_with_body_limit 4 no_ext)) 7) as W.
  apply W; clear W.
  - unfold in_u64, u64_max. lia.
  - vm_compute. done.
  - intros f Hf. cbn in Hf. apply list_elem_of_singleton in Hf as ->. eauto.
  - reflexivity.
  - eapply extracted_cons; [reflexivity|constructor].
  - reflexivity.
  - reflexivity.
Defined.
