(* ===== verification/Validation.v ===== *)
(** * Validated extractors

    [arvik-extract/src/validation.rs]: the extractors that run the [validator]
    derive on the parsed value, and the problem document that lists every
    failed field with its path and without the rejected value.

    The [validator] crate is outside the repository: [ValidationErrors] has its
    shape (a map from fields to errors, with nested structures and lists), the
    map as the list of its entries in iteration order, and [validate] is a
    parameter. *)
From S2P Require Import Prelude RustStr HttpCrate Body Http Responses Extract Extractors.
From stdpp Require Import base list strings sets.
From Stdlib Require Import ZArith Lia Ascii String.
Open Scope string_scope.
Open Scope list_scope.

Section Validation.
(** The values of error parameters. *)
Context {V : Type}.

Record ValidationError := mkVError {
  ve_code : string;
  ve_message : option string;
  ve_params : list (string * V) }.

Inductive ValidationErrors :=
| VErrors (fields : list (string * ValidationErrorsKind))
with ValidationErrorsKind :=
| KField (errors : list ValidationError)
| KStruct (errors : ValidationErrors)
| KList (items : list (Z * ValidationErrors)).

Record ValidationFieldError := mkFieldError {
  fe_field : string;
  fe_code : string;
  fe_message : option string;
  fe_params : list (string * V) }.

Record ValidationProblem := mkProblem {
  vp_error : string;
  vp_message : string;
  vp_fields : list ValidationFieldError }.

Definition join_path (prefix field : string) : string :=
  if str_is_empty prefix then field else prefix +:+ "." +:+ field.

Definition indexed_path (field_path : string) (index : Z) : string :=
  field_path +:+ "[" +:+ to_dec index +:+ "]".

(** One error of a field: the parameters but the rejected value. *)
Definition field_error (field_path : string) (e : ValidationError) : ValidationFieldError :=
  mkFieldError field_path (ve_code e) (ve_message e)
    (List.filter (fun kv => negb (fst kv =? "value")%string) (ve_params e)).

Fixpoint collect_validation_errors (prefix : string) (errors : ValidationErrors) : list ValidationFieldError :=
  match errors with
  | VErrors fields =>
      (fix go (l : list (string * ValidationErrorsKind)) : list ValidationFieldError :=
         match l with
         | [] => []
         | (field, kind) :: l =>
             let field_path := join_path prefix field in
             match kind with
             | KField es => map (field_error field_path) es
             | KStruct es => collect_validation_errors field_path es
             | KList items =>
                 (fix go_items (l : list (Z * ValidationErrors)) : list ValidationFieldError :=
                    match l with
                    | [] => []
                    | (index, es) :: l =>
                        collect_validation_errors (indexed_path field_path index) es ++ go_items l
                    end) items
             end ++ go l
         end) fields
  end.

Definition problem_from (errors : ValidationErrors) : ValidationProblem :=
  mkProblem "validation_failed" "Request validation failed" (collect_validation_errors "" errors).

(** ** The extractors *)

Section Extractors.
Context `{HttpCrate} {S W T : Type}.
Context (validate : T -> option ValidationErrors).
(** [serde_json::to_writer] of a problem. *)
Context (to_writer : ValidationProblem -> result string string).

Inductive ValidationRejection :=
| VJson (e : JsonRejection)
| VForm (e : FormRejection)
| VQuery (e : QueryRejection)
| VInvalid (problem : ValidationProblem).

#[export] Instance validation_rejection_response : IntoResponse ValidationRejection := fun e =>
  match e with
  | VJson e => response_of e
  | VForm e => response_of e
  | VQuery e => response_of e
  | VInvalid problem =>
      rb_json to_writer problem (rb_header_str CONTENT_TYPE "application/json" (rb_status 422 rb_new))
  end.

Definition validate_value (value : T) : result T ValidationRejection :=
  match validate value with
  | None => Ok value
  | Some errors => Err (VInvalid (problem_from errors))
  end.

(** [ValidatedJson], [ValidatedForm] and [ValidatedQuery]. *)
Definition validated_json (mime_parse : string -> option Mime) (from_slice : string -> result T string)
    (req : Request) : result T ValidationRejection :=
  result_bind validate_value (map_err VJson (json_from_request mime_parse from_slice req)).
Definition validated_form (mime_parse : string -> option Mime) (from_slice : string -> result T string)
    (req : Request) : result T ValidationRejection :=
  result_bind validate_value (map_err VForm (form_from_request mime_parse from_slice req)).
Definition validated_query (from_str : string -> result T string) (p : RequestParts)
  : result T ValidationRejection :=
  result_bind validate_value (map_err VQuery (query_of from_str p)).
End Extractors.

(** ** The leaves of a tree of errors *)

(** [leaf errors prefix path e]: the error [e] sits at [path] below [prefix]. *)
Inductive leaf : ValidationErrors -> string -> string -> ValidationError -> Prop :=
| leaf_field fields prefix field es e :
    In (field, KField es) fields -> In e es ->
    leaf (VErrors fields) prefix (join_path prefix field) e
| leaf_struct fields prefix field es path e :
    In (field, KStruct es) fields -> leaf es (join_path prefix field) path e ->
    leaf (VErrors fields) prefix path e
| leaf_list fields prefix field items index es path e :
    In (field, KList items) fields -> In (index, es) items ->
    leaf es (indexed_path (join_path prefix field) index) path e ->
    leaf (VErrors fields) prefix path e.

(** The errors one entry contributes. *)
Definition collect_kind (field_path : string) (kind : ValidationErrorsKind) : list ValidationFieldError :=
  match kind with
  | KField es => map (field_error field_path) es
  | KStruct es => collect_validation_errors field_path es
  | KList items =>
      List.concat (map (fun ie => collect_validation_errors (indexed_path field_path (fst ie)) (snd ie)) items)
  end.

Lemma collect_eq prefix fields :
  collect_validation_errors prefix (VErrors fields)
    = List.concat (map (fun fk => collect_kind (join_path prefix (fst fk)) (snd fk)) fields).
Proof.
  induction fields as [|[field kind] fields IH]; [done|].
  cbn [map List.concat]. rewrite <- IH. cbn. f_equal.
  destruct kind as [es|es|items]; [done..|]. unfold collect_kind.
  induction items as [|[i es] items IHi]; [done|]. cbn. by rewrite IHi.
Qed.

Lemma leaf_collected errors prefix path e :
  leaf errors prefix path e -> In (field_error path e) (collect_validation_errors prefix errors).
Proof.
  induction 1 as [fields prefix field es e Hf He|fields prefix field es path e Hf _ IH
                 |fields prefix field items index es path e Hf Hi _ IH];
    rewrite collect_eq; apply in_concat.
  - eexists. split; [apply in_map_iff; eexists; split; [|exact Hf]; reflexivity|].
    cbn. by apply in_map.
  - eexists. split; [apply in_map_iff; eexists; split; [|exact Hf]; reflexivity|]. exact IH.
  - eexists. split; [apply in_map_iff; eexists; split; [|exact Hf]; reflexivity|].
    cbn. apply in_concat. eexists. split; [apply in_map_iff; eexists; split; [|exact Hi]; reflexivity|].
    exact IH.
Qed.

(** The depth of a tree, the measure of the converse. *)
Fixpoint depth (errors : ValidationErrors) : nat :=
  match errors with
  | VErrors fields =>
      (fix go (l : list (string * ValidationErrorsKind)) : nat :=
         match l with
         | [] => 1
         | (_, kind) :: l =>
             match kind with
             | KField _ => 0
             | KStruct es => S (depth es)
             | KList items =>
                 (fix go_items (l : list (Z * ValidationErrors)) : nat :=
                    match l with [] => 0 | (_, es) :: l => S (depth es) + go_items l end) items
             end + go l
         end) fields
  end.

Lemma depth_struct fields field es :
  In (field, KStruct es) fields -> (depth es < depth (VErrors fields))%nat.
Proof.
  induction fields as [|[f k] fields IH]; [done|]. intros [[= -> ->]|Hin].
  - cbn. lia.
  - specialize (IH Hin). revert IH. cbn. lia.
Qed.

Lemma depth_list fields field items index es :
  In (field, KList items) fields -> In (index, es) items -> (depth es < depth (VErrors fields))%nat.
Proof.
  intros Hf Hi. induction fields as [|[f k] fields IH]; [done|]. destruct Hf as [[= -> ->]|Hin].
  - clear IH. cbn. induction items as [|[i e] items IHi]; [done|].
    destruct Hi as [[= -> ->]|Hi]; [lia|]. specialize (IHi Hi). lia.
  - specialize (IH Hin). revert IH. cbn. lia.
Qed.

Lemma collected_leaf errors prefix f :
  In f (collect_validation_errors prefix errors) ->
  exists path e, leaf errors prefix path e /\ f = field_error path e.
Proof.
  remember (depth errors) as n eqn:Hn. revert errors prefix Hn.
  induction (lt_wf n) as [n _ IH]; intros [fields] prefix Hn Hin; subst n.
  rewrite collect_eq in Hin. apply in_concat in Hin as (l & Hl & Hf).
  apply in_map_iff in Hl as ([field kind] & <- & Hfield). cbn in Hf.
  destruct kind as [es|es|items]; cbn in Hf.
  - apply in_map_iff in Hf as (e & <- & He). eauto using leaf.
  - destruct (IH _ (depth_struct _ _ _ Hfield) es _ eq_refl Hf) as (path & e & Hleaf & ->).
    eauto using leaf.
  - apply in_concat in Hf as (l & Hl & Hf). apply in_map_iff in Hl as ([index es] & <- & Hi).
    destruct (IH _ (depth_list _ _ _ _ _ Hfield Hi) es _ eq_refl Hf) as (path & e & Hleaf & ->).
    eauto using leaf.
Qed.
End Validation.

Arguments ValidationErrors V : clear implicits.
Arguments ValidationError V : clear implicits.
Arguments ValidationProblem V : clear implicits.

(** ** Properties *)

(** A problem document is complete and sanitized: its entries are exactly
    the errors in the tree the validator returned, however nested, each under
    its dotted and indexed path with its code and message; and no entry carries
    the rejected value. *)
Theorem validation_problem_complete {V} (errors : ValidationErrors V) f :
  (In f (vp_fields (problem_from errors)) <->
   exists path e, leaf errors "" path e /\ f = field_error path e) /\
  forall v, ~ (In f (vp_fields (problem_from errors)) /\ In ("value", v) (fe_params f)).
Proof.
  split; [split|].
  - apply collected_leaf.
  - intros (path & e & Hl & ->). by apply leaf_collected.
  - intros v [Hin Hv]. apply collected_leaf in Hin as (path & e & _ & ->).
    cbn in Hv. apply filter_In in Hv as [_ Hv]. done.
Qed.

(** The 422 response of a failed validation carries the content type twice:
    once from the builder chain and once from [json]. *)
Theorem validation_content_type_twice `{HL : HttpLaws} {V}
    (to_writer : ValidationProblem V -> result string string) problem text :
  to_writer problem = Ok text ->
  let r := validation_rejection_response to_writer (VInvalid problem) in
  res_status r = 422%Z /\
  hm_get_all (res_headers r) CONTENT_TYPE = ["application/json"; "application/json"].
Proof.
  intros Hw. cbn zeta. unfold validation_rejection_response, rb_json, rb_header_str.
  rewrite Hw, hv_from_str_visible by done. split; [done|]. cbn. by headers.
Qed.
