(* ===== verification/Cookies.v ===== *)
(** * Cookie jars

    [arvik-extract/src/cookies.rs]: the cookie jar of a request, parsed from
    its [Cookie] headers once and cached in its extensions, and the
    [Set-Cookie] headers of a jar's changes.

    The [cookie] crate is outside the repository: its jar, its cookies, the
    parser and the signed and private views are the class [CookieCrate].  The
    cache is the slot of the request extensions only this file knows. *)
From S2P Require Import Prelude RustStr HttpCrate Body Http Responses.
From stdpp Require Import base list strings sets.
From Stdlib Require Import ZArith Lia Ascii String.
Open Scope string_scope.
Open Scope list_scope.

Class CookieCrate : Type := {
  Cookie : Type;
  InnerJar : Type;
  CookieKey : Type;
  jar_new : InnerJar;
  jar_get : InnerJar -> string -> option Cookie;
  jar_add_original : InnerJar -> Cookie -> InnerJar;
  jar_add : InnerJar -> Cookie -> InnerJar;
  jar_remove : InnerJar -> Cookie -> InnerJar;
  jar_delta : InnerJar -> list Cookie;
  jar_iter : InnerJar -> list Cookie;
  (** [signed(key).get], [signed_mut(key).add] and their private versions. *)
  signed_get : CookieKey -> InnerJar -> string -> option Cookie;
  signed_add : CookieKey -> InnerJar -> Cookie -> InnerJar;
  private_get : CookieKey -> InnerJar -> string -> option Cookie;
  private_add : CookieKey -> InnerJar -> Cookie -> InnerJar;
  cookie_parse_encoded : string -> option Cookie;
  cookie_to_string : Cookie -> string }.

Section Cookies.
Context `{HttpCrate} `{CookieCrate}.

(** The part of [RequestParts] this file touches. *)
Record CookieParts := mkCookieParts {
  cp_headers : HeaderMap;
  cp_cached : option InnerJar }.

(** One [name=value] of a header. *)
Definition add_pair (jar : InnerJar) (pair : string) : InnerJar :=
  let pair := trim pair in
  if str_is_empty pair then jar
  else match cookie_parse_encoded pair with Some c => jar_add_original jar c | None => jar end.

Definition parse_cookie_header (h : HeaderMap) : InnerJar :=
  fold_left (fun jar v =>
    match hv_to_str v with
    | Some s => fold_left add_pair (str_split ";" s) jar
    | None => jar
    end) (hm_get_all h COOKIE) jar_new.

Definition request_cookie_jar (p : CookieParts) : InnerJar * CookieParts :=
  match cp_cached p with
  | Some jar => (jar, p)
  | None =>
      let jar := parse_cookie_header (cp_headers p) in
      (jar, mkCookieParts (cp_headers p) (Some jar))
  end.

Definition set_cookie_value (c : Cookie) : option string := hv_from_str (cookie_to_string c).

Definition apply_jar_delta (jar : InnerJar) (p : ResponseParts) : ResponseParts :=
  fold_left (fun p c =>
    match set_cookie_value c with
    | Some v => mkParts (hm_append (parts_headers p) SET_COOKIE v)
    | None => p
    end) (jar_delta jar) p.

(** ** The three jars *)

Record CookieJar := mkJar { cj_inner : InnerJar }.
Definition cookie_jar_new : CookieJar := mkJar jar_new.
Definition cookie_jar_get (j : CookieJar) (name : string) : option Cookie := jar_get (cj_inner j) name.
Definition cookie_jar_add (j : CookieJar) (c : Cookie) : CookieJar := mkJar (jar_add (cj_inner j) c).
Definition cookie_jar_remove (j : CookieJar) (c : Cookie) : CookieJar := mkJar (jar_remove (cj_inner j) c).
Definition cookie_jar_iter (j : CookieJar) : list Cookie := jar_iter (cj_inner j).
Definition cookie_jar_extract (p : CookieParts) : CookieJar * CookieParts :=
  let (jar, p) := request_cookie_jar p in (mkJar jar, p).

Record SignedCookieJar := mkSigned { sj_inner : InnerJar; sj_key : CookieKey }.
Definition signed_jar_get (j : SignedCookieJar) (name : string) : option Cookie :=
  signed_get (sj_key j) (sj_inner j) name.
Definition signed_jar_add (j : SignedCookieJar) (c : Cookie) : SignedCookieJar :=
  mkSigned (signed_add (sj_key j) (sj_inner j) c) (sj_key j).
Definition signed_jar_remove (j : SignedCookieJar) (c : Cookie) : SignedCookieJar :=
  mkSigned (jar_remove (sj_inner j) c) (sj_key j).
(** [key] is [Key::from_ref(state)]. *)
Definition signed_jar_extract (key : CookieKey) (p : CookieParts) : SignedCookieJar * CookieParts :=
  let (jar, p) := request_cookie_jar p in (mkSigned jar key, p).

Record PrivateCookieJar := mkPrivate { pj_inner : InnerJar; pj_key : CookieKey }.
Definition private_jar_get (j : PrivateCookieJar) (name : string) : option Cookie :=
  private_get (pj_key j) (pj_inner j) name.
Definition private_jar_add (j : PrivateCookieJar) (c : Cookie) : PrivateCookieJar :=
  mkPrivate (private_add (pj_key j) (pj_inner j) c) (pj_key j).
Definition private_jar_remove (j : PrivateCookieJar) (c : Cookie) : PrivateCookieJar :=
  mkPrivate (jar_remove (pj_inner j) c) (pj_key j).
Definition private_jar_extract (key : CookieKey) (p : CookieParts) : PrivateCookieJar * CookieParts :=
  let (jar, p) := request_cookie_jar p in (mkPrivate jar key, p).

(** [IntoResponseParts] of the three: the delta, whatever the key. *)
#[export] Instance cookie_jar_parts : IntoResponseParts CookieJar := {
  PartsError := Empty_set;
  parts_error_response := infallible_into_response;
  into_response_parts j p := Ok (apply_jar_delta (cj_inner j) p) }.
#[export] Instance signed_jar_parts : IntoResponseParts SignedCookieJar := {
  PartsError := Empty_set;
  parts_error_response := infallible_into_response;
  into_response_parts j p := Ok (apply_jar_delta (sj_inner j) p) }.
#[export] Instance private_jar_parts : IntoResponseParts PrivateCookieJar := {
  PartsError := Empty_set;
  parts_error_response := infallible_into_response;
  into_response_parts j p := Ok (apply_jar_delta (pj_inner j) p) }.

(** ** The cache *)

(** The cache is empty or holds the parse of the request's headers. *)
Definition cache_ok (p : CookieParts) : Prop :=
  match cp_cached p with None => True | Some jar => jar = parse_cookie_header (cp_headers p) end.

Lemma request_cookie_jar_ok p : cache_ok p ->
  fst (request_cookie_jar p) = parse_cookie_header (cp_headers p) /\
  cp_headers (snd (request_cookie_jar p)) = cp_headers p /\
  cache_ok (snd (request_cookie_jar p)).
Proof.
  unfold request_cookie_jar, cache_ok. destruct p as [h [jar|]]; cbn; [|done]. by intros ->.
Qed.

(** The jars [n] extractors get, one after the other. *)
Fixpoint extract_jars (n : nat) (p : CookieParts) : list InnerJar * CookieParts :=
  match n with
  | O => ([], p)
  | S n => let (jar, p) := request_cookie_jar p in
           let (jars, p) := extract_jars n p in (jar :: jars, p)
  end.

(** The cookies a request's headers carry, in order: a header that is no text,
    an empty pair and a pair the crate refuses are left out. *)
Definition cookies_of (h : HeaderMap) : list Cookie :=
  omap (fun pair => if str_is_empty pair then None else cookie_parse_encoded pair)
    (map trim (List.concat (map (str_split ";") (omap hv_to_str (hm_get_all h COOKIE))))).

Lemma add_pairs jar pairs :
  fold_left add_pair pairs jar
    = fold_left jar_add_original
        (omap (fun pair => if str_is_empty pair then None else cookie_parse_encoded pair) (map trim pairs)) jar.
Proof.
  revert jar; induction pairs as [|q pairs IH]; intros jar; [done|].
  cbn [fold_left map]. rewrite IH. unfold add_pair. cbn.
  destruct (str_is_empty (trim q)); [done|]. by destruct (cookie_parse_encoded (trim q)).
Qed.

Lemma parse_cookie_header_eq h :
  parse_cookie_header h = fold_left jar_add_original (cookies_of h) jar_new.
Proof.
  unfold parse_cookie_header, cookies_of. generalize jar_new as jar.
  induction (hm_get_all h COOKIE) as [|v vs IH]; intros jar; [done|].
  cbn [fold_left]. rewrite IH. cbn. destruct (hv_to_str v) as [s|]; [|done].
  cbn [map List.concat]. rewrite map_app, omap_app, fold_left_app. by rewrite add_pairs.
Qed.

Lemma extract_jars_ok n p : cache_ok p ->
  let jar := fold_left jar_add_original (cookies_of (cp_headers p)) jar_new in
  fst (extract_jars n p) = replicate n jar /\
  cp_headers (snd (extract_jars n p)) = cp_headers p /\ cache_ok (snd (extract_jars n p)).
Proof.
  cbn zeta. revert p; induction n as [|n IH]; intros p Hp; [done|]. cbn [extract_jars].
  destruct (request_cookie_jar_ok p Hp) as (Hj & Hh & Hc).
  destruct (request_cookie_jar p) as [jar p1] eqn:E1. cbn in Hj, Hh, Hc.
  destruct (IH p1 Hc) as (Hjs & Hhs & Hcs).
  destruct (extract_jars n p1) as [jars p2]. cbn in *.
  rewrite Hj, Hjs, parse_cookie_header_eq, Hh. split_and!; [done| |done]. by rewrite Hhs.
Qed.
End Cookies.

Lemma apply_jar_delta_all `{HL : HttpLaws} `{CookieCrate} jar p :
  hm_get_all (parts_headers (apply_jar_delta jar p)) SET_COOKIE
    = hm_get_all (parts_headers p) SET_COOKIE ++ omap set_cookie_value (jar_delta jar).
Proof.
  unfold apply_jar_delta. revert p; induction (jar_delta jar) as [|c l IH]; intros p; cbn;
    [by rewrite app_nil_r|].
  rewrite IH. destruct (set_cookie_value c) as [v|]; [|done]. cbn.
  by rewrite hm_all_append_eq, <- app_assoc.
Qed.

(** ** A concrete crate

    A jar is the cookies it was given and the changes since; a cookie is its
    text. *)
Module ListCookies.
#[export] Instance crate : CookieCrate := {
  Cookie := string;
  InnerJar := list string * list string;
  CookieKey := unit;
  jar_new := ([], []);
  jar_get j n := List.find (starts_with (n +:+ "=")) (fst j);
  jar_add_original j c := (fst j ++ [c], snd j);
  jar_add j c := (fst j ++ [c], snd j ++ [c]);
  jar_remove j c := (fst j, snd j ++ [c]);
  jar_delta := snd;
  jar_iter := fst;
  signed_get _ _ _ := None;
  signed_add _ j _ := j;
  private_get _ _ _ := None;
  private_add _ j _ := j;
  cookie_parse_encoded s := if contains_char "=" s then Some s else None;
  cookie_to_string c := c }.
End ListCookies.

(** ** Properties *)

(** Parsing once is transparent: from a request whose cache is empty or
    right, any number of cookie extractors in a row each get the jar holding
    exactly the cookies of the [Cookie] headers in order, as if each had parsed
    them; the headers are untouched and the cache stays right. *)
Theorem cookie_cache_transparent `{HttpCrate} `{CookieCrate} n (p : CookieParts) :
  cache_ok p ->
  fst (extract_jars n p) = replicate n (fold_left jar_add_original (cookies_of (cp_headers p)) jar_new) /\
  cp_headers (snd (extract_jars n p)) = cp_headers p /\ cache_ok (snd (extract_jars n p)).
Proof. intros Hp. by apply extract_jars_ok. Qed.

Lemma cookie_cache_transparent_witness :
  let p := mkCookieParts (H := ListHttp) (H0 := ListCookies.crate)
             [(COOKIE, "a=1; b=2;; junk"); (COOKIE, " c=3 ")] None in
  cache_ok p /\ fst (extract_jars 2 p) = [(["a=1"; "b=2"; "c=3"], []); (["a=1"; "b=2"; "c=3"], [])].
Proof.
  intros p. split; [done|].
  rewrite (proj1 (cookie_cache_transparent 2 p I)). vm_compute. reflexivity.
Defined.

(** Of the cookies a handler changed, a jar returned with a response delivers
    one: the first of its delta that is a header value. *)
Theorem jar_response_first_cookie `{HL : HttpLaws} {HI : HeaderIter} {HIL : HeaderIterLaws HI}
    `{CookieCrate} {R} {IR : IntoResponse R} (j : CookieJar) (body : R) :
  hm_get_all (res_headers (with_parts j body)) SET_COOKIE
    = hm_get_all (res_headers (response_of body)) SET_COOKIE
        ++ take 1 (omap set_cookie_value (jar_delta (cj_inner j))).
Proof.
  unfold with_parts, apply_parts. cbn [into_response_parts cookie_jar_parts].
  unfold apply_to. cbn [res_headers set_res_headers]. rewrite append_into_iter, apply_jar_delta_all.
  cbn [parts_headers parts_new]. by rewrite hm_all_empty.
Qed.
