(* ===== verification/Multipart.v ===== *)
(** * Multipart forms

    [arvik-extract/src/multipart.rs]: the validation of a multipart request and
    its boundary, the limits and their configuration, the field iterator with
    its count limit, the progress stream and the temporary file writer, and the
    error responses.

    The [multer] parser is outside the repository: its state, its [next_field]
    and its errors are the class [Multer].  A field's chunks are the list of
    what its [chunk] calls give; temporary files are the operations of
    [TempFs]. *)
From S2P Require Import Prelude RustStr HttpCrate Body Http Responses Extract Extractors.
From stdpp Require Import base list strings sets.
From Stdlib Require Import ZArith Lia Ascii String.
Open Scope string_scope.
Open Scope list_scope.

(** ** Configuration *)

Record MultipartConstraints := mkConstraints {
  mc_max_fields : Z;
  mc_max_field_size : Z;
  mc_max_total_size : Z }.
#[export] Instance rebuild_constraints : Rebuild MultipartConstraints :=
  fun r => mkConstraints (mc_max_fields r) (mc_max_field_size r) (mc_max_total_size r).

Definition constraints_default : MultipartConstraints :=
  mkConstraints 100 (5 * 1024 * 1024) (50 * 1024 * 1024).
Definition constraints_max_fields (m : Z) (c : MultipartConstraints) : MultipartConstraints :=
  (c <| mc_max_fields := m |>)%rust.
Definition constraints_max_field_size (m : Z) (c : MultipartConstraints) : MultipartConstraints :=
  (c <| mc_max_field_size := m |>)%rust.
Definition constraints_max_total_size (m : Z) (c : MultipartConstraints) : MultipartConstraints :=
  (c <| mc_max_total_size := m |>)%rust.

Record MultipartConfig := mkConfig {
  mp_constraints : MultipartConstraints;
  mp_temp_dir : option string }.
#[export] Instance rebuild_config : Rebuild MultipartConfig :=
  fun r => mkConfig (mp_constraints r) (mp_temp_dir r).

Definition config_default : MultipartConfig := mkConfig constraints_default None.
Definition with_constraints (c : MultipartConstraints) (r : MultipartConfig) : MultipartConfig :=
  (r <| mp_constraints := c |>)%rust.
Definition config_max_fields (m : Z) (r : MultipartConfig) : MultipartConfig :=
  with_constraints (constraints_max_fields m (mp_constraints r)) r.
Definition config_max_field_size (m : Z) (r : MultipartConfig) : MultipartConfig :=
  with_constraints (constraints_max_field_size m (mp_constraints r)) r.
Definition config_max_total_size (m : Z) (r : MultipartConfig) : MultipartConfig :=
  with_constraints (constraints_max_total_size m (mp_constraints r)) r.
Definition with_temp_dir (dir : string) (r : MultipartConfig) : MultipartConfig :=
  (r <| mp_temp_dir := Some dir |>)%rust.

(** [multer::Constraints], as [build_multer_constraints] makes them. *)
Record SizeLimit := mkSizeLimit { whole_stream : Z; per_field : Z }.
Definition build_multer_constraints (c : MultipartConstraints) : SizeLimit :=
  mkSizeLimit (mc_max_total_size c) (mc_max_field_size c).

(** The configuration of a request: the extension, else the constraints
    extension, else the default. *)
Definition request_config (config : option MultipartConfig) (constraints : option MultipartConstraints)
  : MultipartConfig :=
  match config with
  | Some c => c
  | None => match constraints with
            | Some c => with_constraints c config_default
            | None => config_default
            end
  end.

(** ** Rejections *)

Inductive MultipartRejection :=
| MpInvalidContentType
| MissingBoundary
| MpError (msg : string)
| MpPayloadTooLarge.
Definition multipart_rejection_text (e : MultipartRejection) : string :=
  match e with
  | MpInvalidContentType => "Expected Content-Type: multipart/form-data"
  | MissingBoundary => "Missing multipart boundary in Content-Type"
  | MpError msg => "Multipart error: " +:+ msg
  | MpPayloadTooLarge => "Request payload exceeds the maximum allowed size"
  end.
Definition multipart_rejection_status (e : MultipartRejection) : Z :=
  match e with MpInvalidContentType => 415 | MpPayloadTooLarge => 413 | _ => 400 end.
#[export] Instance multipart_rejection_response `{HttpCrate} : IntoResponse MultipartRejection :=
  fun e => text_rejection (multipart_rejection_status e) (multipart_rejection_text e).

(** ** The boundary *)

(** [strip_prefix('"').and_then(|v| v.strip_suffix('"')).unwrap_or(value)]. *)
Definition unquote (value : string) : string :=
  match str_strip_prefix dquote value with
  | Some v => match str_strip_prefix dquote (str_rev v) with
              | Some r => str_rev r | None => value end
  | None => value
  end.

(** One parameter: its value when it is named [boundary]. *)
Definition boundary_param (param : string) : option string :=
  match split_once "=" param with
  | None => None
  | Some (name, value) =>
      if eq_ignore_ascii_case (trim name) "boundary" then Some (unquote (trim value)) else None
  end.

(** The loop: the first value that is not empty. *)
Fixpoint boundary_loop (params : list string) (boundary : option string) : option string :=
  match params with
  | [] => boundary
  | param :: params =>
      boundary_loop params
        match boundary_param param with
        | None => boundary
        | Some value => match boundary with
                        | None => if str_is_empty value then None else Some value
                        | Some b => Some b
                        end
        end
  end.

Definition extract_boundary (content_type : string) : result string MultipartRejection :=
  match str_split ";" content_type with
  | [] => Err MpInvalidContentType
  | first :: params =>
      if eq_ignore_ascii_case (trim first) "multipart/form-data" then
        match boundary_loop params None with Some b => Ok b | None => Err MissingBoundary end
      else Err MpInvalidContentType
  end.

Definition validate_multipart_request `{HttpCrate} (req : Request) (config : MultipartConfig)
  : result string MultipartRejection :=
  if match hm_get_str (req_headers req) CONTENT_LENGTH ≫= parse_u64 with
     | Some n => (mc_max_total_size (mp_constraints config) <? n)%Z
     | None => false
     end
  then Err MpPayloadTooLarge
  else match hm_get_str (req_headers req) CONTENT_TYPE with
       | None => Err MpInvalidContentType
       | Some ct => extract_boundary ct
       end.

(** ** Fields *)

Class Multer : Type := {
  MulterError : Type;
  multer_size_exceeded : MulterError -> bool;   (* FieldSizeExceeded, StreamSizeExceeded *)
  multer_error_text : MulterError -> string;
  MulterField : Type;
  field_name : MulterField -> option string;
  field_file_name : MulterField -> option string;
  field_content_type : MulterField -> option string;
  (** What [chunk] gives, call after call, until [None]. *)
  field_chunks : MulterField -> list (result string MulterError);
  field_bytes : MulterField -> result string MulterError;
  field_text : MulterField -> result string MulterError;
  MulterState : Type;
  multer_new : list (result string string) -> string -> SizeLimit -> MulterState;
  multer_next : MulterState -> result (option MulterField) MulterError * MulterState }.

Section Fields.
Context `{HttpCrate} `{Multer}.

Inductive MultipartError :=
| Parser (e : MulterError)
| TooManyFields (limit : Z)
| Io (e : string).

Definition is_size_exceeded (e : MultipartError) : bool :=
  match e with Parser e => multer_size_exceeded e | _ => false end.
Definition is_too_many_fields (e : MultipartError) : bool :=
  match e with TooManyFields _ => true | _ => false end.
Definition is_limit_exceeded (e : MultipartError) : bool := is_size_exceeded e || is_too_many_fields e.
Definition is_io (e : MultipartError) : bool := match e with Io _ => true | _ => false end.

Definition multipart_status_code (e : MultipartError) : Z :=
  match e with
  | Parser e => if multer_size_exceeded e then 413 else 400
  | TooManyFields _ => 413
  | Io _ => 500
  end.
Definition multipart_error_text (e : MultipartError) : string :=
  match e with
  | Parser e => "Multipart error: " +:+ multer_error_text e
  | TooManyFields limit => "Multipart field count exceeded limit: " +:+ to_dec limit
  | Io e => "Multipart temporary file error: " +:+ e
  end.
#[export] Instance multipart_error_response : IntoResponse MultipartError :=
  fun e => text_rejection (multipart_status_code e) (multipart_error_text e).

Record FieldMetadata := mkMetadata {
  fm_name : option string; fm_file_name : option string; fm_content_type : option string }.
Definition metadata_from_field (f : MulterField) : FieldMetadata :=
  mkMetadata (field_name f) (field_file_name f) (field_content_type f).

Record Field := mkField {
  f_inner : MulterField; f_metadata : FieldMetadata; f_temp_dir : option string }.
Definition field_new (f : MulterField) (temp_dir : option string) : Field :=
  mkField f (metadata_from_field f) temp_dir.

Record Multipart := mkMultipart {
  m_inner : MulterState; m_config : MultipartConfig; m_fields_read : Z }.

(** [BodyStream]: the data frames; other frames are skipped. *)
Definition body_stream (b : Body) : list (result string string) :=
  omap (fun f => match f with
                 | Ok (DataFrame d) => Some (Ok d)
                 | Ok (TrailersFrame _) => None
                 | Err e => Some (Err (box_error_text e))
                 end) (body_frames b).

Definition from_request_with_config (req : Request) (config : MultipartConfig)
  : result Multipart MultipartRejection :=
  match validate_multipart_request req config with
  | Err e => Err e
  | Ok boundary =>
      Ok (mkMultipart (multer_new (body_stream (req_body req)) boundary
                         (build_multer_constraints (mp_constraints config))) config 0)
  end.

(** [Multipart::from_request]; the two extensions are the configuration slots
    of the request. *)
Definition multipart_from_request (config : option MultipartConfig)
    (constraints : option MultipartConstraints) (req : Request) : result Multipart MultipartRejection :=
  from_request_with_config req (request_config config constraints).

Definition from_request_with_constraints (req : Request) (constraints : MultipartConstraints)
  : result Multipart MultipartRejection :=
  from_request_with_config req (with_constraints constraints config_default).

Definition next_field (m : Multipart) : result (option Field) MultipartError * Multipart :=
  match multer_next (m_inner m) with
  | (Ok (Some field), inner) =>
      let limit := mc_max_fields (mp_constraints (m_config m)) in
      if (limit <=? m_fields_read m)%Z
      then (Err (TooManyFields limit), mkMultipart inner (m_config m) (m_fields_read m))
      else (Ok (Some (field_new field (mp_temp_dir (m_config m)))),
            mkMultipart inner (m_config m) (m_fields_read m + 1))
  | (Ok None, inner) => (Ok None, mkMultipart inner (m_config m) (m_fields_read m))
  | (Err e, inner) => (Err (Parser e), mkMultipart inner (m_config m) (m_fields_read m))
  end.

(** [Field::bytes], [Field::text] and the chunks of [FieldStream]. *)
Definition bytes_of_field (f : Field) : result string MultipartError :=
  map_err Parser (field_bytes (f_inner f)).
Definition text_of_field (f : Field) : result string MultipartError :=
  map_err Parser (field_text (f_inner f)).
Definition field_stream (f : Field) : list (result string MultipartError) :=
  map (map_err Parser) (field_chunks (f_inner f)).

(** [ProgressStream]: the running total is a [u64]. *)
Fixpoint progress_stream (bytes_read : Z) (l : list (result string MultipartError))
  : list (result (string * Z) MultipartError) :=
  match l with
  | [] => []
  | Ok bytes :: l =>
      let bytes_read := wrap_u64 (bytes_read + str_len bytes) in
      Ok (bytes, bytes_read) :: progress_stream bytes_read l
  | Err e :: l => Err e :: progress_stream bytes_read l
  end.
(** [into_progress_stream]. *)
Definition into_progress_stream (f : Field) : list (result (string * Z) MultipartError) :=
  progress_stream 0 (field_stream f).

(** [Error::source]: what an error wraps. *)
Definition multipart_error_source (e : MultipartError) : option (MulterError + string) :=
  match e with Parser e => Some (inl e) | Io e => Some (inr e) | TooManyFields _ => None end.
End Fields.

(** ** Temporary files *)

Class TempFs : Type := {
  TmpFile : Type;
  temp_create : option string -> result TmpFile string;   (* tempfile::Builder in a directory *)
  temp_write : TmpFile -> string -> result TmpFile string; (* write_all *)
  temp_flush : TmpFile -> result TmpFile string }.

Section Save.
Context `{HttpCrate} `{Multer} `{TempFs}.

Record TempFile := mkTempFile {
  tf_file : TmpFile; tf_metadata : FieldMetadata; tf_bytes_written : Z }.

(** The loop of [save_to_temp_inner], with the reports to [on_progress]. *)
Fixpoint save_loop (chunks : list (result string MultipartError)) (file : TmpFile) (bytes_written : Z)
  : result (TmpFile * Z) MultipartError * list Z :=
  match chunks with
  | [] => (match temp_flush file with
           | Ok file => Ok (file, bytes_written) | Err e => Err (Io e) end, [])
  | Err e :: _ => (Err e, [])
  | Ok chunk :: chunks =>
      match temp_write file chunk with
      | Err e => (Err (Io e), [])
      | Ok file =>
          let bytes_written := wrap_u64 (bytes_written + str_len chunk) in
          let (r, reports) := save_loop chunks file bytes_written in
          (r, bytes_written :: reports)
      end
  end.

Definition save_to_temp_inner (f : Field) (dir : option string)
  : result TempFile MultipartError * list Z :=
  match temp_create dir with
  | Err e => (Err (Io e), [])
  | Ok file =>
      let (r, reports) := save_loop (field_stream f) file 0 in
      (match r with
       | Ok (file, n) => Ok (mkTempFile file (f_metadata f) n)
       | Err e => Err e
       end, reports)
  end.

(** [save_to_temp] and [save_to_temp_in]. *)
Definition save_to_temp (f : Field) : result TempFile MultipartError * list Z :=
  save_to_temp_inner f (f_temp_dir f).
Definition save_to_temp_in (f : Field) (dir : string) : result TempFile MultipartError * list Z :=
  save_to_temp_inner f (Some dir).
(** With reports; the others pass a callback that ignores them. *)
Definition save_to_temp_with_progress (f : Field) : result TempFile MultipartError * list Z :=
  save_to_temp_inner f (f_temp_dir f).
Definition save_to_temp_in_with_progress (f : Field) (dir : string)
  : result TempFile MultipartError * list Z := save_to_temp_inner f (Some dir).

(** [TempFile::persist], over [NamedTempFile::persist]. *)
Definition temp_persist {F} (persist : TmpFile -> string -> result F string) (t : TempFile) (path : string)
  : result F MultipartError := map_err Io (persist (tf_file t) path).
End Save.

(** ** Facts *)

Lemma str_rev_app_sapp s acc : str_rev_app s acc = str_rev s +:+ acc.
Proof.
  unfold str_rev. revert acc; induction s as [|a s IH]; intros acc; [done|].
  cbn. rewrite IH, (IH (String a "")), <- sapp_assoc. done.
Qed.

Lemma str_rev_snoc s a : str_rev (s +:+ String a "") = String a (str_rev s).
Proof.
  induction s as [|b s IH]; [done|].
  change (str_rev_app (s +:+ String a "") (String b "") = String a (str_rev_app s (String b ""))).
  by rewrite !str_rev_app_sapp, IH.
Qed.

Lemma unquote_quoted s : unquote (quoted s) = s.
Proof.
  unfold unquote, quoted. rewrite (proj2 (str_strip_prefix_spec _ _ _) eq_refl).
  unfold dquote. rewrite str_rev_snoc. cbn. apply str_rev_involutive.
Qed.

Lemma unquote_plain s : starts_with dquote s = false -> unquote s = s.
Proof. unfold unquote, starts_with. by destruct (str_strip_prefix dquote s). Qed.

Lemma boundary_loop_some params b : boundary_loop params (Some b) = Some b.
Proof. induction params as [|p params IH]; cbn; [done|]. by destruct (boundary_param p). Qed.

Lemma boundary_loop_skip params rest :
  (forall p, p ∈ params -> boundary_param p = None) ->
  boundary_loop (params ++ rest) None = boundary_loop rest None.
Proof.
  induction params as [|p params IH]; intros Hp; [done|]. cbn.
  rewrite (Hp p) by set_solver. apply IH. set_solver.
Qed.

Lemma boundary_param_value v :
  str_forall graphic v = true -> boundary_param (" boundary=" +:+ v) = Some (unquote v).
Proof.
  intros Hv. unfold boundary_param.
  change (split_once "=" (" boundary=" +:+ v)) with (Some (" boundary", v)).
  cbn iota beta. rewrite (proj1 (trim_graphic v Hv)). reflexivity.
Qed.

(** The header with a boundary value, after other parameters. *)
Definition multipart_type (params : list string) (value : string) : string :=
  str_join ";" ("multipart/form-data" :: params ++ [" boundary=" +:+ value]).

Lemma extract_boundary_value params v :
  str_forall graphic v = true -> contains_char ";" v = false -> unquote v <> "" ->
  (forall p, p ∈ params -> contains_char ";" p = false /\ boundary_param p = None) ->
  extract_boundary (multipart_type params v) = Ok (unquote v).
Proof.
  intros Hg Hs Hne Hp. unfold extract_boundary, multipart_type.
  rewrite (str_split_join ";" ("multipart/form-data" :: params ++ [" boundary=" +:+ v])); [|done|].
  - change (eq_ignore_ascii_case (trim "multipart/form-data") "multipart/form-data") with true.
    cbn iota. rewrite boundary_loop_skip by (intros p Hin; by apply Hp).
    cbn [boundary_loop]. rewrite boundary_param_value by done.
    by destruct (unquote v).
  - intros w Hw. apply elem_of_cons in Hw as [->|Hw]; [done|].
    apply elem_of_app in Hw as [Hw|Hw]; [by apply Hp|].
    apply list_elem_of_singleton in Hw as ->. rewrite contains_char_app, Hs. done.
Qed.

Section Iteration.
Context `{Multer}.

(** [n] calls of [next_field], and of multer's. *)
Fixpoint next_fields (n : nat) (m : Multipart) : list (result (option Field) MultipartError) * Multipart :=
  match n with
  | O => ([], m)
  | S n => let (r, m) := next_field m in let (rs, m) := next_fields n m in (r :: rs, m)
  end.
Fixpoint multer_nexts (n : nat) (s : MulterState) : list (result (option MulterField) MulterError) :=
  match n with
  | O => []
  | S n => let (r, s) := multer_next s in r :: multer_nexts n s
  end.

Definition is_field {F E} (r : result (option F) E) : bool :=
  match r with Ok (Some _) => true | _ => false end.
Definition count_fields {F E} (l : list (result (option F) E)) : Z :=
  Z.of_nat (List.length (List.filter is_field l)).

(** What a call passes on when the count allows it. *)
Definition passed (temp_dir : option string) (r : result (option MulterField) MulterError)
  : result (option Field) MultipartError :=
  match r with
  | Ok (Some f) => Ok (Some (field_new f temp_dir))
  | Ok None => Ok None
  | Err e => Err (Parser e)
  end.

Lemma count_fields_nonneg {F E} (l : list (result (option F) E)) : (0 <= count_fields l)%Z.
Proof. unfold count_fields. lia. Qed.
Lemma count_fields_cons {F E} (r : result (option F) E) l :
  count_fields (r :: l) = ((if is_field r then 1 else 0) + count_fields l)%Z.
Proof. unfold count_fields. cbn. destruct (is_field r); cbn [List.length]; lia. Qed.

Lemma next_fields_spec n m :
  let limit := mc_max_fields (mp_constraints (m_config m)) in
  let seen := multer_nexts n (m_inner m) in
  (m_fields_read m <= limit)%Z ->
  count_fields (fst (next_fields n m)) = Z.min (limit - m_fields_read m) (count_fields seen) /\
  ((count_fields seen <= limit - m_fields_read m)%Z ->
   fst (next_fields n m) = map (passed (mp_temp_dir (m_config m))) seen).
Proof.
  cbn zeta. revert m; induction n as [|n IH]; intros m Hm; [cbn; split; [|done]; unfold count_fields; cbn; lia|].
  cbn [next_fields multer_nexts]. unfold next_field.
  destruct (multer_next (m_inner m)) as [[[f|]|e] s].
  - pose proof (count_fields_nonneg (multer_nexts n s)) as Hn.
    destruct (_ <=? m_fields_read m)%Z eqn:E; bool_hyps.
    + destruct (IH (mkMultipart s (m_config m) (m_fields_read m)) Hm) as [Hc _].
      destruct (next_fields n _) as [rs m']. cbn in *.
      rewrite !count_fields_cons, Hc. cbn [is_field]. split; lia.
    + destruct (IH (mkMultipart s (m_config m) (m_fields_read m + 1)) ltac:(cbn; lia)) as [Hc Ht].
      destruct (next_fields n _) as [rs m']. cbn in *.
      rewrite !count_fields_cons, Hc. cbn [is_field]. split; [lia|].
      intros Hle. by rewrite Ht by lia.
  - destruct (IH (mkMultipart s (m_config m) (m_fields_read m)) Hm) as [Hc Ht].
    destruct (next_fields n _) as [rs m']. cbn in *. rewrite !count_fields_cons, Hc. cbn [is_field].
    split; [lia|]. intros Hle. by rewrite Ht by lia.
  - destruct (IH (mkMultipart s (m_config m) (m_fields_read m)) Hm) as [Hc Ht].
    destruct (next_fields n _) as [rs m']. cbn in *. rewrite !count_fields_cons, Hc. cbn [is_field].
    split; [lia|]. intros Hle. by rewrite Ht by lia.
Qed.
End Iteration.

(** ** Saving *)

(** What the code relies on: a new file is empty, a write that succeeds
    appends. *)
Class TempFsLaws `(F : TempFs) : Type := {
  temp_content : TmpFile -> string;
  temp_create_empty dir f : temp_create dir = Ok f -> temp_content f = "";
  temp_write_appends f s f' : temp_write f s = Ok f' -> temp_content f' = temp_content f +:+ s;
  temp_flush_keeps f f' : temp_flush f = Ok f' -> temp_content f' = temp_content f }.

Section Saving.
Context `{Multer} `{FL : TempFsLaws}.

(** The sums [n + len c1], [n + len c1 + len c2], ... *)
Fixpoint running_totals (n : Z) (l : list string) : list Z :=
  match l with [] => [] | c :: l => (n + str_len c)%Z :: running_totals (n + str_len c) l end.

Lemma save_loop_ok chunks file n file' n' reports :
  (0 <= n)%Z -> (n + str_len (concat_bytes (omap result_ok chunks)) <= u64_max)%Z ->
  save_loop chunks file n = (Ok (file', n'), reports) ->
  exists cs, chunks = map Ok cs /\
    temp_content file' = temp_content file +:+ concat_bytes cs /\
    n' = (n + str_len (concat_bytes cs))%Z /\ reports = running_totals n cs.
Proof.
  revert file n reports; induction chunks as [|[c|e] chunks IH]; intros file n reports Hn Hm Hs.
  - exists []. cbn in Hs. destruct (temp_flush file) as [f|] eqn:E; [|done].
    injection Hs as <- <- <-. apply temp_flush_keeps in E. cbn. rewrite sapp_nil_r.
    split_and!; [done|done|unfold str_len; cbn; lia|done].
  - change (concat_bytes (omap result_ok (Ok c :: chunks)))
      with (c +:+ concat_bytes (omap result_ok chunks)) in Hm.
    cbn in Hs. destruct (temp_write file c) as [f|] eqn:E; [|done].
    rewrite str_len_app in Hm.
    pose proof (str_len_nonneg c). pose proof (str_len_nonneg (concat_bytes (omap result_ok chunks))).
    rewrite wrap_u64_id in Hs by (unfold in_u64; lia).
    destruct (save_loop chunks f _) as [r rs] eqn:El. injection Hs as -> <-.
    destruct (IH f (n + str_len c)%Z rs ltac:(lia) ltac:(lia) El) as (cs & -> & Hc & -> & ->).
    exists (c :: cs). apply temp_write_appends in E.
    change (concat_bytes (c :: cs)) with (c +:+ concat_bytes cs).
    rewrite Hc, E, <- sapp_assoc, str_len_app. split_and!; [done|done|lia|done].
  - done.
Qed.
End Saving.

(** ** Concrete crates

    Multer as the list of what its calls give, a file as its content. *)
Module Demo.
#[export] Instance multer : Multer := {
  MulterError := bool;
  multer_size_exceeded b := b;
  multer_error_text _ := "stream error";
  MulterField := string * list string;
  field_name f := Some (fst f);
  field_file_name _ := None;
  field_content_type _ := None;
  field_chunks f := map Ok (snd f);
  field_bytes f := Ok (concat_bytes (snd f));
  field_text f := Ok (concat_bytes (snd f));
  MulterState := list (string * list string);
  multer_new _ _ _ := [];
  multer_next s := match s with [] => (Ok None, []) | f :: s => (Ok (Some f), s) end }.

#[export] Instance temp_fs : TempFs := {
  TmpFile := string;
  temp_create _ := Ok "";
  temp_write f s := Ok (f +:+ s);
  temp_flush f := Ok f }.
#[export] Instance temp_fs_laws : TempFsLaws temp_fs.
Proof. exists (fun f => f); simpl; intros; simplify_eq; done. Defined.

Definition fields : list (string * list string) := [("a", ["x"; "yz"]); ("b", []); ("c", ["w"])].
Definition multipart (limit : Z) : Multipart :=
  mkMultipart fields (config_max_fields limit config_default) 0.
End Demo.

(** ** Properties *)

(** The boundary is read back: a [multipart/form-data] header whose last
    parameter is a boundary of visible characters without semicolon or quote,
    bare or quoted, after any parameters that are not boundaries, gives exactly
    that boundary. *)
Theorem boundary_roundtrip params b :
  b <> "" -> str_forall graphic b = true -> contains_char ";" b = false -> starts_with dquote b = false ->
  (forall p, p ∈ params -> contains_char ";" p = false /\ boundary_param p = None) ->
  extract_boundary (multipart_type params b) = Ok b /\
  extract_boundary (multipart_type params (quoted b)) = Ok b.
Proof.
  intros Hne Hg Hs Hq Hp. split.
  - rewrite extract_boundary_value; rewrite ?unquote_plain; done.
  - rewrite extract_boundary_value; rewrite ?unquote_quoted; try done.
    + unfold quoted. rewrite !str_forall_app, Hg. done.
    + unfold quoted. rewrite !contains_char_app, Hs. done.
Qed.

Lemma boundary_roundtrip_witness :
  extract_boundary ("multipart/form-data;charset=utf-8; boundary=" +:+ quoted "Xy=1") = Ok "Xy=1".
Proof.
  refine (proj2 (boundary_roundtrip ["charset=utf-8"] "Xy=1" _ eq_refl eq_refl eq_refl _)); [done|].
  intros p Hp. apply list_elem_of_singleton in Hp as ->. split; reflexivity.
Defined.

(** The first boundary parameter does not win when it is empty. *)
Example empty_boundary_skipped :
  extract_boundary "multipart/form-data; boundary=; boundary=second" = Ok "second".
Proof. reflexivity. Qed.

(** The field count is enforced and otherwise transparent: over any number
    of calls of [next_field] on a fresh form, the fields handed out are as many
    as multer found, up to the limit, and while multer has found no more than
    the limit the results are multer's, one for one. *)
Theorem field_limit_enforced `{Multer} n inner config :
  let limit := mc_max_fields (mp_constraints config) in
  let m := mkMultipart inner config 0 in
  let seen := multer_nexts n inner in
  (0 <= limit)%Z ->
  count_fields (fst (next_fields n m)) = Z.min limit (count_fields seen) /\
  ((count_fields seen <= limit)%Z -> fst (next_fields n m) = map (passed (mp_temp_dir config)) seen).
Proof.
  cbn zeta. intros Hl.
  destruct (next_fields_spec n (mkMultipart inner config 0) Hl) as [Hc Ht]. cbn in Hc, Ht.
  rewrite Z.sub_0_r in Hc, Ht. done.
Qed.

Lemma field_limit_enforced_witness :
  count_fields (fst (next_fields 4 (Demo.multipart 2))) = 2%Z /\
  List.length (fst (next_fields 4 (Demo.multipart 3))) = 4.
Proof.
  split.
  - exact (proj1 (field_limit_enforced (H := Demo.multer) 4 Demo.fields (config_max_fields 2 config_default) ltac:(done))).
  - unfold Demo.multipart.
    rewrite (proj2 (field_limit_enforced (H := Demo.multer) 4 Demo.fields (config_max_fields 3 config_default) ltac:(done)));
      [reflexivity|done].
Defined.

(** A field saved to a temporary file is there in full: the file holds the
    field's chunks in order, the count is its length, and the progress reports
    are the running totals. *)
Theorem save_to_temp_complete `{Multer} `{FL : TempFsLaws} f dir t reports :
  (str_len (concat_bytes (omap result_ok (field_stream f))) <= u64_max)%Z ->
  save_to_temp_inner f dir = (Ok t, reports) ->
  exists cs, field_stream f = map Ok cs /\ temp_content (tf_file t) = concat_bytes cs /\
    tf_bytes_written t = str_len (concat_bytes cs) /\ reports = running_totals 0 cs /\
    tf_metadata t = f_metadata f.
Proof.
  intros Hm. unfold save_to_temp_inner. destruct (temp_create dir) as [file|] eqn:Ec; [|done].
  destruct (save_loop (field_stream f) file 0) as [[[file' n]|e] rs] eqn:El; [|done].
  intros [= <- <-].
  destruct (save_loop_ok _ _ _ _ _ _ (Z.le_refl 0) Hm El) as (cs & Hcs & Hc & -> & ->).
  exists cs. apply temp_create_empty in Ec. rewrite Ec in Hc. done.
Qed.
