(* ===== verification/Adapters.v ===== *)
(** * Middleware adapters

    [arvik-middleware/src/from_fn.rs], [middleware_fn.rs], [next.rs],
    [map_request.rs], [map_response.rs], [map_body.rs] and [catch_panic.rs]: a
    layer from a function with extractors, from a function on requests,
    responses or bodies, and the layer that turns a panic into a response. *)
From S2P Require Import Prelude RustStr HttpCrate Body Http Responses Extract Extractors BodyLimit.
From stdpp Require Import base list strings sets.
From Stdlib Require Import ZArith Lia Ascii String.
Open Scope string_scope.
Open Scope list_scope.

(** ** [from_fn] *)

Section FromFn.
Context `{HttpCrate} {S W : Type}.

(** [Next]: the rest of the chain. *)
Record Next := mkNext { next_inner : Service W }.
Definition next_run (n : Next) (req : Request) : W -> Response * W := oneshot (next_inner n) req.

Section Call.
Context {Res : Type} {IR : IntoResponse Res}.

(** The body of [impl_middleware_fn!]: the extractors in order, then the
    function on the request put together again. *)
Fixpoint call_middleware {Ts} (es : PartsList S W Ts) :
    handler_fn Ts Request (Next -> W -> Res * W) ->
    RequestParts -> Body -> S -> Next -> W -> Response * W :=
  match es with
  | PNil => fun self parts body state next w =>
      let req := request_of_parts parts body in
      let (res, w) := self req next w in (response_of res, w)
  | PCons E es => fun self parts body state next w =>
      match from_request_parts parts state w with
      | (Ok v, parts, w) => call_middleware es (self v) parts body state next w
      | (Err rejection, _, w) => (@response_of _ _ parts_rejection_response rejection, w)
      end
  end.

(** [MiddlewareFn::call]. *)
Definition middleware_call {Ts} (es : PartsList S W Ts)
    (self : handler_fn Ts Request (Next -> W -> Res * W)) (req : Request) (state : S) (next : Next)
  : W -> Response * W :=
  let (parts, body) := into_request_parts req in
  call_middleware es self parts body state next.

(** [from_fn_with_state], whose [FromFnService::call] boxes the inner service;
    [from_fn] is its instance at the unit state. *)
Definition from_fn_with_state {Ts} (state : S) (es : PartsList S W Ts)
    (f : handler_fn Ts Request (Next -> W -> Res * W)) : LayerFn W :=
  fun inner req w => middleware_call es f req state (mkNext inner) w.

(** Giving the last argument of a function of [n] extractors. *)
Fixpoint feed {Ts L A Out} : handler_fn Ts L (A -> Out) -> A -> handler_fn Ts L Out :=
  match Ts with
  | [] => fun f a v => f v a
  | T :: Ts => fun f a v => feed (f v) a
  end.

(** A middleware function is a handler whose last argument is the request. *)
Lemma call_middleware_handler {Ts} (es : PartsList S W Ts) f p b state next w :
  call_middleware es f p b state next w
    = call_extractors (EL := request_extractor) es (feed f next) p b state w.
Proof.
  revert p w; induction es as [|T Ts E es IH]; intros p w; [done|]. cbn.
  by destruct (from_request_parts p state w) as [[[v|e] p1] w1].
Qed.

Lemma apply_feed {Ts L A Out} (f : handler_fn Ts L (A -> Out)) a vs v :
  apply_handler (feed f a) vs v = apply_handler f vs v a.
Proof. revert f vs; induction Ts as [|T Ts IH]; intros f vs; [done|]. cbn. apply IH. Qed.
End Call.
End FromFn.

Arguments Next {_} W.

(** ** [map_request] and [map_response] *)

Section Maps.
Context `{HttpCrate} {S W : Type}.

Definition map_request_layer (f : Request -> W -> Request * W) : LayerFn W :=
  fun inner req w => let (req, w) := f req w in inner req w.
Definition map_request_with_state_layer (state : S) (f : S -> Request -> W -> Request * W) : LayerFn W :=
  fun inner req w => let (req, w) := f state req w in inner req w.

Definition map_response_layer {Res} {IR : IntoResponse Res} (f : Response -> W -> Res * W) : LayerFn W :=
  fun inner req w =>
    let (res, w) := inner req w in let (res, w) := f res w in (response_of res, w).
Definition map_response_with_state_layer {Res} {IR : IntoResponse Res} (state : S)
    (f : S -> Response -> W -> Res * W) : LayerFn W :=
  fun inner req w =>
    let (res, w) := inner req w in let (res, w) := f state res w in (response_of res, w).

(** *** [map_body] *)

(** A body that cannot be read counts as empty. *)
Definition bytes_or_empty (b : Body) : string :=
  match to_bytes b with Ok s => s | Err _ => "" end.

(** The refreshed [Content-Length]; [from_str] of digits cannot fail. *)
Definition refresh_length (transformed : string) (h : HeaderMap) : HeaderMap :=
  if hm_contains h CONTENT_LENGTH
  then match hv_from_str (to_dec (str_len transformed)) with
       | Some v => hm_insert h CONTENT_LENGTH v
       | None => h
       end
  else h.

Definition map_request_body_layer (f : string -> W -> string * W) : LayerFn W :=
  fun inner req w =>
    let (transformed, w) := f (bytes_or_empty (req_body req)) w in
    inner (set_req_body (body_from_bytes transformed)
             (set_req_headers (refresh_length transformed (req_headers req)) req)) w.

Definition map_response_body_layer (f : string -> W -> string * W) : LayerFn W :=
  fun inner req w =>
    let (res, w) := inner req w in
    let (transformed, w) := f (bytes_or_empty (res_body res)) w in
    (mkResponse (res_status res) (refresh_length transformed (res_headers res))
       (res_matched_path res) (body_from_bytes transformed), w).

(** *** [catch_panic] *)

(** The outcome of a service that may panic, in [call] itself or in the future
    it returned; a panic leaves the world where it was then. *)
Inductive Outcome :=
| Done (r : Response) (w : W)
| PanicInCall (w : W)
| PanicInFuture (w : W).

Definition default_panic_response : Response :=
  rb_body (body_from_bytes ("{" +:+ quoted "error" +:+ ":" +:+ quoted "Internal Server Error"
             +:+ "," +:+ quoted "code" +:+ ":500}"))
    (rb_header_str CONTENT_TYPE "application/json" (rb_status 500 rb_new)).

(** [CatchPanicService::call]: [catch_unwind] wraps the future, and the call
    that makes it is its argument, so a panic there unwinds through the future
    this service returned. *)
Definition catch_panic_layer (panic_handler : option Response) (inner : Request -> W -> Outcome)
    (req : Request) (w : W) : Outcome :=
  match inner req w with
  | Done r w => Done r w
  | PanicInCall w => PanicInFuture w
  | PanicInFuture w =>
      Done (match panic_handler with Some r => r | None => default_panic_response end) w
  end.
End Maps.

Arguments Outcome {_} W.

(** ** Facts *)

Section Facts.
Context `{HL : HttpLaws}.

Lemma refresh_length_spec t h :
  (hm_contains h CONTENT_LENGTH = true ->
   hm_get_all (refresh_length t h) CONTENT_LENGTH = [to_dec (str_len t)]) /\
  (hm_contains h CONTENT_LENGTH = false -> refresh_length t h = h) /\
  (forall k, k <> CONTENT_LENGTH -> hm_get_all (refresh_length t h) k = hm_get_all h k).
Proof.
  unfold refresh_length.
  rewrite hv_from_str_visible by (apply to_dec_visible, str_len_nonneg).
  destruct (hm_contains h CONTENT_LENGTH); split_and!; try done.
  - intros _. by rewrite hm_all_insert_eq.
  - intros k Hk. by rewrite hm_all_insert_ne.
Qed.
End Facts.

(** ** Properties *)

(** A function middleware is sequential extraction around the rest of the
    chain: it gives [r] and [w'] exactly when an extractor rejects, and then
    neither the function nor the inner service has run, or when all succeed and
    the function, given their values, the request put together from the parts
    they left with the untouched body and the inner service, gives a value that
    converts to [r]. *)
Theorem from_fn_refines `{HttpCrate} {S W Res} {IR : IntoResponse Res} {Ts}
    (es : PartsList S W Ts) (f : handler_fn Ts Request (Next W -> W -> Res * W))
    state (inner : Service W) req w r w' :
  let parts := fst (into_request_parts req) in
  from_fn_with_state state es f inner req w = (r, w') <->
  rejected state es parts w r w' \/
  exists vs p1 w1 res, extracted state es parts w vs p1 w1 /\
    apply_handler f vs (request_of_parts p1 (req_body req)) (mkNext inner) w1 = (res, w') /\
    r = response_of res.
Proof.
  cbn zeta. unfold from_fn_with_state, middleware_call. cbn [into_request_parts fst].
  rewrite call_middleware_handler. split.
  - intros Hc.
    destruct (extraction_total state es (fst (into_request_parts req)) w)
      as [(r1 & w1 & Hr)|(vs & p1 & w1 & Hx)].
    + left. pose proof (call_rejected (EL := request_extractor) es (feed f (mkNext inner)) _
        (req_body req) _ _ _ _ Hr) as E. cbn [into_request_parts fst] in E.
      rewrite E in Hc. by injection Hc as <- <-.
    + right. pose proof (call_extracted (EL := request_extractor) es (feed f (mkNext inner)) _
        (req_body req) _ _ _ _ _ Hx) as E. cbn [into_request_parts fst] in E.
      rewrite E in Hc. cbn in Hc. rewrite apply_feed in Hc.
      destruct (apply_handler f vs _ _ w1) as [res w2] eqn:Ef. injection Hc as <- <-.
      exists vs, p1, w1, res. done.
  - intros [Hr|(vs & p1 & w1 & res & Hx & Hf & ->)].
    + by rewrite (call_rejected (EL := request_extractor) es (feed f (mkNext inner)) _ _ _ _ _ _ Hr).
    + rewrite (call_extracted (EL := request_extractor) es (feed f (mkNext inner)) _ _ _ _ _ _ _ Hx).
      cbn. by rewrite apply_feed, Hf.
Qed.

(** The body layers keep a declared length honest: the service, or the client,
    gets the transformed bytes, and a [Content-Length] that was there is the
    length of these bytes. *)
Theorem map_body_length_honest `{HL : HttpLaws} {W} (f : string -> W -> string * W)
    (inner : Service W) req w :
  let t := fst (f (bytes_or_empty (req_body req)) w) in
  let w1 := snd (f (bytes_or_empty (req_body req)) w) in
  exists req', map_request_body_layer f inner req w = inner req' w1 /\
    to_bytes (req_body req') = Ok t /\
    (forall k, k <> CONTENT_LENGTH ->
       hm_get_all (req_headers req') k = hm_get_all (req_headers req) k) /\
    (hm_contains (req_headers req) CONTENT_LENGTH = true ->
       hm_get_all (req_headers req') CONTENT_LENGTH = [to_dec (str_len t)]) /\
    (hm_contains (req_headers req) CONTENT_LENGTH = false ->
       req_headers req' = req_headers req).
Proof.
  cbn zeta. unfold map_request_body_layer.
  destruct (f (bytes_or_empty (req_body req)) w) as [t w1]. cbn [fst snd].
  eexists. split; [reflexivity|]. cbn [req_body req_headers set_req_body set_req_headers].
  destruct (refresh_length_spec t (req_headers req)) as (H1 & H2 & H3).
  split_and!; [apply to_bytes_from_bytes|done..].
Qed.

(** Behind a body limit the request body layer turns an over-limit body into an
    empty one: the service runs on it and no 413 is answered. *)
Theorem map_body_hides_limit `{HttpCrate} {W} limit (f : string -> W -> string * W)
    (inner : Service W) req w :
  in_u64 limit -> (data_len (body_frames (req_body req)) <= u64_max)%Z ->
  declared_length req = None ->
  (forall s, to_bytes (req_body req) = Ok s -> (limit < str_len s)%Z) ->
  request_body_limit_layer limit (map_request_body_layer f inner) req w
    = let (t, w1) := f "" w in
      inner (set_req_body (body_from_bytes t)
               (set_req_headers (refresh_length t (req_headers req)) req)) w1.
Proof.
  intros Hl Hm Hdecl Hover. unfold request_body_limit_layer. rewrite Hdecl.
  unfold map_request_body_layer. cbn [req_body set_req_body req_headers set_req_headers].
  assert (He : bytes_or_empty (limited_body limit (req_body req)) = "").
  { unfold bytes_or_empty, to_bytes, limited_body. cbn [body_frames]. unfold in_u64 in Hl.
    destruct (to_bytes (req_body req)) as [s|e] eqn:Eb; unfold to_bytes in Eb.
    - rewrite (limit_frames_collect limit 0 _ s) by (done || lia).
      by rewrite (proj2 (Z.ltb_lt _ _)) by (rewrite Z.add_0_l; apply Hover; done).
    - by destruct (limit_frames_err limit 0 _ _ Eb) as [e' ->]. }
  rewrite He. by destruct (f "" w).
Qed.

(** A panic in the future is answered; one in [call] itself is not caught. *)
Theorem catch_panic_outcomes `{HttpCrate} {W} handler (inner : Request -> W -> Outcome W) req w :
  match inner req w with
  | Done r w1 => catch_panic_layer handler inner req w = Done r w1
  | PanicInFuture w1 => catch_panic_layer handler inner req w
      = Done (match handler with Some r => r | None => default_panic_response end) w1
  | PanicInCall w1 => catch_panic_layer handler inner req w = PanicInFuture w1
  end.
Proof. unfold catch_panic_layer. by destruct (inner req w). Qed.
