(* ===== verification/WebSocket.v ===== *)
(** * Web sockets

    The crate [arvik-ws]: the upgrade handshake ([upgrade.rs], [rejection.rs]),
    the messages and close codes ([message.rs]), and the socket and its halves
    ([socket.rs], [split.rs]).

    SHA-1 and base64 are parameters, and so is [tungstenite], which runs the
    protocol: its messages are data, its connection is what it will deliver
    and, for each message given to it, whether the write fails. *)
From S2P Require Import Prelude RustStr HttpCrate Body Http Responses Extract Extractors Auth.
From stdpp Require Import base list strings option sets.
From Stdlib Require Import ZArith Lia Ascii String.
Open Scope string_scope.
Open Scope list_scope.

Definition CONNECTION := "connection".
Definition UPGRADE := "upgrade".
Definition SEC_WEBSOCKET_ACCEPT := "sec-websocket-accept".
Definition SEC_WEBSOCKET_KEY := "sec-websocket-key".
Definition SEC_WEBSOCKET_PROTOCOL := "sec-websocket-protocol".
Definition SEC_WEBSOCKET_VERSION := "sec-websocket-version".

(** ** The handshake *)

Definition GUID : string := "258EAFA5-E914-47DA-95CA-C5AB0DC85B11".

Record WebSocketConfig := mkWsConfig {
  max_message_size : option Z;
  max_frame_size : option Z;
  ws_accept_unmasked : bool;
  ws_protocols : list string;
  write_buffer_size : Z;
  max_write_buffer_size : Z }.
#[export] Instance rebuild_ws_config : Rebuild WebSocketConfig := fun r =>
  mkWsConfig (max_message_size r) (max_frame_size r) (ws_accept_unmasked r) (ws_protocols r)
    (write_buffer_size r) (max_write_buffer_size r).

Definition ws_config_default : WebSocketConfig :=
  mkWsConfig (Some (64 * 1024 * 1024)%Z) (Some (16 * 1024 * 1024)%Z) false [] (128 * 1024) (512 * 1024).

Inductive WebSocketUpgradeRejection :=
| MethodNotGet
| ConnectionNotUpgrade
| UpgradeNotWebSocket
| MissingSecWebSocketKey
| InvalidWebSocketVersionHeader
| ConnectionNotUpgradable.

Definition ws_rejection_text (e : WebSocketUpgradeRejection) : string :=
  match e with
  | MethodNotGet => "WebSocket upgrade requires GET method"
  | ConnectionNotUpgrade => "Connection header must contain 'upgrade'"
  | UpgradeNotWebSocket => "Upgrade header must be 'websocket'"
  | MissingSecWebSocketKey => "Sec-WebSocket-Key header is missing"
  | InvalidWebSocketVersionHeader => "Sec-WebSocket-Version must be '13'"
  | ConnectionNotUpgradable => "Connection is not upgradable — ensure you're using serve_app()"
  end.
Definition ws_rejection_status (e : WebSocketUpgradeRejection) : Z :=
  match e with
  | MethodNotGet => 405
  | InvalidWebSocketVersionHeader => 426
  | ConnectionNotUpgradable => 500
  | _ => 400
  end.

Section Handshake.
Context `{HttpCrate} `{Base64} (sha1 : string -> string).

#[export] Instance ws_rejection_response : IntoResponse WebSocketUpgradeRejection := fun e =>
  let status := ws_rejection_status e in
  let body := "{" +:+ quoted "error" +:+ ":" +:+ quoted "WebSocket upgrade failed" +:+ ","
    +:+ quoted "reason" +:+ ":" +:+ quoted (ws_rejection_text e) +:+ ","
    +:+ quoted "code" +:+ ":" +:+ to_dec status +:+ "}" in
  let builder := rb_header_str CONTENT_TYPE "application/json" (rb_status status rb_new) in
  let builder := match e with
                 | InvalidWebSocketVersionHeader => rb_header_str SEC_WEBSOCKET_VERSION "13" builder
                 | _ => builder
                 end in
  rb_body (body_from_bytes body) builder.

Definition compute_accept_key (client_key : string) : string := base64_encode (sha1 (client_key +:+ GUID)).

(** The extractor's value; the handle of hyper's upgrade is left out. *)
Record WebSocketUpgrade := mkUpgrade {
  accept_key : string;
  selected_protocol : option string;
  client_protocols : list string;
  ws_config : WebSocketConfig }.

(** The header checks. *)
Definition connection_ok (h : HeaderMap) : bool :=
  match hm_get_str h CONNECTION with
  | Some v => existsb (fun t => eq_ignore_ascii_case (trim t) "upgrade") (str_split "," v)
  | None => false
  end.
Definition upgrade_ok (h : HeaderMap) : bool :=
  match hm_get_str h UPGRADE with
  | Some v => eq_ignore_ascii_case (trim v) "websocket" | None => false end.
Definition version_ok (h : HeaderMap) : bool :=
  match hm_get_str h SEC_WEBSOCKET_VERSION with
  | Some v => (trim v =? "13")%string | None => false end.

Definition offered_protocols (h : HeaderMap) : list string :=
  match hm_get_str h SEC_WEBSOCKET_PROTOCOL with
  | Some v => List.filter (fun p => negb (str_is_empty p)) (map trim (str_split "," v))
  | None => []
  end.

(** [WebSocketUpgrade::from_request]. *)
Definition ws_from_request (req : Request) : result WebSocketUpgrade WebSocketUpgradeRejection :=
  let h := req_headers req in
  if negb (method_eqb (req_method req) GET) then Err MethodNotGet
  else if negb (connection_ok h) then Err ConnectionNotUpgrade
  else if negb (upgrade_ok h) then Err UpgradeNotWebSocket
  else if negb (version_ok h) then Err InvalidWebSocketVersionHeader
  else match hm_get_str h SEC_WEBSOCKET_KEY with
       | None => Err MissingSecWebSocketKey
       | Some key => Ok (mkUpgrade (compute_accept_key (trim key)) None (offered_protocols h) ws_config_default)
       end.

(** The builder methods. *)
Definition ws_set_config (f : WebSocketConfig -> WebSocketConfig) (u : WebSocketUpgrade) : WebSocketUpgrade :=
  mkUpgrade (accept_key u) (selected_protocol u) (client_protocols u) (f (ws_config u)).
Definition ws_max_message_size (size : Z) : WebSocketUpgrade -> WebSocketUpgrade :=
  ws_set_config (fun c => c <| max_message_size := Some size |>)%rust.
Definition ws_max_frame_size (size : Z) : WebSocketUpgrade -> WebSocketUpgrade :=
  ws_set_config (fun c => c <| max_frame_size := Some size |>)%rust.
Definition ws_accept_unmasked_frames (b : bool) : WebSocketUpgrade -> WebSocketUpgrade :=
  ws_set_config (fun c => c <| ws_accept_unmasked := b |>)%rust.

(** [protocols]: the first the client offered that is one of ours. *)
Definition protocols (our : list string) (u : WebSocketUpgrade) : WebSocketUpgrade :=
  mkUpgrade (accept_key u)
    (List.find (fun cp => existsb (fun op => (op =? cp)%string) our) (client_protocols u))
    (client_protocols u)
    (ws_config u <| ws_protocols := our |>)%rust.

(** The response of [on_upgrade]; [None] is the panic of its [unwrap]. *)
Definition on_upgrade (u : WebSocketUpgrade) : option Response :=
  let builder := rb_header_string SEC_WEBSOCKET_ACCEPT (accept_key u)
    (rb_header_str UPGRADE "websocket" (rb_header_str CONNECTION "upgrade" (rb_status 101 rb_new))) in
  let builder := match selected_protocol u with
                 | Some p => rb_header SEC_WEBSOCKET_PROTOCOL (default "" (hv_from_str p)) builder
                 | None => builder
                 end in
  match builder with
  | Some (s, h) => Some (mkResponse s h None body_empty)
  | None => None
  end.

(** tungstenite's configuration: [to_tungstenite] sets these fields and leaves
    the others at their defaults. *)
Record TungsteniteConfig := mkTungsteniteConfig {
  tc_max_message_size : option Z;
  tc_max_frame_size : option Z;
  tc_accept_unmasked_frames : bool;
  tc_write_buffer_size : Z;
  tc_max_write_buffer_size : Z }.
Definition to_tungstenite (c : WebSocketConfig) : TungsteniteConfig :=
  mkTungsteniteConfig (max_message_size c) (max_frame_size c) (ws_accept_unmasked c)
    (write_buffer_size c) (max_write_buffer_size c).

(** The task [on_upgrade] spawns: what the callback is called with, if it is. The
    upgrade gives an [Io], or fails. *)
Definition upgrade_task {Io E} (upgraded : result Io E) (u : WebSocketUpgrade)
  : option (Io * TungsteniteConfig * option string) :=
  match upgraded with
  | Ok io => Some (io, to_tungstenite (ws_config u), selected_protocol u)
  | Err _ => None
  end.
End Handshake.

(** ** Messages *)

Inductive CloseCode :=
| Normal | Away | Protocol | Unsupported | Status | Abnormal | Invalid | Policy | Size
| Extension | CloseError | Restart | Again | Other (n : Z).

Definition close_to_u16 (c : CloseCode) : Z :=
  match c with
  | Normal => 1000 | Away => 1001 | Protocol => 1002 | Unsupported => 1003 | Status => 1005
  | Abnormal => 1006 | Invalid => 1007 | Policy => 1008 | Size => 1009 | Extension => 1010
  | CloseError => 1011 | Restart => 1012 | Again => 1013 | Other n => n
  end.
Definition close_of_u16 (n : Z) : CloseCode :=
  if (n =? 1000)%Z then Normal else if (n =? 1001)%Z then Away else if (n =? 1002)%Z then Protocol
  else if (n =? 1003)%Z then Unsupported else if (n =? 1005)%Z then Status
  else if (n =? 1006)%Z then Abnormal else if (n =? 1007)%Z then Invalid
  else if (n =? 1008)%Z then Policy else if (n =? 1009)%Z then Size
  else if (n =? 1010)%Z then Extension else if (n =? 1011)%Z then CloseError
  else if (n =? 1012)%Z then Restart else if (n =? 1013)%Z then Again else Other n.

Record CloseFrame := mkCloseFrame { close_code : CloseCode; close_reason : string }.
Definition close_normal : CloseFrame := mkCloseFrame Normal "".

Inductive Message :=
| Text (s : string) | Binary (b : string) | Ping (b : string) | Pong (b : string)
| Close (frame : option CloseFrame).

Definition as_text (m : Message) : option string := match m with Text s => Some s | _ => None end.
Definition as_bytes (m : Message) : option string := match m with Binary b => Some b | _ => None end.
Definition message_len (m : Message) : Z :=
  match m with Text s | Binary s | Ping s | Pong s => str_len s | Close _ => 0 end.
Definition message_is_empty (m : Message) : bool := (message_len m =? 0)%Z.

(** tungstenite's close codes: a type that is converted from and to [u16]. *)
Class TsCode : Type := {
  TCode : Type;
  tcode_to_u16 : TCode -> Z;
  tcode_of_u16 : Z -> TCode }.
Class TsCodeLaws `(TsCode) : Prop :=
  tcode_roundtrip n : (0 <= n <= u16_max)%Z -> tcode_to_u16 (tcode_of_u16 n) = n.

Section Messages.
Context `{TsCode}.

(** [tungstenite::Message]; [TFrame] is the raw frame it never delivers. *)
Inductive TMessage :=
| TText (s : string) | TBinary (b : string) | TPing (b : string) | TPong (b : string)
| TClose (frame : option (TCode * string)) | TFrame.

(** [Message::from]; [None] is its [unreachable!]. *)
Definition message_of_ts (m : TMessage) : option Message :=
  match m with
  | TText s => Some (Text s)
  | TBinary b => Some (Binary b)
  | TPing b => Some (Ping b)
  | TPong b => Some (Pong b)
  | TClose f => Some (Close ((fun cr => mkCloseFrame (close_of_u16 (tcode_to_u16 (fst cr))) (snd cr)) <$> f))
  | TFrame => None
  end.
Definition message_to_ts (m : Message) : TMessage :=
  match m with
  | Text s => TText s
  | Binary b => TBinary b
  | Ping b => TPing b
  | Pong b => TPong b
  | Close f => TClose ((fun c => (tcode_of_u16 (close_to_u16 (close_code c)), close_reason c)) <$> f)
  end.

(** ** The socket *)

Section Socket.
Context {E : Type}.

(** What the connection will deliver, what was written to it, and the outcome of
    a write after the writes so far. *)
Record Conn := mkConn {
  incoming : list (result TMessage E);
  written : list TMessage }.
Context (write_error : list TMessage -> TMessage -> option E).

Definition conn_send (c : Conn) (m : TMessage) : option E * Conn :=
  match write_error (written c) m with
  | Some e => (Some e, c)
  | None => (None, mkConn (incoming c) (written c ++ [m]))
  end.

(** [WebSocket::send]. *)
Definition ws_send (c : Conn) (m : Message) : option E * Conn := conn_send c (message_to_ts m).

(** [WebSocket::recv]: pings are answered and raw frames skipped; [None] inside
    is the panic of [Message::from], which these cases exclude. *)
Fixpoint recv_loop (inc : list (result TMessage E)) (out : list TMessage)
  : option (result (option Message) E) * Conn :=
  match inc with
  | [] => (None, mkConn [] out)
  | Ok (TPing data) :: inc =>
      match write_error out (TPong data) with
      | Some e => (Some (Err e), mkConn inc out)
      | None => recv_loop inc (out ++ [TPong data])
      end
  | Ok TFrame :: inc => recv_loop inc out
  | Ok m :: inc => (Some (Ok (message_of_ts m)), mkConn inc out)
  | Err e :: inc => (Some (Err e), mkConn inc out)
  end.
Definition recv (c : Conn) : option (result (option Message) E) * Conn :=
  recv_loop (incoming c) (written c).

(** [Receiver::next]: every message as it comes. *)
Definition receiver_next (c : Conn) : option (result (option Message) E) * Conn :=
  match incoming c with
  | [] => (None, c)
  | Ok m :: inc => (Some (Ok (message_of_ts m)), mkConn inc (written c))
  | Err e :: inc => (Some (Err e), mkConn inc (written c))
  end.

(** [send_batch]: messages are fed one by one, the first error stops it, and the
    whole is flushed at the end. *)
Fixpoint send_batch (flush_error : list TMessage -> option E) (ms : list Message) (c : Conn)
  : option E * Conn :=
  match ms with
  | [] => (flush_error (written c), c)
  | m :: ms => match conn_send c (message_to_ts m) with
               | (Some e, c) => (Some e, c)
               | (None, c) => send_batch flush_error ms c
               end
  end.

(** [close]: the close frame, then a flush. *)
Definition ws_close (flush_error : list TMessage -> option E) (frame : option CloseFrame) (c : Conn)
  : option E * Conn := send_batch flush_error [Close frame] c.

(** [send_text] and [send_binary]. *)
Definition ws_send_text (c : Conn) (text : string) : option E * Conn := ws_send c (Text text).
Definition ws_send_binary (c : Conn) (data : string) : option E * Conn := ws_send c (Binary data).

(** The [Sender] half: [send] writes and flushes, so its outcome is the write's;
    [close] is a [send] of the close frame, without [WebSocket::close]'s second
    flush. *)
Definition sender_send (c : Conn) (m : Message) : option E * Conn := conn_send c (message_to_ts m).
Definition sender_flush (flush_error : list TMessage -> option E) (c : Conn) : option E * Conn :=
  (flush_error (written c), c).
Definition sender_close (c : Conn) (frame : option CloseFrame) : option E * Conn :=
  conn_send c (message_to_ts (Close frame)).

(** [Sender::send_batch] is [WebSocket::send_batch] on the half. *)
Definition sender_send_batch := send_batch.

(** [Receiver] as a [Stream], until it ends. *)
Fixpoint receiver_all (n : nat) (c : Conn) : list (result (option Message) E) * Conn :=
  match n with
  | O => ([], c)
  | S n => match receiver_next c with
           | (None, c) => ([], c)
           | (Some r, c) => let (rs, c) := receiver_all n c in (r :: rs, c)
           end
  end.

(** One message after another through [send], stopping at an error. *)
Fixpoint send_each (ms : list Message) (c : Conn) : option E * Conn :=
  match ms with
  | [] => (None, c)
  | m :: ms => match sender_send c m with
               | (Some e, c) => (Some e, c)
               | (None, c) => send_each ms c
               end
  end.

(** ** Facts *)

Lemma send_batch_each flush_error ms c :
  send_batch flush_error ms c =
  match send_each ms c with
  | (Some e, c) => (Some e, c)
  | (None, c) => sender_flush flush_error c
  end.
Proof.
  revert c; induction ms as [|m ms IH]; intros c; [done|]. cbn. unfold sender_send.
  destruct (conn_send c (message_to_ts m)) as [[e|] c1]; [done|]. apply IH.
Qed.

(** Receiving until the stream ends, at most [n] times. *)
Fixpoint recv_all (n : nat) (c : Conn) : list (result (option Message) E) * Conn :=
  match n with
  | O => ([], c)
  | S n => match recv c with
           | (None, c) => ([], c)
           | (Some r, c) => let (rs, c) := recv_all n c in (r :: rs, c)
           end
  end.

(** What an application should see, and the replies. *)
Definition delivered (inc : list (result TMessage E)) : list (result (option Message) E) :=
  omap (fun r => match r with
                 | Ok (TPing _) | Ok TFrame => None
                 | Ok m => Some (Ok (message_of_ts m))
                 | Err e => Some (Err e)
                 end) inc.
Definition pongs (inc : list (result TMessage E)) : list TMessage :=
  omap (fun r => match r with Ok (TPing d) => Some (TPong d) | _ => None end) inc.

Lemma recv_loop_spec inc out : (forall o m, write_error o m = None) ->
  exists pre rest, inc = pre ++ rest /\
    match recv_loop inc out with
    | (None, c) => rest = [] /\ delivered inc = [] /\ c = mkConn [] (out ++ pongs inc)
    | (Some r, c) => rest <> [] /\ delivered inc = r :: delivered (tail rest) /\
        pongs inc = pongs pre ++ pongs (tail rest) /\
        c = mkConn (tail rest) (out ++ pongs pre)
    end.
Proof.
  intros Hw. revert out; induction inc as [|[m|e] inc IH]; intros out.
  - exists [], []. cbn. by rewrite app_nil_r.
  - destruct m as [s|s|d|s|f|]; cbn [recv_loop];
      try (eexists [], _; split; [reflexivity|]; cbn; by rewrite app_nil_r).
    + rewrite Hw. destruct (IH (out ++ [TPong d])) as (pre & rest & -> & Hr).
      exists (Ok (TPing d) :: pre), rest. split; [done|].
      destruct (recv_loop (pre ++ rest) _) as [[r|] c]; [|destruct Hr as (-> & Hd & ->)].
      * destruct Hr as (Hne & Hd & Hp & ->). split_and!; [done|exact Hd| |].
        -- change (pongs (Ok (TPing d) :: pre ++ rest)) with (TPong d :: pongs (pre ++ rest)).
           by rewrite Hp.
        -- by rewrite <- app_assoc.
      * split_and!; [done|exact Hd|].
        change (pongs (Ok (TPing d) :: pre ++ [])) with (TPong d :: pongs (pre ++ [])).
        by rewrite <- app_assoc.
    + destruct (IH out) as (pre & rest & -> & Hr). exists (Ok TFrame :: pre), rest. split; [done|].
      destruct (recv_loop (pre ++ rest) _) as [[r|] c]; exact Hr.
  - exists [], (Err e :: inc). cbn. by rewrite app_nil_r.
Qed.

Lemma recv_all_spec n inc out : (forall o m, write_error o m = None) ->
  (List.length inc < n)%nat ->
  recv_all n (mkConn inc out) = (delivered inc, mkConn [] (out ++ pongs inc)).
Proof.
  intros Hw. revert inc out; induction n as [|n IH]; intros inc out Hn; [lia|].
  cbn [recv_all]. unfold recv. cbn [incoming written].
  destruct (recv_loop_spec inc out Hw) as (pre & rest & Hinc & Hr).
  destruct (recv_loop inc out) as [[r|] c]; [|by destruct Hr as (_ & -> & ->)].
  destruct Hr as (Hne & -> & -> & ->). destruct rest as [|x rest]; [done|]. cbn [tail].
  rewrite IH by (rewrite Hinc, length_app in Hn; cbn in Hn; lia).
  by rewrite <- app_assoc.
Qed.
End Socket.
End Messages.

(** ** Facts on codes and messages *)

Lemma close_code_of_to n : close_to_u16 (close_of_u16 n) = n.
Proof.
  unfold close_of_u16.
  repeat match goal with |- context [(n =? ?k)%Z] => destruct (Z.eqb_spec n k) as [->|]; [done|] end.
  done.
Qed.

(** [Other] of a standard code is not the standard constructor. *)
Definition canonical_code (c : CloseCode) : Prop := close_of_u16 (close_to_u16 c) = c.

Lemma standard_codes_canonical c : (forall n, c <> Other n) -> canonical_code c.
Proof. destruct c; intros Hn; try reflexivity. by destruct (Hn n). Qed.

Lemma message_ts_roundtrip `{HT : TsCodeLaws} (m : Message) :
  match m with Close (Some f) => canonical_code (close_code f) /\
    (0 <= close_to_u16 (close_code f) <= u16_max)%Z | _ => True end ->
  message_of_ts (message_to_ts m) = Some m.
Proof.
  destruct m as [s|s|s|s|[[c r]|]]; cbn; try done. intros [Hc Hr].
  rewrite tcode_roundtrip by done. by rewrite Hc.
Qed.

(** The order of our protocols does not matter: the client's does. *)
Lemma protocols_order_irrelevant our our' u :
  Permutation our our' -> selected_protocol (protocols our u) = selected_protocol (protocols our' u).
Proof.
  intros Hp. cbn. induction (client_protocols u) as [|cp l IH]; [done|]. cbn.
  assert (existsb (fun op => (op =? cp)%string) our = existsb (fun op => (op =? cp)%string) our') as ->.
  { apply eq_true_iff_eq. rewrite !existsb_exists.
    split; intros (x & Hx & He); exists x; (split; [|done]).
    - by apply (Permutation_in x Hp).
    - by apply (Permutation_in x (Permutation_sym Hp)). }
  by rewrite IH.
Qed.

(** The conditions on the headers of a request. *)
Definition says_upgrade `{HttpCrate} (h : HeaderMap) : Prop :=
  exists v t, hm_get_str h CONNECTION = Some v /\ In t (str_split "," v) /\
    eq_ignore_ascii_case (trim t) "upgrade" = true.
Definition says_websocket `{HttpCrate} (h : HeaderMap) : Prop :=
  exists v, hm_get_str h UPGRADE = Some v /\ eq_ignore_ascii_case (trim v) "websocket" = true.
Definition says_version `{HttpCrate} (h : HeaderMap) : Prop :=
  exists v, hm_get_str h SEC_WEBSOCKET_VERSION = Some v /\ trim v = "13".

(** What a request must carry to be upgraded. *)
Definition asks_upgrade `{HttpCrate} (req : Request) (key : string) : Prop :=
  let h := req_headers req in
  req_method req = GET /\ says_upgrade h /\ says_websocket h /\ says_version h /\
  hm_get_str h SEC_WEBSOCKET_KEY = Some key.

(** The first condition that does not hold, by its rejection. *)
Definition first_failed `{HttpCrate} (req : Request) (e : WebSocketUpgradeRejection) : Prop :=
  let h := req_headers req in
  match e with
  | MethodNotGet => req_method req <> GET
  | ConnectionNotUpgrade => req_method req = GET /\ ~ says_upgrade h
  | UpgradeNotWebSocket => req_method req = GET /\ says_upgrade h /\ ~ says_websocket h
  | InvalidWebSocketVersionHeader =>
      req_method req = GET /\ says_upgrade h /\ says_websocket h /\ ~ says_version h
  | MissingSecWebSocketKey =>
      req_method req = GET /\ says_upgrade h /\ says_websocket h /\ says_version h /\
      hm_get_str h SEC_WEBSOCKET_KEY = None
  | ConnectionNotUpgradable => False
  end.

Lemma connection_ok_true `{HttpCrate} h : connection_ok h = true <-> says_upgrade h.
Proof.
  unfold says_upgrade, connection_ok. destruct (hm_get_str h CONNECTION) as [v|]; [|by split; [|intros (?&?&?&_)]].
  rewrite existsb_exists. split.
  - intros (t & Ht & He). by exists v, t.
  - intros (v' & t & [= <-] & Ht & He). by exists t.
Qed.
Lemma upgrade_ok_true `{HttpCrate} h : upgrade_ok h = true <-> says_websocket h.
Proof.
  unfold says_websocket, upgrade_ok. destruct (hm_get_str h UPGRADE) as [v|]; [|by split; [|intros (?&?&_)]].
  split; [intros He; by exists v|by intros (v' & [= <-] & He)].
Qed.
Lemma version_ok_true `{HttpCrate} h : version_ok h = true <-> says_version h.
Proof.
  unfold says_version, version_ok. destruct (hm_get_str h SEC_WEBSOCKET_VERSION) as [v|];
    [|by split; [|intros (?&?&_)]].
  split; [intros He%String.eqb_eq; by exists v|intros (v' & [= <-] & ->); apply String.eqb_refl].
Qed.

Lemma ws_from_request_err `{HttpCrate} `{Base64} sha1 req e :
  ws_from_request sha1 req = Err e -> first_failed req e.
Proof.
  unfold ws_from_request, method_eqb. destruct (bool_decide_reflect (req_method req = GET)); [|by intros [= <-]].
  pose proof (connection_ok_true (req_headers req)) as Hc. pose proof (upgrade_ok_true (req_headers req)) as Hu.
  pose proof (version_ok_true (req_headers req)) as Hv. cbn [negb].
  destruct (connection_ok _); [|intros [= <-]; split; [done|]; intros Hn; by apply Hc in Hn].
  destruct (upgrade_ok _); [|intros [= <-]; split_and!; [done|by apply Hc|]; intros Hn; by apply Hu in Hn].
  destruct (version_ok _);
    [|intros [= <-]; split_and!; [done|by apply Hc|by apply Hu|]; intros Hn; by apply Hv in Hn].
  cbn [negb]. destruct (hm_get_str _ _) eqn:Ek; [done|]. intros [= <-].
  split_and!; [done|by apply Hc|by apply Hu|by apply Hv|done].
Qed.

Lemma ws_from_request_ok `{HttpCrate} `{Base64} sha1 req u :
  ws_from_request sha1 req = Ok u <->
  exists key, asks_upgrade req key /\
    u = mkUpgrade (compute_accept_key sha1 (trim key)) None (offered_protocols (req_headers req)) ws_config_default.
Proof.
  unfold ws_from_request, asks_upgrade, method_eqb.
  setoid_rewrite <- connection_ok_true. setoid_rewrite <- upgrade_ok_true. setoid_rewrite <- version_ok_true.
  destruct (bool_decide_reflect (req_method req = GET)); [|by split; [|intros (k & (Hm & _) & _)]].
  destruct (connection_ok _); [|by split; [|intros (k & (_ & Hm & _) & _)]].
  destruct (upgrade_ok _); [|by split; [|intros (k & (_ & _ & Hm & _) & _)]].
  destruct (version_ok _); [|by split; [|intros (k & (_ & _ & _ & Hm & _) & _)]].
  cbn [negb]. destruct (hm_get_str _ SEC_WEBSOCKET_KEY) as [key|]; split.
  - intros [= <-]. by exists key.
  - by intros (k & (_ & _ & _ & _ & [= <-]) & ->).
  - done.
  - by intros (k & (_ & _ & _ & _ & ?) & _).
Qed.

(** ** Properties *)

(** C30. The handshake: a request is accepted exactly when it is a GET that asks
    to upgrade to version 13 of the web socket protocol and carries a key. Then
    the 101 response has the upgrade headers, the accept value computed from
    that key, and a protocol exactly when one was selected, which is one the
    client offered and the handler accepts. Otherwise the rejection names the first
    of these conditions that does not hold, in this order: the method (405), the
    connection, the upgrade, the version (426, and told the right one) and the key
    (400 for the others). *)
Theorem ws_handshake_correct `{HL : HttpLaws} `{Base64} sha1 (req : Request) :
  (forall s, str_forall visible_ascii (base64_encode s) = true) ->
  let h := req_headers req in
  match ws_from_request sha1 req with
  | Ok u =>
      (exists key, asks_upgrade req key /\ accept_key u = base64_encode (sha1 (trim key +:+ GUID))) /\
      forall our, exists r, on_upgrade (protocols our u) = Some r /\ res_status r = 101%Z /\
        hm_get_all (res_headers r) CONNECTION = ["upgrade"] /\
        hm_get_all (res_headers r) UPGRADE = ["websocket"] /\
        hm_get_all (res_headers r) SEC_WEBSOCKET_ACCEPT = [accept_key u] /\
        match selected_protocol (protocols our u) with
        | Some p => In p our /\ In p (offered_protocols h) /\
            (str_forall visible_ascii p = true -> hm_get_all (res_headers r) SEC_WEBSOCKET_PROTOCOL = [p])
        | None => (forall p, In p our -> ~ In p (offered_protocols h)) /\
            hm_get_all (res_headers r) SEC_WEBSOCKET_PROTOCOL = []
        end
  | Err e =>
      (forall key, ~ asks_upgrade req key) /\ first_failed req e /\
      res_status (ws_rejection_response e) =
        match e with MethodNotGet => 405 | InvalidWebSocketVersionHeader => 426 | _ => 400 end%Z /\
      hm_get_all (res_headers (ws_rejection_response e)) SEC_WEBSOCKET_VERSION =
        match e with InvalidWebSocketVersionHeader => ["13"] | _ => [] end
  end.
Proof.
  intros Hb h. subst h. destruct (ws_from_request sha1 req) as [u|e] eqn:Eq; cycle 1.
  { split; [intros key Hk|].
    - pose proof (proj2 (ws_from_request_ok sha1 req _) (ex_intro _ key (conj Hk eq_refl))) as E.
      by rewrite E in Eq.
    - pose proof (ws_from_request_err sha1 req e Eq) as Hf. split; [exact Hf|].
      unfold ws_rejection_response, rb_header_str. rewrite !hv_from_str_visible by done.
      destruct e; try done; (split; [done|]); cbn; by headers. }
  apply ws_from_request_ok in Eq as (key & Hkey & ->). split; [by exists key|]. intros our.
  unfold on_upgrade, rb_header_string, rb_header_str.
  rewrite !hv_from_str_visible, hv_from_string_visible by (done || apply Hb).
  cbn [selected_protocol protocols client_protocols accept_key].
  destruct (List.find _ (offered_protocols _)) as [p|] eqn:Ef.
  - eexists. split; [reflexivity|]. cbn [res_status res_headers].
    apply find_some in Ef as [Hin Hex]. apply existsb_exists in Hex as (op & Hop & ->%String.eqb_eq).
    split_and!; [done|by headers|by headers|by headers|done|done|].
    intros Hv. rewrite hv_from_str_visible by done. cbn [default]. by headers.
  - eexists. split; [reflexivity|]. cbn [res_status res_headers].
    split_and!; [done|by headers|by headers|by headers| |by headers].
    intros p Hp Hin. pose proof (find_none _ _ Ef p Hin) as Hn. cbn in Hn.
    rewrite (proj2 (existsb_exists _ _)) in Hn; [done|]. exists p. by rewrite String.eqb_refl.
Qed.

(** Pings are answered and never seen: while writes succeed, receiving until
    the connection ends delivers exactly its messages and errors in order,
    without pings and raw frames, and writes a pong with the payload of each
    ping, in order; the conversion never panics. *)
Theorem recv_answers_pings `{TsCode} {E} (write_error : list TMessage -> TMessage -> option E) inc out n :
  (forall o m, write_error o m = None) -> (List.length inc < n)%nat ->
  recv_all write_error n (mkConn inc out) = (delivered inc, mkConn [] (out ++ pongs inc)) /\
  (forall r, In r (delivered inc) ->
     match r with Ok (Some (Ping _)) | Ok None => False | _ => True end).
Proof.
  intros Hw Hn. split; [by apply recv_all_spec|].
  intros r Hr. induction inc as [|[[s|s|d|s|f|]|e] inc IH]; cbn in *; [done|..];
    try (destruct Hr as [<-|Hr]; [done|]); apply IH; done || lia.
Qed.

(** A batch is its messages sent one by one, with one flush at the end: the same
    frames are written in the same order, and the first error stops both. *)
Theorem send_batch_refines `{TsCode} {E} (write_error : list TMessage -> TMessage -> option E)
    flush_error ms c :
  let '(r, c') := send_each write_error ms c in
  send_batch write_error flush_error ms c =
    match r with Some e => (Some e, c') | None => (flush_error (written c'), c') end /\
  exists sent, written c' = written c ++ map message_to_ts sent /\ sent `prefix_of` ms /\
    (r = None -> sent = ms).
Proof.
  rewrite send_batch_each. destruct (send_each write_error ms c) as [r c'] eqn:E1.
  split; [by destruct r|]. revert c r c' E1; induction ms as [|m ms IH]; intros c r c' Hs; cbn in Hs.
  - injection Hs as <- <-. exists []. rewrite app_nil_r. split_and!; [done|by apply prefix_nil|done].
  - unfold sender_send, conn_send in Hs. destruct (write_error _ _) as [e|].
    + injection Hs as <- <-. exists []. rewrite app_nil_r. split_and!; [done|apply prefix_nil|done].
    + destruct (IH _ _ _ Hs) as (sent & Hw & Hp & Hn). exists (m :: sent). cbn in Hw |- *.
      rewrite Hw, <- app_assoc. split_and!; [done|by apply prefix_cons|].
      intros Hr. by rewrite (Hn Hr).
Qed.

(** The two ways to receive differ in pings and raw frames alone: the [Receiver]
    half hands out everything and answers nothing, and is expected to be used
    with a [Sender] that answers. *)
Theorem receiver_hands_out_everything `{TsCode} {E} (inc : list (result TMessage E)) out n :
  (List.length inc < n)%nat ->
  receiver_all n (mkConn inc out) =
    (map (fun r => match r with Ok m => Ok (message_of_ts m) | Err e => Err e end) inc, mkConn [] out).
Proof.
  revert n; induction inc as [|[m|e] inc IH]; intros [|n] Hn; cbn in Hn; try lia; cbn;
    [done|..]; by rewrite IH by lia.
Qed.

(** A connection that cannot be upgraded is never rejected: the documented
    rejection is not among the answers, the client gets the 101 and the callback
    never runs. *)
Theorem unupgradable_never_rejected `{HttpCrate} `{Base64} sha1 req {Io E} (e : E) u :
  ws_from_request sha1 req <> Err ConnectionNotUpgradable /\
  upgrade_task (Io := Io) (Err e) u = None.
Proof. split; [|done]. unfold ws_from_request. repeat case_match; discriminate. Qed.

(** ** Witnesses *)

Module Demo.
(** A code is its number, an encoding the hexadecimal length. *)
#[export] Instance codes : TsCode := {
  TCode := Z; tcode_to_u16 n := n; tcode_of_u16 n := n }.
Definition encode (s : string) : string := to_dec (str_len s).
Definition headers (protocols : string) : list (string * string) :=
  [(CONNECTION, "keep-alive, Upgrade"); (UPGRADE, "WebSocket"); (SEC_WEBSOCKET_VERSION, "13");
   (SEC_WEBSOCKET_KEY, "dGhlIHNhbXBsZSBub25jZQ=="); (SEC_WEBSOCKET_PROTOCOL, protocols)].
Definition request (protocols : string) : Request :=
  mkRequest (H := ListHttp) GET (mkUri None None "/ws" None) (headers protocols) no_ext body_empty.
End Demo.

Lemma ws_handshake_correct_witness :
  exists u r, ws_from_request (H := ListHttp) (H0 := Build_Base64 Demo.encode) (fun s => s)
      (Demo.request "soap, chat ,json") = Ok u /\
    on_upgrade (H := ListHttp) (protocols ["json"; "chat"] u) = Some r /\
    hm_get_all (res_headers r) SEC_WEBSOCKET_PROTOCOL = ["chat"].
Proof.
  pose proof (ws_handshake_correct (H := ListHttp) (H0 := Build_Base64 Demo.encode) (fun s => s)
    (Demo.request "soap, chat ,json")
    (fun s => to_dec_visible (str_len s) (str_len_nonneg s))) as W.
  cbn zeta in W.
  destruct (ws_from_request (fun s => s) (Demo.request "soap, chat ,json")) as [u|e] eqn:E; [|done].
  destruct W as (_ & W). destruct (W ["json"; "chat"]) as (r & Hr & _ & _ & _ & _ & Hp).
  exists u, r. injection E as <-. split; [reflexivity|]. split; [exact Hr|].
  destruct Hp as (_ & _ & Hp). exact (Hp eq_refl).
Defined.

Lemma recv_answers_pings_witness :
  recv_all (H := Demo.codes) (E := string) (fun _ _ => None) 5
    (mkConn [Ok (TPing "a"); Ok (TText "hi"); Ok TFrame; Ok (TPing "b")] [])
  = ([Ok (Some (Text "hi"))], mkConn [] [TPong "a"; TPong "b"]).
Proof.
  rewrite (proj1 (recv_answers_pings (H := Demo.codes) (E := string) (fun _ _ => None)
    [Ok (TPing "a"); Ok (TText "hi"); Ok TFrame; Ok (TPing "b")] [] 5 ltac:(done) ltac:(cbn; lia))).
  reflexivity.
Defined.
