(* ===== verification/Broadcast.v ===== *)
(** * Broadcast channels

    [tokio::sync::broadcast] as its documentation describes it, for the programs
    that use the framework with one ([Chat], [SseDemo]).

    A channel is a log of the values sent, which every receiver reads from the
    moment it subscribed.  The channel retains the last values, at least the
    capacity it was made with; a receiver that is further behind is told how many
    it lost and goes on with the oldest one left.  A value sent to no receiver is
    refused and kept nowhere.  Every channel here has a sender that lives on, so
    no receiver finds it closed. *)
From S2P Require Import Prelude.
From stdpp Require Import base list strings gmap.
From Stdlib Require Import Lia String.
Open Scope string_scope.
Open Scope list_scope.

(** What [Receiver::recv] gives: [NoValue] while it waits. *)
Inductive Recv :=
| Received (v : string)
| Lagged (n : nat)
| NoValue.

(** The operations; [send] gives the number of receivers, or the refusal. *)
Class Broadcast : Type := {
  Channel : Type;
  channel : nat -> Channel;
  subscribe : Channel -> nat * Channel;
  send : string -> Channel -> option nat * Channel;
  receive : nat -> Channel -> Recv * Channel;
  receiver_count : Channel -> nat;
  drop_receiver : nat -> Channel -> Channel }.

(** What the documentation speaks of: the values sent, where in them each live
    receiver is, and how many of the last ones are retained. *)
Record View := mkView {
  sent : list string;
  cursors : gmap nat nat;
  retained : nat }.

Definition receive_view (r : nat) (v : View) : Recv * View :=
  match cursors v !! r with
  | None => (NoValue, v)
  | Some p =>
      let oldest := (List.length (sent v) - retained v)%nat in
      if decide (p < oldest)%nat
      then (Lagged (oldest - p), mkView (sent v) (<[r := oldest]> (cursors v)) (retained v))
      else match sent v !! p with
           | Some x => (Received x, mkView (sent v) (<[r := S p]> (cursors v)) (retained v))
           | None => (NoValue, v)
           end
  end.

Class BroadcastLaws `(B : Broadcast) : Type := {
  view : Channel -> View;
  view_channel n : exists k, (n <= k)%nat /\ view (channel n) = mkView [] ∅ k;
  view_subscribe c :
    cursors (view c) !! (fst (subscribe c)) = None /\
    view (snd (subscribe c)) =
      mkView (sent (view c)) (<[fst (subscribe c) := List.length (sent (view c))]> (cursors (view c)))
        (retained (view c));
  view_send x c :
    if decide (cursors (view c) = ∅)
    then fst (send x c) = None /\ view (snd (send x c)) = view c
    else fst (send x c) = Some (size (cursors (view c))) /\
         view (snd (send x c)) = mkView (sent (view c) ++ [x]) (cursors (view c)) (retained (view c));
  view_receive r c :
    fst (receive r c) = fst (receive_view r (view c)) /\
    view (snd (receive r c)) = snd (receive_view r (view c));
  view_receiver_count c : receiver_count c = size (cursors (view c));
  view_drop_receiver r c :
    view (drop_receiver r c) = mkView (sent (view c)) (delete r (cursors (view c))) (retained (view c)) }.

(** ** A walk over the log *)

(** The positions a receiver passes with what it received. *)
Fixpoint walk (log : list string) (p : nat) (heard : list Recv) : option nat :=
  match heard with
  | [] => Some p
  | Received x :: heard => if decide (log !! p = Some x) then walk log (S p) heard else None
  | Lagged n :: heard => if decide (p + n <= List.length log)%nat then walk log (p + n) heard else None
  | NoValue :: heard => walk log p heard
  end.

Fixpoint values (heard : list Recv) : list string :=
  match heard with
  | [] => []
  | Received x :: heard => x :: values heard
  | _ :: heard => values heard
  end.
Fixpoint lost (heard : list Recv) : nat :=
  match heard with
  | [] => 0
  | Lagged n :: heard => n + lost heard
  | _ :: heard => lost heard
  end.

Lemma walk_app log p h1 h2 : walk log p (h1 ++ h2) = walk log p h1 ≫= fun q => walk log q h2.
Proof.
  revert p; induction h1 as [|[x|n|] h1 IH]; intros p; cbn; [done|..]; [by case_decide|by case_decide|apply IH].
Qed.

(** The log only grows, and what was heard stays where it was. *)
Lemma walk_grow log more p heard q : walk log p heard = Some q -> walk (log ++ more) p heard = Some q.
Proof.
  revert p; induction heard as [|[x|n|] heard IH]; intros p; cbn; [done|..]; try by apply IH.
  - case_decide as Hx; [|done]. rewrite decide_True by by apply lookup_app_l_Some. apply IH.
  - case_decide; [|done]. rewrite decide_True by (rewrite length_app; lia). apply IH.
Qed.

Lemma walk_bound log p heard q : walk log p heard = Some q ->
  (p <= List.length log -> q <= List.length log)%nat /\ (p <= q)%nat.
Proof.
  revert p; induction heard as [|[x|n|] heard IH]; intros p; cbn.
  - intros [= ->]. split; lia.
  - case_decide as Hx; [|done]. intros [Hq Hle]%IH. apply lookup_lt_Some in Hx. split; lia.
  - case_decide; [|done]. intros [Hq Hle]%IH. split; lia.
  - apply IH.
Qed.

(** What a walk hears is in the log, in its order, and all that is missing was
    announced as lost. *)
Lemma walk_values log p heard q : walk log p heard = Some q ->
  sublist (values heard) (drop p log) /\ (p + List.length (values heard) + lost heard = q)%nat /\
  (lost heard = 0%nat -> values heard = take (q - p) (drop p log)).
Proof.
  revert p; induction heard as [|[x|n|] heard IH]; intros p Hw; cbn in Hw |- *.
  - injection Hw as <-. split_and!; [apply sublist_nil_l|lia|]. by rewrite Nat.sub_diag.
  - case_decide as Hx; [|done]. destruct (IH _ Hw) as (Hs & Hl & Hz). apply walk_bound in Hw as [_ Hq].
    rewrite (drop_S _ _ _ Hx). split_and!; [by apply sublist_skip|lia|].
    intros H0. rewrite Hz by done. by replace (q - p)%nat with (S (q - S p)) by lia.
  - case_decide; [|done]. destruct (IH _ Hw) as (Hs & Hl & Hz). split_and!; [|lia|].
    + etrans; [exact Hs|]. rewrite Nat.add_comm, <- skipn_skipn. apply sublist_drop.
    + intros H0. assert (n = 0)%nat as -> by lia. rewrite Nat.add_0_r in Hz. apply Hz. lia.
  - by apply IH.
Qed.

Lemma receive_dom r v : dom (cursors (snd (receive_view r v))) = dom (cursors v).
Proof.
  unfold receive_view. destruct (cursors v !! r) as [p|] eqn:Hr; [|done]. apply elem_of_dom_2 in Hr.
  case_decide; [cbn; rewrite dom_insert_L; set_solver|].
  destruct (sent v !! p); cbn; [rewrite dom_insert_L; set_solver|done].
Qed.

(** One more receive is one more step of the walk. *)
Lemma receive_walks r v p : cursors v !! r = Some p -> (p <= List.length (sent v))%nat ->
  exists q, cursors (snd (receive_view r v)) !! r = Some q /\ walk (sent v) p [fst (receive_view r v)] = Some q /\
    (q <= List.length (sent v))%nat /\ sent (snd (receive_view r v)) = sent v /\
    retained (snd (receive_view r v)) = retained v /\
    (forall r', r' <> r -> cursors (snd (receive_view r v)) !! r' = cursors v !! r') /\
    dom (cursors (snd (receive_view r v))) = dom (cursors v).
Proof.
  intros Hr Hp. rewrite receive_dom. unfold receive_view. rewrite Hr. case_decide as Hl.
  - cbn. exists (List.length (sent v) - retained v)%nat. rewrite lookup_insert_eq, decide_True by lia.
    split_and!; try done; [f_equal; lia|lia|]. intros r' Hne. by rewrite lookup_insert_ne.
  - destruct (sent v !! p) as [x|] eqn:Hx; cbn.
    + exists (S p). rewrite lookup_insert_eq, decide_True by done. apply lookup_lt_Some in Hx.
      split_and!; try done. intros r' Hne. by rewrite lookup_insert_ne.
    + exists p. by split_and!.
Qed.

(** A receiver that is not further behind than what is retained loses nothing. *)
Lemma receive_in_time r v p x : cursors v !! r = Some p ->
  (List.length (sent v) - p <= retained v)%nat -> sent v !! p = Some x ->
  fst (receive_view r v) = Received x.
Proof. intros Hr Hp Hx. unfold receive_view. rewrite Hr, decide_False by lia. by rewrite Hx. Qed.

(** ** A concrete channel *)
Module DemoChannel.
Record Chan := mkChan { v : View; next : nat }.
Definition fresh_in (m : gmap nat nat) (n : nat) : nat := if decide (m !! n = None) then n else fresh (dom m).
Definition rx (c : Chan) : nat := fresh_in (cursors (v c)) (next c).
#[export] Instance broadcast : Broadcast := {
  Channel := Chan;
  channel n := mkChan (mkView [] ∅ n) 0;
  subscribe c := (rx c, mkChan (mkView (sent (v c)) (<[rx c := List.length (sent (v c))]> (cursors (v c)))
                                  (retained (v c))) (S (next c)));
  send x c := if decide (cursors (v c) = ∅) then (None, c)
              else (Some (size (cursors (v c))),
                    mkChan (mkView (sent (v c) ++ [x]) (cursors (v c)) (retained (v c))) (next c));
  receive r c := (fst (receive_view r (v c)), mkChan (snd (receive_view r (v c))) (next c));
  receiver_count c := size (cursors (v c));
  drop_receiver r c := mkChan (mkView (sent (v c)) (delete r (cursors (v c))) (retained (v c))) (next c) }.
#[export] Instance laws : BroadcastLaws broadcast.
Proof.
  refine {| view := v |}.
  - intros n. by exists n.
  - intros c. cbn. split; [|done]. unfold rx, fresh_in. case_decide as Hn; [done|].
    apply not_elem_of_dom. apply is_fresh.
  - intros x c. cbn. by case_decide.
  - done.
  - done.
  - done.
Defined.
End DemoChannel.
#[export] Existing Instances DemoChannel.broadcast DemoChannel.laws.
