(* ===== verification/Chat.v ===== *)
(** * The chat example

    [examples/websocket_chat/src/main.rs], a program on the framework's web
    sockets: the rooms, each a broadcast channel, made when first joined; the
    handlers; and [handle_socket], the task of one participant.

    Any number of participants run at a time.  A step of one is what it does
    between two suspension points, or to the shared map under its lock; a socket
    and the choices of [select!] are the environment's.  The map holds senders,
    and so does every participant, so channels are cells of a heap and a sender is
    an address.  [tokio]'s channels are the class [Broadcast]; [serde_json]'s
    printer is a parameter. *)
From S2P Require Import Prelude RustStr HttpCrate Body Http MethodFilter MethodRouter RouterPath Router.
From S2P Require Import Responses Extract Extractors Auth WebSocket Broadcast.
From stdpp Require Import base list strings gmap sorting.
From Stdlib Require Import ZArith Lia Ascii String.
Open Scope string_scope.
Open Scope list_scope.

Definition CHANNEL_CAPACITY : nat := 64.
Definition DEFAULT_ROOM : string := "general".

(** ** Names *)

(** [str::chars] of a string, which is valid UTF-8: each with its bytes. *)
Fixpoint chars_from (c : string) (s : string) : list string :=
  match s with
  | "" => [c]
  | String a s => if utf8_cont a then chars_from (c +:+ String a "") s else c :: chars_from (String a "") s
  end.
Definition chars (s : string) : list string :=
  match s with "" => [] | String a s => chars_from (String a "") s end.

(** [char::is_alphanumeric]; beyond ASCII it is a table of the standard library. *)
Class Unicode : Type := { wide_alphanumeric : string -> bool }.
Definition ascii_alphanumeric (a : ascii) : bool :=
  in_range 48 57 a || in_range 65 90 a || in_range 97 122 a.

Section Names.
Context `{Unicode}.

Definition is_alphanumeric (c : string) : bool :=
  match c with String a "" => ascii_alphanumeric a | _ => wide_alphanumeric c end.

Definition sanitize_room (name : string) : string :=
  String.concat "" (take 32 (map to_ascii_lowercase
    (List.filter (fun c => is_alphanumeric c || (c =? "-")%string) (chars name)))).
Definition sanitize_username (name : string) : string :=
  String.concat "" (take 20
    (List.filter (fun c => is_alphanumeric c || (c =? "-")%string || (c =? "_")%string) (chars name))).
End Names.

(** ** The rooms *)

Section Chat.
Context `{Broadcast} `{CoreCrates}.

(** [Rooms], with the channels its senders point to. *)
Record Rooms := mkRooms { rooms : gmap string nat; heap : list Channel }.

(** [map.entry(room).or_insert_with(..)]. *)
Definition entry_or_insert (room : string) (r : Rooms) : nat * Rooms :=
  match rooms r !! room with
  | Some tx => (tx, r)
  | None => let tx := List.length (heap r) in
            (tx, mkRooms (<[room := tx]> (rooms r)) (heap r ++ [channel CHANNEL_CAPACITY]))
  end.

(** Working on the channel a sender points to. *)
Definition on_channel {A} (none : A) (tx : nat) (f : Channel -> A * Channel) (r : Rooms) : A * Rooms :=
  match heap r !! tx with
  | Some c => let '(a, c) := f c in (a, mkRooms (rooms r) (<[tx := c]> (heap r)))
  | None => (none, r)
  end.

(** [Rooms::join]: the sender, the receiver. *)
Definition join (room : string) (r : Rooms) : nat * nat * Rooms :=
  let '(tx, r) := entry_or_insert room r in
  let '(rx, r) := on_channel 0%nat tx subscribe r in
  (tx, rx, r).

(** [Rooms::cleanup]. *)
Definition cleanup (room : string) (r : Rooms) : Rooms :=
  match rooms r !! room with
  | Some tx =>
      match heap r !! tx with
      | Some c => if (receiver_count c =? 0)%nat then mkRooms (delete room (rooms r)) (heap r) else r
      | None => r
      end
  | None => r
  end.

(** [let _ = tx.send(msg)]. *)
Definition tx_send (tx : nat) (msg : string) (r : Rooms) : Rooms :=
  snd (on_channel None tx (send msg) r).

(** The list [rooms_handler] answers with, of the keys in the map's order. *)
Definition rooms_list (keys : list string) : list string :=
  merge_sort (≤)%string
    (fold_left (fun list r => if bool_decide (r ∈ list) then list else list ++ [r])
       ["general"; "rust"; "random"] keys).

(** ** A participant *)

Definition system_json (room msg : string) : string :=
  json_to_string (JObject [("system", JBool true); ("room", JString room); ("msg", JString msg)]).
Definition user_json (user room msg : string) : string :=
  json_to_string (JObject [("from", JString user); ("room", JString room); ("msg", JString msg)]).

(** Where [handle_socket] is. *)
Inductive SessionPhase :=
| Joining
| AnnouncingJoin
| Welcoming
| Chatting
| AnnouncingLeave
| CleaningUp
| Returning
| Gone.
#[export] Instance session_phase_eq_dec : EqDecision SessionPhase.
Proof. solve_decision. Defined.

(** Its variables, what [rx.recv] gave it and what it has written to its socket. *)
Record Session := mkSession {
  s_room : string;
  s_username : string;
  s_user_id : string;
  s_tx : nat;
  s_rx : nat;
  s_phase : SessionPhase;
  s_heard : list Recv;
  s_out : list Message }.
#[export] Instance rebuild_session : Rebuild Session := fun s =>
  mkSession (s_room s) (s_username s) (s_user_id s) (s_tx s) (s_rx s) (s_phase s) (s_heard s) (s_out s).

Definition session_new (room username : string) : Session :=
  mkSession room username "" 0 0 Joining [] [].

Context {E : Type}.

(** What the environment decides at a step: the clock and whether a write to the
    socket succeeds; in the loop, which branch [select!] takes. *)
Inductive Input :=
| Proceed (subsec_millis : Z) (ok : bool)
| FromSocket (msg : option (result Message E)) (ok : bool)
| FromRoom (ok : bool).

Definition to (p : SessionPhase) (s : Session) : Session := (s <| s_phase := p |>)%rust.

(** [socket.send(msg)]. *)
Definition socket_send (ok : bool) (m : Message) (s : Session) : Session :=
  if ok then (s <| s_out := s_out s ++ [m] |>)%rust else s.

Definition BINARY_NOT_SUPPORTED : string :=
  "{" +:+ quoted "system" +:+ ":true," +:+ quoted "msg" +:+ ":" +:+ quoted "Binary messages not supported" +:+ "}".

(** The branch of [socket.recv]. *)
Definition on_socket (msg : option (result Message E)) (ok : bool) (s : Session) (r : Rooms) : Session * Rooms :=
  match msg with
  | Some (Ok (Text text)) =>
      let text := trim text in
      if str_is_empty text then (s, r)
      else (s, tx_send (s_tx s) (user_json (s_user_id s) (s_room s) text) r)
  | Some (Ok (Binary _)) => (socket_send ok (Text BINARY_NOT_SUPPORTED) s, r)
  | Some (Ok (Ping data)) => (socket_send ok (Pong data) s, r)
  | Some (Ok (Close _)) | None => (to AnnouncingLeave s, r)
  | Some (Ok _) => (s, r)
  | Some (Err _) => (to AnnouncingLeave s, r)
  end.

(** The branch of [rx.recv]. *)
Definition on_room (ok : bool) (s : Session) (r : Rooms) : Session * Rooms :=
  let '(o, r) := on_channel NoValue (s_tx s) (receive (s_rx s)) r in
  let s := (s <| s_heard := s_heard s ++ [o] |>)%rust in
  match o with
  | Received msg => if ok then (socket_send true (Text msg) s, r) else (to AnnouncingLeave s, r)
  | Lagged _ | NoValue => (s, r)
  end.

(** [handle_socket], a step of it. *)
Definition session_step (i : Input) (s : Session) (r : Rooms) : Session * Rooms :=
  match s_phase s, i with
  | Joining, Proceed millis _ =>
      let '(tx, rx, r) := join (s_room s) r in
      let user_id := if str_is_empty (s_username s) then "Guest-" +:+ to_dec millis else s_username s in
      ((s <| s_user_id := user_id |> <| s_tx := tx |> <| s_rx := rx |> <| s_phase := AnnouncingJoin |>)%rust, r)
  | AnnouncingJoin, Proceed _ _ =>
      (to Welcoming s, tx_send (s_tx s) (system_json (s_room s) (s_user_id s +:+ " joined the room")) r)
  | Welcoming, Proceed _ ok =>
      (to Chatting (socket_send ok (Text (system_json (s_room s)
         ("Welcome " +:+ s_user_id s +:+ "! You are in room '" +:+ s_room s +:+ "'."))) s), r)
  | Chatting, FromSocket msg ok => on_socket msg ok s r
  | Chatting, FromRoom ok => on_room ok s r
  | AnnouncingLeave, Proceed _ _ =>
      (to CleaningUp s, tx_send (s_tx s) (system_json (s_room s) (s_user_id s +:+ " left the room")) r)
  | CleaningUp, Proceed _ _ => (to Returning s, cleanup (s_room s) r)
  | Returning, Proceed _ _ =>
      (to Gone s, snd (on_channel tt (s_tx s) (fun c => (tt, drop_receiver (s_rx s) c)) r))
  | _, _ => (s, r)
  end.

(** ** The server *)

Record ChatSystem := mkChatSystem { sessions : list Session; state : Rooms }.
Definition chat_start : ChatSystem := mkChatSystem [] (mkRooms ∅ []).

(** [ws_default_handler] and [ws_room_handler]: the response, and the participant
    the callback is if the connection is upgraded. *)
Definition ws_default_handler `{HttpCrate} `{Unicode} (params : gmap string string) (ws : WebSocketUpgrade)
  : option Response * Session :=
  let username := sanitize_username (default "" (params !! "name")) in
  (on_upgrade (protocols ["chat"] ws), session_new DEFAULT_ROOM username).
Definition ws_room_handler `{HttpCrate} `{Unicode} (room : string) (params : gmap string string)
    (ws : WebSocketUpgrade) : option Response * Session :=
  let room := sanitize_room room in
  let username := sanitize_username (default "" (params !! "name")) in
  (on_upgrade (protocols ["chat"] ws), session_new room username).

(** A connection is upgraded and its participant starts; one takes a step. *)
Inductive ChatLabel :=
| Upgraded (room username : string)
| Act (k : nat) (i : Input).

Definition chat_step (sys : ChatSystem) (l : ChatLabel) : ChatSystem :=
  match l with
  | Upgraded room username => mkChatSystem (sessions sys ++ [session_new room username]) (state sys)
  | Act k i =>
      match sessions sys !! k with
      | Some s => let '(s, r) := session_step i s (state sys) in mkChatSystem (<[k := s]> (sessions sys)) r
      | None => sys
      end
  end.
Definition chat_run (ls : list ChatLabel) : ChatSystem := fold_left chat_step ls chat_start.
End Chat.

(** The routes of [main], of the four handlers with their extractors; [None] is
    the panic of a conflict. *)
Definition chat_app `{HttpCrate} `{Matchit} {W S}
    (index_handler rooms_handler ws_default_handler ws_room_handler : Handler S W) : option (Router W S) :=
  r ← route "/" (mr_get index_handler mr_new) router_new;
  r ← route "/rooms" (mr_get rooms_handler mr_new) r;
  r ← route "/ws" (mr_get ws_default_handler mr_new) r;
  route "/ws/room/{room}" (mr_get ws_room_handler mr_new) r.

(** ** Invariants *)

Section Invariant.
Context `{BL : BroadcastLaws} `{CoreCrates} {E : Type}.

(** What a participant of a room sends. *)
Definition posted (room x : string) : Prop :=
  (exists msg, x = system_json room msg) \/ (exists user msg, x = user_json user room msg).

Record rooms_ok (r : Rooms) : Prop := {
  ro_bound room tx : rooms r !! room = Some tx -> (tx < List.length (heap r))%nat;
  ro_inj room room' tx : rooms r !! room = Some tx -> rooms r !! room' = Some tx -> room = room';
  ro_posted room tx c : rooms r !! room = Some tx -> heap r !! tx = Some c ->
    Forall (posted room) (sent (view c)) }.

(** A later state of the rooms: none is closed, the logs grow, and no receiver
    is touched but one. *)
Record rooms_ext (mine : option (nat * nat)) (r r' : Rooms) : Prop := {
  re_rooms room tx : rooms r !! room = Some tx -> rooms r' !! room = Some tx;
  re_heap tx c : heap r !! tx = Some c ->
    exists c', heap r' !! tx = Some c' /\ sent (view c) `prefix_of` sent (view c') /\
      forall rx q, cursors (view c) !! rx = Some q -> mine <> Some (tx, rx) -> cursors (view c') !! rx = Some q }.

Lemma rooms_ext_refl mine r : rooms_ext mine r r.
Proof. split; [done|]. intros tx c Hc. by exists c. Qed.

Lemma rooms_ext_weaken mine r r' : rooms_ext None r r' -> rooms_ext mine r r'.
Proof.
  intros [Hr Hh]. split; [done|]. intros tx c Hc. destruct (Hh tx c Hc) as (c' & Hc' & Hp & Hq).
  exists c'. split_and!; [done..|]. intros rx q Hrx _. by apply Hq.
Qed.

(** One channel changes. *)
Lemma rooms_ext_channel mine r tx c c' :
  heap r !! tx = Some c -> sent (view c) `prefix_of` sent (view c') ->
  (forall rx q, cursors (view c) !! rx = Some q -> mine <> Some (tx, rx) -> cursors (view c') !! rx = Some q) ->
  rooms_ext mine r (mkRooms (rooms r) (<[tx := c']> (heap r))).
Proof.
  intros Hc Hp Hq. split; [done|]. cbn. intros a d Hd. destruct (decide (a = tx)) as [->|Hne].
  - rewrite Hc in Hd. injection Hd as <-. exists c'. split_and!; try done.
    apply list_lookup_insert_eq. by eapply lookup_lt_Some.
  - exists d. split_and!; try done. by rewrite list_lookup_insert_ne.
Qed.

Lemma rooms_ok_channel r tx c c' :
  rooms_ok r -> heap r !! tx = Some c ->
  (forall room, rooms r !! room = Some tx -> Forall (posted room) (sent (view c)) ->
     Forall (posted room) (sent (view c'))) ->
  rooms_ok (mkRooms (rooms r) (<[tx := c']> (heap r))).
Proof.
  intros [Hb Hi Hp] Hc Hf. split; cbn.
  - intros room a Ha. rewrite length_insert. by eapply Hb.
  - done.
  - intros room a d Ha Hd. destruct (decide (a = tx)) as [->|Hne].
    + rewrite list_lookup_insert_eq in Hd by by eapply lookup_lt_Some. injection Hd as <-.
      apply (Hf room Ha). by apply (Hp room tx c).
    + rewrite list_lookup_insert_ne in Hd by done. by apply (Hp room a d).
Qed.

(** *** The operations *)

Lemma entry_or_insert_spec room r tx r' : rooms_ok r -> entry_or_insert room r = (tx, r') ->
  rooms_ok r' /\ rooms_ext None r r' /\ rooms r' !! room = Some tx /\
  exists c, heap r' !! tx = Some c /\ (heap r !! tx = Some c \/ heap r !! tx = None).
Proof.
  intros Hok. pose proof Hok as [Hb Hi Hp]. unfold entry_or_insert.
  destruct (rooms r !! room) as [a|] eqn:Ea; intros [= <- <-].
  - destruct (lookup_lt_is_Some_2 (heap r) a (Hb _ _ Ea)) as [c Hc].
    split_and!; [done|apply rooms_ext_refl|done|]. exists c. auto.
  - destruct (view_channel CHANNEL_CAPACITY) as (k & _ & Hk). split_and!.
    + split; cbn.
      * intros room' a. rewrite length_app. cbn. intros [[<- <-]|[_ Ha]]%lookup_insert_Some; [lia|].
        apply Hb in Ha. lia.
      * intros room' room'' a. rewrite !lookup_insert_Some.
        intros [[<- <-]|[Hn1 H1]] [[<- Hx]|[Hn2 H2]]; try done; [by apply Hb in H2; lia| |by eapply Hi].
        subst a. apply Hb in H1. lia.
      * intros room' a c [[<- <-]|[_ Ha]]%lookup_insert_Some Hc.
        -- rewrite lookup_app_r, Nat.sub_diag in Hc by lia. injection Hc as <-. by rewrite Hk.
        -- rewrite lookup_app_l in Hc by by eapply Hb. by eapply Hp.
    + split; cbn.
      * intros room' a Ha. rewrite lookup_insert_ne by congruence. done.
      * intros a c Hc. exists c. split_and!; try done. by apply lookup_app_l_Some.
    + cbn. by rewrite lookup_insert_eq.
    + eexists. cbn. rewrite lookup_app_r, Nat.sub_diag by lia. split; [done|]. right. by apply lookup_ge_None.
Qed.

Lemma join_spec room r tx rx r' : rooms_ok r -> join room r = (tx, rx, r') ->
  rooms_ok r' /\ rooms_ext None r r' /\ rooms r' !! room = Some tx /\
  exists c, heap r' !! tx = Some c /\ cursors (view c) !! rx = Some (List.length (sent (view c))) /\
    (forall c0, heap r !! tx = Some c0 -> cursors (view c0) !! rx = None).
Proof.
  intros Hok. unfold join. destruct (entry_or_insert room r) as [a r1] eqn:Ee.
  destruct (entry_or_insert_spec _ _ _ _ Hok Ee) as (Hok1 & Hext & Hroom & c & Hc & Hold).
  unfold on_channel. rewrite Hc. destruct (view_subscribe c) as [Hn Hv].
  destruct (subscribe c) as [x c'] eqn:Es. cbn [fst snd] in Hn, Hv. intros [= <- <- <-].
  assert (rooms_ext None r1 (mkRooms (rooms r1) (<[a := c']> (heap r1)))) as Hext1.
  { apply rooms_ext_channel with c; rewrite ?Hv; [done|done|]. intros rx q Hrx _. cbn.
    rewrite lookup_insert_ne by congruence. done. }
  split_and!.
  - apply rooms_ok_channel with c; [done..|]. intros room' _. by rewrite Hv.
  - destruct Hext as [Hr1 Hh1], Hext1 as [Hr2 Hh2]. split; [intros; by apply Hr2, Hr1|].
    intros t d Hd. destruct (Hh1 t d Hd) as (d1 & Hd1 & Hp1 & Hq1). destruct (Hh2 t d1 Hd1) as (d2 & Hd2 & Hp2 & Hq2).
    exists d2. split_and!; [done|by etrans|]. intros y q Hy Hm. apply Hq2; [by apply Hq1|done].
  - done.
  - exists c'. cbn. rewrite list_lookup_insert_eq by by eapply lookup_lt_Some. rewrite Hv. cbn.
    rewrite lookup_insert_eq. split_and!; [done..|]. intros c0 Hc0.
    destruct Hold as [Hold|Hold]; [by simplify_eq|congruence].
Qed.

Lemma tx_send_spec room tx msg r : rooms_ok r -> rooms r !! room = Some tx -> posted room msg ->
  rooms_ok (tx_send tx msg r) /\ rooms_ext None r (tx_send tx msg r).
Proof.
  intros Hok Hroom Hm. unfold tx_send, on_channel.
  destruct (heap r !! tx) as [c|] eqn:Hc; [|split; [done|apply rooms_ext_refl]].
  pose proof (view_send msg c) as Hv. destruct (send msg c) as [o c']. cbn [fst snd] in Hv |- *.
  assert (sent (view c') = sent (view c) \/ sent (view c') = sent (view c) ++ [msg]) as Hs
    by (case_decide; destruct Hv as [_ ->]; auto).
  assert (cursors (view c') = cursors (view c)) as Hcur by (case_decide; by destruct Hv as [_ ->]).
  split.
  - apply rooms_ok_channel with c; [done..|]. intros room' Hr' Hf.
    rewrite (ro_inj r Hok _ _ _ Hr' Hroom) in *. destruct Hs as [->| ->]; [done|].
    apply Forall_app. split; [done|]. by apply Forall_singleton.
  - apply rooms_ext_channel with c; [done| |by rewrite Hcur].
    destruct Hs as [->| ->]; [done|by apply prefix_app_r].
Qed.

Lemma receive_spec tx rx r o r' p c : rooms_ok r -> heap r !! tx = Some c ->
  cursors (view c) !! rx = Some p -> (p <= List.length (sent (view c)))%nat ->
  on_channel NoValue tx (receive rx) r = (o, r') ->
  rooms_ok r' /\ rooms_ext (Some (tx, rx)) r r' /\
  exists c' q, heap r' !! tx = Some c' /\ sent (view c') = sent (view c) /\
    walk (sent (view c)) p [o] = Some q /\ (q <= List.length (sent (view c)))%nat /\
    cursors (view c') !! rx = Some q.
Proof.
  intros Hok Hc Hp Hle. unfold on_channel. rewrite Hc. destruct (view_receive rx c) as [Ho Hv].
  destruct (receive_walks rx (view c) p Hp Hle) as (q & Hq & Hw & Hql & Hs & _ & Hoth & _).
  destruct (receive rx c) as [o' c']. cbn [fst snd] in Ho, Hv. rewrite <- Ho in Hw.
  rewrite <- Hv in Hq, Hs, Hoth. intros [= <- <-]. split_and!.
  - apply rooms_ok_channel with c; [done..|]. intros room _. by rewrite Hs.
  - apply rooms_ext_channel with c; [done|by rewrite Hs|]. intros y z Hy Hne.
    rewrite Hoth by congruence. done.
  - exists c', q. cbn. rewrite list_lookup_insert_eq by by eapply lookup_lt_Some. by split_and!.
Qed.

(** Whoever cleans up is still counted: the room stays. *)
Lemma cleanup_keeps room tx rx r c p : rooms r !! room = Some tx -> heap r !! tx = Some c ->
  cursors (view c) !! rx = Some p -> cleanup room r = r.
Proof.
  intros Hr Hc Hp. unfold cleanup. rewrite Hr, Hc, view_receiver_count.
  destruct (size (cursors (view c)) =? 0)%nat eqn:Ez; [|done].
  apply Nat.eqb_eq, map_size_empty_iff in Ez. rewrite Ez in Hp. by rewrite lookup_empty in Hp.
Qed.

Lemma drop_spec tx rx r c : rooms_ok r -> heap r !! tx = Some c ->
  let r' := snd (on_channel tt tx (fun c => (tt, drop_receiver rx c)) r) in
  rooms_ok r' /\ rooms_ext (Some (tx, rx)) r r'.
Proof.
  intros Hok Hc. unfold on_channel. rewrite Hc. cbn. split.
  - apply rooms_ok_channel with c; [done..|]. intros room _. by rewrite view_drop_receiver.
  - apply rooms_ext_channel with c; [done|by rewrite view_drop_receiver|].
    intros y q Hy Hne. rewrite view_drop_receiver. cbn. rewrite lookup_delete_ne by congruence. done.
Qed.

(** *** A participant *)

Definition leaving (p : SessionPhase) : bool :=
  match p with AnnouncingLeave | CleaningUp | Returning | Gone => true | _ => false end.
Definition live (s : Session) : bool := match s_phase s with Joining | Gone => false | _ => true end.

(** What it heard went out to its socket in order, but for the value whose write
    failed, which made it leave. *)
Definition forwarded (s : Session) : Prop :=
  exists told, map Text told `sublist_of` s_out s /\
    (values (s_heard s) = told \/ leaving (s_phase s) = true /\ exists x, values (s_heard s) = told ++ [x]).

(** It is on its room's channel, and has walked the log to where its receiver is. *)
Definition on_log (r : Rooms) (s : Session) : Prop :=
  exists c start stop, rooms r !! s_room s = Some (s_tx s) /\ heap r !! s_tx s = Some c /\
    walk (sent (view c)) start (s_heard s) = Some stop /\ (stop <= List.length (sent (view c)))%nat /\
    (s_phase s <> Gone -> cursors (view c) !! s_rx s = Some stop) /\ forwarded s.

Definition session_ok (r : Rooms) (s : Session) : Prop :=
  if decide (s_phase s = Joining) then s_heard s = [] else on_log r s.

Definition mine (s : Session) : option (nat * nat) := if live s then Some (s_tx s, s_rx s) else None.

(** The steps of others leave it as it is. *)
Lemma session_ok_ext m r r' s : rooms_ext m r r' -> (live s = true -> m <> mine s) ->
  session_ok r s -> session_ok r' s.
Proof.
  intros [Hr Hh] Hm. unfold session_ok. case_decide as Hj; [done|].
  intros (c & start & stop & Hroom & Hc & Hw & Hle & Hcur & Hf).
  destruct (Hh _ _ Hc) as (c' & Hc' & [more Hp] & Hq). exists c', start, stop. rewrite Hp.
  split_and!; [by apply Hr|done|by apply walk_grow|rewrite length_app; lia| |done].
  intros Hg. apply Hq; [by apply Hcur|]. unfold mine, live in Hm. destruct (s_phase s); try done; by apply Hm.
Qed.

(** A step that leaves the receiver alone keeps it on the log. *)
Lemma on_log_same r s s' :
  on_log r s -> s_room s' = s_room s -> s_tx s' = s_tx s -> s_rx s' = s_rx s -> s_heard s' = s_heard s ->
  s_phase s <> Gone -> s_out s `prefix_of` s_out s' -> (leaving (s_phase s) = true -> leaving (s_phase s') = true) ->
  on_log r s'.
Proof.
  intros (c & start & stop & Hroom & Hc & Hw & Hle & Hcur & told & Hs & Ht) E1 E2 E3 E4 Hg [more Ho] Hl.
  exists c, start, stop. rewrite E1, E2, E3, E4. split_and!; [done..|by intros _; apply Hcur|].
  exists told. rewrite E4, Ho. split; [by apply sublist_inserts_r|]. destruct Ht as [Ht|[Hp Hx]]; auto.
Qed.

Lemma on_log_ext r r' s : rooms_ext None r r' -> s_phase s <> Joining -> on_log r s -> on_log r' s.
Proof.
  intros He Hj Hs. pose proof (session_ok_ext None r r' s He) as Hok. unfold session_ok in Hok.
  rewrite !decide_False in Hok by done. apply Hok; [|done]. intros Hl. unfold mine. by rewrite Hl.
Qed.

(** What a step of a participant does to the rooms and to itself. *)
Record stepped (s s' : Session) (r r' : Rooms) : Prop := {
  st_rooms : rooms_ok r';
  st_session : session_ok r' s';
  st_ext : rooms_ext (mine s) r r';
  st_mine : live s' = true ->
    mine s' = mine s \/ (forall c, heap r !! s_tx s' = Some c -> cursors (view c) !! s_rx s' = None) }.

Lemma stepped_quiet s s' r : rooms_ok r -> on_log r s -> s_phase s <> Joining -> s_phase s <> Gone ->
  s_phase s' <> Joining -> s_phase s' <> Gone ->
  s_room s' = s_room s -> s_tx s' = s_tx s -> s_rx s' = s_rx s -> s_heard s' = s_heard s ->
  s_out s `prefix_of` s_out s' -> (leaving (s_phase s) = true -> leaving (s_phase s') = true) ->
  stepped s s' r r.
Proof.
  intros Hok Hs Hj Hg Hj' Hg' E1 E2 E3 E4 Ho Hl. split; [done| |apply rooms_ext_refl|].
  - unfold session_ok. rewrite decide_False by done. by eapply on_log_same.
  - intros _. left. unfold mine, live. rewrite E2, E3. by destruct (s_phase s), (s_phase s').
Qed.

Lemma stepped_post s s' r msg : rooms_ok r -> on_log r s -> posted (s_room s) msg ->
  s_phase s <> Joining -> s_phase s <> Gone -> s_phase s' <> Joining -> s_phase s' <> Gone ->
  s_room s' = s_room s -> s_tx s' = s_tx s -> s_rx s' = s_rx s -> s_heard s' = s_heard s -> s_out s' = s_out s ->
  (leaving (s_phase s) = true -> leaving (s_phase s') = true) ->
  stepped s s' r (tx_send (s_tx s) msg r).
Proof.
  intros Hok Hs Hm Hj Hg Hj' Hg' E1 E2 E3 E4 E5 Hl.
  destruct Hs as (c & start & stop & Hroom & Hs).
  destruct (tx_send_spec (s_room s) (s_tx s) msg r Hok Hroom Hm) as [Hok' Hext].
  split; [done| |by apply rooms_ext_weaken|].
  - unfold session_ok. rewrite decide_False by done. eapply on_log_ext; [exact Hext|done|].
    eapply on_log_same; try done; [by exists c, start, stop|by rewrite E5].
  - intros _. left. unfold mine, live. rewrite E2, E3. by destruct (s_phase s), (s_phase s').
Qed.

Lemma stepped_refl s r : rooms_ok r -> session_ok r s -> stepped s s r r.
Proof. intros Hok Hs. split; [done|done|apply rooms_ext_refl|by left]. Qed.

Lemma joining_step s r millis ok : rooms_ok r -> s_phase s = Joining -> session_ok r s ->
  let '(s', r') := session_step (E := E) (Proceed millis ok) s r in stepped s s' r r'.
Proof.
  intros Hok Hj Hs. unfold session_step. rewrite Hj. destruct (join (s_room s) r) as [[tx rx] r1] eqn:Ej.
  destruct (join_spec _ _ _ _ _ Hok Ej) as (Hok1 & Hext & Hroom & c & Hc & Hcur & Hnew).
  unfold session_ok in Hs. rewrite decide_True in Hs by done. split; [done| |by apply rooms_ext_weaken|].
  - unfold session_ok. rewrite decide_False by done.
    eexists c, _, _. cbn. rewrite Hs. split_and!; [done|done|reflexivity|done|done|].
    exists []. split; [apply sublist_nil_l|]. left. cbn. by rewrite Hs.
  - intros _. right. exact Hnew.
Qed.

Lemma room_branch_step s r ok : rooms_ok r -> s_phase s = Chatting -> on_log r s ->
  let '(s', r') := on_room ok s r in stepped s s' r r'.
Proof.
  intros Hok Hp (c & start & stop & Hroom & Hc & Hw & Hle & Hcur & told & Hsub & Htold).
  assert (values (s_heard s) = told) as Hv by (rewrite Hp in Htold; destruct Htold as [?|[? _]]; done).
  unfold on_room. destruct (on_channel _ _ _ _) as [o r1] eqn:Eo.
  destruct (receive_spec _ _ _ _ _ _ _ Hok Hc (Hcur ltac:(by rewrite Hp)) Hle Eo)
    as (Hok1 & Hext & c1 & q & Hc1 & Hs1 & Hw1 & Hq & Hcur1).
  assert (mine s = Some (s_tx s, s_rx s)) as Hm by (unfold mine, live; by rewrite Hp).
  assert (Hs : forall s', s_room s' = s_room s -> s_tx s' = s_tx s -> s_rx s' = s_rx s ->
    s_heard s' = s_heard s ++ [o] -> s_phase s' <> Joining -> s_phase s' <> Gone -> forwarded s' ->
    stepped s s' r r1).
  { intros s' E1 E2 E3 E4 Hj Hg Hf. split; [done| |by rewrite Hm|].
    - unfold session_ok. rewrite decide_False by done. exists c1, start, q. rewrite E1, E2, E3, E4, Hs1.
      split_and!; [by apply (re_rooms _ _ _ Hext)|done| |done|done|done].
      by rewrite walk_app, Hw.
    - intros Hl. left. rewrite Hm. unfold mine. by rewrite Hl, E2, E3. }
  assert (Happ : values (s_heard s ++ [o]) = told ++ values [o]).
  { rewrite <- Hv. clear. induction (s_heard s) as [|[x|n|] h IH]; cbn; [done|f_equal; apply IH|apply IH..]. }
  destruct o as [x|n|].
  - destruct ok; apply Hs; cbn; try done; try (by rewrite Hp).
    + exists (told ++ [x]). cbn. rewrite Happ, map_app. split; [by apply sublist_app|by left].
    + exists told. cbn. rewrite Happ. split; [done|]. right. split; [done|]. by exists x.
  - apply Hs; cbn; try done; try (by rewrite Hp). exists told. cbn. rewrite Happ, app_nil_r. auto.
  - apply Hs; cbn; try done; try (by rewrite Hp). exists told. cbn. rewrite Happ, app_nil_r. auto.
Qed.

Lemma socket_branch_step s r msg ok : rooms_ok r -> s_phase s = Chatting -> on_log r s ->
  let '(s', r') := on_socket (E := E) msg ok s r in stepped s s' r r'.
Proof.
  intros Hok Hp Hs.
  assert (Hsend : forall m, stepped s (socket_send ok m s) r r).
  { intros m. unfold socket_send. destruct ok; apply stepped_quiet; cbn; try done; rewrite ?Hp; try done.
    by apply prefix_app_r. }
  assert (Hleave : stepped s (to AnnouncingLeave s) r r).
  { apply stepped_quiet; cbn; rewrite ?Hp; done. }
  assert (Hstay : stepped s s r r) by (apply stepped_quiet; rewrite ?Hp; done).
  destruct msg as [[[text|b|d|d|f]|e]|]; cbn; try done.
  destruct (str_is_empty (trim text)); [done|].
  apply stepped_post; rewrite ?Hp; try done. right. eauto.
Qed.

Lemma returning_step s r : rooms_ok r -> s_phase s = Returning -> on_log r s ->
  stepped s (to Gone s) r (snd (on_channel tt (s_tx s) (fun c => (tt, drop_receiver (s_rx s) c)) r)).
Proof.
  intros Hok Hp Hs. pose proof Hs as (c & start & stop & Hroom & Hc & Hw & Hle & _ & Hf).
  destruct (drop_spec (s_tx s) (s_rx s) r c Hok Hc) as [Hok' Hext].
  assert (mine s = Some (s_tx s, s_rx s)) as Hm by (unfold mine, live; by rewrite Hp).
  split; [done| |by rewrite Hm|done].
  unfold session_ok. rewrite decide_False by done.
  destruct (re_heap _ _ _ Hext _ _ Hc) as (c' & Hc' & [more Hpre] & _). exists c', start, stop. rewrite Hpre.
  split_and!; [by apply (re_rooms _ _ _ Hext)|done|by apply walk_grow|rewrite length_app; lia|by intros []|].
  destruct Hf as (told & Hsub & Ht). exists told. split; [done|]. destruct Ht as [Ht|[_ Hx]]; auto.
Qed.

Lemma session_step_ok i s r : rooms_ok r -> session_ok r s ->
  let '(s', r') := session_step (E := E) i s r in stepped s s' r r' /\ s_room s' = s_room s.
Proof.
  intros Hok Hs. destruct (decide (s_phase s = Joining)) as [Hj|Hj].
  { destruct i as [millis ok|msg ok|ok].
    - pose proof (joining_step s r millis ok Hok Hj Hs) as H1. unfold session_step in *. rewrite Hj in *.
      destruct (join _ _) as [[tx rx] r1]. done.
    - unfold session_step. rewrite Hj. split; [by apply stepped_refl|done].
    - unfold session_step. rewrite Hj. split; [by apply stepped_refl|done]. }
  pose proof Hs as Hon. unfold session_ok in Hon. rewrite decide_False in Hon by done.
  unfold session_step. destruct (s_phase s) eqn:Hp; [done|..]; destruct i as [millis ok|msg ok|ok];
    try (by split; [apply stepped_refl|]).
  - split; [|done]. apply stepped_post; cbn; rewrite ?Hp; try done. left. eauto.
  - split; [|by destruct ok]. apply stepped_quiet; cbn; rewrite ?Hp; try done; destruct ok; cbn; try done.
    by apply prefix_app_r.
  - pose proof (socket_branch_step s r msg ok Hok Hp Hon) as H1.
    destruct (on_socket msg ok s r) as [s' r'] eqn:Eo. split; [done|].
    unfold on_socket in Eo. repeat case_match; unfold socket_send in Eo; repeat case_match; by simplify_eq.
  - pose proof (room_branch_step s r ok Hok Hp Hon) as H1.
    destruct (on_room ok s r) as [s' r'] eqn:Eo. split; [done|].
    unfold on_room in Eo. repeat case_match; by simplify_eq.
  - split; [|done]. apply stepped_post; cbn; rewrite ?Hp; try done. left. eauto.
  - pose proof Hon as (c & start & stop & Hroom & Hc & _ & _ & Hcur & _). split; [|done].
    rewrite (cleanup_keeps _ _ _ _ _ _ Hroom Hc (Hcur ltac:(by rewrite Hp))).
    apply stepped_quiet; cbn; rewrite ?Hp; done.
  - split; [by apply returning_step|done].
Qed.

(** *** The server *)

Record chat_ok (sys : ChatSystem) : Prop := {
  co_rooms : rooms_ok (state sys);
  co_sessions k s : sessions sys !! k = Some s -> session_ok (state sys) s;
  co_apart j k s t : sessions sys !! j = Some s -> sessions sys !! k = Some t -> j <> k ->
    live s = true -> live t = true -> mine s <> mine t }.

Lemma chat_start_ok : chat_ok chat_start.
Proof. split; [split|..]; cbn; try done; intros; by rewrite ?lookup_empty in *. Qed.

(** A participant whose receiver is new is nobody else. *)
Lemma fresh_apart r s t : session_ok r t -> live s = true -> live t = true ->
  (forall c, heap r !! s_tx s = Some c -> cursors (view c) !! s_rx s = None) -> mine s <> mine t.
Proof.
  unfold session_ok, mine, live. intros Ht Hs Hl Hf. destruct (s_phase s); try done;
    destruct (s_phase t) eqn:Hp; try done; rewrite decide_False in Ht by done;
    destruct Ht as (c & start & stop & _ & Hc & _ & _ & Hcur & _); intros [= E1 E2];
    rewrite E1, E2 in Hf; specialize (Hf c Hc); specialize (Hcur ltac:(by rewrite Hp)); congruence.
Qed.

Lemma act_ok sys k i : chat_ok sys ->
  chat_ok (chat_step (E := E) sys (Act k i)) /\
  forall room tx, rooms (state sys) !! room = Some tx ->
    rooms (state (chat_step (E := E) sys (Act k i))) !! room = Some tx.
Proof.
  intros [Hr Hs Ha]. cbn. destruct (sessions sys !! k) as [s|] eqn:Ek; [|by split].
  pose proof (session_step_ok i s (state sys) Hr (Hs _ _ Ek)) as Hst.
  destruct (session_step i s (state sys)) as [s' r']. destruct Hst as [[Hr' Hs' He Hm] _]. cbn.
  split; [|apply (re_rooms _ _ _ He)].
  assert (forall j t, j <> k -> sessions sys !! j = Some t -> live s' = true -> live t = true -> mine s' <> mine t)
    as Hap.
  { intros j t Hne Hj Hl Hlt. destruct (Hm Hl) as [->|Hf]; [|by eapply fresh_apart; [by eapply Hs|..]].
    destruct (live s) eqn:Hls; [by eapply (Ha k j)|].
    unfold mine. by rewrite Hls, Hlt. }
  split; cbn; [done|..].
  - intros j t Hj. destruct (decide (j = k)) as [->|Hne].
    + rewrite list_lookup_insert_eq in Hj by by eapply lookup_lt_Some. by injection Hj as <-.
    + rewrite list_lookup_insert_ne in Hj by done. apply (session_ok_ext _ _ _ _ He); [|by eapply Hs].
      intros Hlt. destruct (live s) eqn:Hls; [by apply not_eq_sym, (Ha j k)|]. unfold mine. by rewrite Hls, Hlt.
  - intros j j' t t' Hj Hj' Hne Hl Hl'. destruct (decide (j = k)) as [->|Hjk].
    + rewrite list_lookup_insert_eq in Hj by by eapply lookup_lt_Some. injection Hj as <-.
      rewrite list_lookup_insert_ne in Hj' by done. by eapply Hap.
    + rewrite list_lookup_insert_ne in Hj by done. destruct (decide (j' = k)) as [->|Hj'k].
      * rewrite list_lookup_insert_eq in Hj' by by eapply lookup_lt_Some. injection Hj' as <-.
        by apply not_eq_sym, (Hap j).
      * rewrite list_lookup_insert_ne in Hj' by done. by eapply (Ha j j').
Qed.

Lemma upgraded_ok sys room username : chat_ok sys -> chat_ok (chat_step (E := E) sys (Upgraded room username)).
Proof.
  intros [Hr Hs Ha]. split; cbn; [done|..].
  - intros k s [Hk|[_ Hk]]%lookup_app_Some; [by eapply Hs|].
    apply list_lookup_singleton_Some in Hk as [_ <-]. done.
  - intros j k s t [Hj|[_ Hj]]%lookup_app_Some [Hk|[_ Hk]]%lookup_app_Some Hne Hl Hl';
      try (apply list_lookup_singleton_Some in Hj as [_ <-]; done);
      try (apply list_lookup_singleton_Some in Hk as [_ <-]; done). by eapply (Ha j k).
Qed.

Lemma chat_steps_ok ls sys : chat_ok sys ->
  chat_ok (fold_left (chat_step (E := E)) ls sys) /\
  forall room tx, rooms (state sys) !! room = Some tx ->
    rooms (state (fold_left (chat_step (E := E)) ls sys)) !! room = Some tx.
Proof.
  revert sys; induction ls as [|[room username|k i] ls IH]; intros sys Hok; [done|..].
  - destruct (IH _ (upgraded_ok sys room username Hok)) as [H1 H2]. split; [exact H1|exact H2].
  - destruct (act_ok sys k i Hok) as [H1 H2]. destruct (IH _ H1) as [H3 H4]. split; [exact H3|].
    intros room tx Hroom. by apply H4, H2.
Qed.

Lemma chat_run_ok ls : chat_ok (chat_run (E := E) ls).
Proof. apply chat_steps_ok, chat_start_ok. Qed.

(** *** What a room's log holds *)

(** What a participant posts in a step: that it came, what its client sent, that
    it left. *)
Definition says (i : Input (E := E)) (s : Session) : list string :=
  match s_phase s, i with
  | AnnouncingJoin, Proceed _ _ => [system_json (s_room s) (s_user_id s +:+ " joined the room")]
  | Chatting, FromSocket (Some (Ok (Text text))) _ =>
      if str_is_empty (trim text) then [] else [user_json (s_user_id s) (s_room s) (trim text)]
  | AnnouncingLeave, Proceed _ _ => [system_json (s_room s) (s_user_id s +:+ " left the room")]
  | _, _ => []
  end.

(** What the participants of a room post in a step of the server, and in a run of
    it from [sys]. *)
Definition step_posts (sys : ChatSystem) (l : ChatLabel (E := E)) (room : string) : list string :=
  match l with
  | Upgraded _ _ => []
  | Act k i =>
      match sessions sys !! k with
      | Some s => if decide (s_room s = room) then says i s else []
      | None => []
      end
  end.
Fixpoint posts (ls : list (ChatLabel (E := E))) (sys : ChatSystem) (room : string) : list string :=
  match ls with
  | [] => []
  | l :: ls => step_posts sys l room ++ posts ls (chat_step sys l) room
  end.

Definition room_log (r : Rooms) (room : string) : list string :=
  match rooms r !! room ≫= (fun tx => heap r !! tx) with Some c => sent (view c) | None => [] end.

(** Whatever leaves the logs of the channels alone leaves those of the rooms. *)
Lemma on_channel_log {A} (none : A) tx f r room : (forall c, sent (view (snd (f c))) = sent (view c)) ->
  room_log (snd (on_channel none tx f r)) room = room_log r room.
Proof.
  intros Hf. unfold on_channel. destruct (heap r !! tx) as [c|] eqn:Hc; [|done].
  specialize (Hf c). destruct (f c) as [a c']. unfold room_log. cbn [fst snd rooms heap] in Hf |- *.
  destruct (rooms r !! room) as [t|]; [|done]. cbn. destruct (decide (t = tx)) as [->|Hne].
  - by rewrite list_lookup_insert_eq, Hc by by eapply lookup_lt_Some.
  - by rewrite list_lookup_insert_ne.
Qed.

Lemma entry_log room r room' : rooms_ok r -> room_log (snd (entry_or_insert room r)) room' = room_log r room'.
Proof.
  intros Hok. unfold entry_or_insert. destruct (rooms r !! room) as [a|] eqn:Ea; [done|]. unfold room_log. cbn.
  destruct (view_channel CHANNEL_CAPACITY) as (k & _ & Hk). destruct (decide (room' = room)) as [->|Hne].
  - rewrite lookup_insert_eq, Ea. cbn. rewrite lookup_app_r, Nat.sub_diag by lia. cbn. by rewrite Hk.
  - rewrite lookup_insert_ne by congruence. destruct (rooms r !! room') as [t|] eqn:Et; [|done]. cbn.
    by rewrite lookup_app_l by by eapply ro_bound.
Qed.

Lemma join_log room r room' : rooms_ok r -> room_log (snd (join room r)) room' = room_log r room'.
Proof.
  intros Hok. unfold join. pose proof (entry_log room r room' Hok) as He.
  destruct (entry_or_insert room r) as [a r1]. cbn [snd] in He. rewrite <- He.
  rewrite <- (on_channel_log 0%nat a subscribe r1 room').
  - by destruct (on_channel _ _ _ _).
  - intros c. destruct (view_subscribe c) as [_ ->]. done.
Qed.

(** A participant's post is the next entry of its room's log, and of no other. *)
Lemma post_log r s msg room : rooms_ok r -> on_log r s -> s_phase s <> Gone ->
  room_log (tx_send (s_tx s) msg r) room
    = room_log r room ++ (if decide (s_room s = room) then [msg] else []).
Proof.
  intros Hok (c & start & stop & Hroom & Hc & _ & _ & Hcur & _) Hg.
  unfold tx_send, on_channel. rewrite Hc. pose proof (view_send msg c) as Hv.
  rewrite decide_False in Hv.
  2:{ intros Ee. specialize (Hcur Hg). by rewrite Ee, lookup_empty in Hcur. }
  destruct (send msg c) as [o c']. cbn [fst snd] in Hv. destruct Hv as [_ Hv].
  unfold room_log. cbn [snd rooms heap]. case_decide as Hr.
  - subst room. rewrite Hroom. cbn. rewrite list_lookup_insert_eq by by eapply lookup_lt_Some. by rewrite Hc, Hv.
  - rewrite app_nil_r. destruct (rooms r !! room) as [t|] eqn:Et; [|done]. cbn.
    rewrite list_lookup_insert_ne; [done|]. intros <-. by apply Hr, (ro_inj r Hok _ _ _ Hroom Et).
Qed.

Lemma receive_sent rx c : sent (view (snd (receive rx c))) = sent (view c).
Proof. destruct (view_receive rx c) as [_ ->]. unfold receive_view. by repeat case_match. Qed.

Lemma step_log i s r room : rooms_ok r -> session_ok r s ->
  room_log (snd (session_step (E := E) i s r)) room
    = room_log r room ++ (if decide (s_room s = room) then says i s else []).
Proof.
  intros Hok Hs. assert (Hquiet : says i s = [] -> room_log (snd (session_step i s r)) room = room_log r room ->
    room_log (snd (session_step i s r)) room = room_log r room ++ (if decide (s_room s = room) then says i s else [])).
  { intros -> ->. destruct (decide _); by rewrite app_nil_r. }
  unfold session_ok in Hs. destruct (decide (s_phase s = Joining)) as [Hj|Hj].
  { apply Hquiet; unfold says, session_step; rewrite Hj; [done|]. destruct i; [|done..].
    pose proof (join_log (s_room s) r room Hok) as Hl. by destruct (join (s_room s) r) as [[tx rx] r1]. }
  destruct (s_phase s) eqn:Hp; try done; destruct i as [millis ok|msg ok|ok];
    try (apply Hquiet; unfold says, session_step; rewrite Hp; done).
  - unfold says, session_step. rewrite Hp. cbn [snd]. apply post_log; [done..|by rewrite Hp].
  - unfold session_step. rewrite Hp. cbn [snd]. unfold says. rewrite Hp.
    destruct msg as [[[text|b|d|d|f]|e]|]; cbn;
      try (by destruct (decide _); rewrite app_nil_r).
    destruct (str_is_empty (trim text)); cbn; [by destruct (decide _); rewrite app_nil_r|].
    apply post_log; [done..|by rewrite Hp].
  - apply Hquiet; unfold says, session_step; rewrite Hp; [done|]. unfold on_room.
    rewrite <- (on_channel_log NoValue (s_tx s) (receive (s_rx s)) r room) by apply receive_sent.
    destruct (on_channel _ _ _ _) as [[x|n|] r1]; [by destruct ok|done..].
  - unfold says, session_step. rewrite Hp. cbn [snd]. apply post_log; [done..|by rewrite Hp].
  - apply Hquiet; unfold says, session_step; rewrite Hp; [done|]. cbn [snd].
    destruct Hs as (c & start & stop & Hroom & Hc & _ & _ & Hcur & _).
    by rewrite (cleanup_keeps _ _ _ _ _ _ Hroom Hc (Hcur ltac:(by rewrite Hp))).
  - apply Hquiet; unfold says, session_step; rewrite Hp; [done|]. cbn [snd].
    apply on_channel_log. intros c. cbn. by rewrite view_drop_receiver.
Qed.

Lemma chat_log ls sys room : chat_ok sys ->
  room_log (state (fold_left (chat_step (E := E)) ls sys)) room = room_log (state sys) room ++ posts ls sys room.
Proof.
  revert sys; induction ls as [|l ls IH]; intros sys Hok; cbn; [by rewrite app_nil_r|].
  rewrite app_assoc, IH by (apply (chat_steps_ok [l]), Hok). f_equal.
  destruct l as [room' username|k i]; cbn; [by rewrite app_nil_r|].
  destruct (sessions sys !! k) as [s|] eqn:Ek; [|by rewrite app_nil_r].
  rewrite <- (step_log i s (state sys) room); [by destruct (session_step i s (state sys))|apply Hok|].
  by apply (co_sessions _ Hok k).
Qed.

(** *** Catching up *)

(** As long as its writes succeed and it is not further behind than the channel
    retains, a participant that takes its turns hears the rest of the log. *)
Fixpoint take_turns (n : nat) (s : Session) (r : Rooms) : Session * Rooms :=
  match n with
  | O => (s, r)
  | S n => let '(s, r) := session_step (E := E) (FromRoom true) s r in take_turns n s r
  end.

Lemma take_turns_spec n s r c stop : s_phase s = Chatting -> heap r !! s_tx s = Some c ->
  cursors (view c) !! s_rx s = Some stop -> (stop + n = List.length (sent (view c)))%nat ->
  (n <= retained (view c))%nat ->
  let '(s', r') := take_turns n s r in
  s_phase s' = Chatting /\ s_heard s' = s_heard s ++ map Received (drop stop (sent (view c))) /\
  s_out s' = s_out s ++ map Text (drop stop (sent (view c))).
Proof.
  revert s r c stop; induction n as [|n IH]; intros s r c stop Hp Hc Hcur Hlen Hn; cbn [take_turns].
  - rewrite drop_ge by lia. cbn. by rewrite !app_nil_r.
  - destruct (lookup_lt_is_Some_2 (sent (view c)) stop ltac:(lia)) as [x Hx].
    unfold session_step. rewrite Hp. unfold on_room, on_channel. rewrite Hc.
    destruct (view_receive (s_rx s) c) as [Ho Hv].
    rewrite (receive_in_time _ _ _ _ Hcur ltac:(lia) Hx) in Ho. unfold receive_view in Hv. rewrite Hcur in Hv.
    rewrite decide_False, Hx in Hv by lia. cbn in Hv.
    destruct (receive (s_rx s) c) as [o c']. cbn in Ho, Hv. subst o. cbn.
    match goal with |- context [take_turns n ?s1 ?r1] => specialize (IH s1 r1 c' (S stop)); destruct (take_turns n s1 r1) as [s' r'] end.
    rewrite Hv in IH. cbn in IH. destruct IH as (H1 & H2 & H3).
    + done.
    + apply list_lookup_insert_eq. by eapply lookup_lt_Some.
    + by rewrite lookup_insert_eq.
    + lia.
    + lia.
    + rewrite H2, H3, (drop_S _ _ _ Hx). cbn. rewrite <- !app_assoc. by split_and!.
Qed.
End Invariant.

(** ** Facts about names and lists *)

Section NameFacts.
Context `{Unicode}.

(** A character's bytes: one that starts it, then those that continue it. *)
Definition is_char (c : string) : Prop :=
  match c with String a t => utf8_cont a = false /\ str_forall utf8_cont t = true | "" => False end.

Lemma chars_from_cont c t rest : str_forall utf8_cont t = true ->
  chars_from c (t +:+ rest) = chars_from (c +:+ t) rest.
Proof.
  revert c; induction t as [|a t IH]; intros c Ht; cbn in *; [by rewrite sapp_nil_r|].
  apply andb_prop in Ht as [-> Ht]. rewrite IH by done. by rewrite <- sapp_assoc.
Qed.

Lemma chars_from_concat c cs : Forall is_char cs -> chars_from c (String.concat "" cs) = c :: cs.
Proof.
  revert c; induction cs as [|d cs IH]; intros c Hcs; [done|]. apply Forall_cons in Hcs as [Hd Hcs].
  destruct d as [|a t]; [done|]. destruct Hd as [Ha Ht].
  assert (String.concat "" (String a t :: cs) = String a (t +:+ String.concat "" cs)) as ->
    by (destruct cs; cbn; by rewrite ?sapp_nil_r).
  cbn. rewrite Ha. f_equal. rewrite chars_from_cont by done. by apply IH.
Qed.

Lemma chars_concat cs : Forall is_char cs -> chars (String.concat "" cs) = cs.
Proof.
  destruct cs as [|d cs]; [done|]. intros [Hd Hcs]%Forall_cons. destruct d as [|a t]; [done|].
  destruct Hd as [Ha Ht].
  assert (String.concat "" (String a t :: cs) = String a (t +:+ String.concat "" cs)) as ->
    by (destruct cs; cbn; by rewrite ?sapp_nil_r).
  cbn. rewrite chars_from_cont by done. by apply chars_from_concat.
Qed.

Lemma chars_from_chars c s : is_char c -> Forall is_char (chars_from c s).
Proof.
  revert c; induction s as [|a s IH]; intros c Hc; cbn; [by constructor|].
  destruct (utf8_cont a) eqn:Ea; [|constructor; [done|by apply IH]].
  apply IH. destruct c as [|b t]; [done|]. destruct Hc as [Hb Ht]. cbn. split; [done|].
  clear -Ht Ea. induction t as [|d t IH]; cbn in *; [by rewrite Ea|]. apply andb_prop in Ht as [-> Ht]. by apply IH.
Qed.

Lemma utf8_valid_lead a s : utf8_valid (String a s) = true -> utf8_cont a = false.
Proof.
  intros Hv. destruct (utf8_cont a) eqn:Ea; [|done]. exfalso.
  assert (forall lo hi, (hi < 128 \/ 191 < lo)%Z -> in_range lo hi a = false) as Hr.
  { unfold utf8_cont, in_range in *. bool_hyps. intros lo hi Hlo. destruct (lo <=? byte_val a)%Z eqn:E1; [|done].
    destruct (byte_val a <=? hi)%Z eqn:E2; [|done]. bool_hyps. lia. }
  cbn [utf8_valid] in Hv. rewrite !Hr in Hv by lia. destruct s as [|b [|c [|d s]]]; discriminate Hv.
Qed.

Lemma lower_cont a : utf8_cont (to_ascii_lowercase_char a) = utf8_cont a.
Proof. by destruct a as [[] [] [] [] [] [] [] []]. Qed.
Lemma lower_char c : is_char c -> is_char (to_ascii_lowercase c).
Proof.
  destruct c as [|a t]; [done|]. cbn. rewrite lower_cont. intros [Ha Ht]. split; [done|]. revert Ht.
  induction t as [|b t IH]; cbn; [done|]. rewrite lower_cont. intros [-> Ht]%andb_prop. by apply IH.
Qed.
End NameFacts.

Section ListFacts.

Definition add_room (l : list string) (r : string) : list string :=
  if bool_decide (r ∈ l) then l else l ++ [r].

Lemma add_rooms_elem ds keys x : x ∈ fold_left add_room ds keys <-> x ∈ keys \/ x ∈ ds.
Proof.
  revert keys; induction ds as [|d ds IH]; intros keys; cbn; [set_solver|].
  rewrite IH. unfold add_room. case_bool_decide; set_solver.
Qed.
Lemma add_rooms_nodup ds keys : NoDup keys -> NoDup (fold_left add_room ds keys).
Proof.
  revert keys; induction ds as [|d ds IH]; intros keys Hk; cbn; [done|]. apply IH. unfold add_room.
  case_bool_decide; [done|]. apply NoDup_app. split_and!; [done|set_solver|apply NoDup_singleton].
Qed.
End ListFacts.

(** ** Properties *)

(** C31. A room is one log. In every run of the server, however participants join,
    talk, lag, fail and leave: all who are or were in a room are on one channel,
    the room's; on it is exactly what the participants of that room posted, in
    the order they did (that each came, the messages its client sent, that it
    left), each entry in the room's shape; and what each
    has received is, in order and without repetition, a part of it from one point
    on, where what is missing was announced as lost, and is nothing if nothing was
    so announced. Each value received went out to its socket in that order, but
    for one whose write failed, after which it leaves. *)
Theorem room_is_a_log `{BL : BroadcastLaws} `{CoreCrates} {E} (ls : list (ChatLabel (E := E))) k s :
  sessions (chat_run ls) !! k = Some s -> s_phase s <> Joining ->
  exists c start stop,
    rooms (state (chat_run ls)) !! s_room s = Some (s_tx s) /\
    heap (state (chat_run ls)) !! s_tx s = Some c /\ Forall (posted (s_room s)) (sent (view c)) /\
    sent (view c) = posts ls chat_start (s_room s) /\
    values (s_heard s) `sublist_of` drop start (sent (view c)) /\
    (start + List.length (values (s_heard s)) + lost (s_heard s) = stop)%nat /\
    (stop <= List.length (sent (view c)))%nat /\
    (lost (s_heard s) = 0%nat -> values (s_heard s) = take (stop - start) (drop start (sent (view c)))) /\
    exists told, map Text told `sublist_of` s_out s /\
      (values (s_heard s) = told \/ leaving (s_phase s) = true /\ exists x, values (s_heard s) = told ++ [x]).
Proof.
  intros Hk Hj. destruct (chat_run_ok ls) as [Hr Hs _]. specialize (Hs k s Hk).
  unfold session_ok in Hs. rewrite decide_False in Hs by done.
  destruct Hs as (c & start & stop & Hroom & Hc & Hw & Hle & _ & Hf).
  destruct (walk_values _ _ _ _ Hw) as (H1 & H2 & H3). exists c, start, stop.
  pose proof (chat_log ls chat_start (s_room s) chat_start_ok) as Hlog.
  unfold room_log in Hlog at 1. fold (chat_run ls) in Hlog. rewrite Hroom in Hlog. cbn in Hlog. rewrite Hc in Hlog.
  split_and!; try done. by eapply ro_posted.
Qed.

(** A participant that keeps up hears everything: from any state, with as many
    turns as there are values on the log it has not heard, if the channel still
    retains these. *)
Theorem chat_catches_up `{BL : BroadcastLaws} `{CoreCrates} {E} (ls : list (ChatLabel (E := E))) k s :
  sessions (chat_run ls) !! k = Some s -> s_phase s = Chatting ->
  exists c stop, heap (state (chat_run ls)) !! s_tx s = Some c /\
    (List.length (sent (view c)) - stop <= retained (view c) ->
     let '(s', _) := take_turns (E := E) (List.length (sent (view c)) - stop) s (state (chat_run ls)) in
     s_phase s' = Chatting /\ s_heard s' = s_heard s ++ map Received (drop stop (sent (view c))) /\
     s_out s' = s_out s ++ map Text (drop stop (sent (view c))))%nat.
Proof.
  intros Hk Hp. destruct (chat_run_ok ls) as [_ Hs _]. specialize (Hs k s Hk).
  unfold session_ok in Hs. rewrite decide_False in Hs by by rewrite Hp.
  destruct Hs as (c & start & stop & _ & Hc & Hw & Hle & Hcur & _). exists c, stop. split; [done|].
  intros Hn. apply (take_turns_spec _ _ _ c); try done; [apply Hcur; by rewrite Hp|lia].
Qed.

(** Rooms are never closed. [cleanup] runs while the participant still has its
    receiver, so it always finds one: a room that was ever joined, by whatever
    name a client asked for, is in the map for good. *)
Theorem rooms_never_close `{BL : BroadcastLaws} `{CoreCrates} {E} (ls more : list (ChatLabel (E := E))) :
  (forall room tx, rooms (state (chat_run ls)) !! room = Some tx ->
     rooms (state (chat_run (ls ++ more))) !! room = Some tx) /\
  (forall k s, sessions (chat_run ls) !! k = Some s -> s_phase s = Gone ->
     rooms (state (chat_run (ls ++ more))) !! s_room s = Some (s_tx s)).
Proof.
  assert (Hkeep : forall room tx, rooms (state (chat_run ls)) !! room = Some tx ->
     rooms (state (chat_run (ls ++ more))) !! room = Some tx).
  { unfold chat_run. rewrite fold_left_app. apply chat_steps_ok, chat_run_ok. }
  split; [exact Hkeep|]. intros k s Hk Hg. apply Hkeep.
  destruct (chat_run_ok ls) as [_ Hs _]. specialize (Hs k s Hk). unfold session_ok in Hs.
  rewrite decide_False in Hs by by rewrite Hg. by destruct Hs as (c & start & stop & Hr & _).
Qed.

(** A room's name has at most 32 characters, each of which is one of the name
    asked for, in lower case. *)
Theorem sanitize_room_bounded `{Unicode} name :
  utf8_valid name = true ->
  (List.length (chars (sanitize_room name)) <= 32)%nat /\
  Forall (fun c => exists d, d ∈ chars name /\ c = to_ascii_lowercase d /\
            (is_alphanumeric d = true \/ d = "-")) (chars (sanitize_room name)).
Proof.
  intros Hv. assert (Forall is_char (chars name)) as Hc.
  { destruct name as [|a s]; [by constructor|]. cbn. apply chars_from_chars. split; [|done].
    by eapply utf8_valid_lead. }
  unfold sanitize_room. rewrite chars_concat.
  - split; [rewrite length_take; lia|]. apply Forall_take, Forall_forall. intros c Hin.
    apply list_elem_of_In, in_map_iff in Hin as (d & <- & Hd). apply List.filter_In in Hd as [Hd Hb].
    exists d. split_and!; [by apply list_elem_of_In|done|]. apply orb_prop in Hb as [Hb|Hb%String.eqb_eq]; auto.
  - apply Forall_take, Forall_forall. intros c Hin.
    apply list_elem_of_In, in_map_iff in Hin as (d & <- & Hd). apply List.filter_In in Hd as [Hd _].
    apply lower_char. rewrite Forall_forall in Hc. by apply Hc, list_elem_of_In.
Qed.

(** The list of rooms is in order, has each room and each of the three default
    ones once, and does not depend on the order of the map. *)
Theorem rooms_list_canonical keys keys' :
  NoDup keys -> Permutation keys keys' ->
  rooms_list keys = rooms_list keys' /\ Sorted (≤)%string (rooms_list keys) /\ NoDup (rooms_list keys) /\
  forall r, r ∈ rooms_list keys <-> r ∈ keys \/ r ∈ ["general"; "rust"; "random"].
Proof.
  intros Hn Hp. assert (Hn' : NoDup keys') by (by rewrite <- Hp).
  set (ds := ["general"; "rust"; "random"]).
  change (rooms_list ?k) with (merge_sort (≤)%string (fold_left add_room ds k)).
  assert (Hs : forall k, Permutation (merge_sort (≤)%string (fold_left add_room ds k)) (fold_left add_room ds k))
    by (intros k; apply merge_sort_Permutation).
  split_and!.
  - apply (Sorted_unique (≤)%string); [apply Sorted_merge_sort; apply _..|].
    rewrite !Hs. apply NoDup_Permutation; [by apply add_rooms_nodup..|].
    intros x. rewrite !add_rooms_elem. by rewrite Hp.
  - apply Sorted_merge_sort. apply _.
  - rewrite Hs. by apply add_rooms_nodup.
  - intros r. rewrite Hs. apply add_rooms_elem.
Qed.

(** ** Witness *)

(** Ann and Bob in the general room; a printer that keeps the texts. *)
Module DemoChat.
Definition print (j : Json) : string :=
  match j with
  | JObject fields => String.concat "|" (map (fun f => match snd f with JString s => s | _ => "" end) fields)
  | _ => ""
  end.
#[export] Instance crates : CoreCrates := {
  canonical_reason _ := None; status_to_string := to_dec; json_to_string := print }.
Definition ls : list (ChatLabel (E := unit)) :=
  [Upgraded "general" "ann"; Upgraded "general" "";
   Act 0 (Proceed 0 true); Act 0 (Proceed 0 true); Act 1 (Proceed 42 true); Act 0 (Proceed 0 true);
   Act 1 (Proceed 0 true); Act 1 (Proceed 0 true);
   Act 0 (FromSocket (Some (Ok (Text " hi "))) true);
   Act 1 (FromRoom true); Act 1 (FromRoom true); Act 1 (FromSocket None true); Act 0 (FromRoom true);
   Act 1 (Proceed 0 true); Act 1 (Proceed 0 true); Act 1 (Proceed 0 true)].
Definition bob : Session := Eval vm_compute in
  default (session_new "" "") (sessions (chat_run ls) !! 1%nat).
Lemma bob_runs : sessions (chat_run ls) !! 1%nat = Some bob.
Proof. vm_compute. reflexivity. Qed.
End DemoChat.
Import DemoChat.

(** Bob heard that he came, and Ann's words, and is gone. *)
Lemma room_is_a_log_witness :
  s_phase DemoChat.bob = Gone /\
  values (s_heard DemoChat.bob) = ["|general|Guest-42 joined the room"; "ann|general|hi"] /\
  exists c, rooms (state (chat_run DemoChat.ls)) !! "general" = Some (s_tx DemoChat.bob) /\
    heap (state (chat_run DemoChat.ls)) !! s_tx DemoChat.bob = Some c /\ Forall (posted "general") (sent (view c)).
Proof.
  split; [reflexivity|]. split; [reflexivity|].
  destruct (room_is_a_log DemoChat.ls 1 DemoChat.bob DemoChat.bob_runs) as (c & start & stop & H1 & H2 & H3 & _);
    [discriminate|].
  exists c. split; [exact H1|]. split; [exact H2|exact H3].
Defined.

(** A server all have left: its room stays. *)
Example empty_room_stays :
  rooms (state (chat_run (E := unit)
    [Upgraded "x" "ann"; Act 0 (Proceed 0 true); Act 0 (Proceed 0 true); Act 0 (Proceed 0 true);
     Act 0 (FromSocket None true); Act 0 (Proceed 0 true); Act 0 (Proceed 0 true); Act 0 (Proceed 0 true)]))
  = {[ "x" := 0%nat ]}.
Proof. vm_compute. reflexivity. Qed.

(** The application is built, and its room route names what it captures. *)
Example chat_app_builds :
  match chat_app (H := ListHttp) (DemoRoute.h "index") (DemoRoute.h "rooms") (DemoRoute.h "ws") (DemoRoute.h "room") with
  | Some r => map re_pattern (r_routes r) = ["/"; "/rooms"; "/ws"; "/ws/room/{room}"] /\
      trie_at (r_trie r) "/ws/room/rust" = Some (3%nat, [("room", "rust")])
  | None => False
  end.
Proof. vm_compute. split; reflexivity. Qed.
