(* ===== verification/SseDemo.v ===== *)
(** * The event stream example

    [examples/sse_demo/src/main.rs], a program on the framework's event streams:
    a counter, a stream of metrics, and a broadcast of the messages posted, with
    what a browser reads from them.

    The interval streams are polled with the environment's answers; [tokio]'s
    channel is the class [Broadcast].  The metric's fields are floating point
    functions of the standard library, its JSON a parameter. *)
From S2P Require Import Prelude RustStr HttpCrate Body Http Sse Broadcast.
From stdpp Require Import base list strings gmap.
From Stdlib Require Import ZArith Lia Ascii String.
Open Scope string_scope.
Open Scope list_scope.

(** ** The interval streams *)

(** [IntervalStream::enumerate().map(f)]: the polls at which the interval has
    ticked. *)
Fixpoint enumerated (f : Z -> result Event BoxError) (i : Z) (polls : list (Z * bool)) : list (Z * StreamPoll) :=
  match polls with
  | [] => []
  | (now, true) :: polls => (now, SReady (Some (f i))) :: enumerated f (i + 1) polls
  | (now, false) :: polls => (now, SPending) :: enumerated f i polls
  end.

Definition tick (i : Z) : Event := data (to_dec i) (id (to_dec i) (event "tick" event_default)).

Definition counter (polls : list (Z * bool)) : Sse :=
  with_keep_alive (keep_alive_interval (15 * SECOND) keep_alive_default)
    (sse_new (enumerated (fun i => Ok (tick i)) 0 polls)).

(** [metric] is [serde_json::to_string] of the [i]-th [Metric]. *)
Definition json_stream (metric : Z -> result string BoxError) (polls : list (Z * bool)) : Sse :=
  with_keep_alive (keep_alive_interval (10 * SECOND) keep_alive_default)
    (sse_new (enumerated (fun i => json_data (metric i) (id (to_dec i) (event "metric" event_default))) 0 polls)).

(** ** The notifications *)

Definition notification (msg : string) : Event := data msg (event "notification" event_default).

(** [BroadcastStream::new(rx).filter_map(ok).map(..)], of what its polls receive:
    a lag is skipped. *)
Fixpoint notification_polls (heard : list (Z * Recv)) : list (Z * StreamPoll) :=
  match heard with
  | [] => []
  | (now, Received msg) :: heard => (now, SReady (Some (Ok (notification msg)))) :: notification_polls heard
  | (_, Lagged _) :: heard => notification_polls heard
  | (now, NoValue) :: heard => (now, SPending) :: notification_polls heard
  end.

Definition notifications (heard : list (Z * Recv)) : Sse :=
  with_keep_alive keep_alive_default (sse_new (notification_polls heard)).

Section Server.
Context `{Broadcast}.

(** The shared channel, and the receiver of each stream, while it is open, with
    what it has received. *)
Record AppState := mkApp { tx : Channel; streams : list (option nat * list (Z * Recv)) }.
Definition app_start : AppState := mkApp (channel 32) [].

(** [POST /notify], [GET /notifications], a poll of a stream, and the end of its
    connection, which drops the receiver with the response. *)
Inductive ServerRequest := Notify (message : string) | Open | PollStream (k : nat) (now : Z) | Close (k : nat).

Definition notify (message : string) (a : AppState) : AppState * string :=
  (mkApp (snd (send message (tx a))) (streams a), "ok").

Definition app_step (a : AppState) (q : ServerRequest) : AppState :=
  match q with
  | Notify message => fst (notify message a)
  | Open => let '(rx, c) := subscribe (tx a) in mkApp c (streams a ++ [(Some rx, [])])
  | PollStream k now =>
      match streams a !! k with
      | Some (Some rx, heard) =>
          let '(o, c) := receive rx (tx a) in mkApp c (<[k := (Some rx, heard ++ [(now, o)])]> (streams a))
      | _ => a
      end
  | Close k =>
      match streams a !! k with
      | Some (Some rx, heard) => mkApp (drop_receiver rx (tx a)) (<[k := (None, heard)]> (streams a))
      | _ => a
      end
  end.
Definition app_run (qs : list ServerRequest) : AppState := fold_left app_step qs app_start.

Fixpoint notified (qs : list ServerRequest) : list string :=
  match qs with
  | [] => []
  | Notify message :: qs => message :: notified qs
  | _ :: qs => notified qs
  end.
End Server.

(** ** Facts *)

Import EventSource.

Lemma take_while_all f s : str_forall f s = true -> str_take_while f s = s.
Proof. induction s as [|a s IH]; [done|]. cbn. intros [-> Hs]%andb_prop. by rewrite IH. Qed.
Lemma filter_all f s : str_forall f s = true -> str_filter f s = s.
Proof. induction s as [|a s IH]; [done|]. cbn. intros [-> Hs]%andb_prop. by rewrite IH. Qed.

Lemma digits_are (f : ascii -> bool) s : (forall a, is_ascii_digit a = true -> f a = true) ->
  str_forall is_ascii_digit s = true -> str_forall f s = true.
Proof. intros Hf. by apply str_forall_impl. Qed.

(** A number passes the builders unchanged. *)
Lemma deliver_tick c i : (0 <= i)%Z ->
  deliver c (tick i) = mkClient (to_dec i) (c_retry c) (c_messages c ++ [mkMessage "tick" (to_dec i) (to_dec i)]).
Proof.
  intros Hi. destruct (to_dec_spec i Hi) as (_ & Hd & _).
  assert (str_take_while not_newline (to_dec i) = to_dec i) as Ht.
  { apply take_while_all. revert Hd. apply digits_are. by intros [[] [] [] [] [] [] [] []]. }
  assert (str_filter (fun c => negb (Ascii.eqb c NUL)) (to_dec i) = to_dec i) as Hf.
  { apply filter_all. revert Hd. apply digits_are. by intros [[] [] [] [] [] [] [] []]. }
  assert (normalize_newlines (to_dec i) = to_dec i) as Hn.
  { unfold normalize_newlines. replace (contains_char CR (to_dec i)) with false; [done|]. symmetry.
    apply negb_true_iff. rewrite <- str_forall_not_char. revert Hd. apply digits_are.
    by intros [[] [] [] [] [] [] [] []]. }
  unfold deliver, tick. cbn [data set_data id event event_default e_id e_retry e_data e_event e_comment].
  by rewrite Ht, Hf, Hn.
Qed.

Lemma tick_wf i : event_wf (tick i) = true.
Proof. apply (build_wf [CallEvent "tick"; CallId (to_dec i); CallData (to_dec i)]). Qed.
Lemma notification_wf msg : event_wf (notification msg) = true.
Proof. apply (build_wf [CallEvent "notification"; CallData msg]). Qed.

(** The numbers an interval counts. *)
Fixpoint counted (i : Z) (polls : list (Z * bool)) : list Z :=
  match polls with
  | [] => []
  | (_, true) :: polls => i :: counted (i + 1) polls
  | (_, false) :: polls => counted i polls
  end.

Lemma counted_seq i polls : counted i polls = seqZ i (Z.of_nat (count_occ Bool.bool_dec (map snd polls) true)).
Proof.
  revert i; induction polls as [|[now [|]] polls IH]; intros i; cbn; [done| |apply IH].
  rewrite IH. destruct (Bool.bool_dec true true); [|done].
  rewrite (seqZ_cons i) by lia. f_equal. f_equal; lia.
Qed.

Lemma yielded_counter i polls :
  yielded (enumerated (fun i => Ok (tick i)) i polls) = map tick (counted i polls).
Proof. revert i; induction polls as [|[now [|]] polls IH]; intros i; cbn; [done| |apply IH]. by rewrite IH. Qed.

Lemma deliver_ticks ns c : Forall (fun i => 0 <= i)%Z ns ->
  c_messages (fold_left deliver (map tick ns) c) =
  c_messages c ++ map (fun i => mkMessage "tick" (to_dec i) (to_dec i)) ns.
Proof.
  revert c; induction ns as [|i ns IH]; intros c His; [cbn; by rewrite app_nil_r|].
  apply Forall_cons in His as [Hi His]. cbn. rewrite IH, deliver_tick by done. cbn. by rewrite <- app_assoc.
Qed.

Lemma yielded_notifications heard :
  yielded (notification_polls heard) = map notification (values (map snd heard)).
Proof. induction heard as [|[now [v|n|]] heard IH]; cbn; [done|by rewrite IH|apply IH..]. Qed.

Lemma deliver_notifications vs c :
  c_messages (fold_left deliver (map notification vs) c) =
  c_messages c ++ map (fun v => mkMessage "notification" (normalize_newlines v) (c_last_id c)) vs.
Proof.
  revert c; induction vs as [|v vs IH]; intros c; [cbn; by rewrite app_nil_r|].
  cbn. rewrite IH. cbn. by rewrite <- app_assoc.
Qed.

Lemma clock_fits_enumerated instant_max interval f i polls :
  Forall (fun p => fst p + interval <= instant_max)%Z polls ->
  clock_fits instant_max (enumerated f i polls) interval.
Proof.
  intros Hp. revert i; induction Hp as [|[now [|]] polls Hn Hp IH]; intros i; constructor; try apply IH; apply Hn.
Qed.

(** ** What the clients read *)
Section Clients.
Context `{HL : HttpLaws}.

Definition messages (r : Response) : list SourceMessage :=
  c_messages (client_of (parse (sent_bytes (body_frames (res_body r))))).

(** A stream with a keep-alive timer reaches the client as the events it yields. *)
Lemma keep_alive_messages instant_max now polls interval :
  Forall (fun e => event_wf e = true) (yielded polls) ->
  let k := build_keep_alive interval None in
  clock_fits instant_max polls (ka_interval k) ->
  exists r, into_response instant_max now (with_keep_alive k (sse_new polls)) = Some r /\
    messages r = c_messages (fold_left deliver (yielded polls) client0).
Proof.
  cbn zeta. intros Hwf Hfit. unfold into_response, messages. cbn [sse_stream sse_keep_alive with_keep_alive sse_new].
  destruct (keep_alive_body instant_max now polls interval None Hwf Hfit) as (frames & -> & Hc).
  eexists. split; [reflexivity|].
  unfold rb_header_str. rewrite !hv_from_str_visible by done. by rewrite <- Hc.
Qed.

(** Whenever the interval's ticks are polled and whatever comments the timer puts
    between them, a client of the counter reads one message per tick, numbered
    from zero without a gap, each with its number as its id. *)
Theorem counter_client instant_max now polls :
  Forall (fun p => fst p + 15 * SECOND <= instant_max)%Z polls ->
  exists r, into_response instant_max now (counter polls) = Some r /\
    messages r = map (fun i => mkMessage "tick" (to_dec i) (to_dec i))
                   (seqZ 0 (Z.of_nat (count_occ Bool.bool_dec (map snd polls) true))).
Proof.
  intros Hp.
  destruct (keep_alive_messages instant_max now (enumerated (fun i => Ok (tick i)) 0 polls)
              (Some (15 * SECOND)%Z)) as (r & Hr & Hm).
  - rewrite yielded_counter. apply Forall_map, Forall_forall. intros i _. apply tick_wf.
  - by apply clock_fits_enumerated.
  - exists r. split; [exact Hr|]. rewrite Hm, yielded_counter, counted_seq, deliver_ticks; [done|].
    apply Forall_seqZ. lia.
Qed.

Lemma clock_fits_notifications instant_max interval heard :
  Forall (fun p => fst p + interval <= instant_max)%Z heard ->
  clock_fits instant_max (notification_polls heard) interval.
Proof.
  induction 1 as [|[now [v|n|]] heard Hn Hh IH]; cbn; [constructor|by constructor|exact IH|by constructor].
Qed.

Lemma notifications_messages instant_max now heard :
  Forall (fun p => fst p + ka_interval keep_alive_default <= instant_max)%Z heard ->
  exists r, into_response instant_max now (notifications heard) = Some r /\
    messages r = map (fun v => mkMessage "notification" (normalize_newlines v) "") (values (map snd heard)).
Proof.
  intros Hh. destruct (keep_alive_messages instant_max now (notification_polls heard) None) as (r & Hr & Hm).
  - rewrite yielded_notifications. apply Forall_map, Forall_forall. intros v _. apply notification_wf.
  - by apply clock_fits_notifications.
  - exists r. split; [exact Hr|]. by rewrite Hm, yielded_notifications, deliver_notifications.
Qed.
End Clients.

Section Notifications.
Context `{BL : BroadcastLaws} `{HL : HttpLaws}.

Lemma notified_app qs qs' : notified (qs ++ qs') = notified qs ++ notified qs'.
Proof. induction qs as [|[] qs IH]; cbn; [done|by rewrite IH|apply IH..]. Qed.

(** Each open stream has a receiver of its own. *)
Definition app_wf (a : AppState) : Prop :=
  forall j rx heard, streams a !! j = Some (Some rx, heard) ->
    is_Some (cursors (view (tx a)) !! rx) /\
    forall j' heard', streams a !! j' = Some (Some rx, heard') -> j' = j.

Lemma lookup_replaced {A} (l : list A) k j x y z : l !! k = Some z ->
  <[k := x]> l !! j = Some y -> (j = k /\ x = y) \/ (j <> k /\ l !! j = Some y).
Proof.
  intros Hk. destruct (decide (j = k)) as [->|Hne].
  - rewrite list_lookup_insert_eq by (by eapply lookup_lt_Some). intros [= ->]. by left.
  - rewrite list_lookup_insert_ne by done. by right.
Qed.

Lemma send_cursors x c : cursors (view (snd (send x c))) = cursors (view c).
Proof. pose proof (view_send x c) as Hv. case_decide; destruct Hv as [_ ->]; done. Qed.

Lemma app_step_wf a q : app_wf a -> app_wf (app_step a q).
Proof.
  intros Hwf. destruct q as [x| |k now|k]; cbn.
  - intros j rx heard. cbn. rewrite send_cursors. apply Hwf.
  - destruct (subscribe (tx a)) as [rx c] eqn:Hs. destruct (view_subscribe (tx a)) as [Hnew Hc].
    rewrite Hs in Hnew, Hc. cbn in Hnew, Hc.
    intros j r heard [Hj|[-> [= <- <-]]]%lookup_snoc_Some; cbn; rewrite Hc; cbn.
    + destruct (Hwf _ _ _ (proj2 Hj)) as [Hr Hu]. split.
      { rewrite lookup_insert_ne; [done|]. intros ->. rewrite Hnew in Hr. by destruct Hr. }
      intros j' heard' [Hj'|[-> [= <- <-]]]%lookup_snoc_Some; [by eapply Hu, Hj'|].
      rewrite Hnew in Hr. by destruct Hr.
    + split; [by rewrite lookup_insert_eq|].
      intros j' heard' [[_ Hj']|[-> _]]%lookup_snoc_Some; [|done].
      destruct (Hwf _ _ _ Hj') as [Hr _]. rewrite Hnew in Hr. by destruct Hr.
  - destruct (streams a !! k) as [[[rx|] heard]|] eqn:Hk; [|done..].
    destruct (receive rx (tx a)) as [o c] eqn:Hr. destruct (view_receive rx (tx a)) as [_ Hc].
    rewrite Hr in Hc. cbn in Hc.
    assert (forall r, is_Some (cursors (view c) !! r) <-> is_Some (cursors (view (tx a)) !! r)) as Hd.
    { intros r. by rewrite <- !elem_of_dom, Hc, receive_dom. }
    intros j r h Hj. cbn in Hj |- *. rewrite Hd.
    destruct (lookup_replaced _ _ _ _ _ _ Hk Hj) as [[-> [= <- <-]]|[Hne Hj']].
    + destruct (Hwf _ _ _ Hk) as [? Hu]. split; [done|].
      intros j' h' Hl. destruct (lookup_replaced _ _ _ _ _ _ Hk Hl) as [[-> _]|[_ Hl']]; [done|by eapply Hu].
    + destruct (Hwf _ _ _ Hj') as [? Hu]. split; [done|].
      intros j' h' Hl. destruct (lookup_replaced _ _ _ _ _ _ Hk Hl) as [[-> [= -> _]]|[_ Hl']]; eauto.
  - destruct (streams a !! k) as [[[rx|] heard]|] eqn:Hk; [|done..].
    intros j r h Hj. cbn in Hj |- *. rewrite view_drop_receiver. cbn.
    destruct (lookup_replaced _ _ _ _ _ _ Hk Hj) as [[-> [=]]|[Hne Hj']].
    destruct (Hwf _ _ _ Hj') as [? Hu]. split.
    + rewrite lookup_delete_ne; [done|]. intros ->. apply Hne. symmetry. by eapply Hu.
    + intros j' h' Hl. destruct (lookup_replaced _ _ _ _ _ _ Hk Hl) as [[-> [=]]|[_ Hl']]. by eapply Hu.
Qed.

(** What a stream has received walks over what was sent since it was opened. *)
Definition follows (log0 : list string) (a : AppState) (rx : nat) (heard : list (Z * Recv)) (news : list string) : Prop :=
  sent (view (tx a)) = log0 ++ news /\
  exists p, cursors (view (tx a)) !! rx = Some p /\
    walk (log0 ++ news) (List.length log0) (map snd heard) = Some p.

Lemma follows_send log0 a rx heard news x : app_wf a -> follows log0 a rx heard news ->
  follows log0 (fst (notify x a)) rx heard (news ++ [x]).
Proof.
  intros Hwf (Hs & p & Hp & Hw). unfold follows. cbn. rewrite send_cursors.
  pose proof (view_send x (tx a)) as Hv. rewrite decide_False in Hv by (intros He; by rewrite He in Hp).
  destruct Hv as [_ ->]. cbn. rewrite Hs, app_assoc. split; [done|]. exists p. split; [done|].
  by apply walk_grow.
Qed.

Lemma follows_receive log0 a rx heard news now ss : follows log0 a rx heard news ->
  follows log0 (mkApp (snd (receive rx (tx a))) ss) rx (heard ++ [(now, fst (receive rx (tx a)))]) news.
Proof.
  intros (Hs & p & Hp & Hw). destruct (view_receive rx (tx a)) as [Ho Hc].
  destruct (walk_bound _ _ _ _ Hw) as [Hb _].
  destruct (receive_walks rx (view (tx a)) p Hp) as (q & Hq & Hwq & _ & Hsq & _).
  { rewrite Hs. apply Hb. rewrite length_app. lia. }
  split; cbn; rewrite Hc; [by rewrite Hsq|]. exists q. split; [done|].
  rewrite map_app, walk_app, Hw. cbn [mbind option_bind map snd]. by rewrite Ho, <- Hs.
Qed.

(** A receive for one stream leaves the others where they are. *)
Lemma follows_others log0 a rx rx' heard news ss : app_wf a -> rx <> rx' -> is_Some (cursors (view (tx a)) !! rx') ->
  follows log0 a rx heard news -> follows log0 (mkApp (snd (receive rx' (tx a))) ss) rx heard news.
Proof.
  intros Hwf Hne [p' Hp'] (Hs & p & Hp & Hw). destruct (view_receive rx' (tx a)) as [_ Hc].
  unfold follows. cbn. rewrite Hc. unfold receive_view. rewrite Hp'.
  case_decide; [|destruct (sent (view (tx a)) !! p') eqn:?]; cbn; (split; [done|]); exists p; split; try done.
  all: by rewrite lookup_insert_ne by congruence.
Qed.

Lemma follows_step log0 a q k rx heard news : app_wf a -> (k < List.length (streams a))%nat ->
  streams (app_step a q) !! k = Some (Some rx, heard) ->
  exists h, streams a !! k = Some (Some rx, h) /\
    (follows log0 a rx h news -> follows log0 (app_step a q) rx heard (news ++ notified [q])).
Proof.
  intros Hwf Hk. destruct q as [x| |k' now|k']; cbn [app_step notified].
  - cbn. intros Hl. exists heard. split; [done|]. by apply follows_send.
  - destruct (subscribe (tx a)) as [r c] eqn:Hs. destruct (view_subscribe (tx a)) as [Hnew Hc].
    rewrite Hs in Hnew, Hc. cbn in Hnew, Hc |- *. intros [[_ Hl]|[-> _]]%lookup_snoc_Some; [|lia].
    exists heard. split; [done|]. intros (Hsent & p & Hp & Hw). rewrite app_nil_r. unfold follows. cbn.
    rewrite Hc. split; [done|]. exists p. cbn. rewrite lookup_insert_ne by congruence. done.
  - rewrite app_nil_r. destruct (streams a !! k') as [[[r|] h']|] eqn:Hk'; [|by eauto..].
    rewrite (surjective_pairing (receive r (tx a))). cbn [streams]. intros Hl.
    destruct (lookup_replaced _ _ _ _ _ _ Hk' Hl) as [[-> [= -> <-]]|[Hne Hl']].
    + exists h'. split; [done|]. by apply follows_receive.
    + exists heard. split; [done|]. destruct (Hwf _ _ _ Hk') as [Hr Hu].
      apply follows_others; [done| |done]. intros ->. apply Hne. by eapply Hu.
  - rewrite app_nil_r. destruct (streams a !! k') as [[[r|] h']|] eqn:Hk'; [|by eauto..]. cbn. intros Hl.
    destruct (lookup_replaced _ _ _ _ _ _ Hk' Hl) as [[-> [=]]|[Hne Hl']].
    exists heard. split; [done|]. intros (Hsent & p & Hp & Hw). unfold follows. cbn.
    rewrite view_drop_receiver. cbn. split; [done|]. exists p. split; [|done].
    rewrite lookup_delete_ne; [done|]. intros ->. apply Hne. destruct (Hwf _ _ _ Hk') as [_ Hu]. by eapply Hu.
Qed.

Lemma app_step_grows a q : (List.length (streams a) <= List.length (streams (app_step a q)))%nat.
Proof.
  destruct q as [x| |k now|k]; cbn; [done|..].
  - destruct (subscribe (tx a)). cbn. rewrite length_app. lia.
  - destruct (streams a !! k) as [[[r|] h]|]; [|done..]. destruct (receive r (tx a)). cbn. by rewrite length_insert.
  - destruct (streams a !! k) as [[[r|] h]|]; [|done..]. cbn. by rewrite length_insert.
Qed.

Lemma steps_wf qs a : app_wf a ->
  app_wf (fold_left app_step qs a) /\ (List.length (streams a) <= List.length (streams (fold_left app_step qs a)))%nat.
Proof.
  revert a; induction qs as [|q qs IH]; intros a Hwf; [done|]. cbn.
  destruct (IH (app_step a q)) as [? Hl]; [by apply app_step_wf|]. split; [done|].
  etrans; [apply app_step_grows|exact Hl].
Qed.

Lemma app_run_wf qs : app_wf (app_run qs).
Proof. apply steps_wf. by intros j rx heard. Qed.

Lemma stream_follows before after rx heard :
  streams (fold_left app_step after (app_step (app_run before) Open)) !! List.length (streams (app_run before)) =
    Some (Some rx, heard) ->
  follows (sent (view (tx (app_run before)))) (fold_left app_step after (app_step (app_run before) Open)) rx heard
    (notified after).
Proof.
  pose proof (app_run_wf before) as Hwf. set (a := app_run before) in *.
  revert rx heard. induction after as [|q after IH] using rev_ind; intros rx heard.
  - cbn. destruct (subscribe (tx a)) as [r c] eqn:Hs. destruct (view_subscribe (tx a)) as [_ Hc].
    rewrite Hs in Hc. cbn in Hc |- *. intros [[Hl _]|[_ [= <- <-]]]%lookup_snoc_Some; [lia|].
    unfold follows. cbn. rewrite Hc, app_nil_r. cbn. split; [done|]. eexists. by rewrite lookup_insert_eq.
  - rewrite fold_left_app, notified_app. cbn [fold_left]. intros Hl.
    destruct (steps_wf after (app_step a Open)) as [Hwf' Hlen]; [by apply app_step_wf|].
    eapply follows_step in Hl as (h & Hh & Hf); [apply Hf, IH, Hh|done|].
    eapply Nat.lt_le_trans; [|exact Hlen]. cbn. destruct (subscribe (tx a)). cbn. rewrite length_app. cbn. lia.
Qed.

Lemma receive_nothing r v p : cursors v !! r = Some p -> fst (receive_view r v) = NoValue ->
  (List.length (sent v) <= p)%nat.
Proof.
  intros Hp. unfold receive_view. rewrite Hp. case_decide; [done|].
  destruct (sent v !! p) eqn:Hx; [done|]. intros _. by apply lookup_ge_None.
Qed.

(** Whatever else the server does, the client of an open stream of notifications
    reads messages posted since it connected, in the order they were posted, each
    with its line breaks normalized; when its receiver never lagged they are the
    first of them, without a gap; and when the receiver has nothing more to give,
    every message posted since was delivered or counted in a lag. *)
Theorem notifications_client instant_max now before after rx heard :
  let a := fold_left app_step after (app_step (app_run before) Open) in
  streams a !! List.length (streams (app_run before)) = Some (Some rx, heard) ->
  Forall (fun p => fst p + ka_interval keep_alive_default <= instant_max)%Z heard ->
  let vs := values (map snd heard) in
  exists r, into_response instant_max now (notifications heard) = Some r /\
    messages r = map (fun v => mkMessage "notification" (normalize_newlines v) "") vs /\
    sublist vs (notified after) /\
    (lost (map snd heard) = 0%nat -> vs `prefix_of` notified after) /\
    (fst (receive rx (tx a)) = NoValue ->
     (List.length vs + lost (map snd heard))%nat = List.length (notified after)).
Proof.
  intros a Hl Hh vs. destruct (notifications_messages instant_max now heard Hh) as (r & Hr & Hm).
  apply stream_follows in Hl as (Hs & p & Hp & Hw). fold a in Hs, Hp.
  set (log0 := sent (view (tx (app_run before)))) in *.
  destruct (walk_values _ _ _ _ Hw) as (Hsub & Hlen & Hz). rewrite drop_app_length in Hsub, Hz.
  destruct (walk_bound _ _ _ _ Hw) as [Hb _]. rewrite length_app in Hb.
  exists r. split_and!; [exact Hr|exact Hm|exact Hsub| |].
  - intros H0. unfold vs; rewrite Hz by done. eexists. symmetry. apply take_drop.
  - destruct (view_receive rx (tx a)) as [-> _]. intros Hn. eapply receive_nothing in Hn; [|exact Hp].
    rewrite Hs, length_app in Hn. specialize (Hb ltac:(lia)). subst vs. lia.
Qed.
End Notifications.

(** Three polls of the counter, two ticks, and a comment of the timer's. *)
Lemma counter_client_witness :
  exists r, into_response (H := ListHttp) (1000 * SECOND) 0
    (counter [(1 * SECOND, true); (17 * SECOND, false); (18 * SECOND, true)]%Z) = Some r /\
  messages (H := ListHttp) r = [mkMessage "tick" "0" "0"; mkMessage "tick" "1" "1"].
Proof.
  edestruct (counter_client (HL := ListHttpLaws) (1000 * SECOND) 0
    [(1 * SECOND, true); (17 * SECOND, false); (18 * SECOND, true)]%Z) as (r & Hr & Hm).
  - repeat constructor; vm_compute; discriminate.
  - exists r. split; [exact Hr|]. rewrite Hm. reflexivity.
Defined.

(** Two streams: what was posted before the second was opened is not for it, and
    it has still to receive the last message. *)
Lemma notifications_client_witness :
  exists r, into_response (H := ListHttp) (1000 * SECOND) 0
    (notifications [(1, Received ("a" +:+ nl)); (2, NoValue)]%Z) = Some r /\
  messages (H := ListHttp) r = [mkMessage "notification" ("a" +:+ nl) ""] /\
  [("a" +:+ nl)] `prefix_of` [("a" +:+ nl); "b"].
Proof.
  edestruct (notifications_client (HL := ListHttpLaws) (1000 * SECOND) 0 [Open; Notify "x"]
    [Notify ("a" +:+ nl); PollStream 0 1; PollStream 1 1; PollStream 1 2; Notify "b"] 1
    [(1, Received ("a" +:+ nl)); (2, NoValue)]%Z) as (r & Hr & Hm & _ & Hp & _).
  - reflexivity.
  - repeat constructor; vm_compute; discriminate.
  - exists r. split; [exact Hr|]. rewrite Hm. split; [reflexivity|]. apply Hp. reflexivity.
Defined.
