(* ===== verification/Health.v ===== *)
(** * Health probes

    [arvik-observe/src/health.rs]: the registry of readiness checks, the four
    probe responses, and the cache of the readiness result, a probe being one step
    ([Probes] has the probes that overlap).

    The checks act on a world [W], in which the clock is read.  A check is a
    future of an abstract type; what running a group of them together does is the
    parameter [join_all] (the [futures] crate over tokio's timer), which gives
    each one's result, unless its timeout came first, and the time it took, and
    leaves a world.  serde's serializer of the probe document is a parameter. *)
From S2P Require Import Prelude RustStr HttpCrate Body Http Responses.
From stdpp Require Import base list strings sets.
From Stdlib Require Import ZArith Lia Ascii String.
Open Scope string_scope.
Open Scope list_scope.

Record HealthCheckResult := mkCheckResult { healthy : bool; check_message : option string }.
Definition check_ok : HealthCheckResult := mkCheckResult true None.
Definition check_unhealthy (message : string) : HealthCheckResult := mkCheckResult false (Some message).

(** [IntoHealthCheckResult] for [bool] and for [Result]: the error's text is
    logged, not reported. *)
Definition check_of_bool (b : bool) : HealthCheckResult :=
  if b then check_ok else check_unhealthy "check returned false".
Definition check_of_result {T E} (r : result T E) : HealthCheckResult :=
  match r with Ok _ => check_ok | Err _ => check_unhealthy "check failed" end.

Record CheckReport := mkReport {
  rep_name : string;
  rep_status : string;
  rep_latency_ms : Z;
  rep_message : option string }.

Record ProbeResponse := mkProbe {
  probe_status : string;
  probe_uptime : Z;
  probe_checks : list CheckReport }.

Definition MILLISECOND : Z := 1000000.
Definition DEFAULT_CHECK_TIMEOUT : Z := (2 * SECOND)%Z.
Definition DEFAULT_READINESS_CACHE_TTL : Z := SECOND.

Section Health.
Context `{HttpCrate} {W Fut : Type} (now : W -> Z) (to_writer : ProbeResponse -> result string string).

(** The futures run together from a world, each under the timeout: per future,
    its result, or [None] when the deadline came first, and the time it took. *)
Definition JoinAll : Type := Z -> list Fut -> W -> list (option HealthCheckResult * Z) * W.
Context (join_all : JoinAll).

Record HealthCheck := mkCheck {
  hc_name : string;
  hc_run : Fut }.

Record HealthRegistry := mkRegistry {
  started_at : Z;
  checks : list HealthCheck;
  check_timeout : Z;
  startup_complete : bool;
  readiness_cache_ttl : Z;
  readiness_cache : option (Z * list CheckReport) }.
#[export] Instance rebuild_registry : Rebuild HealthRegistry := fun r =>
  mkRegistry (started_at r) (checks r) (check_timeout r) (startup_complete r)
    (readiness_cache_ttl r) (readiness_cache r).

Definition registry_new (w : W) : HealthRegistry :=
  mkRegistry (now w) [] DEFAULT_CHECK_TIMEOUT true DEFAULT_READINESS_CACHE_TTL None.

(** [with_check_timeout], [starting] and [mark_starting],
    [set_startup_complete], [set_readiness_cache_ttl], [add_check]. *)
Definition with_check_timeout (t : Z) (r : HealthRegistry) : HealthRegistry :=
  (r <| check_timeout := t |>)%rust.
Definition mark_starting (r : HealthRegistry) : HealthRegistry := (r <| startup_complete := false |>)%rust.
Definition set_startup_complete (r : HealthRegistry) : HealthRegistry :=
  (r <| startup_complete := true |>)%rust.
Definition set_readiness_cache_ttl (t : Z) (r : HealthRegistry) : HealthRegistry :=
  (r <| readiness_cache_ttl := t |>)%rust.
Definition add_check (c : HealthCheck) (r : HealthRegistry) : HealthRegistry :=
  (r <| checks := checks r ++ [c] |>)%rust.

(** [Instant::elapsed]: zero for an instant in the future. *)
Definition elapsed (at_ : Z) (w : W) : Z := Z.max 0 (now w - at_).

Definition uptime_seconds (r : HealthRegistry) (w : W) : Z := (elapsed (started_at r) w / SECOND)%Z.

Definition json_probe (status : Z) (body : ProbeResponse) : Response :=
  rb_json to_writer body (rb_status status rb_new).

(** [/health/live], and [/health]. *)
Definition liveness_response (r : HealthRegistry) (w : W) : Response :=
  json_probe 200 (mkProbe "ok" (uptime_seconds r w) []).

Definition health_response (r : HealthRegistry) (w : W) : Response :=
  json_probe 200 (mkProbe "ok" (uptime_seconds r w) []).

Definition startup_response (r : HealthRegistry) (w : W) : Response :=
  json_probe (if startup_complete r then 200 else 503)
    (mkProbe (if startup_complete r then "ok" else "starting") (uptime_seconds r w) []).

(** The report of one check. *)
Definition report_of (timeout : Z) (name : string) (out : option HealthCheckResult) (latency : Z)
  : CheckReport :=
  match out with
  | Some res => mkReport name (if healthy res then "ok" else "unhealthy") (latency / MILLISECOND)
                  (check_message res)
  | None => mkReport name "timeout" (latency / MILLISECOND)
              (Some ("check timed out after " +:+ to_dec (timeout / MILLISECOND) +:+ "ms"))
  end.

(** The checks run together; their reports in registration order. *)
Definition run_checks (r : HealthRegistry) (w : W) : list CheckReport * W :=
  let (outs, w) := join_all (check_timeout r) (map hc_run (checks r)) w in
  (zip_with (fun c o => report_of (check_timeout r) (hc_name c) (fst o) (snd o)) (checks r) outs, w).

(** The cached reports that are still fresh. *)
Definition fresh_cache (r : HealthRegistry) (w : W) : option (list CheckReport) :=
  match readiness_cache r with
  | Some (at_, reports) => if (elapsed at_ w <? readiness_cache_ttl r)%Z then Some reports else None
  | None => None
  end.

Definition readiness_checks (r : HealthRegistry) (w : W) : list CheckReport * HealthRegistry * W :=
  if (readiness_cache_ttl r =? 0)%Z then
    let (reports, w) := run_checks r w in (reports, r, w)
  else
    match fresh_cache r w with
    | Some reports => (reports, r, w)
    | None =>
        let (reports, w) := run_checks r w in
        (reports, (r <| readiness_cache := Some (now w, reports) |>)%rust, w)
    end.

Definition report_ok (c : CheckReport) : bool := (rep_status c =? "ok")%string.

Definition readiness_response (r : HealthRegistry) (w : W) : Response * HealthRegistry * W :=
  let '(reports, r, w) := readiness_checks r w in
  let healthy := forallb report_ok reports in
  (json_probe (if healthy then 200 else 503)
     (mkProbe (if healthy then "ok" else "degraded") (uptime_seconds r w) reports), r, w).

(** ** Facts *)

(** A report is [ok] exactly when its check answered healthy in time. *)
Lemma report_of_ok timeout name out latency :
  report_ok (report_of timeout name out latency) = match out with Some res => healthy res | None => false end.
Proof. unfold report_ok, report_of. destruct out as [[[] m]|]; reflexivity. Qed.

Lemma json_probe_status status p :
  res_status (json_probe status p) = match to_writer p with Ok _ =>
    match hv_from_str "application/json" with Some _ => status | None => 500%Z end
    | Err _ => 500%Z end.
Proof.
  unfold json_probe, rb_json, rb_header_str. destruct (to_writer p); by destruct (hv_from_str _).
Qed.

Definition outcome_ok (o : option HealthCheckResult * Z) : bool :=
  match fst o with Some res => healthy res | None => false end.

Lemma run_checks_ok r w :
  List.length (fst (join_all (check_timeout r) (map hc_run (checks r)) w)) = List.length (checks r) ->
  forallb report_ok (fst (run_checks r w))
    = forallb outcome_ok (fst (join_all (check_timeout r) (map hc_run (checks r)) w)).
Proof.
  unfold run_checks. destruct (join_all _ _ w) as [outs w1]. cbn [fst].
  generalize (check_timeout r). intros timeout. revert outs.
  induction (checks r) as [|c l IH]; intros [|o outs] Hl; try done.
  cbn. rewrite report_of_ok. f_equal. apply IH. by injection Hl.
Qed.
End Health.

Arguments HealthRegistry : clear implicits.
Arguments HealthCheck : clear implicits.
Arguments JoinAll : clear implicits.

(** One future, one outcome. *)
Definition join_all_lawful {W Fut} (join_all : JoinAll W Fut) : Prop :=
  forall timeout l w, List.length (fst (join_all timeout l w)) = List.length l.

(** A run of checks [l] from [w0] to [w1], and whether all were healthy in time. *)
Definition ran {W Fut} (join_all : JoinAll W Fut) timeout (l : list (HealthCheck Fut)) w0 (all : bool) w1 : Prop :=
  let (outs, w) := join_all timeout (map hc_run l) w0 in
  all = forallb outcome_ok outs /\ w1 = w.

(** A cache that holds what some run of the checks reported, at the clock of the
    world that run left. *)
Definition cache_from_run {W Fut} (now : W -> Z) (join_all : JoinAll W Fut) (r : HealthRegistry Fut) : Prop :=
  match readiness_cache r with
  | None => True
  | Some (at_, reports) => exists timeout l w0 w1,
      ran join_all timeout l w0 (forallb report_ok reports) w1 /\ at_ = now w1
  end.

(** ** Properties *)

(** Readiness is honest and bounded in age. From a registry whose cache came
    from a run, the probe answers 200 exactly when every check of a run answered
    healthy within its timeout, and 503 otherwise; that run is of the registered
    checks and happens now, or, with a cache period, is the cached one, which
    ended less than that period ago, and then no check runs. The cache again
    comes from a run. *)
Theorem readiness_honest `{HL : HttpLaws} {W Fut} (now : W -> Z) to_writer text
    (join_all : JoinAll W Fut) (r : HealthRegistry Fut) w :
  (forall p, to_writer p = Ok text) -> join_all_lawful join_all -> cache_from_run now join_all r ->
  let '(resp, r', w') := readiness_response now to_writer join_all r w in
  cache_from_run now join_all r' /\
  exists timeout l w0 all w1, ran join_all timeout l w0 all w1 /\
    res_status resp = (if all then 200 else 503)%Z /\
    ((timeout = check_timeout r /\ l = checks r /\ w0 = w /\ w1 = w') \/
     (w' = w /\ r' = r /\ Z.max 0 (now w - now w1) < readiness_cache_ttl r))%Z.
Proof.
  intros Hw Hj Hc. unfold readiness_response, readiness_checks.
  assert (Hst : forall s p, res_status (json_probe to_writer s p) = s).
  { intros s p. by rewrite json_probe_status, Hw, hv_from_str_visible. }
  assert (Hrun : let (reports, w1) := run_checks join_all r w in
    ran join_all (check_timeout r) (checks r) w (forallb report_ok reports) w1).
  { pose proof (run_checks_ok join_all r w) as E. rewrite Hj, length_map in E.
    specialize (E eq_refl). unfold ran, run_checks in *. by destruct (join_all _ _ w). }
  destruct (run_checks join_all r w) as [reports w1].
  destruct (readiness_cache_ttl r =? 0)%Z.
  { split; [done|]. do 5 eexists. rewrite Hst. split_and!; eauto. }
  unfold fresh_cache. destruct (readiness_cache r) as [[at_ cached]|] eqn:Ec;
    [destruct (elapsed now at_ w <? readiness_cache_ttl r)%Z eqn:Ef|].
  - split; [done|]. unfold cache_from_run in Hc. rewrite Ec in Hc.
    destruct Hc as (timeout & l & w0 & w2 & Hr & ->).
    do 5 eexists. rewrite Hst. split_and!; [exact Hr|done|]. right. bool_hyps. done.
  - split; [by do 4 eexists|]. do 5 eexists. rewrite Hst. split_and!; eauto.
  - split; [by do 4 eexists|]. do 5 eexists. rewrite Hst. split_and!; eauto.
Qed.

(** A registry with a failing check, at time 0 of a world that is its clock; a
    check is its own result, and a run takes a millisecond. *)
Definition demo_join_all : JoinAll Z HealthCheckResult := fun _ l w =>
  (map (fun res => (Some res, MILLISECOND)) l, w + MILLISECOND)%Z.
Definition demo_registry : HealthRegistry HealthCheckResult :=
  add_check (mkCheck "db" (check_of_bool false)) (registry_new (fun w => w) 0%Z).

Lemma readiness_honest_witness :
  cache_from_run (fun w => w) demo_join_all demo_registry /\
  res_status (fst (fst (readiness_response (H := ListHttp) (fun w => w) (fun _ => Ok "{}")
    demo_join_all demo_registry 5%Z))) = 503%Z.
Proof.
  split; [exact I|].
  pose proof (readiness_honest (H := ListHttp) (fun w => w) (fun _ => Ok "{}") "{}" demo_join_all
    demo_registry 5%Z (fun _ => eq_refl) (fun _ _ _ => length_map _ _) I) as W.
  destruct (readiness_response (fun w => w) (fun _ => Ok "{}") demo_join_all demo_registry 5%Z)
    as [[resp r'] w'] eqn:E.
  destruct W as (_ & timeout & l & w0 & all & w1 & Hr & Hs & _).
  injection E as <- _ _. reflexivity.
Defined.

(** A check registered while a result is cached is not reported until the cache
    expires. *)
Lemma cached_readiness_ignores_new_check {W Fut} (now : W -> Z) (join_all : JoinAll W Fut) r c w reports :
  readiness_cache_ttl r <> 0%Z -> fresh_cache now r w = Some reports ->
  fst (fst (readiness_checks now join_all (add_check c r) w)) = reports.
Proof.
  intros Ht Hf. unfold readiness_checks.
  change (readiness_cache_ttl (add_check c r)) with (readiness_cache_ttl r).
  rewrite (proj2 (Z.eqb_neq _ _) Ht).
  change (fresh_cache now (add_check c r) w) with (fresh_cache now r w). by rewrite Hf.
Qed.
