(* ===== verification/Probes.v ===== *)
(** * Readiness probes that overlap

    [HealthRegistry::readiness_response] and [run_checks] of
    [arvik-observe/src/health.rs] between their suspension points and locks: any
    number of probes run at a time, the clock advances and the registry is
    reconfigured between any two of their steps.  [Health] sees a probe as one
    step; a probe left alone does what it says there.

    What the checks of a run answer, and how long each takes, is the environment's
    choice. *)
From S2P Require Import Prelude RustStr HttpCrate Body Http Responses Health.
From stdpp Require Import base list strings sets.
From Stdlib Require Import ZArith Lia Ascii String.
Open Scope string_scope.
Open Scope list_scope.
Open Scope Z_scope.

Section Probes.
Context `{HttpCrate} {Fut : Type} (to_writer : ProbeResponse -> result string string).

Notation Registry := (HealthRegistry Fut).
Notation Outcome := (option HealthCheckResult * Z)%type.

(** A completed run of the checks. *)
Record Run := mkRun {
  run_started : Z;
  run_ended : Z;
  run_timeout : Z;
  run_of : list (HealthCheck Fut);
  run_outcomes : list Outcome }.

Definition run_reports (r : Run) : list CheckReport :=
  zip_with (fun c o => report_of (run_timeout r) (hc_name c) (fst o) (snd o)) (run_of r) (run_outcomes r).

(** Where reports come from: a run of the probe, or the cache, in which [stored]
    is the instant kept with them, looked at when the period was [ttl]. *)
Inductive Source :=
| OwnRun
| Cached (ttl stored looked : Z).

(** Where a probe is.  [keep]: the run's reports will be cached. *)
Inductive Probe :=
| Arrived
| Looking (ttl : Z)
| Starting (keep : bool)
| Gathered (keep : bool) (running : list (HealthCheck Fut))
| Running (keep : bool) (started timeout : Z) (running : list (HealthCheck Fut))
| Storing (run : Run)
| Answering (source : Source) (reports : list CheckReport)
| Answered (source : Source) (reports : list CheckReport) (resp : Response).

(** Ghost state: when each probe arrived, the runs completed, the cache periods
    the registry has had. *)
Record Probing := mkProbing {
  clock : Z;
  registry : Registry;
  probes : list (Z * Probe);
  runs : list Run;
  periods : list Z }.

Inductive RegistryOp :=
| AddCheck (c : HealthCheck Fut)
| SetCheckTimeout (t : Z)
| SetCacheTtl (t : Z)
| SetStarting
| SetStartupComplete.

Definition registry_op (op : RegistryOp) (r : Registry) : Registry :=
  match op with
  | AddCheck c => add_check c r
  | SetCheckTimeout t => with_check_timeout t r
  | SetCacheTtl t => set_readiness_cache_ttl t r
  | SetStarting => mark_starting r
  | SetStartupComplete => set_startup_complete r
  end.

Definition at_clock (w : Z) : Z := w.

Definition with_probe (i : nat) (a : Z) (p : Probe) (s : Probing) : Probing :=
  mkProbing (clock s) (registry s) (<[i := (a, p)]> (probes s)) (runs s) (periods s).
Definition with_registry (r : Registry) (s : Probing) : Probing :=
  mkProbing (clock s) r (probes s) (runs s) (periods s).

(** The response made of the reports. *)
Definition probe_response (reports : list CheckReport) (s : Probing) : Response :=
  let healthy := forallb report_ok reports in
  json_probe to_writer (if healthy then 200 else 503)
    (mkProbe (if healthy then "ok" else "degraded") (uptime_seconds at_clock (registry s) (clock s)) reports).

(** One step of a probe: read the period; look into the cache under its lock;
    read the checks; read the timeout and start; end a run whose checks have
    answered [outs]; store under the lock; answer. *)
Definition probe_step (outs : list Outcome) (i : nat) (a : Z) (p : Probe) (s : Probing) : option Probing :=
  match p with
  | Arrived =>
      let ttl := readiness_cache_ttl (registry s) in
      Some (with_probe i a (if ttl =? 0 then Starting false else Looking ttl) s)
  | Looking ttl =>
      Some (with_probe i a
        match readiness_cache (registry s) with
        | Some (at_, reports) =>
            if elapsed at_clock at_ (clock s) <? ttl
            then Answering (Cached ttl at_ (clock s)) reports else Starting true
        | None => Starting true
        end s)
  | Starting keep =>
      Some (with_probe i a (Gathered keep (checks (registry s))) s)
  | Gathered keep running =>
      Some (with_probe i a (Running keep (clock s) (check_timeout (registry s)) running) s)
  | Running keep started timeout running =>
      if (List.length outs =? List.length running)%nat then
        let run := mkRun started (clock s) timeout running outs in
        Some (mkProbing (clock s) (registry s)
                (<[i := (a, if keep then Storing run else Answering OwnRun (run_reports run))]> (probes s))
                (runs s ++ [run]) (periods s))
      else None
  | Storing run =>
      let reports := run_reports run in
      Some (with_probe i a (Answering OwnRun reports)
              (with_registry ((registry s) <| readiness_cache := Some (clock s, reports) |>)%rust s))
  | Answering source reports => Some (with_probe i a (Answered source reports (probe_response reports s)) s)
  | Answered _ _ _ => None
  end.

Inductive ProbeLabel :=
| PTick (d : Z)
| PConfigure (op : RegistryOp)
| PArrive
| PStep (i : nat) (outs : list Outcome).

Definition probe_exec (l : ProbeLabel) (s : Probing) : option Probing :=
  match l with
  | PTick d =>
      if 0 <=? d then Some (mkProbing (clock s + d) (registry s) (probes s) (runs s) (periods s)) else None
  | PConfigure op =>
      let r := registry_op op (registry s) in
      Some (mkProbing (clock s) r (probes s) (runs s) (readiness_cache_ttl r :: periods s))
  | PArrive => Some (mkProbing (clock s) (registry s) (probes s ++ [(clock s, Arrived)]) (runs s) (periods s))
  | PStep i outs =>
      match probes s !! i with Some (a, p) => probe_step outs i a p s | None => None end
  end.

Fixpoint probe_run (ls : list ProbeLabel) (s : Probing) : option Probing :=
  match ls with
  | [] => Some s
  | l :: ls => match probe_exec l s with Some s' => probe_run ls s' | None => None end
  end.

(** A registry that has cached nothing, and no probe yet. *)
Definition probing_init (now : Z) (r : Registry) : Probing :=
  mkProbing now r [] [] [readiness_cache_ttl r].
End Probes.

Arguments Run : clear implicits.
Arguments Probe {_} _.
Arguments Probing {_} _.
Arguments ProbeLabel : clear implicits.

(** ** Facts *)

Section Facts.
Context `{HL : HttpLaws} {Fut : Type} (to_writer : ProbeResponse -> result string string).
Implicit Types (s : Probing Fut) (r : Run Fut).

Definition run_ok s r : Prop :=
  run_started r <= run_ended r <= clock s /\
  List.length (run_outcomes r) = List.length (run_of r) /\
  run_of r `prefix_of` checks (registry s).

(** The reports are those of a run that began after the probe arrived, or that
    ended before it was cached, less than the period before the probe looked. *)
Definition sourced s (a : Z) (src : Source) (reports : list CheckReport) : Prop :=
  exists r, r ∈ runs s /\ reports = run_reports r /\
    match src with
    | OwnRun => a <= run_started r
    | Cached ttl stored looked =>
        ttl ∈ periods s /\ run_ended r <= stored <= looked /\ a <= looked <= clock s /\
        looked - stored < ttl
    end.

(** The response of a probe with the reports [reports]. *)
Definition document_of (reports : list CheckReport) (resp : Response) : Prop :=
  let healthy := forallb report_ok reports in
  res_status resp = (if healthy then 200 else 503) /\
  exists uptime, resp = json_probe to_writer (res_status resp)
    (mkProbe (if healthy then "ok" else "degraded") uptime reports).

Definition probe_ok s (ap : Z * Probe Fut) : Prop :=
  fst ap <= clock s /\
  match snd ap with
  | Arrived | Starting _ => True
  | Looking ttl => ttl ∈ periods s
  | Gathered _ running => running `prefix_of` checks (registry s)
  | Running _ started _ running => fst ap <= started <= clock s /\ running `prefix_of` checks (registry s)
  | Storing run => run ∈ runs s /\ fst ap <= run_started run
  | Answering src reports => sourced s (fst ap) src reports
  | Answered src reports resp => sourced s (fst ap) src reports /\
      document_of reports resp
  end.

Record probing_ok s : Prop := mkProbingOk {
  ok_runs : Forall (run_ok s) (runs s);
  ok_probes : Forall (probe_ok s) (probes s);
  ok_period : readiness_cache_ttl (registry s) ∈ periods s;
  ok_cache : match readiness_cache (registry s) with
             | Some (at_, reports) => at_ <= clock s /\
                 exists r, r ∈ runs s /\ reports = run_reports r /\ run_ended r <= at_
             | None => True
             end }.

(** What only grows. *)
Definition grows s s' : Prop :=
  clock s <= clock s' /\ runs s ⊆ runs s' /\ periods s ⊆ periods s' /\
  checks (registry s) `prefix_of` checks (registry s').

Lemma run_ok_grows s s' r : grows s s' -> run_ok s r -> run_ok s' r.
Proof. intros (Hc & _ & _ & Hp) (H1 & H2 & H3). split; [lia|]. split; [done|by etrans]. Qed.

Lemma sourced_grows s s' a src reports : grows s s' -> sourced s a src reports -> sourced s' a src reports.
Proof.
  intros (Hc & Hr & Hp & _) (r & Hin & -> & Hsrc). exists r. split; [by apply Hr|]. split; [done|].
  destruct src; [done|]. destruct Hsrc as (? & ? & ? & ?). split_and!; try lia. by apply Hp.
Qed.

Lemma probe_ok_grows s s' ap : grows s s' -> probe_ok s ap -> probe_ok s' ap.
Proof.
  intros Hg [Ha Hp]. pose proof Hg as (Hc & Hr & Hpe & Hch). split; [lia|].
  destruct (snd ap) as [|ttl|keep|keep cs|keep st to cs|run|src reps|src reps resp]; try done.
  - by apply Hpe.
  - by etrans.
  - destruct Hp as [? ?]. split; [lia|by etrans].
  - destruct Hp as [? ?]. split; [by apply Hr|done].
  - by eapply sourced_grows.
  - destruct Hp as [? ?]. split; [by eapply sourced_grows|done].
Qed.

(** A step that adds no run but lets what is there grow keeps the invariant of
    the runs and of the probes it does not touch. *)
Lemma grows_refl s s' : clock s' = clock s -> runs s' = runs s -> periods s' = periods s ->
  checks (registry s') = checks (registry s) -> grows s s'.
Proof. intros E1 E2 E3 E4. unfold grows. rewrite E1, E2, E3, E4. by split_and!. Qed.

Lemma probing_ok_grows s s' : grows s s' -> probing_ok s -> runs s' = runs s ->
  readiness_cache (registry s') = readiness_cache (registry s) ->
  readiness_cache_ttl (registry s') ∈ periods s' -> Forall (probe_ok s') (probes s') -> probing_ok s'.
Proof.
  intros Hg [Hr Hp Ht Hc] Er Ec Ht' Hp'. split; [|done|done|].
  - rewrite Er. eapply Forall_impl; [exact Hr|]. intros r. by apply run_ok_grows.
  - rewrite Ec. destruct (readiness_cache (registry s)) as [[at_ reports]|]; [|done].
    destruct Hc as (Hle & r & Hin & ? & ?), Hg as (Hcl & Hru & _). split; [lia|].
    exists r. by split; [apply Hru|].
Qed.

Lemma probes_grow s s' : grows s s' -> probes s' = probes s -> Forall (probe_ok s) (probes s) ->
  Forall (probe_ok s') (probes s').
Proof. intros Hg -> Hp. eapply Forall_impl; [exact Hp|]. intros ap. by apply probe_ok_grows. Qed.

(** A step of a probe that changes nothing else. *)
Lemma with_probe_ok s i a p : probing_ok s -> probe_ok s (a, p) -> probing_ok (with_probe i a p s).
Proof.
  intros Hs Hp. apply (probing_ok_grows s); [by apply grows_refl|done..|by destruct Hs|].
  apply Forall_insert; [|exact Hp]. by destruct Hs.
Qed.

Lemma json_probe_status_ok status p : (exists text, to_writer p = Ok text) -> res_status (json_probe to_writer status p) = status.
Proof. intros [text Hw]. by rewrite json_probe_status, Hw, hv_from_str_visible. Qed.

Lemma probe_step_ok outs i a p s s' : (forall p, exists text, to_writer p = Ok text) ->
  probes s !! i = Some (a, p) -> probing_ok s -> probe_step to_writer outs i a p s = Some s' -> probing_ok s'.
Proof.
  intros Hw Hi Hs. assert (probe_ok s (a, p)) as [Ha Hp] by (eapply Forall_lookup_1; [apply (ok_probes s Hs)|exact Hi]).
  cbn [fst snd] in Ha, Hp. destruct p as [|ttl|keep|keep running|keep st to running|run|src reps|src reps resp]; cbn [probe_step].
  - intros [= <-]. apply with_probe_ok; [done|]. split; [done|]. destruct (_ =? 0); [done|apply (ok_period s Hs)].
  - intros [= <-]. apply with_probe_ok; [done|]. split; [done|].
    destruct (readiness_cache (registry s)) as [[at_ reports]|] eqn:Ec; [|done].
    destruct (elapsed at_clock at_ (clock s) <? ttl) eqn:El; [|done].
    pose proof (ok_cache s Hs) as Hc. rewrite Ec in Hc. destruct Hc as (Hle & r & Hin & Hrep & Hend).
    exists r. split_and!; try done; unfold elapsed, at_clock in El; bool_hyps; lia.
  - intros [= <-]. apply with_probe_ok; [done|]. split; [done|]. by cbn.
  - intros [= <-]. apply with_probe_ok; [done|]. by repeat split.
  - destruct (Nat.eqb_spec (List.length outs) (List.length running)) as [Hl|]; [|done]. intros [= <-].
    destruct Hp as [Hst Hpre]. set (run := mkRun _ _ _ _ _). set (s' := mkProbing _ _ _ _ _).
    assert (grows s s') as Hg by (split_and!; cbn; (lia || set_solver)).
    assert (run ∈ runs s') as Hrun by set_solver. split.
    + apply Forall_app. split; [|apply Forall_singleton; split; [cbn; lia|by split]].
      eapply Forall_impl; [apply (ok_runs s Hs)|]. intros r. by apply run_ok_grows.
    + apply Forall_insert; [eapply Forall_impl; [apply (ok_probes s Hs)|]; intros ap; by apply probe_ok_grows|].
      split; [done|]. destruct keep; cbn; [split; [done|lia]|]. exists run. split_and!; [done|done|cbn; lia].
    + apply (ok_period s Hs).
    + pose proof (ok_cache s Hs) as Hc. cbn. destruct (readiness_cache (registry s)) as [[at_ reports]|]; [|done].
      destruct Hc as (? & r & ? & ? & ?). split; [done|]. exists r. set_solver.
  - intros [= <-]. destruct Hp as [Hin Hst]. set (s1 := with_registry _ s).
    assert (grows s s1) as Hg by (by apply grows_refl).
    assert (probing_ok s1) as Hs1.
    { split; [apply (ok_runs s Hs)| |apply (ok_period s Hs)|].
      - by apply (probes_grow s), (ok_probes s Hs).
      - split; [done|]. exists run. pose proof (ok_runs s Hs) as Hr. rewrite Forall_forall in Hr.
        apply Hr in Hin as Hok. destruct Hok as [? _]. split_and!; [done|done|lia]. }
    apply (with_probe_ok s1); [done|]. split; [done|]. by exists run.
  - intros [= <-]. apply with_probe_ok; [done|]. split; [done|]. split; [exact Hp|].
    unfold document_of, probe_response. rewrite json_probe_status_ok by done. split; [done|]. eauto.
  - done.
Qed.

Lemma registry_op_checks op (r : HealthRegistry Fut) :
  checks r `prefix_of` checks (registry_op op r) /\ readiness_cache (registry_op op r) = readiness_cache r.
Proof. destruct op; cbn; split; try done; try by apply prefix_app_r. Qed.

Lemma probe_exec_ok l s s' : (forall p, exists text, to_writer p = Ok text) ->
  probing_ok s -> probe_exec to_writer l s = Some s' -> probing_ok s'.
Proof.
  intros Hw Hs. destruct l as [d|op| |i outs]; cbn [probe_exec].
  - destruct (Z.leb_spec 0 d) as [Hd|]; [|done]. intros [= <-]. set (s' := mkProbing _ _ _ _ _).
    assert (grows s s') as Hg by (split_and!; cbn; (lia || done)).
    apply (probing_ok_grows s); try done; [apply (ok_period s Hs)|]. by apply (probes_grow s), (ok_probes s Hs).
  - intros [= <-]. set (s' := mkProbing _ _ _ _ _). destruct (registry_op_checks op (registry s)) as [Hc Hk].
    assert (grows s s') as Hg by (split_and!; cbn; (lia || set_solver || done)).
    apply (probing_ok_grows s); try done; [by left|]. by apply (probes_grow s), (ok_probes s Hs).
  - intros [= <-]. set (s' := mkProbing _ _ _ _ _).
    assert (grows s s') as Hg by (by apply grows_refl).
    apply (probing_ok_grows s); try done; [apply (ok_period s Hs)|]. apply Forall_app. split.
    + eapply Forall_impl; [apply (ok_probes s Hs)|]. intros ap. by apply probe_ok_grows.
    + apply Forall_singleton. by split.
  - destruct (probes s !! i) as [[a p]|] eqn:Hi; [|done]. by apply probe_step_ok.
Qed.

Lemma probe_run_ok ls s s' : (forall p, exists text, to_writer p = Ok text) ->
  probing_ok s -> probe_run to_writer ls s = Some s' -> probing_ok s'.
Proof.
  intros Hw. revert s; induction ls as [|l ls IH]; intros s Hs; cbn; [by intros [= <-]|].
  destruct (probe_exec to_writer l s) as [s1|] eqn:E; [|done]. apply IH. by eapply probe_exec_ok.
Qed.

Lemma probing_init_ok t0 (r : HealthRegistry Fut) : readiness_cache r = None -> probing_ok (probing_init t0 r).
Proof. intros Hc. split; cbn; [done..|by left|by rewrite Hc]. Qed.

Lemma run_reports_ok r : List.length (run_outcomes r) = List.length (run_of r) ->
  forallb report_ok (run_reports r) = forallb outcome_ok (run_outcomes r).
Proof.
  unfold run_reports. generalize (run_of r) (run_outcomes r). intros cs.
  induction cs as [|c cs IH]; intros [|o outs] Hl; try done.
  cbn. rewrite report_of_ok. f_equal. apply IH. by injection Hl.
Qed.
End Facts.

(** ** Moments of an execution *)

Section Moments.
Context `{HttpCrate} {Fut : Type} (to_writer : ProbeResponse -> result string string) (s0 : Probing Fut).

(** At some moment of the execution [ls], the registry had the checks [cs]; what
    came after it is [after]. *)
Definition gathered (ls after : list (ProbeLabel Fut)) (cs : list (HealthCheck Fut)) : Prop :=
  exists before s1, ls = before ++ after /\ probe_run to_writer before s0 = Some s1 /\
    checks (registry s1) = cs.

(** And at a later one it had the timeout [to], and the clock was [t]. *)
Definition began (ls after : list (ProbeLabel Fut)) (t to : Z) (cs : list (HealthCheck Fut)) : Prop :=
  exists before between s1 s2, ls = before ++ between ++ after /\
    probe_run to_writer before s0 = Some s1 /\ checks (registry s1) = cs /\
    probe_run to_writer between s1 = Some s2 /\ check_timeout (registry s2) = to /\ clock s2 = t.

(** The run took all the checks registered at a moment of the execution, began at a
    later one, and ended when they had answered its outcomes. *)
Definition run_in (ls : list (ProbeLabel Fut)) (r : Run Fut) : Prop :=
  exists during later i, began ls (during ++ PStep i (run_outcomes r) :: later)
    (run_started r) (run_timeout r) (run_of r) /\
  List.length (run_outcomes r) = List.length (run_of r).

Definition moments_ok ls (s : Probing Fut) : Prop :=
  Forall (run_in ls) (runs s) /\
  Forall (fun ap => match snd ap with
                    | Gathered _ cs => exists after, gathered ls after cs
                    | Running _ t to cs => exists after, began ls after t to cs
                    | _ => True
                    end) (probes s).

Lemma began_snoc ls after t to cs l : began ls after t to cs -> began (ls ++ [l]) (after ++ [l]) t to cs.
Proof. intros (before & between & s1 & s2 & -> & Hs). exists before, between, s1, s2. by rewrite !app_assoc. Qed.
Lemma gathered_snoc ls after cs l : gathered ls after cs -> gathered (ls ++ [l]) (after ++ [l]) cs.
Proof. intros (before & s1 & -> & Hs). exists before, s1. by rewrite app_assoc. Qed.

Lemma probe_run_app ls ls' (s s1 : Probing Fut) : probe_run to_writer ls s = Some s1 ->
  probe_run to_writer (ls ++ ls') s = probe_run to_writer ls' s1.
Proof.
  revert s; induction ls as [|l ls IH]; intros s; cbn; [by intros [= ->]|].
  destruct (probe_exec _ _ _); [apply IH|done].
Qed.

Lemma probe_run_snoc ls l (s s' : Probing Fut) : probe_run to_writer (ls ++ [l]) s = Some s' ->
  exists s1, probe_run to_writer ls s = Some s1 /\ probe_exec to_writer l s1 = Some s'.
Proof.
  revert s; induction ls as [|x ls IH]; intros s; cbn.
  - destruct (probe_exec _ _ _) as [s1|] eqn:E; [|done]. intros [= <-]. by exists s.
  - destruct (probe_exec _ _ _) as [s1|]; [apply IH|done].
Qed.

Lemma moments_snoc ls l s : moments_ok ls s -> moments_ok (ls ++ [l]) s.
Proof.
  intros [Hr Hp]. split; (eapply Forall_impl; [first [exact Hr|exact Hp]|]).
  - intros r (during & later & i & Hb & Hl). exists during, (later ++ [l]), i. split; [|done].
    apply (began_snoc _ _ _ _ _ l) in Hb. by rewrite <- app_assoc in Hb.
  - intros [a p]. cbn. destruct p; try done; intros [after Hb]; exists (after ++ [l]);
      [by apply gathered_snoc|by apply began_snoc].
Qed.

(** A step of a probe that is not the start of a run. *)
Lemma moments_with ls s i a p : moments_ok ls s ->
  match p with
  | Gathered _ cs => exists after, gathered ls after cs
  | Running _ t to cs => exists after, began ls after t to cs
  | _ => True
  end ->
  moments_ok ls (with_probe i a p s).
Proof. intros [Hr Hp] Hq. split; [done|]. by apply Forall_insert. Qed.

Lemma moments_step ls i outs s s' : probe_run to_writer ls s0 = Some s ->
  moments_ok ls s -> probe_exec to_writer (PStep i outs) s = Some s' -> moments_ok (ls ++ [PStep i outs]) s'.
Proof.
  intros Hrun Hm. cbn [probe_exec]. destruct (probes s !! i) as [[a p]|] eqn:Hi; [|done].
  pose proof (moments_snoc _ (PStep i outs) _ Hm) as Hm'.
  pose proof (Forall_lookup_1 _ _ _ _ (proj2 Hm) Hi) as Hp. cbn [snd] in Hp.
  destruct p as [|ttl|keep|keep running|keep st to running|run|src reps|src reps resp]; cbn [probe_step].
  - intros [= <-]. apply moments_with; [done|]. by destruct (_ =? 0).
  - intros [= <-]. apply moments_with; [done|]. destruct (readiness_cache _) as [[at_ ?]|]; [|done].
    by destruct (_ <? _).
  - intros [= <-]. apply moments_with; [done|]. exists [PStep i outs], ls, s. done.
  - intros [= <-]. apply moments_with; [done|]. destruct Hp as (between & before & s1 & -> & H1 & Hcs).
    exists [PStep i outs], before, between, s1, s. rewrite (probe_run_app _ _ _ _ H1) in Hrun.
    by rewrite <- app_assoc.
  - destruct (Nat.eqb_spec (List.length outs) (List.length running)) as [Hl|]; [|done]. intros [= <-].
    destruct Hp as [during Hb], Hm' as [Hr' Hp']. split; cbn [runs probes].
    + apply Forall_app. split; [done|]. apply Forall_singleton. exists during, [], i. split; [|done].
      by apply (began_snoc _ _ _ _ _ (PStep i outs)) in Hb.
    + apply Forall_insert; [done|]. by destruct keep.
  - intros [= <-]. by apply (moments_with _ (with_registry _ s)).
  - intros [= <-]. by apply moments_with.
  - done.
Qed.

Lemma moments ls s : probes s0 = [] -> runs s0 = [] -> probe_run to_writer ls s0 = Some s -> moments_ok ls s.
Proof.
  intros Hp0 Hr0. revert s; induction ls as [|l ls IH] using rev_ind; intros s Hrun.
  { injection Hrun as <-. split; [by rewrite Hr0|by rewrite Hp0]. }
  apply probe_run_snoc in Hrun as (s1 & H1 & Hx). pose proof (IH _ H1) as Hm.
  destruct l as [d|op| |i outs]; [| | |by apply (moments_step _ _ _ s1)]; cbn in Hx.
  - destruct (0 <=? d); [|done]. injection Hx as <-. by apply (moments_snoc _ _ s1).
  - injection Hx as <-. by apply (moments_snoc _ _ s1).
  - injection Hx as <-. apply (moments_snoc _ PArrive) in Hm as [Hr Hp]. split; [done|].
    apply Forall_app. split; [done|]. by apply Forall_singleton.
Qed.
End Moments.

Lemma run_reports_names `{HttpCrate} {Fut} (r : Run Fut) : List.length (run_outcomes r) = List.length (run_of r) ->
  map rep_name (run_reports r) = map hc_name (run_of r) /\
  map report_ok (run_reports r) = map outcome_ok (run_outcomes r).
Proof.
  unfold run_reports. generalize (run_of r) (run_outcomes r). intros cs.
  induction cs as [|c cs IH]; intros [|o outs] Hl; try done.
  cbn. rewrite report_of_ok. destruct (IH outs) as [-> ->]; [by injection Hl|]. split; [|done].
  f_equal. unfold report_of. by destruct (fst o).
Qed.

(** ** Properties *)

Section Properties.
Context `{HL : HttpLaws} {Fut : Type} (to_writer : ProbeResponse -> result string string).


Lemma last_lookup (ps : list (Z * Probe Fut)) x : (ps ++ [x]) !! List.length ps = Some x.
Proof. by apply list_lookup_middle. Qed.
Lemma last_insert (ps : list (Z * Probe Fut)) x y : <[List.length ps := y]> (ps ++ [x]) = ps ++ [y].
Proof. by rewrite insert_app_r_alt, Nat.sub_diag by done. Qed.

Ltac alone_step :=
  cbn [probe_run probe_exec probes clock registry runs periods probing_init];
  rewrite ?last_lookup;
  cbn [probe_step with_probe with_registry probes clock registry runs periods];
  unfold with_probe, with_registry;
  cbn [probes clock registry runs periods];
  rewrite ?last_insert.

Ltac alone :=
  do 3 eexists; split; [|split; [by rewrite !Forall_cons; split_and!; auto|]];
  [repeat match goal with p := PStep _ _ |- _ => unfold p; clear p end;
   repeat (alone_step; repeat match goal with E : _ = _ |- _ => rewrite E end); reflexivity
  |split; [reflexivity|split; reflexivity]].

(** A probe left alone does what [Health.readiness_response] says: with
    [join_all] for the environment, on a world that is the clock. *)
Theorem probe_alone (join_all : JoinAll Z Fut) (r : HealthRegistry Fut) t ps rs :
  join_all_lawful join_all -> (forall timeout l w, w <= snd (join_all timeout l w)) ->
  let s := mkProbing t r ps rs [] in
  let '(resp, r', t') := readiness_response at_clock to_writer join_all r t in
  let i := List.length ps in
  let outs := fst (join_all (check_timeout r) (map hc_run (checks r)) t) in
  exists ls s' src reports, probe_run to_writer ls s = Some s' /\
    Forall (fun l => l = PArrive \/ l = PTick (t' - t) \/ l = PStep i outs) ls /\
    registry s' = r' /\ clock s' = t' /\ probes s' = ps ++ [(t, Answered src reports resp)].
Proof.
  intros Hj Ht. unfold readiness_response, readiness_checks. cbv zeta.
  assert (Hrun : let (outs, t') := join_all (check_timeout r) (map hc_run (checks r)) t in
    (List.length outs =? List.length (checks r))%nat = true /\ (0 <=? t' - t) = true /\ t + (t' - t) = t').
  { pose proof (Hj (check_timeout r) (map hc_run (checks r)) t) as Hl.
    pose proof (Ht (check_timeout r) (map hc_run (checks r)) t) as Hle. rewrite length_map in Hl.
    destruct (join_all _ _ t) as [outs t']. cbn in Hl, Hle. rewrite Hl, Nat.eqb_refl.
    split_and!; [done|by apply Z.leb_le; lia|lia]. }
  unfold run_checks. set (outs := fst (join_all _ _ t)) in *.
  destruct (join_all (check_timeout r) (map hc_run (checks r)) t) as [outs' t'] eqn:Ej. subst outs. cbn [fst].
  destruct Hrun as (Hl & Hd & Et).
  set (p := PStep (List.length ps) outs' : ProbeLabel Fut).
  destruct (readiness_cache_ttl r =? 0) eqn:Ez; [|unfold fresh_cache; destruct (readiness_cache r) as [[at_ cached]|] eqn:Ec;
    [destruct (elapsed at_clock at_ t <? readiness_cache_ttl r) eqn:El|]].
  - exists [PArrive; p; p; p; PTick (t' - t); p; p]. alone.
  - exists [PArrive; p; p; p]. alone.
  - exists [PArrive; p; p; p; p; PTick (t' - t); p; p; p]. alone.
  - exists [PArrive; p; p; p; p; PTick (t' - t); p; p; p]. alone.
Qed.
End Properties.

(** ** Concrete probes *)

Module Overlap.
Definition registry : HealthRegistry unit := add_check (mkCheck "db" tt) (registry_new (fun w => w) 0).
Definition writer (p : ProbeResponse) : result string string := Ok "{}".
Definition run (ls : list (ProbeLabel unit)) : option (Probing unit) :=
  probe_run (H := ListHttp) writer ls (probing_init 0 registry).

(** The steps of probe [i] up to its run, and from the answer of the check on. *)
Definition start (i : nat) : list (ProbeLabel unit) := [PStep i []; PStep i []; PStep i []; PStep i []].
Definition finish (i : nat) (ok : bool) : list (ProbeLabel unit) :=
  [PStep i [(Some (check_of_bool ok), MILLISECOND)]; PStep i []; PStep i []].
Definition arrivals (n : nat) : list (ProbeLabel unit) := replicate n PArrive.

(** Three probes arrive together. *)
Definition burst : list (ProbeLabel unit) :=
  arrivals 3 ++ start 0 ++ start 1 ++ start 2 ++ [PTick MILLISECOND] ++
  finish 0 true ++ finish 1 true ++ finish 2 true.

(** A slow run sees the check healthy, a later one sees it fail and is over
    first; a third probe comes when the slow one is over. *)
Definition late_store : list (ProbeLabel unit) :=
  arrivals 1 ++ start 0 ++ [PTick (10 * MILLISECOND)] ++ arrivals 1 ++ start 1 ++
  [PTick (10 * MILLISECOND)] ++ finish 1 false ++ [PTick (1500 * MILLISECOND)] ++ finish 0 true ++
  [PTick (100 * MILLISECOND)] ++ arrivals 1 ++ [PStep 2 []; PStep 2 []; PStep 2 []].

Definition statuses (s : Probing unit) : list (option (bool * Z)) :=
  map (fun ap => match snd ap with
                 | Answered src _ resp =>
                     Some (match src with OwnRun => true | Cached _ _ _ => false end, res_status resp)
                 | _ => None
                 end) (probes s).

Definition late_state : Probing unit :=
  Eval vm_compute in match run late_store with Some s => s | None => probing_init 0 registry end.
Lemma late_run : probe_run (H := ListHttp) writer late_store (probing_init 0 registry) = Some late_state.
Proof. vm_cast_no_check (@eq_refl (option (Probing unit)) (Some late_state)). Qed.
End Overlap.


(** The cache does not make one run of a burst: probes that look before the first
    run is stored each run every check. *)
Theorem burst_runs_every_check :
  match Overlap.run Overlap.burst with
  | Some s => List.length (runs s) = 3%nat /\
      Overlap.statuses s = [Some (true, 200); Some (true, 200); Some (true, 200)]
  | None => False
  end.
Proof. by vm_compute. Qed.

(** The cache keeps the run that was stored last, not the one that saw the checks
    last: a probe is answered 200 although the latest run failed. *)
Theorem late_store_hides_failure :
  match Overlap.run Overlap.late_store with
  | Some s => map run_started (runs s) = [10 * MILLISECOND; 0] /\
      Overlap.statuses s = [Some (true, 200); Some (true, 503); Some (false, 200)]
  | None => False
  end.
Proof. by vm_compute. Qed.
