(* ===== verification/Metrics.v ===== *)
(** * Request metrics

    [arvik-observe/src/metrics.rs]: the Prometheus layer.  The [prometheus]
    crate is what is called: a registry is the log of the calls made on its
    metric families, from which gauges and counters are read off.  Observed
    durations are in nanoseconds and sizes in bytes; their conversion to [f64]
    is left out.

    Requests overlap, so the layer is a state machine: the futures in flight,
    the response bodies still streaming, and the log; its steps are the calls,
    polls and drops the server makes on them.  What was asked and answered is
    followed apart from the layer ([Exchange]), and says which calls are owed. *)
From S2P Require Import Prelude RustStr HttpCrate Body Http BodyLimit.
From stdpp Require Import base list strings gmap.
From Stdlib Require Import ZArith Lia Ascii String.
Open Scope string_scope.
Open Scope list_scope.

Definition PENDING_ROUTE := "__pending".
Definition UNKNOWN_ROUTE := "__unknown".

Definition LABELS : list string :=
  ["method"; "route"; "status"; "service"; "version"; "environment"].

Record StaticLabels := mkStaticLabels {
  l_service : string; l_version : string; l_environment : string }.
#[export] Instance rebuild_static_labels : Rebuild StaticLabels := fun l =>
  mkStaticLabels (l_service l) (l_version l) (l_environment l).
Definition static_labels_default : StaticLabels := mkStaticLabels "unknown" "unknown" "unknown".

Definition label_values (l : StaticLabels) (method route status : string) : list string :=
  [method; route; status; l_service l; l_version l; l_environment l].

(** The layer; its registry is the log. *)
Record PrometheusMetricsLayer := mkMetricsLayer {
  m_labels : StaticLabels;
  m_record_body_sizes : bool }.
#[export] Instance rebuild_metrics_layer : Rebuild PrometheusMetricsLayer := fun m =>
  mkMetricsLayer (m_labels m) (m_record_body_sizes m).
Definition metrics_with_registry : PrometheusMetricsLayer := mkMetricsLayer static_labels_default true.
Definition service_name (v : string) (m : PrometheusMetricsLayer) : PrometheusMetricsLayer :=
  (m <| m_labels := (m_labels m <| l_service := v |>) |>)%rust.
Definition metrics_version (v : string) (m : PrometheusMetricsLayer) : PrometheusMetricsLayer :=
  (m <| m_labels := (m_labels m <| l_version := v |>) |>)%rust.
Definition metrics_environment (v : string) (m : PrometheusMetricsLayer) : PrometheusMetricsLayer :=
  (m <| m_labels := (m_labels m <| l_environment := v |>) |>)%rust.
Definition record_body_sizes (b : bool) (m : PrometheusMetricsLayer) : PrometheusMetricsLayer :=
  (m <| m_record_body_sizes := b |>)%rust.

(** The calls on the metric families of [MetricsInner], with their labels. *)
Inductive MetricCall :=
| InFlightInc (labels : list string)
| InFlightDec (labels : list string)
| RequestsInc (labels : list string)
| DurationObserve (labels : list string) (nanos : Z)
| RequestSizeObserve (labels : list string) (bytes : Z)
| ResponseSizeObserve (labels : list string) (bytes : Z).
#[export] Instance metric_call_eq_dec : EqDecision MetricCall.
Proof. solve_decision. Defined.

(** The families as they are registered: name, help, and the buckets of a
    histogram. *)
Record Family (B : Type) := mkFamily { fam_name : string; fam_help : string; fam_buckets : option (list B) }.
Arguments mkFamily {_}. Arguments fam_name {_}. Arguments fam_help {_}. Arguments fam_buckets {_}.
Definition with_buckets {B} (duration_buckets size_buckets : list B) : list (Family B) :=
  [mkFamily "arvik_requests_total" "Total HTTP requests handled by Arvik." None;
   mkFamily "arvik_request_duration_seconds" "HTTP request duration in seconds." (Some duration_buckets);
   mkFamily "arvik_requests_in_flight" "HTTP requests currently being processed by Arvik." None;
   mkFamily "arvik_response_body_size_bytes" "HTTP response body bytes sent by Arvik." (Some size_buckets);
   mkFamily "arvik_request_body_size_bytes" "HTTP request body bytes consumed by Arvik." (Some size_buckets)].

(** The default buckets: durations in milliseconds, sizes in bytes; and the type
    of the text format. *)
Definition default_duration_buckets : list Z := [5; 10; 25; 50; 100; 250; 500; 1000; 2500; 5000; 10000]%Z.
Definition default_size_buckets : list Z :=
  [0; 64; 256; 1024; 4096; 16384; 65536; 262144; 1048576; 4194304]%Z.
Definition metrics_content_type : string := "text/plain; version=0.0.4; charset=utf-8".

(** [register] fails on a name taken before, and the code unwraps it. *)
Lemma with_buckets_registers {B} (d s : list B) : NoDup (map fam_name (with_buckets d s)).
Proof. refine (bool_decide_eq_true_1 (NoDup (map fam_name (with_buckets d s))) _). reflexivity. Qed.

Section Metrics.
Context `{HttpCrate}.

(** ** The counting body *)

Record CountingBody := mkCounting {
  cb_inner : Body;
  cb_bytes : Z;
  cb_observer : option (Z -> MetricCall);
  cb_finished : bool }.
Definition counting_new (inner : Body) (observer : option (Z -> MetricCall)) : CountingBody :=
  mkCounting inner 0 observer false.

Definition counting_finish (b : CountingBody) : list MetricCall * CountingBody :=
  if cb_finished b then ([], b)
  else (match cb_observer b with Some observe => [observe (cb_bytes b)] | None => [] end,
        mkCounting (cb_inner b) (cb_bytes b) (cb_observer b) true).

(** [CountingBody::poll_frame]; [fetch_add] wraps. *)
Definition counting_poll_frame (b : CountingBody) : option FrameResult * list MetricCall * CountingBody :=
  let (f, inner) := poll_frame (cb_inner b) in
  let b := mkCounting inner (cb_bytes b) (cb_observer b) (cb_finished b) in
  match f with
  | Some (Ok (DataFrame d)) =>
      (f, [], mkCounting (cb_inner b) (wrap_u64 (cb_bytes b + str_len d)) (cb_observer b) (cb_finished b))
  | Some (Ok (TrailersFrame _)) => (f, [], b)
  | Some (Err _) | None => let (calls, b) := counting_finish b in (f, calls, b)
  end.

(** [CountingBody::drop]. *)
Definition counting_drop (b : CountingBody) : list MetricCall := fst (counting_finish b).

(** [Body::new(CountingBody { .. })] as its reader sees it. *)
Definition counted_body (b : Body) : Body :=
  BBoxed (body_frames b)
    (fun left => size_hint (poll_n (List.length (body_frames b) - List.length left) b)).

(** ** The layer *)

(** The future of a call: the guard's gauge, the method's copy, and the
    request as the inner service gets it, with its counting body. *)
Record InFlight := mkInFlight {
  if_gauge : list string;
  if_method : string;
  if_request : Request;
  if_body : option CountingBody }.

Definition matched_route (r : Response) : string :=
  match res_matched_path r with Some p => p | None => UNKNOWN_ROUTE end.

(** [PrometheusMetricsService::call] up to the future. *)
Definition begin_call (m : PrometheusMetricsLayer) (req : Request) : list MetricCall * InFlight :=
  let pending := label_values (m_labels m) (method_as_str (req_method req)) PENDING_ROUTE "pending" in
  ([InFlightInc pending],
   if m_record_body_sizes m
   then mkInFlight pending (method_as_str (req_method req)) (set_req_body (counted_body (req_body req)) req)
          (Some (counting_new (req_body req) None))
   else mkInFlight pending (method_as_str (req_method req)) req None).

(** [size_hint().exact()]. *)
Definition exact (h : SizeHint) : option Z :=
  match sh_upper h with
  | Some u => if (sh_lower h =? u)%Z then Some u else None
  | None => None
  end.

(** The future from the inner service's response on: the calls, the response
    and its counting body when it streams. *)
Definition end_call (m : PrometheusMetricsLayer) (f : InFlight) (elapsed : Z) (response : Response)
  : list MetricCall * Response * option CountingBody :=
  let values := label_values (m_labels m) (if_method f) (matched_route response)
                  (to_dec (res_status response)) in
  let calls := [RequestsInc values; DurationObserve values elapsed] in
  match if_body f with
  | None => (calls ++ [InFlightDec (if_gauge f)], response, None)
  | Some counting =>
      let calls := calls ++ [RequestSizeObserve values (cb_bytes counting)] in
      match exact (size_hint (res_body response)) with
      | Some len => (calls ++ [ResponseSizeObserve values len; InFlightDec (if_gauge f)], response, None)
      | None =>
          (calls ++ [InFlightDec (if_gauge f)],
           mkResponse (res_status response) (res_headers response) (res_matched_path response)
             (counted_body (res_body response)),
           Some (counting_new (res_body response) (Some (ResponseSizeObserve values))))
      end
  end.

(** [InFlightGuard::drop] of a future dropped, or unwound, before its end. *)
Definition abandon (f : InFlight) : list MetricCall := [InFlightDec (if_gauge f)].

(** ** Steps *)

(** The log, the number of calls so far, which numbers the next one, the
    futures in flight and the response bodies still streaming. *)
Record MetricsState := mkMetricsState {
  log : list MetricCall;
  called : nat;
  in_flight : gmap nat InFlight;
  streaming : gmap nat CountingBody }.
Definition metrics_init : MetricsState := mkMetricsState [] 0 ∅ ∅.

Inductive MetricsOp :=
| Call (req : Request)
| ReadRequest (id : nat)
| Respond (id : nat) (elapsed : Z) (response : Response)
| Abandon (id : nat)
| PollBody (id : nat)
| DropBody (id : nat).

Definition metrics_step (m : PrometheusMetricsLayer) (s : MetricsState) (op : MetricsOp) : MetricsState :=
  match op with
  | Call req =>
      let (calls, f) := begin_call m req in
      mkMetricsState (log s ++ calls) (S (called s)) (<[called s := f]> (in_flight s)) (streaming s)
  | ReadRequest id =>
      match in_flight s !! id with
      | Some (mkInFlight g me r (Some b)) =>
          let '(_, calls, b) := counting_poll_frame b in
          mkMetricsState (log s ++ calls) (called s) (<[id := mkInFlight g me r (Some b)]> (in_flight s)) (streaming s)
      | _ => s
      end
  | Respond id elapsed response =>
      match in_flight s !! id with
      | Some f =>
          let '(calls, _, body) := end_call m f elapsed response in
          mkMetricsState (log s ++ calls) (called s) (delete id (in_flight s))
            (match body with Some b => <[id := b]> (streaming s) | None => streaming s end)
      | None => s
      end
  | Abandon id =>
      match in_flight s !! id with
      | Some f => mkMetricsState (log s ++ abandon f) (called s) (delete id (in_flight s)) (streaming s)
      | None => s
      end
  | PollBody id =>
      match streaming s !! id with
      | Some b => let '(_, calls, b) := counting_poll_frame b in
                  mkMetricsState (log s ++ calls) (called s) (in_flight s) (<[id := b]> (streaming s))
      | None => s
      end
  | DropBody id =>
      match streaming s !! id with
      | Some b => mkMetricsState (log s ++ counting_drop b) (called s) (in_flight s) (delete id (streaming s))
      | None => s
      end
  end.
Definition metrics_run (m : PrometheusMetricsLayer) (ops : list MetricsOp) (s : MetricsState) : MetricsState := fold_left (metrics_step m) ops s.
(** The scrape handler: an encoder task that failed encodes nothing. *)
Definition metrics_handler_with_registry (encode_text : option string) : Response :=
  rb_body (body_from_bytes (default "" encode_text))
    (rb_header_str CONTENT_TYPE "text/plain; version=0.0.4; charset=utf-8" rb_new).
End Metrics.

(** ** Reading the log *)

Definition tally (p : MetricCall -> bool) (log : list MetricCall) : Z :=
  Z.of_nat (List.length (List.filter p log)).

Definition is_inc l c := match c with InFlightInc l' => bool_decide (l' = l) | _ => false end.
Definition is_dec l c := match c with InFlightDec l' => bool_decide (l' = l) | _ => false end.
Definition is_request l c := match c with RequestsInc l' => bool_decide (l' = l) | _ => false end.
Definition is_duration l c := match c with DurationObserve l' _ => bool_decide (l' = l) | _ => false end.
Definition is_request_size l c :=
  match c with RequestSizeObserve l' _ => bool_decide (l' = l) | _ => false end.
Definition is_response_size l c :=
  match c with ResponseSizeObserve l' _ => bool_decide (l' = l) | _ => false end.

(** The gauge with labels [l], and the counter. *)
Definition gauge (l : list string) (log : list MetricCall) : Z := (tally (is_inc l) log - tally (is_dec l) log)%Z.
Definition requests_total (l : list string) (log : list MetricCall) : Z := tally (is_request l) log.

Lemma tally_app p a b : tally p (a ++ b) = (tally p a + tally p b)%Z.
Proof. unfold tally. rewrite List.filter_app, length_app. lia. Qed.

Lemma tally_nil p : tally p [] = 0%Z.
Proof. done. Qed.
Lemma tally_cons p c l : tally p (c :: l) = ((if p c then 1 else 0) + tally p l)%Z.
Proof. unfold tally. cbn. destruct (p c); cbn [List.length]; lia. Qed.

(** Tallies of a log extended by known calls. *)
Ltac tallies :=
  unfold gauge, requests_total in *; rewrite ?tally_app, ?tally_cons, ?tally_nil;
  cbn [is_inc is_dec is_request is_duration is_request_size is_response_size app].

(** A tally is a count, whatever the order of the calls. *)
Lemma tally_perm p a b : a ≡ₚ b -> tally p a = tally p b.
Proof. induction 1; rewrite ?tally_cons in *; lia. Qed.

(** ** Exchanges: what was asked and answered

    The specification does not look at the layer.  It follows the requests made
    of the service and their responses, and says which calls each of them
    owes. *)

Section Exchanges.
Context `{HttpCrate}.

(** A request that waits, with what is left of its body and the bytes read of
    it; one dropped before its response; or one answered, with the bytes of the
    request read by then, the time it took, and how far its body was sent. *)
Inductive Exchange :=
| Waiting (req : Request) (rest : Body) (read : Z)
| Dropped (req : Request)
| Answered (req : Request) (read elapsed : Z) (res : Response) (rest : Body) (sent : Z) (over : bool).

(** One poll of a body: what is left, the bytes seen, and whether it is over. *)
Definition read_frame (rest : Body) (bytes : Z) : Body * Z * bool :=
  let (f, rest) := poll_frame rest in
  match f with
  | Some (Ok (DataFrame d)) => (rest, bytes + str_len d, false)
  | Some (Ok (TrailersFrame _)) => (rest, bytes, false)
  | Some (Err _) | None => (rest, bytes, true)
  end%Z.

Definition exchange_step (h : list Exchange) (op : MetricsOp) : list Exchange :=
  match op with
  | Call req => h ++ [Waiting req (req_body req) 0]
  | ReadRequest id =>
      match h !! id with
      | Some (Waiting req rest read) =>
          let '(rest, read, _) := read_frame rest read in <[id := Waiting req rest read]> h
      | _ => h
      end
  | Respond id elapsed res =>
      match h !! id with
      | Some (Waiting req _ read) => <[id := Answered req read elapsed res (res_body res) 0 false]> h
      | _ => h
      end
  | Abandon id =>
      match h !! id with
      | Some (Waiting req _ _) => <[id := Dropped req]> h
      | _ => h
      end
  | PollBody id =>
      match h !! id with
      | Some (Answered req read elapsed res rest sent false) =>
          let '(rest, sent, over) := read_frame rest sent in
          <[id := Answered req read elapsed res rest sent over]> h
      | _ => h
      end
  | DropBody id =>
      match h !! id with
      | Some (Answered req read elapsed res rest sent false) =>
          <[id := Answered req read elapsed res rest sent true]> h
      | _ => h
      end
  end.
Definition exchanges (ops : list MetricsOp) : list Exchange := fold_left exchange_step ops [].

Context (m : PrometheusMetricsLayer).

(** The labels of a request before it has a response, and of one with a
    response: its method, the route's template and the status. *)
Definition pending_labels (req : Request) : list string :=
  [method_as_str (req_method req); "__pending"; "pending";
   l_service (m_labels m); l_version (m_labels m); l_environment (m_labels m)].
Definition answer_labels (req : Request) (res : Response) : list string :=
  [method_as_str (req_method req); default "__unknown" (res_matched_path res); to_dec (res_status res);
   l_service (m_labels m); l_version (m_labels m); l_environment (m_labels m)].

(** The calls an exchange owes: the gauge goes up, and down when the request has
    ended; a response is counted with its duration and, when sizes are recorded,
    the bytes read of the request and the length of its body, which is its
    declared one, or what was sent of it when it is over. *)
Definition owed (e : Exchange) : list MetricCall :=
  match e with
  | Waiting req _ _ => [InFlightInc (pending_labels req)]
  | Dropped req => [InFlightInc (pending_labels req); InFlightDec (pending_labels req)]
  | Answered req read elapsed res _ sent over =>
      let l := answer_labels req res in
      [InFlightInc (pending_labels req); InFlightDec (pending_labels req);
       RequestsInc l; DurationObserve l elapsed] ++
      if m_record_body_sizes m then
        RequestSizeObserve l (wrap_u64 read) ::
        match exact (size_hint (res_body res)) with
        | Some len => [ResponseSizeObserve l len]
        | None => if over then [ResponseSizeObserve l (wrap_u64 sent)] else []
        end
      else []
  end.

Definition waits (l : list string) (e : Exchange) : bool :=
  match e with Waiting req _ _ => bool_decide (pending_labels req = l) | _ => false end.
Definition answers_as (l : list string) (e : Exchange) : bool :=
  match e with Answered req _ _ res _ _ _ => bool_decide (answer_labels req res = l) | _ => false end.
Definition streams_as (l : list string) (e : Exchange) : bool :=
  match e with
  | Answered req _ _ res _ _ over =>
      bool_decide (answer_labels req res = l) && negb over &&
      bool_decide (exact (size_hint (res_body res)) = None)
  | _ => false
  end.
Definition how_many (p : Exchange -> bool) (h : list Exchange) : Z := Z.of_nat (List.length (List.filter p h)).

(** What is owed, label set by label set. *)
Lemma owed_tallies l h :
  let log := List.concat (map owed h) in
  gauge l log = how_many (waits l) h /\
  requests_total l log = how_many (answers_as l) h /\
  tally (is_duration l) log = how_many (answers_as l) h /\
  (m_record_body_sizes m = true ->
     tally (is_request_size l) log = how_many (answers_as l) h /\
     (tally (is_response_size l) log + how_many (streams_as l) h)%Z = how_many (answers_as l) h).
Proof.
  cbn zeta. unfold gauge, requests_total, how_many. induction h as [|e h IH]; [done|].
  cbn [map List.concat List.filter]. rewrite !tally_app.
  destruct IH as (IHg & IHr & IHd & IHs).
  destruct e as [req rest read|req|req read elapsed res rest sent over];
    cbn [waits answers_as streams_as owed]; rewrite ?tally_app, ?tally_cons, ?tally_nil;
    cbn [is_inc is_dec is_request is_duration is_request_size is_response_size].
  - split_and!; [case_bool_decide; cbn [List.length]; lia|lia|lia|intros Hm; specialize (IHs Hm); lia].
  - split_and!; [lia|lia|lia|intros Hm; specialize (IHs Hm); lia].
  - destruct (m_record_body_sizes m).
    + specialize (IHs eq_refl).
      destruct (exact (size_hint (res_body res))), over; rewrite ?tally_cons, ?tally_nil;
        cbn [is_inc is_dec is_request is_duration is_request_size is_response_size];
        rewrite ?andb_false_r; repeat case_bool_decide; cbn [andb negb List.length]; try done; lia.
    + rewrite !tally_nil. split_and!; [| | |done]; repeat case_bool_decide; cbn [List.length]; lia.
Qed.

(** A changed exchange owes what it owed and what it adds. *)
Lemma owed_alter h id e e' calls : h !! id = Some e -> owed e' ≡ₚ owed e ++ calls ->
  List.concat (map owed (<[id := e']> h)) ≡ₚ List.concat (map owed h) ++ calls.
Proof.
  intros Hid He. revert id Hid. induction h as [|x h IH]; intros [|id] Hid; [done..| |]; cbn in *.
  - injection Hid as ->. rewrite He, <- !app_assoc. by rewrite (Permutation_app_comm calls).
  - rewrite (IH _ Hid). by rewrite app_assoc.
Qed.

(** ** The layer's state of an exchange *)

Definition future_of (e : Exchange) (f : option InFlight) : Prop :=
  match e with
  | Waiting req rest read => exists r fin, f = Some (mkInFlight (pending_labels req) (method_as_str (req_method req)) r
      (if m_record_body_sizes m then Some (mkCounting rest (wrap_u64 read) None fin) else None))
  | _ => f = None
  end.
Definition stream_of (e : Exchange) (b : option CountingBody) : Prop :=
  match e with
  | Answered req _ _ res rest sent over =>
      if m_record_body_sizes m && bool_decide (exact (size_hint (res_body res)) = None)
      then if over then match b with Some b => cb_finished b = true | None => True end
           else b = Some (mkCounting rest (wrap_u64 sent) (Some (ResponseSizeObserve (answer_labels req res))) false)
      else b = None
  | _ => b = None
  end.
Definition agrees (s : MetricsState) (h : list Exchange) : Prop :=
  called s = List.length h /\
  (forall id, match h !! id with
     | Some e => future_of e (in_flight s !! id) /\ stream_of e (streaming s !! id)
     | None => in_flight s !! id = None /\ streaming s !! id = None
     end) /\
  log s ≡ₚ List.concat (map owed h).

(** A step that changes one exchange. *)
Lemma agrees_alter s h id e e' calls fs ss :
  agrees s h -> h !! id = Some e -> owed e' ≡ₚ owed e ++ calls ->
  (forall i, i <> id -> fs !! i = in_flight s !! i /\ ss !! i = streaming s !! i) ->
  future_of e' (fs !! id) -> stream_of e' (ss !! id) ->
  agrees (mkMetricsState (log s ++ calls) (called s) fs ss) (<[id := e']> h).
Proof.
  intros (Hn & Hm & Hl) Hid He Ho Hf Hs. split_and!; cbn [called log in_flight streaming].
  - by rewrite length_insert.
  - intros i. destruct (decide (i = id)) as [->|Hi].
    + rewrite list_lookup_insert_eq by (eapply lookup_lt_Some; exact Hid). done.
    + rewrite list_lookup_insert_ne by done. destruct (Ho i Hi) as [-> ->]. apply Hm.
  - rewrite (owed_alter _ _ _ _ _ Hid He). by rewrite Hl.
Qed.

(** A step of the exchange the layer does not see. *)
Lemma agrees_unlogged s h id e e' :
  agrees s h -> h !! id = Some e -> owed e' = owed e ->
  future_of e' (in_flight s !! id) -> stream_of e' (streaming s !! id) -> agrees s (<[id := e']> h).
Proof.
  intros Ha Hid He Hf Hs.
  assert (s = mkMetricsState (log s ++ []) (called s) (in_flight s) (streaming s)) as ->
    by (destruct s; cbn; by rewrite app_nil_r).
  eapply agrees_alter; [exact Ha|exact Hid|by rewrite app_nil_r, He|done..].
Qed.

(** Polling a counting body is reading a frame. *)
Lemma counting_poll_read rest bytes o fin :
  let '(rest', bytes', over) := read_frame rest bytes in
  let '(_, calls, b) := counting_poll_frame (mkCounting rest (wrap_u64 bytes) o fin) in
  b = mkCounting rest' (wrap_u64 bytes') o (fin || over) /\
  calls = match o with
          | Some observe => if over && negb fin then [observe (wrap_u64 bytes')] else []
          | None => []
          end.
Proof.
  unfold read_frame, counting_poll_frame, counting_finish. cbn. destruct (poll_frame rest) as [[[[d|t]|e]|] rest'];
    cbn; rewrite ?wrap_u64_add_l, ?orb_false_r, ?orb_true_r; destruct o, fin; done.
Qed.

(** A body that is over reports nothing more. *)
Lemma counting_over b : cb_finished b = true ->
  counting_drop b = [] /\
  let '(_, calls, b') := counting_poll_frame b in calls = [] /\ cb_finished b' = true.
Proof.
  intros Hb. unfold counting_drop, counting_poll_frame, counting_finish. rewrite Hb. split; [done|].
  destruct (poll_frame (cb_inner b)) as [[[[d|t]|e]|] i]; cbn; by rewrite ?Hb.
Qed.

Ltac others := intros i Hi; rewrite ?lookup_insert_ne, ?lookup_delete_ne by done; done.

Lemma call_agrees s h req : agrees s h -> agrees (metrics_step m s (Call req)) (exchange_step h (Call req)).
Proof.
  intros (Hn & Hm & Hl). cbn [metrics_step exchange_step].
  destruct (begin_call m req) as [calls f0] eqn:Ef.
  assert (calls = [InFlightInc (pending_labels req)] /\ future_of (Waiting req (req_body req) 0) (Some f0)) as [-> Hf].
  { unfold begin_call in Ef. destruct (m_record_body_sizes m) eqn:Em; injection Ef as <- <-; (split; [done|]);
      cbn; rewrite Em; by eexists _, false. }
  split_and!; cbn [called log in_flight streaming].
  - rewrite length_app. cbn. lia.
  - intros i. destruct (decide (i = List.length h)) as [->|Hi].
    + rewrite <- Hn, lookup_insert_eq, Hn, lookup_app_r, Nat.sub_diag by done. cbn. split; [done|].
      specialize (Hm (List.length h)). rewrite lookup_ge_None_2 in Hm by done. apply Hm.
    + rewrite Hn, lookup_insert_ne by done. specialize (Hm i).
      destruct (h !! i) eqn:Eh; [by rewrite (lookup_app_l_Some _ _ _ _ Eh)|].
      rewrite lookup_ge_None_2; [done|]. apply lookup_ge_None in Eh. rewrite length_app. cbn. lia.
  - rewrite map_app, List.concat_app, Hl. cbn. done.
Qed.

Lemma read_agrees s h id : agrees s h -> agrees (metrics_step m s (ReadRequest id)) (exchange_step h (ReadRequest id)).
Proof.
  intros Ha. pose proof (proj1 (proj2 Ha) id) as Hi. cbn.
  destruct (h !! id) as [[req rest read|req|req read el res rest sent over]|] eqn:Eh; cbn in Hi.
  2-4: by rewrite (proj1 Hi).
  destruct Hi as [(r & fin & Hf) Hs]. rewrite Hf.
  pose proof (counting_poll_read rest read None fin) as Hp.
  destruct (read_frame rest read) as [[rest' read'] over] eqn:Er. destruct (m_record_body_sizes m) eqn:Em.
  - destruct (counting_poll_frame _) as [[fr calls] b]. destruct Hp as [-> ->].
    eapply agrees_alter; [exact Ha|exact Eh|by rewrite app_nil_r|others| |by cbn].
    cbn. rewrite lookup_insert_eq, Em. eauto.
  - eapply agrees_unlogged; [exact Ha|exact Eh|done| |by cbn]. cbn. rewrite Hf, Em. eauto.
Qed.

Lemma abandon_agrees s h id : agrees s h -> agrees (metrics_step m s (Abandon id)) (exchange_step h (Abandon id)).
Proof.
  intros Ha. pose proof (proj1 (proj2 Ha) id) as Hi. cbn.
  destruct (h !! id) as [[req rest read|req|req read el res rest sent over]|] eqn:Eh; cbn in Hi.
  2-4: by rewrite (proj1 Hi).
  destruct Hi as [(r & fin & Hf) Hs]. rewrite Hf.
  eapply agrees_alter; [exact Ha|exact Eh|done|others| |by cbn]. cbn. apply lookup_delete_eq.
Qed.

Lemma respond_agrees s h id el res :
  agrees s h -> agrees (metrics_step m s (Respond id el res)) (exchange_step h (Respond id el res)).
Proof.
  intros Ha. pose proof (proj1 (proj2 Ha) id) as Hi. cbn.
  destruct (h !! id) as [[req rest read|req|req read el0 res0 rest sent over]|] eqn:Eh; cbn in Hi.
  2-4: by rewrite (proj1 Hi).
  destruct Hi as [(r & fin & Hf) Hs]. rewrite Hf. unfold end_call. cbn [if_body if_gauge if_method].
  change (label_values _ _ _ _) with (answer_labels req res).
  destruct (m_record_body_sizes m) eqn:Em; [destruct (exact (size_hint (res_body res))) as [len|] eqn:Ex|].
  all: eapply agrees_alter; [exact Ha|exact Eh| |others|apply lookup_delete_eq|];
    cbn; rewrite ?Em, ?Ex; cbn; rewrite ?lookup_insert_eq; try done.
  - exact (perm_skip _ (Permutation_cons_append [_; _; _; _] _)).
  - exact (perm_skip _ (Permutation_cons_append [_; _; _] _)).
  - exact (perm_skip _ (Permutation_cons_append [_; _] _)).
Qed.

Lemma poll_agrees s h id : agrees s h -> agrees (metrics_step m s (PollBody id)) (exchange_step h (PollBody id)).
Proof.
  intros Ha. pose proof (proj1 (proj2 Ha) id) as Hi. cbn.
  destruct (h !! id) as [[req rest read|req|req read el res rest sent over]|] eqn:Eh; cbn in Hi.
  1,2,4: by rewrite (proj2 Hi).
  destruct Hi as [Hf Hs]. destruct (_ && _) eqn:Ew.
  2:{ rewrite Hs. destruct over; [exact Ha|].
      destruct (read_frame rest sent) as [[rest' sent'] over].
      eapply (agrees_unlogged s h id); [exact Ha|exact Eh| |done|cbn; by rewrite Ew].
      cbn. destruct (m_record_body_sizes m), (exact _); cbn in Ew |- *; done. }
  apply andb_true_iff in Ew as Ew'. destruct Ew' as [Em Ex%bool_decide_eq_true].
  destruct over.
  - destruct (streaming s !! id) as [b|] eqn:Es; [|exact Ha].
    destruct (counting_over b Hs) as [_ Hp]. destruct (counting_poll_frame b) as [[fr calls] b'].
    destruct Hp as [-> Hb]. rewrite <- (list_insert_id h id _ Eh).
    eapply agrees_alter; [exact Ha|exact Eh|by rewrite app_nil_r|others|done|].
    cbn. by rewrite Ew, lookup_insert_eq.
  - rewrite Hs. pose proof (counting_poll_read rest sent (Some (ResponseSizeObserve (answer_labels req res))) false) as Hp.
    destruct (read_frame rest sent) as [[rest' sent'] over].
    destruct (counting_poll_frame _) as [[fr calls] b]. destruct Hp as [-> ->].
    eapply agrees_alter; [exact Ha|exact Eh| |others|done|].
    + cbn. rewrite Em, Ex. by destruct over.
    + cbn. rewrite Ew, lookup_insert_eq. by destruct over.
Qed.

Lemma drop_agrees s h id : agrees s h -> agrees (metrics_step m s (DropBody id)) (exchange_step h (DropBody id)).
Proof.
  intros Ha. pose proof (proj1 (proj2 Ha) id) as Hi. cbn.
  destruct (h !! id) as [[req rest read|req|req read el res rest sent over]|] eqn:Eh; cbn in Hi.
  1,2,4: by rewrite (proj2 Hi).
  destruct Hi as [Hf Hs]. destruct (_ && _) eqn:Ew.
  2:{ rewrite Hs. destruct over; [exact Ha|].
      eapply (agrees_unlogged s h id); [exact Ha|exact Eh| |done|cbn; by rewrite Ew].
      cbn. destruct (m_record_body_sizes m), (exact _); cbn in Ew |- *; done. }
  apply andb_true_iff in Ew as Ew'. destruct Ew' as [Em Ex%bool_decide_eq_true].
  destruct over.
  - destruct (streaming s !! id) as [b|] eqn:Es; [|exact Ha].
    destruct (counting_over b Hs) as [-> _]. rewrite <- (list_insert_id h id _ Eh).
    eapply agrees_alter; [exact Ha|exact Eh|by rewrite app_nil_r|others|done|].
    cbn. by rewrite Ew, lookup_delete_eq.
  - rewrite Hs. eapply agrees_alter; [exact Ha|exact Eh| |others|done|].
    + cbn. rewrite Em, Ex. done.
    + cbn. by rewrite Ew, lookup_delete_eq.
Qed.

Lemma step_agrees s h op : agrees s h -> agrees (metrics_step m s op) (exchange_step h op).
Proof.
  destruct op; [apply call_agrees|apply read_agrees|apply respond_agrees|apply abandon_agrees
    |apply poll_agrees|apply drop_agrees].
Qed.

Lemma run_agrees ops : agrees (metrics_run m ops metrics_init) (exchanges ops).
Proof.
  unfold metrics_run, exchanges. assert (Hi : agrees metrics_init []) by done.
  revert Hi. generalize metrics_init, (@nil Exchange).
  induction ops as [|op ops IH]; intros s h Hs; [done|]. by apply IH, step_agrees.
Qed.
End Exchanges.

(** ** The counting body reads off what it counted *)

(** The data bytes of the results up to the first error. *)
Fixpoint bytes_until_error `{HttpCrate} (fs : list FrameResult) : Z :=
  match fs with
  | [] | Err _ :: _ => 0
  | Ok (DataFrame d) :: fs => str_len d + bytes_until_error fs
  | Ok (TrailersFrame _) :: fs => bytes_until_error fs
  end.

(** [n] polls, and what they reported. *)
Fixpoint counting_polls `{HttpCrate} (n : nat) (b : CountingBody) : list MetricCall * CountingBody :=
  match n with
  | O => ([], b)
  | S n => let '(_, calls, b) := counting_poll_frame b in
           let (calls', b) := counting_polls n b in (calls ++ calls', b)
  end.

Lemma counting_polls_finished `{HttpCrate} n b : cb_finished b = true ->
  let (calls, b') := counting_polls n b in calls ++ counting_drop b' = [].
Proof.
  revert b; induction n as [|n IH]; intros b Hb; cbn.
  - unfold counting_drop, counting_finish. by rewrite Hb.
  - assert (Hp : let '(_, calls, b') := counting_poll_frame b in calls = [] /\ cb_finished b' = true).
    { unfold counting_poll_frame. destruct (poll_frame (cb_inner b)) as [[[[d|t]|e]|] i]; cbn;
        unfold counting_finish; cbn; rewrite Hb; done. }
    destruct (counting_poll_frame b) as [[f calls] b']. destruct Hp as [-> Hb'].
    specialize (IH b' Hb'). by destruct (counting_polls n b').
Qed.

Lemma counting_polls_once `{HttpCrate} n b observe : cb_finished b = false -> cb_observer b = Some observe ->
  cb_bytes b = wrap_u64 (cb_bytes b) ->
  let (calls, b') := counting_polls n b in
  calls ++ counting_drop b'
    = [observe (wrap_u64 (cb_bytes b + bytes_until_error (take n (body_frames (cb_inner b)))))].
Proof.
  revert b; induction n as [|n IH]; intros [i k o fin]; cbn [cb_finished cb_observer cb_bytes cb_inner];
    intros -> -> Hk; cbn [counting_polls].
  - unfold counting_drop, counting_finish. cbn. rewrite Z.add_0_r. by rewrite <- Hk.
  - unfold counting_poll_frame. cbn [cb_inner]. pose proof (poll_frame_frames i) as Hi.
    destruct (poll_frame i) as [[[[d|t]|e]|] i'].
    + rewrite Hi. cbn [take bytes_until_error cb_bytes cb_observer cb_finished cb_inner].
      specialize (IH (mkCounting i' (wrap_u64 (k + str_len d)) (Some observe) false)).
      cbn [cb_finished cb_observer cb_bytes cb_inner] in IH.
      rewrite wrap_u64_add_l in IH. specialize (IH eq_refl eq_refl (eq_sym (wrap_u64_wrap _))).
      destruct (counting_polls n _) as [calls b']. rewrite app_nil_l, IH. do 3 f_equal. lia.
    + rewrite Hi. cbn [take bytes_until_error].
      specialize (IH (mkCounting i' k (Some observe) false) eq_refl eq_refl Hk).
      destruct (counting_polls n _) as [calls b']. rewrite app_nil_l, IH. done.
    + rewrite Hi. cbn [take bytes_until_error counting_finish cb_finished cb_observer cb_bytes cb_inner].
      pose proof (counting_polls_finished n (mkCounting i' k (Some observe) true) eq_refl) as Hf.
      destruct (counting_polls n _) as [calls b'].
      rewrite <- app_assoc, Hf, Z.add_0_r. cbn. by rewrite <- Hk.
    + destruct Hi as [-> _]. cbn [take bytes_until_error counting_finish cb_finished cb_observer cb_bytes cb_inner].
      pose proof (counting_polls_finished n (mkCounting i' k (Some observe) true) eq_refl) as Hf.
      destruct (counting_polls n _) as [calls b'].
      rewrite <- app_assoc, Hf, Z.add_0_r. cbn. by rewrite <- Hk.
Qed.

(** ** Properties *)

(** C37. Metrics add up at every moment, in any interleaving of calls, reads,
    responses, abandoned requests, and body polls and drops. The calls made on
    the metric families are, up to their order, the ones each exchange owes: the
    gauge up, and down again when the request was answered or dropped; for each
    response one count and its duration, under the request's method, the
    matched route and the status; and, when sizes are recorded, one request
    size, the bytes read of the request by then, and one response size, the
    declared length or, for a streamed body, the bytes sent once it ended or was
    dropped. So, under every label set, the gauge is the number of requests that
    wait, the counter is the number of responses, and so are the durations, the
    request sizes, and the response sizes with the streams still running. *)
Theorem metrics_balanced `{HttpCrate} (m : PrometheusMetricsLayer) ops l :
  let calls := log (metrics_run m ops metrics_init) in
  let h := exchanges ops in
  calls ≡ₚ List.concat (map (owed m) h) /\
  gauge l calls = how_many (waits m l) h /\
  requests_total l calls = how_many (answers_as m l) h /\
  tally (is_duration l) calls = how_many (answers_as m l) h /\
  (m_record_body_sizes m = true ->
     tally (is_request_size l) calls = how_many (answers_as m l) h /\
     (tally (is_response_size l) calls + how_many (streams_as m l) h)%Z = how_many (answers_as m l) h).
Proof.
  cbn zeta. destruct (run_agrees m ops) as (_ & _ & Hp). split; [exact Hp|].
  unfold gauge, requests_total. rewrite !(tally_perm _ _ _ Hp). apply owed_tallies.
Qed.

(** However a streamed body is read and dropped, its size is observed once, and
    it is the data polled up to the end or the first error. *)
Theorem counting_body_once `{HttpCrate} (inner : Body) observe n :
  let (calls, b) := counting_polls n (counting_new inner (Some observe)) in
  calls ++ counting_drop b
    = [observe (wrap_u64 (bytes_until_error (take n (body_frames inner))))].
Proof. exact (counting_polls_once n (counting_new inner (Some observe)) observe eq_refl eq_refl eq_refl). Qed.

(** The layer changes nothing the client or the service sees, and labels the
    response with its route template, never with its path. *)
Theorem metrics_transparent `{HttpCrate} m req elapsed response :
  let f := snd (begin_call m req) in
  let '(calls, response', _) := end_call m f elapsed response in
  req_headers (if_request f) = req_headers req /\ req_method (if_request f) = req_method req /\
  req_uri (if_request f) = req_uri req /\ req_ext (if_request f) = req_ext req /\
  body_frames (req_body (if_request f)) = body_frames (req_body req) /\
  size_hint (req_body (if_request f)) = size_hint (req_body req) /\
  res_status response' = res_status response /\ res_headers response' = res_headers response /\
  res_matched_path response' = res_matched_path response /\
  body_frames (res_body response') = body_frames (res_body response) /\
  size_hint (res_body response') = size_hint (res_body response) /\
  In (RequestsInc (label_values (m_labels m) (method_as_str (req_method req))
        (match res_matched_path response with Some p => p | None => UNKNOWN_ROUTE end)
        (to_dec (res_status response)))) calls.
Proof.
  cbn zeta. unfold begin_call, end_call, counted_body.
  destruct (m_record_body_sizes m); cbn [snd if_body].
  - destruct (exact (size_hint (res_body response))); cbn; rewrite ?Nat.sub_diag; split_and!; auto.
  - cbn. split_and!; auto.
Qed.
