(* ===== verification/Tls.v ===== *)
(** * TLS configuration and its reload

    [arvik-tls/src/lib.rs], the [rustls] backend: configurations from PEM and
    DER, the cell all clones of a configuration share, reloading it, and the
    watcher that reloads it when the files change.  The watcher is stepped from the
    load of the two files on; they may change between any two of its steps, and
    the environment decides which events are reported.

    [rustls], [rustls_pemfile] and [rcgen] are parameters: parsing a PEM file,
    and making a server configuration of a chain and a key, which may refuse
    them.  So are the parser of the leaf certificate, whose expiry is warned
    about, and [native-tls], which makes an acceptor of a PKCS#12 identity.
    Handshakes are what [Server]'s connection tasks see of them. *)
From S2P Require Import Prelude RustStr FileWatch.
From stdpp Require Import base list strings gmap.
From Stdlib Require Import ZArith Lia Ascii String.
Open Scope string_scope.
Open Scope list_scope.

Definition ALPN_HTTP2 : string := "h2".
Definition ALPN_HTTP11 : string := "http/1.1".

Inductive TlsError :=
| TlsIo (e : string)
| TlsPem (e : string)
| TlsConfig (e : string)
| TlsCertificateGeneration (e : string)
| TlsNotify (e : string)
| TlsNative (e : string).

Definition tls_error_text (e : TlsError) : string :=
  match e with
  | TlsIo e => "TLS IO error: " +:+ e
  | TlsPem e => "TLS PEM error: " +:+ e
  | TlsConfig e => "TLS configuration error: " +:+ e
  | TlsCertificateGeneration e => "TLS certificate generation error: " +:+ e
  | TlsNotify e => "TLS watch error: " +:+ e
  | TlsNative e => "native-tls error: " +:+ e
  end.

(** What [warn_certificate_expiry] logs about the leaf: parsing it gives the
    seconds to its expiration, or none outside its validity. *)
Definition EXPIRY_WARN_DAYS : Z := 30.
Inductive ExpiryWarning := Unparsable | ExpiresSoon (days : Z) | NotValid.
Definition warn_certificate_expiry {Cert} (parse : Cert -> option (option Z)) (certs : list Cert)
  : option ExpiryWarning :=
  match certs with
  | [] => None
  | leaf :: _ =>
      match parse leaf with
      | None => Some Unparsable
      | Some None => Some NotValid
      | Some (Some remaining) =>
          if (remaining <=? EXPIRY_WARN_DAYS * 24 * 60 * 60)%Z
          then Some (ExpiresSoon (Z.quot remaining 86400)) else None
      end
  end.

(** The [native-tls] backend: an identity from PKCS #12 and an acceptor with the
    same protocols on offer. *)
Record NativeTlsConfig (Acceptor : Type) := mkNativeTls { native_acceptor : Acceptor }.
Definition from_pkcs12 {Identity Acceptor} (identity_of : string -> string -> result Identity string)
    (build : Identity -> list string -> result Acceptor string) (data password : string)
  : result (NativeTlsConfig Acceptor) TlsError :=
  match identity_of data password with
  | Err e => Err (TlsNative e)
  | Ok identity =>
      match build identity [ALPN_HTTP2; ALPN_HTTP11] with
      | Err e => Err (TlsNative e)
      | Ok acceptor => Ok (mkNativeTls _ acceptor)
      end
  end.
Definition from_pkcs12_file {Identity Acceptor} (identity_of : string -> string -> result Identity string)
    (build : Identity -> list string -> result Acceptor string) (fs : FsPath -> result string string)
    (path : FsPath) (password : string) : result (NativeTlsConfig Acceptor) TlsError :=
  match fs path with
  | Err e => Err (TlsIo e)
  | Ok data => from_pkcs12 identity_of build data password
  end.

Section Tls.
Context {Cert Key Identity : Type}.
Context (pem_certs : string -> result (list Cert) string)
        (pem_private_key : string -> result (option Key) string)
        (with_single_cert : list Cert -> Key -> result Identity string)
        (generate_self_signed : list string -> result (Cert * Key) string).

(** The [rustls::ServerConfig]. *)
Record TlsServerConfig := mkTlsServerConfig { identity : Identity; alpn_protocols : list string }.

(** The cells of the configurations; a [RustlsConfig] is its cell's location,
    which clones copy. *)
Definition Cells := gmap nat TlsServerConfig.
Definition RustlsConfig := nat.

Definition parse_certs (pem : string) : result (list Cert) TlsError :=
  match pem_certs pem with
  | Err e => Err (TlsPem e)
  | Ok [] => Err (TlsPem "no certificates found")
  | Ok certs => Ok certs
  end.
Definition parse_private_key (pem : string) : result Key TlsError :=
  match pem_private_key pem with
  | Err e => Err (TlsPem e)
  | Ok None => Err (TlsPem "no private key found")
  | Ok (Some key) => Ok key
  end.
Definition build_server_config (certs : list Cert) (key : Key) : result TlsServerConfig TlsError :=
  match with_single_cert certs key with
  | Err e => Err (TlsConfig e)
  | Ok id => Ok (mkTlsServerConfig id [ALPN_HTTP2; ALPN_HTTP11])
  end.

(** The configuration of a pair of PEM texts. *)
Definition config_of_pem (cert_pem key_pem : string) : result TlsServerConfig TlsError :=
  match parse_certs cert_pem with
  | Err e => Err e
  | Ok certs => match parse_private_key key_pem with
                | Err e => Err e
                | Ok key => build_server_config certs key
                end
  end.

Definition from_der (certs : list Cert) (key : Key) (m : Cells) : result RustlsConfig TlsError * Cells :=
  match build_server_config certs key with
  | Err e => (Err e, m)
  | Ok config => let l := fresh (dom m) in (Ok l, <[l := config]> m)
  end.
Definition from_pem (cert_pem key_pem : string) (m : Cells) : result RustlsConfig TlsError * Cells :=
  match parse_certs cert_pem with
  | Err e => (Err e, m)
  | Ok certs => match parse_private_key key_pem with
                | Err e => (Err e, m)
                | Ok key => from_der certs key m
                end
  end.
Definition self_signed (names : list string) (m : Cells) : result RustlsConfig TlsError * Cells :=
  match generate_self_signed names with
  | Err e => (Err (TlsCertificateGeneration e), m)
  | Ok (cert, key) => from_der [cert] key m
  end.

(** [reload_from_pem]: nothing is written unless everything succeeded. *)
Definition reload_from_pem (c : RustlsConfig) (cert_pem key_pem : string) (m : Cells)
  : result unit TlsError * Cells :=
  match config_of_pem cert_pem key_pem with
  | Err e => (Err e, m)
  | Ok config => (Ok tt, <[c := config]> m)
  end.

(** [current_config], which [acceptor] hands to a handshake. *)
Definition current_config (c : RustlsConfig) (m : Cells) : option TlsServerConfig := m !! c.

(** [with_alpn_http2_only]: the shared cell is read, under the read lock, and
    written, under the write lock. *)
Definition alpn_write (c : RustlsConfig) (current : option TlsServerConfig) (m : Cells) : Cells :=
  match current with
  | Some config => <[c := mkTlsServerConfig (identity config) [ALPN_HTTP2]]> m
  | None => m
  end.
Definition with_alpn_http2_only (c : RustlsConfig) (m : Cells) : RustlsConfig * Cells :=
  (c, alpn_write c (current_config c m) m).

(** ** Files and their watcher *)

(** The files as they are at some moment. *)
Definition Files := FsPath -> result string string.
Definition read_file (fs : Files) (p : FsPath) : result string TlsError :=
  match fs p with Ok s => Ok s | Err e => Err (TlsIo e) end.

Definition from_pem_file (cert_path key_path : FsPath) (fs : Files) (m : Cells)
  : result RustlsConfig TlsError * Cells :=
  match read_file fs cert_path with
  | Err e => (Err e, m)
  | Ok cert_pem => match read_file fs key_path with
                   | Err e => (Err e, m)
                   | Ok key_pem => from_pem cert_pem key_pem m
                   end
  end.

(** [reload_from_pem_file]: the two reads, at two moments. *)
Definition reload_from_pem_file (c : RustlsConfig) (cert_path key_path : FsPath) (at_cert at_key : Files)
    (m : Cells) : result unit TlsError * Cells :=
  match read_file at_cert cert_path with
  | Err e => (Err e, m)
  | Ok cert_pem => match read_file at_key key_path with
                   | Err e => (Err e, m)
                   | Ok key_pem => reload_from_pem c cert_pem key_pem m
                   end
  end.

(** [accept]: the handshake runs under the configuration of this moment. *)
Definition tls_accept {Stream} (handshake : TlsServerConfig -> result Stream string) (c : RustlsConfig)
    (m : Cells) : option (result Stream TlsError) :=
  config ← current_config c m;
  Some (match handshake config with Ok s => Ok s | Err e => Err (TlsConfig e) end).

(** The directories the watcher watches, each once, and its start: the first
    directory that cannot be watched fails it. *)
Definition watched_dirs (cert_path key_path : FsPath) : list FsPath :=
  remove_dups (omap id [path_parent cert_path; path_parent key_path]).
Fixpoint watch_all (watch : FsPath -> option string) (dirs : list FsPath) : result unit TlsError :=
  match dirs with
  | [] => Ok tt
  | d :: dirs => match watch d with Some e => Err (TlsNotify e) | None => watch_all watch dirs end
  end.

Context (cert_path key_path : FsPath).

(** The events the watcher's callback reports to its task. *)
Definition relevant (kind : EventKind) (paths : list FsPath) : bool :=
  match kind with
  | EvCreate | EvModify | EvRemove =>
      existsb (fun p =>
        bool_decide (p = cert_path) || bool_decide (p = key_path) ||
        match path_file_name p with
        | Some name => bool_decide (Some name = path_file_name cert_path)
                       || bool_decide (Some name = path_file_name key_path)
        | None => false
        end ||
        bool_decide (Some p = path_parent cert_path) || bool_decide (Some p = path_parent key_path)) paths
  | EvAccess | EvOther => false
  end.

(** Where the configuration and its watcher are: being loaded from the two files,
    one after the other; loaded and not watched; having its directories watched;
    and then where the task is: waiting for a notification, debouncing, and
    reading the two files of [reload_from_pem_file] one after the other. *)
Inductive WatcherPhase :=
| LoadingCert
| LoadingKey (cert_pem : string)
| Unwatched
| Watching (dirs : list FsPath)
| Failed (e : TlsError)
| Waiting
| Debouncing
| ReadingCert
| ReadingKey (cert_pem : string).

(** [owner] is the configuration.  Ghost state: [unnotified], the files changed
    since the load began, or were never read, and no event has told so yet. *)
Record Watcher := mkWatcher {
  files : Files;
  unnotified : bool;
  queue : nat;
  phase : WatcherPhase;
  owner : RustlsConfig;
  cells : Cells }.

(** The starts: [from_pem_file] and then [watch_pem_files], or [watch_pem_files]
    of a configuration from elsewhere. *)
Definition load_start (fs : Files) (m : Cells) : Watcher := mkWatcher fs true 0 LoadingCert 0 m.
Definition watch_start (c : RustlsConfig) (fs : Files) (m : Cells) : Watcher :=
  mkWatcher fs true 0 Unwatched c m.

Inductive WatcherOp :=
| FilesChange (fs : Files)
| NotifyEvent (kind : EventKind) (paths : list FsPath)
| TaskStep.

Definition at_phase (p : WatcherPhase) (s : Watcher) : Watcher :=
  mkWatcher (files s) (unnotified s) (queue s) p (owner s) (cells s).

(** A step of [from_pem_file] and of [TlsReloadWatcher::new], one directory at a
    time, the rest of [watched_dirs] being to watch. *)
Definition tls_start_step (watch : FsPath -> option string) (s : Watcher) : Watcher :=
  match phase s with
  | LoadingCert =>
      match read_file (files s) cert_path with
      | Ok pem => mkWatcher (files s) false (queue s) (LoadingKey pem) (owner s) (cells s)
      | Err e => at_phase (Failed e) s
      end
  | LoadingKey cert_pem =>
      match read_file (files s) key_path with
      | Ok key_pem =>
          match from_pem cert_pem key_pem (cells s) with
          | (Ok c, m) => mkWatcher (files s) (unnotified s) (queue s) Unwatched c m
          | (Err e, m) => at_phase (Failed e) s
          end
      | Err e => at_phase (Failed e) s
      end
  | Unwatched => at_phase (Watching (watched_dirs cert_path key_path)) s
  | Watching (dir :: dirs) =>
      match watch dir with Some e => at_phase (Failed (TlsNotify e)) s | None => at_phase (Watching dirs) s end
  | Watching [] => at_phase Waiting s
  | _ => s
  end.

(** One step of the task: receive; wake up and drain; read a file; read the
    other and reload. A failed reload is logged. *)
Definition task_step (s : Watcher) : Watcher :=
  match phase s with
  | Waiting =>
      match queue s with
      | O => s
      | S n => mkWatcher (files s) (unnotified s) n Debouncing (owner s) (cells s)
      end
  | Debouncing => mkWatcher (files s) (unnotified s) 0 ReadingCert (owner s) (cells s)
  | ReadingCert =>
      at_phase (match read_file (files s) cert_path with Ok pem => ReadingKey pem | Err _ => Waiting end) s
  | ReadingKey cert_pem =>
      mkWatcher (files s) (unnotified s) (queue s) Waiting (owner s)
        (match read_file (files s) key_path with
         | Ok key_pem => snd (reload_from_pem (owner s) cert_pem key_pem (cells s))
         | Err _ => cells s
         end)
  | _ => s
  end.

(** The notifier's callback exists. *)
Definition notified (p : WatcherPhase) : bool :=
  match p with LoadingCert | LoadingKey _ | Unwatched | Failed _ => false | _ => true end.

(** What an event must be to tell that a file may have changed, whatever the
    callback makes of it: a file was created, modified or removed under one of
    the two paths, or one of their directories changed as a whole. *)
Definition tells (kind : EventKind) (paths : list FsPath) : bool :=
  match kind with
  | EvCreate | EvModify | EvRemove =>
      existsb (fun p => bool_decide (p = cert_path \/ p = key_path \/
                                     Some p = path_parent cert_path \/ Some p = path_parent key_path)) paths
  | EvAccess | EvOther => false
  end.

Definition watcher_step (watch : FsPath -> option string) (s : Watcher) (op : WatcherOp) : Watcher :=
  match op with
  | FilesChange fs => mkWatcher fs true (queue s) (phase s) (owner s) (cells s)
  | NotifyEvent kind paths =>
      if notified (phase s)
      then mkWatcher (files s) (unnotified s && negb (tells kind paths))
             (if relevant kind paths then S (queue s) else queue s) (phase s) (owner s) (cells s)
      else s
  | TaskStep => if notified (phase s) then match phase s with Watching _ => tls_start_step watch s | _ => task_step s end
                else tls_start_step watch s
  end.
Definition tls_watcher_run (watch : FsPath -> option string) (ops : list WatcherOp) (s : Watcher) : Watcher :=
  fold_left (watcher_step watch) ops s.

(** ** Facts *)

(** What the files hold, when they hold a usable pair. *)
Definition files_config (fs : Files) : option TlsServerConfig :=
  match read_file fs cert_path, read_file fs key_path with
  | Ok cert_pem, Ok key_pem =>
      match config_of_pem cert_pem key_pem with Ok config => Some config | Err _ => None end
  | _, _ => None
  end.

(** The active configuration is what the files hold, if that is usable. *)
Definition up_to_date (s : Watcher) : Prop :=
  forall config, files_config (files s) = Some config -> cells s !! owner s = Some config.

Definition watcher_inv (s : Watcher) : Prop :=
  unnotified s = false -> queue s = 0%nat ->
  match phase s with
  | Unwatched | Watching _ | Waiting => up_to_date s
  | LoadingKey cert_pem | ReadingKey cert_pem => read_file (files s) cert_path = Ok cert_pem
  | _ => True
  end.

Lemma from_pem_config cert_pem key_pem m : from_pem cert_pem key_pem m =
  match config_of_pem cert_pem key_pem with
  | Ok config => (Ok (fresh (dom m)), <[fresh (dom m) := config]> m)
  | Err e => (Err e, m)
  end.
Proof.
  unfold from_pem, config_of_pem, from_der. destruct (parse_certs cert_pem); [|done].
  destruct (parse_private_key key_pem) as [key|]; [|done]. by destruct (build_server_config _ key).
Qed.

Lemma start_step_inv watch s : watcher_inv s -> watcher_inv (tls_start_step watch s).
Proof.
  unfold watcher_inv, tls_start_step. intros Hi. destruct (phase s) as [|cert_pem| |[|dir dirs]|e| | | |pem] eqn:Ep;
    rewrite ?Ep; try done.
  - by destruct (read_file (files s) cert_path) eqn:Er.
  - destruct (read_file (files s) key_path) as [key_pem|] eqn:Ek; [|done]. rewrite from_pem_config.
    destruct (config_of_pem cert_pem key_pem) as [config|] eqn:Ec; [|done]. cbn. intros Hu Hq.
    unfold up_to_date, files_config. cbn. rewrite (Hi Hu Hq), Ek, Ec. intros ? [= <-]. apply lookup_insert_eq.
  - by destruct (watch dir).
Qed.

Lemma task_step_inv s : watcher_inv s -> watcher_inv (task_step s).
Proof.
  unfold watcher_inv, task_step. intros Hi.
  destruct (phase s) as [| | | | | | | |cert_pem] eqn:Ep; rewrite ?Ep; try done.
  - destruct (queue s) eqn:Eq; [by rewrite Ep, Eq in *|]. cbn. done.
  - unfold up_to_date, files_config. cbn. intros Hu Hq. destruct (read_file (files s) cert_path); [done|].
    intros config [=].
  - unfold up_to_date, files_config. cbn. intros Hu Hq config. rewrite (Hi Hu Hq).
    destruct (read_file (files s) key_path) as [key_pem|]; [|done]. unfold reload_from_pem.
    destruct (config_of_pem cert_pem key_pem); [|done]. intros [= <-]. cbn. apply lookup_insert_eq.
Qed.

(** The callback lets through what tells of a change. *)
Lemma tells_relevant kind paths : tells kind paths = true -> relevant kind paths = true.
Proof.
  unfold tells, relevant. destruct kind; try done; rewrite !existsb_exists; intros (p & Hp & Ht);
    exists p; (split; [done|]); apply bool_decide_eq_true in Ht;
    (destruct Ht as [->|[->|[Ht|Ht]]]; repeat rewrite (bool_decide_eq_true_2 _ eq_refl);
     rewrite ?(bool_decide_eq_true_2 _ Ht), ?orb_true_r; done).
Qed.

Lemma watcher_step_inv watch s op : watcher_inv s -> watcher_inv (watcher_step watch s op).
Proof.
  intros Hi. destruct op as [fs|kind paths|]; cbn.
  - intros [=].
  - destruct (notified (phase s)); [|done]. intros Hu Hq. cbn in Hu, Hq |- *.
    destruct (relevant kind paths) eqn:Er; [done|].
    destruct (tells kind paths) eqn:Et; [by apply tells_relevant in Et; rewrite Et in Er|].
    rewrite andb_true_r in Hu. exact (Hi Hu Hq).
  - destruct (notified (phase s)); [|by apply start_step_inv].
    destruct (phase s); try (by apply task_step_inv). by apply start_step_inv.
Qed.

Lemma watcher_run_inv watch ops s : watcher_inv s -> watcher_inv (tls_watcher_run watch ops s).
Proof. revert s; induction ops as [|op ops IH]; intros s Hi; [done|]. apply IH. by apply watcher_step_inv. Qed.

(** A cell holds a configuration made of some accepted pair. *)
Definition active_valid (c : RustlsConfig) (m : Cells) : Prop :=
  exists config certs key, m !! c = Some config /\ certs <> [] /\
    with_single_cert certs key = Ok (identity config).

Lemma config_of_pem_valid cert_pem key_pem config : config_of_pem cert_pem key_pem = Ok config ->
  alpn_protocols config = [ALPN_HTTP2; ALPN_HTTP11] /\
  exists certs key, certs <> [] /\ with_single_cert certs key = Ok (identity config).
Proof.
  unfold config_of_pem, parse_certs, parse_private_key, build_server_config.
  destruct (pem_certs cert_pem) as [[|cert certs]|]; [done| |done].
  destruct (pem_private_key key_pem) as [[key|]|]; [|done..].
  destruct (with_single_cert _ key) as [id|] eqn:E; [|done]. intros [= <-].
  split; [done|]. by exists (cert :: certs), key.
Qed.

(** Once it is loaded. *)
Definition loaded (p : WatcherPhase) : bool :=
  match p with LoadingCert | LoadingKey _ | Failed _ => false | _ => true end.
Definition holds_valid (s : Watcher) : Prop := loaded (phase s) = true -> active_valid (owner s) (cells s).

Lemma config_of_pem_active c m cert_pem key_pem config : config_of_pem cert_pem key_pem = Ok config ->
  active_valid c (<[c := config]> m).
Proof.
  intros E. apply config_of_pem_valid in E as (_ & certs & key & Hne & Hs).
  exists config, certs, key. split_and!; [apply lookup_insert_eq|done..].
Qed.

Lemma start_step_valid watch s : holds_valid s -> holds_valid (tls_start_step watch s).
Proof.
  unfold holds_valid, tls_start_step. intros Hv. destruct (phase s) as [|cert_pem| |[|dir dirs]|e| | | |pem] eqn:Ep;
    rewrite ?Ep; try done.
  - by destruct (read_file (files s) cert_path).
  - destruct (read_file (files s) key_path) as [key_pem|]; [|done]. rewrite from_pem_config.
    destruct (config_of_pem cert_pem key_pem) as [config|] eqn:Ec; [|done]. intros _. cbn.
    by eapply config_of_pem_active.
  - by destruct (watch dir).
Qed.

Lemma task_step_valid s : holds_valid s -> holds_valid (task_step s).
Proof.
  unfold holds_valid, task_step. intros Hv. destruct (phase s) as [| | | | | | | |cert_pem] eqn:Ep;
    rewrite ?Ep; try done; try (intros _; by apply Hv).
  - by destruct (queue s); rewrite ?Ep.
  - intros _. cbn. destruct (read_file (files s) key_path) as [key_pem|]; [|by apply Hv].
    unfold reload_from_pem. destruct (config_of_pem cert_pem key_pem) eqn:Ec; [|by apply Hv].
    by eapply config_of_pem_active.
Qed.

Lemma watcher_step_valid watch s op : holds_valid s -> holds_valid (watcher_step watch s op).
Proof.
  intros Hv. destruct op as [fs|kind paths|]; cbn; [done|by destruct (notified (phase s))|].
  destruct (notified (phase s)); [|by apply start_step_valid].
  destruct (phase s); try (by apply task_step_valid). by apply start_step_valid.
Qed.

(** The states a watcher's life begins in. *)
Inductive starts : Watcher -> Prop :=
| starts_load fs m : starts (load_start fs m)
| starts_watch c fs m : active_valid c m -> starts (watch_start c fs m).
End Tls.

Arguments TlsServerConfig : clear implicits.
Arguments Watcher : clear implicits.
Arguments Cells : clear implicits.

(** ** Properties *)

Section Reload.
Context {Cert Key Identity : Type}.
Context (pem_certs : string -> result (list Cert) string)
        (pem_private_key : string -> result (option Key) string)
        (with_single_cert : list Cert -> Key -> result Identity string).
Context (cert_path key_path : FsPath).

(** C32. No update is lost. From a configuration loaded from its files and then
    watched, or one from elsewhere that is watched, however changes of the files,
    events and the steps of loading, watching and reloading interleave, a change
    between the reads of the two files or before the directories are watched as
    well: once an event has told of a change after the last one, or there was none
    since the load began, the queue is empty and the task waits, the active
    configuration is the one the files hold, if they hold a usable pair; and at
    every moment from the load on the active configuration was made of an accepted
    pair, whatever the files held in between. *)
Theorem tls_watcher_converges watch (ops : list WatcherOp) (s : Watcher Identity) :
  starts with_single_cert s ->
  let s' := tls_watcher_run pem_certs pem_private_key with_single_cert cert_path key_path watch ops s in
  (unnotified s' = false -> queue s' = 0%nat -> phase s' = Waiting ->
   forall cert_pem key_pem config,
     files s' cert_path = Ok cert_pem -> files s' key_path = Ok key_pem ->
     config_of_pem pem_certs pem_private_key with_single_cert cert_pem key_pem = Ok config ->
     current_config (owner s') (cells s') = Some config) /\
  (loaded (phase s') = true ->
   exists config certs key, current_config (owner s') (cells s') = Some config /\ certs <> [] /\
     with_single_cert certs key = Ok (identity config)).
Proof.
  intros Hstart s'. split.
  - intros Hu Hq Hp cert_pem key_pem config Hc Hk He.
    assert (watcher_inv pem_certs pem_private_key with_single_cert cert_path key_path s) as Hi by by destruct Hstart.
    pose proof (watcher_run_inv pem_certs pem_private_key with_single_cert cert_path key_path watch ops s Hi
      Hu Hq) as Hw. fold s' in Hw. rewrite Hp in Hw. apply Hw.
    unfold files_config, read_file. by rewrite Hc, Hk, He.
  - subst s'. assert (holds_valid with_single_cert s) as Hv
      by (destruct Hstart as [|c fs m Ha]; [done|intros _; exact Ha]).
    clear Hstart. revert s Hv. induction ops as [|op ops IH]; intros s Hv; [exact Hv|].
    apply IH. by apply watcher_step_valid.
Qed.

(** The watcher's task reloads as [reload_from_pem_file] does, the files changing
    between its two reads or not. *)
Theorem watcher_task_reloads watch fs_cert fs_key (s : Watcher Identity) :
  phase s = ReadingCert -> files s = fs_cert ->
  cells (tls_watcher_run pem_certs pem_private_key with_single_cert cert_path key_path watch
           [TaskStep; FilesChange fs_key; TaskStep] s) =
    match read_file fs_cert cert_path with
    | Ok _ => snd (reload_from_pem_file pem_certs pem_private_key with_single_cert (owner s) cert_path key_path
                     fs_cert fs_key (cells s))
    | Err _ => cells s
    end.
Proof.
  intros Hp <-. unfold tls_watcher_run, reload_from_pem_file. cbn [fold_left watcher_step].
  rewrite Hp. cbn [notified]. unfold task_step. rewrite Hp. cbn.
  destruct (read_file (files s) cert_path) as [cert_pem|e]; cbn.
  - by destruct (read_file fs_key key_path).
  - by destruct (queue s).
Qed.

(** A failed reload changes nothing. *)
Theorem failed_reload_keeps c cert_pem key_pem (m : Cells Identity) e :
  fst (reload_from_pem pem_certs pem_private_key with_single_cert c cert_pem key_pem m) = Err e ->
  snd (reload_from_pem pem_certs pem_private_key with_single_cert c cert_pem key_pem m) = m.
Proof. unfold reload_from_pem. by destruct (config_of_pem _ _ _ _ _). Qed.

(** A reload between the two halves of [with_alpn_http2_only] is lost: the old
    identity is written back, although the reload succeeded. *)
Theorem alpn_switch_undoes_reload c cert_pem key_pem (m m1 : Cells Identity) old :
  current_config c m = Some old ->
  reload_from_pem pem_certs pem_private_key with_single_cert c cert_pem key_pem m = (Ok tt, m1) ->
  identity <$> current_config c (alpn_write c (current_config c m) m1) = Some (identity old).
Proof.
  intros Hc _. rewrite Hc.
  exact (f_equal (fmap identity) (lookup_insert_eq (M := gmap nat) m1 c
           (mkTlsServerConfig (identity old) [ALPN_HTTP2]))).
Qed.

(** A reload forgets the restriction to HTTP/2: the ALPN offer is the default
    one again. *)
Theorem reload_forgets_http2_only c cert_pem key_pem (m m1 m2 : Cells Identity) c1 :
  with_alpn_http2_only c m = (c1, m1) ->
  reload_from_pem pem_certs pem_private_key with_single_cert c1 cert_pem key_pem m1 = (Ok tt, m2) ->
  exists config, current_config c m2 = Some config /\ alpn_protocols config = [ALPN_HTTP2; ALPN_HTTP11].
Proof.
  intros [= <- <-]. unfold reload_from_pem.
  destruct (config_of_pem _ _ _ cert_pem key_pem) as [config|] eqn:E; [|done]. intros [= <-].
  exists config. split; [exact (lookup_insert_eq (M := gmap nat) _ c config)|].
  apply config_of_pem_valid in E as [Ha _]. exact Ha.
Qed.
End Reload.

(** ** Witness *)

Module Demo.
Definition path (n : string) : FsPath := [RootDir; Normal "tls"; Normal n].
(** Certificates and keys are their texts; a pair is accepted when equal. *)
Definition certs (pem : string) : result (list string) string := Ok [pem].
Definition key (pem : string) : result (option string) string := Ok (Some pem).
Definition accept (certs : list string) (key : string) : result string string :=
  if bool_decide (certs = [key]) then Ok key else Err "key mismatch".
Definition holding (c k : string) : Files := fun p =>
  if bool_decide (p = path "c.pem") then Ok c else if bool_decide (p = path "k.pem") then Ok k else Err "not found".
Definition run (ops : list WatcherOp) : Watcher string :=
  tls_watcher_run certs key accept (path "c.pem") (path "k.pem") (fun _ => None) ops
    (load_start (holding "a" "a") ∅).
Definition steps (n : nat) : list WatcherOp := replicate n TaskStep.
(** Loaded and watched; the certificate is replaced, the task reads it, then the
    key is. *)
Definition rotation : list WatcherOp :=
  steps 5 ++ [FilesChange (holding "b" "a"); NotifyEvent EvModify [path "c.pem"]; TaskStep; TaskStep; TaskStep;
   FilesChange (holding "b" "b"); NotifyEvent EvCreate [path "k.pem"]; TaskStep;
   TaskStep; TaskStep; TaskStep; TaskStep].
End Demo.

Lemma tls_watcher_converges_witness :
  let s := Demo.run Demo.rotation in
  identity <$> current_config (owner s) (cells s) = Some "b".
Proof.
  pose proof (tls_watcher_converges Demo.certs Demo.key Demo.accept (Demo.path "c.pem") (Demo.path "k.pem")
    (fun _ => None) Demo.rotation (load_start (Demo.holding "a" "a") ∅) (starts_load _ _ _)) as [W _].
  cbn zeta in W |- *. unfold Demo.run.
  rewrite (W ltac:(vm_compute; reflexivity) ltac:(vm_compute; reflexivity) ltac:(vm_compute; reflexivity) "b" "b"
    (mkTlsServerConfig "b" [ALPN_HTTP2; ALPN_HTTP11])
    ltac:(vm_compute; reflexivity) ltac:(vm_compute; reflexivity) ltac:(vm_compute; reflexivity)).
  reflexivity.
Defined.

(** A pair replaced between the load and the watch is not seen: no event tells of
    it, and the task waits with the old pair. *)
Theorem tls_change_before_watch_missed :
  let s := Demo.run (Demo.steps 2 ++ [FilesChange (Demo.holding "b" "b");
             NotifyEvent EvModify [Demo.path "c.pem"]] ++ Demo.steps 9) in
  phase s = Waiting /\ queue s = 0%nat /\ unnotified s = true /\
  identity <$> current_config (owner s) (cells s) = Some "a".
Proof. by vm_compute. Qed.
