(* ===== verification/Logging.v ===== *)
(** * Request logging and tracing

    [arvik-observe/src/logging.rs], the logger's settings and the structured
    logging layer, and [arvik-middleware/src/trace.rs], the span of
    [TraceLayer].

    The [tracing] crate is a parameter: which levels are enabled, and recording
    an event.  An event carries the span it is recorded in, with the fields the
    span had by then; installing a subscriber is I/O and is left out. *)
From S2P Require Import Prelude RustStr HttpCrate Body Http Responses RequestId SecurityHeaders.
From stdpp Require Import base list strings gmap.
From Stdlib Require Import ZArith Lia Ascii String.
Open Scope string_scope.
Open Scope list_scope.

(** ** The logger's settings *)

Inductive LogFormat := Auto | JsonFormat | Pretty.
#[export] Instance log_format_eq_dec : EqDecision LogFormat.
Proof. solve_decision. Defined.

Definition is_production (value : string) : bool :=
  let value := to_ascii_lowercase value in (value =? "production")%string || (value =? "prod")%string.

(** [LogFormat::resolve_with]. *)
Definition resolve_with (env : string -> option string) (f : LogFormat) : LogFormat :=
  if bool_decide (f <> Auto) then f
  else if existsb (fun key => match env key with Some v => is_production v | None => false end)
            ["ARVIK_ENV"; "APP_ENV"; "RUST_ENV"; "ENV"]
       then JsonFormat else Pretty.

Record ArvikLoggerBuilder := mkLoggerBuilder {
  log_format : LogFormat;
  log_env_filter : option string;
  log_with_target : bool;
  log_with_thread_ids : bool }.
#[export] Instance rebuild_logger_builder : Rebuild ArvikLoggerBuilder := fun b =>
  mkLoggerBuilder (log_format b) (log_env_filter b) (log_with_target b) (log_with_thread_ids b).
Definition logger_default : ArvikLoggerBuilder := mkLoggerBuilder Auto None true false.
Definition logger_format (f : LogFormat) (b : ArvikLoggerBuilder) := (b <| log_format := f |>)%rust.
Definition logger_env_filter (d : string) (b : ArvikLoggerBuilder) := (b <| log_env_filter := Some d |>)%rust.
Definition logger_with_target (e : bool) (b : ArvikLoggerBuilder) := (b <| log_with_target := e |>)%rust.
Definition logger_with_thread_ids (e : bool) (b : ArvikLoggerBuilder) :=
  (b <| log_with_thread_ids := e |>)%rust.

(** [env_filter_directive_with]. *)
Definition env_filter_directive_with (env : string -> option string) (b : ArvikLoggerBuilder) : string :=
  match log_env_filter b with
  | Some d => d
  | None => default "info" (env "RUST_LOG")
  end.

(** What [init] hands to the subscriber: the format, the directive, the flags. *)
Definition logger_settings (env : string -> option string) (b : ArvikLoggerBuilder)
  : LogFormat * string * bool * bool :=
  (resolve_with env (log_format b), env_filter_directive_with env b, log_with_target b, log_with_thread_ids b).

(** [Auto] is always resolved, so the [unreachable!] of [init] is. *)
Lemma resolve_not_auto env f : resolve_with env f <> Auto.
Proof. unfold resolve_with. case_bool_decide; [done|]. by case_match. Qed.

(** ** Events *)

Inductive Level := ERROR | WARN | INFO | DEBUG | TRACE_LEVEL.

Inductive LatencyUnit := Millis | Micros | Seconds.

Record RequestSpan := mkRequestSpan {
  sp_method : string;
  sp_uri : string;
  sp_request_id : string;
  sp_headers : option (gmap string string) }.

Record HttpSpan := mkHttpSpan {
  hs_level : Level;
  hs_method : string;
  hs_path : string;
  hs_version : string;
  hs_headers : option string }.

Inductive TraceEvent :=
| RequestCompleted (span : option RequestSpan) (level : Level) (status : Z) (route : string) (latency_ms : Z)
| ResponseTraced (span : HttpSpan) (level : Level) (status : Z) (latency : string).

Class Tracing (W : Type) : Type := {
  now : W -> Z;
  enabled : Level -> W -> bool;
  record_event : TraceEvent -> W -> W }.

Definition MAX_REQUEST_ID_LEN : Z := 128.

(** [is_valid_request_id]. *)
Definition is_valid_request_id (id : string) : bool :=
  negb (str_is_empty id) && (str_len id <=? MAX_REQUEST_ID_LEN)%Z && str_forall (in_range 33 126) id.

(** [status.is_server_error()], [is_client_error()]. *)
Definition is_server_error (s : Z) : bool := (500 <=? s)%Z && (s <? 600)%Z.
Definition is_client_error (s : Z) : bool := (400 <=? s)%Z && (s <? 500)%Z.

Section Logging.
Context `{HttpCrate} {HI : HeaderIter} {W : Type} `{Tracing W} `{UuidV4 W}.
Context (uri_to_string : Uri -> string) (version : Request -> string) (format_secs : Z -> string).

(** [for (name, value) in headers]: each value with its name, which
    [into_iter] gives with the first only. *)
Fixpoint with_names (name : string) (l : list (option string * string)) : list (string * string) :=
  match l with
  | [] => []
  | (Some k, v) :: l => (k, v) :: with_names k l
  | (None, v) :: l => (name, v) :: with_names name l
  end.
Definition hm_iter (m : HeaderMap) : list (string * string) := with_names "" (hm_into_iter m).

(** ** The structured logging layer *)

Record StructuredLoggingLayer := mkLoggingLayer {
  include_headers : bool;
  sensitive_headers : list string;
  request_id_header : string }.

Definition default_sensitive_headers : list string :=
  [AUTHORIZATION; COOKIE; SET_COOKIE; "x-api-key"; "proxy-authorization"].
Definition logging_layer_new : StructuredLoggingLayer :=
  mkLoggingLayer false default_sensitive_headers X_REQUEST_ID.
Definition logging_include_headers (b : bool) (l : StructuredLoggingLayer) :=
  mkLoggingLayer b (sensitive_headers l) (request_id_header l).
Definition logging_sensitive_headers (hs : list string) (l : StructuredLoggingLayer) :=
  mkLoggingLayer (include_headers l) hs (request_id_header l).
Definition logging_request_id_header (h : string) (l : StructuredLoggingLayer) :=
  mkLoggingLayer (include_headers l) (sensitive_headers l) h.

Definition masked_value (sensitive : list string) (name value : string) : string :=
  if existsb (fun s => (s =? name)%string) sensitive then "[redacted]"
  else default "[non-utf8]" (hv_to_str value).
Definition masked_headers (sensitive : list string) (headers : HeaderMap) : gmap string string :=
  fold_left (fun values nv => <[fst nv := masked_value sensitive (fst nv) (snd nv)]> values)
    (hm_iter headers) ∅.

(** [request_id]. *)
Definition request_id (req : Request) (header : string) (w : W) : string * W :=
  match hm_get_str (req_headers req) header with
  | Some id => if is_valid_request_id id then (id, w)
               else match ext_request_id (req_ext req) with
                    | Some id => if is_valid_request_id id then (id, w) else uuid_v4 w
                    | None => uuid_v4 w
                    end
  | None => match ext_request_id (req_ext req) with
            | Some id => if is_valid_request_id id then (id, w) else uuid_v4 w
            | None => uuid_v4 w
            end
  end.

(** The level of the completion event. *)
Definition completion_level (status : Z) : Level :=
  if is_server_error status then ERROR else if is_client_error status then WARN else INFO.

(** The request as the inner service gets it. *)
Definition identified (l : StructuredLoggingLayer) (id : string) (req : Request) : Request :=
  let req := set_req_ext (ext_with_request_id id (req_ext req)) req in
  match hv_from_str id with
  | Some value => set_req_headers (hm_insert (req_headers req) (request_id_header l) value) req
  | None => req
  end.

(** The span opened before the call, when its level is enabled. *)
Definition open_span (l : StructuredLoggingLayer) (span_enabled : bool) (method uri id : string)
    (headers : HeaderMap) : option RequestSpan :=
  if span_enabled
  then Some (mkRequestSpan method uri id
         (if include_headers l then Some (masked_headers (sensitive_headers l) headers) else None))
  else None.

(** [StructuredLoggingService::call]. *)
Definition structured_logging_layer (l : StructuredLoggingLayer) : LayerFn W := fun inner req w =>
  let span_enabled := enabled INFO w in
  let method := if span_enabled then method_as_str (req_method req) else "" in
  let uri := if span_enabled then uri_to_string (req_uri req) else "" in
  let (id, w) := request_id req (request_id_header l) w in
  let req := identified l id req in
  let span := open_span l span_enabled method uri id (req_headers req) in
  let started := now w in
  let (response, w) := inner req w in
  let status := res_status response in
  let latency_ms := (Z.max 0 (now w - started) / 1000000)%Z in
  let route := match span with
               | Some _ => default "__unknown" (res_matched_path response)
               | None => ""
               end in
  let response := match hv_from_str id with
                  | Some value => set_res_headers (hm_insert (res_headers response) (request_id_header l) value)
                                    response
                  | None => response
                  end in
  (response, record_event (RequestCompleted span (completion_level status) status route latency_ms) w).

(** ** [TraceLayer] *)

Record DefaultMakeSpan := mkMakeSpan { ms_level : Level; ms_include_headers : bool }.
Record TraceLayer := mkTraceLayer {
  tl_make_span : DefaultMakeSpan;
  tl_latency_unit : LatencyUnit;
  tl_log_on_failure : bool }.
Definition trace_layer_default : TraceLayer := mkTraceLayer (mkMakeSpan INFO false) Millis true.

(** [LatencyUnit::format], of nanoseconds; the [µ] of the source is two bytes. *)
Definition format_latency (u : LatencyUnit) (elapsed : Z) : string :=
  match u with
  | Millis => to_dec (elapsed / 1000000) +:+ "ms"
  | Micros => to_dec (elapsed / 1000) +:+ "µs"
  | Seconds => format_secs elapsed +:+ "s"
  end.

(** [join] of the pairs. *)
Definition echoed_headers (headers : HeaderMap) : string :=
  String.concat "; " (map (fun nv => fst nv +:+ "=" +:+ default "?" (hv_to_str (snd nv))) (hm_iter headers)).

(** [DefaultMakeSpan::make_span]. *)
Definition make_span (m : DefaultMakeSpan) (req : Request) (w : W) : option HttpSpan :=
  if enabled (ms_level m) w
  then Some (mkHttpSpan (ms_level m) (method_as_str (req_method req)) (uri_path (req_uri req)) (version req)
         (if ms_include_headers m then Some (echoed_headers (req_headers req)) else None))
  else None.

(** The level of the response event of [TraceFuture::poll]. *)
Definition traced_level (log_on_failure : bool) (status : Z) : Level :=
  if is_server_error status && log_on_failure then ERROR
  else if is_client_error status then WARN else INFO.

(** [TraceService::call] and [TraceFuture::poll]. *)
Definition trace_layer (l : TraceLayer) : LayerFn W := fun inner req w =>
  let span := make_span (tl_make_span l) req w in
  let start := now w in
  let (res, w) := inner req w in
  match span with
  | None => (res, w)
  | Some span =>
      let latency := format_latency (tl_latency_unit l) (Z.max 0 (now w - start)) in
      (res, record_event (ResponseTraced span (traced_level (tl_log_on_failure l) (res_status res))
                    (res_status res) latency) w)
  end.
End Logging.

(** ** Facts *)

Lemma valid_id_visible id : is_valid_request_id id = true -> str_forall visible_ascii id = true.
Proof.
  unfold is_valid_request_id. intros Hv. apply andb_prop in Hv as [_ Hv]. revert Hv.
  apply str_forall_impl. unfold visible_ascii, in_range. intros a Ha. bool_hyps.
  apply andb_true_intro. split; apply Z.leb_le; lia.
Qed.

Lemma request_id_spec `{HttpCrate} {W} `{UuidV4 W} (Hu : forall w, is_valid_request_id (fst (uuid_v4 w)) = true)
    req header w :
  is_valid_request_id (fst (request_id req header w)) = true /\
  forall c, hm_get_str (req_headers req) header = Some c -> is_valid_request_id c = true ->
    request_id req header w = (c, w).
Proof.
  unfold request_id. split.
  - repeat case_match; try done; by apply Hu.
  - by intros c -> ->.
Qed.

Lemma masked_headers_redacted `{HttpCrate} {HI : HeaderIter} sensitive headers k v :
  masked_headers sensitive headers !! k = Some v -> k ∈ sensitive -> v = "[redacted]".
Proof.
  intros Hk Hs. revert Hk. unfold masked_headers.
  assert (Hm : forall v, (∅ : gmap string string) !! k = Some v -> v = "[redacted]") by done.
  revert Hm. generalize (∅ : gmap string string).
  induction (hm_iter headers) as [|[n x] l IH]; intros m Hm; [apply Hm|].
  apply IH. intros v'. rewrite lookup_insert_Some. cbn [fst snd]. intros [[<- <-]|[_ Hi]]; [|by apply Hm].
  unfold masked_value. replace (existsb _ sensitive) with true; [done|].
  symmetry. apply existsb_exists. exists n. split; [by apply list_elem_of_In|apply String.eqb_refl].
Qed.

(** Where the id comes from: the request, which leaves the world as it is, or the
    generator. *)
Lemma request_id_world `{HttpCrate} {W} `{UuidV4 W} req header w :
  let '(id, w1) := request_id req header w in w1 = w \/ (id, w1) = uuid_v4 w.
Proof. unfold request_id. repeat case_match; simplify_eq; auto. Qed.

(** The extensions but for the request id. *)
Definition same_other_extensions (e e' : Extensions) : Prop :=
  ext_original_uri e' = ext_original_uri e /\ ext_path_params e' = ext_path_params e /\
  ext_matched_path e' = ext_matched_path e /\ ext_body_limit e' = ext_body_limit e /\
  ext_peer e' = ext_peer e /\ ext_csrf e' = ext_csrf e /\ ext_sensitive e' = ext_sensitive e.

Lemma identified_headers `{HL : HttpLaws} l id req : is_valid_request_id id = true ->
  hm_get_all (req_headers (identified l id req)) (request_id_header l) = [id] /\
  (forall k, k <> request_id_header l ->
     hm_get_all (req_headers (identified l id req)) k = hm_get_all (req_headers req) k) /\
  ext_request_id (req_ext (identified l id req)) = Some id /\
  req_body (identified l id req) = req_body req /\ req_uri (identified l id req) = req_uri req /\
  req_method (identified l id req) = req_method req /\
  same_other_extensions (req_ext req) (req_ext (identified l id req)).
Proof.
  intros Hv. unfold identified. rewrite hv_from_str_visible by by apply valid_id_visible.
  split_and!; try done; cbn.
  - by rewrite hm_all_insert_eq.
  - intros k Hk. by rewrite hm_all_insert_ne.
Qed.

(** ** Properties *)

(** C34. Structured logging: the service and the client see one request id, which
    is valid (bounded, visible ASCII without spaces), and is the client's own
    when that is valid. Nothing else of the request changes, neither method nor
    target, other headers, other extensions or body, and nothing else of the
    response. The service runs in the world it would have run in, but for the
    generator of ids when it is asked; one event is recorded, after the response,
    at the level of its status, and in its span the value of every sensitive header
    is redacted. *)
Theorem structured_logging_correct `{HL : HttpLaws} {HI : HeaderIter} {W} `{Tracing W} `{UuidV4 W}
    uri_to_string (l : StructuredLoggingLayer) (inner : Service W) req w :
  (forall w, is_valid_request_id (fst (uuid_v4 w)) = true) ->
  let '(response, w') := structured_logging_layer uri_to_string l inner req w in
  exists id req' w1 res w2 span route latency,
    is_valid_request_id id = true /\
    (w1 = w \/ (id, w1) = uuid_v4 w) /\
    (forall c, hm_get_str (req_headers req) (request_id_header l) = Some c ->
       is_valid_request_id c = true -> id = c /\ w1 = w) /\
    hm_get_all (req_headers req') (request_id_header l) = [id] /\
    (forall k, k <> request_id_header l -> hm_get_all (req_headers req') k = hm_get_all (req_headers req) k) /\
    ext_request_id (req_ext req') = Some id /\ same_other_extensions (req_ext req) (req_ext req') /\
    req_method req' = req_method req /\ req_uri req' = req_uri req /\ req_body req' = req_body req /\
    inner req' w1 = (res, w2) /\
    res_status response = res_status res /\ res_body response = res_body res /\
    res_matched_path response = res_matched_path res /\
    hm_get_all (res_headers response) (request_id_header l) = [id] /\
    (forall k, k <> request_id_header l -> hm_get_all (res_headers response) k = hm_get_all (res_headers res) k) /\
    w' = record_event (RequestCompleted span
           (if is_server_error (res_status res) then ERROR
            else if is_client_error (res_status res) then WARN else INFO) (res_status res) route latency) w2 /\
    forall s hs, span = Some s -> sp_headers s = Some hs ->
      sp_request_id s = id /\ forall k v, hs !! k = Some v -> k ∈ sensitive_headers l -> v = "[redacted]".
Proof.
  intros Hu. unfold structured_logging_layer.
  destruct (request_id_spec Hu req (request_id_header l) w) as [Hv Hc].
  pose proof (request_id_world req (request_id_header l) w) as Hw.
  destruct (request_id req (request_id_header l) w) as [id w1]. cbn [fst] in Hv.
  destruct (identified_headers l id req Hv) as (Hh & Hne & Hext & Hbody & Huri & Hmeth & Hother).
  destruct (inner (identified l id req) w1) as [res w2] eqn:Ei.
  rewrite hv_from_str_visible by by apply valid_id_visible.
  eexists id, (identified l id req), w1, res, w2, _, _, _.
  split_and!; [exact Hv|exact Hw| |exact Hh|exact Hne|exact Hext|exact Hother|exact Hmeth|exact Huri|exact Hbody
    |exact Ei|done|done|done| | |reflexivity|]; cbn [res_headers set_res_headers].
  - intros c Hg Hvc. by injection (Hc c Hg Hvc).
  - by rewrite hm_all_insert_eq.
  - intros k Hk. by rewrite hm_all_insert_ne.
  - unfold open_span. intros s hs. destruct (enabled INFO w); [|done]. intros [= <-]. cbn.
    destruct (include_headers l); [|done]. intros [= <-]. split; [done|].
    intros k v. apply masked_headers_redacted.
Qed.

(** [TraceLayer] does not read the marker of [SensitiveHeadersLayer]: with
    headers included, every value is logged as received. *)
Theorem sensitive_headers_echoed `{HttpCrate} {HI : HeaderIter} {W} `{Tracing W} version format_secs
    names (l : TraceLayer) (inner : Service W) req w :
  ms_include_headers (tl_make_span l) = true -> enabled (ms_level (tl_make_span l)) w = true ->
  exists span level status latency w1,
    snd (sensitive_headers_layer names (trace_layer version format_secs l inner) req w)
      = record_event (ResponseTraced span level status latency) w1 /\
    hs_headers span = Some (echoed_headers (req_headers req)).
Proof.
  intros Hi He. unfold sensitive_headers_layer, trace_layer, make_span. rewrite He, Hi.
  destruct (inner _ w) as [res w1]. cbn. do 5 eexists. split; reflexivity.
Qed.

(** A server error is traced at [ERROR] unless failures are not to be logged,
    and then at [INFO]. *)
Lemma traced_level_of log status : is_server_error status = true ->
  traced_level log status = if log then ERROR else INFO.
Proof.
  unfold traced_level, is_client_error. intros Hs. rewrite Hs. destruct log; [done|]. cbn.
  unfold is_server_error in Hs. bool_hyps. by rewrite (proj2 (Z.ltb_ge status 500)), andb_false_r by lia.
Qed.

(** ** Witness *)

Module Demo.
(** A world is the events recorded; every level is enabled. *)
#[export] Instance tracing : Tracing (list TraceEvent) := {
  now _ := 0%Z; enabled _ _ := true; record_event e w := w ++ [e] }.
#[export] Instance uuid : UuidV4 (list TraceEvent) := { uuid_v4 w := ("uuid", w) }.
Definition request (headers : list (string * string)) : Request :=
  mkRequest (H := ListHttp) GET (mkUri None None "/" None) headers no_ext body_empty.
Definition service : Service (H := ListHttp) (list TraceEvent) := fun _ w =>
  (mkResponse (H := ListHttp) 200 [] (Some "/") body_empty, w).
End Demo.

Import Demo.

Lemma structured_logging_correct_witness :
  hm_get_all (res_headers (fst (structured_logging_layer (H := ListHttp) uri_path
    (logging_include_headers true logging_layer_new) Demo.service
    (Demo.request [(AUTHORIZATION, "Bearer secret"); (X_REQUEST_ID, "bad id")]) []))) X_REQUEST_ID = ["uuid"].
Proof.
  pose proof (structured_logging_correct (H := ListHttp) uri_path
    (logging_include_headers true logging_layer_new) Demo.service
    (Demo.request [(AUTHORIZATION, "Bearer secret"); (X_REQUEST_ID, "bad id")]) [] (fun _ => eq_refl)) as W.
  destruct (structured_logging_layer _ _ _ _ _) as [response w'] eqn:E.
  destruct W as (id & req' & w1 & res & w2 & span & route & latency & Hv & _).
  injection E as <- _. reflexivity.
Defined.

Lemma sensitive_headers_echoed_witness :
  exists span level status latency w1,
    snd (sensitive_headers_layer (H := ListHttp) [AUTHORIZATION]
          (trace_layer (fun _ => "HTTP/1.1") to_dec (mkTraceLayer (mkMakeSpan INFO true) Millis true) Demo.service)
          (Demo.request [(AUTHORIZATION, "Bearer secret")]) [])
      = record_event (ResponseTraced span level status latency) w1 /\
    hs_headers span = Some "authorization=Bearer secret".
Proof.
  exact (sensitive_headers_echoed (H := ListHttp) (fun _ => "HTTP/1.1") to_dec [AUTHORIZATION]
    (mkTraceLayer (mkMakeSpan INFO true) Millis true) Demo.service
    (Demo.request [(AUTHORIZATION, "Bearer secret")]) [] eq_refl eq_refl).
Defined.
