(* ===== verification/TraceContext.v ===== *)
(** * Trace context propagation

    [arvik-observe/src/trace.rs]: the parent of a request's span from the W3C,
    B3 and Jaeger headers, and the OpenTelemetry layer.

    [opentelemetry] is the class [OtelIds]: its identifiers and their parsers
    from hexadecimal, and the parser of trace states.  A span context is valid
    when both identifiers are not zero.  What the layer's builder installs in
    the process is in [Telemetry]. *)
From S2P Require Import Prelude RustStr HttpCrate Body Http Logging.
From stdpp Require Import base list strings.
From Stdlib Require Import ZArith Lia Ascii String.
Open Scope string_scope.
Open Scope list_scope.

Class OtelIds : Type := {
  trace_id_from_hex : string -> option Z;
  span_id_from_hex : string -> option Z;
  TraceState : Type;
  trace_state_default : TraceState;
  trace_state_from_str : string -> option TraceState }.

Definition hex_value (a : ascii) : option Z :=
  if is_ascii_digit a then Some (byte_val a - 48)%Z
  else if in_range 97 102 a then Some (byte_val a - 87)%Z
  else if in_range 65 70 a then Some (byte_val a - 55)%Z
  else None.
Fixpoint parse_hex_digits (max acc : Z) (s : string) : option Z :=
  match s with
  | EmptyString => Some acc
  | String a s =>
      match hex_value a with
      | Some d => let acc := (acc * 16)%Z in
                  if (max <? acc)%Z then None else
                  let acc := (acc + d)%Z in
                  if (max <? acc)%Z then None else parse_hex_digits max acc s
      | None => None
      end
  end.
(** [u8::from_str_radix(s, 16)]: a leading [+] is accepted. *)
Definition u8_from_hex (s : string) : option Z :=
  match s with
  | EmptyString => None
  | String a s' =>
      if Ascii.eqb a "+" then match s' with EmptyString => None | _ => parse_hex_digits 255 0 s' end
      else parse_hex_digits 255 0 s
  end.
(** [.is_some_and(|flags| flags & 0x01 == 0x01)]. *)
Definition sampled_flag (flags : string) : bool :=
  match u8_from_hex flags with Some n => (Z.land n 1 =? 1)%Z | None => false end.

Inductive Propagation := PropTraceContext | PropB3 | PropJaeger.
Definition propagation_all : list Propagation := [PropTraceContext; PropB3; PropJaeger].

Section Extraction.
Context `{HttpCrate} `{OtelIds}.

Record SpanContext := mkSpanContext {
  sc_trace_id : Z; sc_span_id : Z; sc_sampled : bool; sc_trace_state : TraceState }.

(** [make_remote_context]. *)
Definition make_remote_context (trace_id span_id : string) (sampled : bool) (trace_state : TraceState)
  : option SpanContext :=
  match trace_id_from_hex trace_id, span_id_from_hex span_id with
  | Some t, Some s => if (t =? 0)%Z || (s =? 0)%Z then None
                      else Some (mkSpanContext t s sampled trace_state)
  | _, _ => None
  end.

Definition extract_trace_context (headers : HeaderMap) : option SpanContext :=
  match hm_get_str headers "traceparent" with
  | None => None
  | Some traceparent =>
      match str_split "-" traceparent with
      | version :: trace_id :: span_id :: flags :: _ =>
          if negb (str_len version =? 2)%Z || negb (str_len trace_id =? 32)%Z
             || negb (str_len span_id =? 16)%Z || negb (str_len flags =? 2)%Z
          then None
          else
            let trace_state := default trace_state_default
              (hm_get_str headers "tracestate" ≫= trace_state_from_str) in
            make_remote_context trace_id span_id (sampled_flag flags) trace_state
      | _ => None
      end
  end.

Definition extract_b3_multi (headers : HeaderMap) : option SpanContext :=
  match hm_get_str headers "x-b3-traceid", hm_get_str headers "x-b3-spanid" with
  | Some trace_id, Some span_id =>
      let sampled :=
        match hm_get_str headers "x-b3-flags" with Some v => (v =? "1")%string | None => false end
        || match hm_get_str headers "x-b3-sampled" with
           | Some v => (v =? "1")%string || eq_ignore_ascii_case v "true"
           | None => false
           end in
      make_remote_context trace_id span_id sampled trace_state_default
  | _, _ => None
  end.
Definition extract_b3 (headers : HeaderMap) : option SpanContext :=
  match hm_get_str headers "b3" with
  | Some single =>
      if contains_char "-" single then
        match str_split "-" single with
        | trace_id :: span_id :: rest =>
            let sampled := match rest with
                           | flag :: _ => (flag =? "1")%string || eq_ignore_ascii_case flag "d"
                           | [] => false
                           end in
            make_remote_context trace_id span_id sampled trace_state_default
        | _ => None
        end
      else extract_b3_multi headers
  | None => extract_b3_multi headers
  end.

Definition extract_jaeger (headers : HeaderMap) : option SpanContext :=
  match hm_get_str headers "uber-trace-id" with
  | Some value =>
      match str_split ":" value with
      | trace_id :: span_id :: _ :: rest =>
          let flags := match rest with f :: _ => f | [] => "0" end in
          make_remote_context trace_id span_id (sampled_flag flags) trace_state_default
      | _ => None
      end
  | None => None
  end.

Fixpoint extract_parent (headers : HeaderMap) (propagators : list Propagation) : option SpanContext :=
  match propagators with
  | [] => None
  | p :: propagators =>
      match (match p with
             | PropTraceContext => extract_trace_context headers
             | PropB3 => extract_b3 headers
             | PropJaeger => extract_jaeger headers
             end) with
      | Some c => Some c
      | None => extract_parent headers propagators
      end
  end.

(** ** [OtelLayer] *)

Record OtelLayer := mkOtelLayer { ol_service_name : string; ol_propagators : list Propagation }.
Definition otel_layer_new (service_name : string) : OtelLayer := mkOtelLayer service_name propagation_all.
Definition otel_propagators (ps : list Propagation) (l : OtelLayer) : OtelLayer :=
  mkOtelLayer (ol_service_name l) ps.

(** A finished span; the method, path and agent of the request, its parent, and
    what was recorded from the response. *)
Record OtelSpan := mkOtelSpan {
  os_service : string; os_method : string; os_url : string; os_user_agent : string;
  os_parent : option SpanContext;
  os_status_code : Z; os_route : string; os_error : option string }.

(** [OtelService::call]; [finish] is what ending the span does. *)
Definition otel_layer {W} (info_enabled : W -> bool) (end_span : OtelSpan -> W -> W) (l : OtelLayer)
  : LayerFn W := fun inner req w =>
  if info_enabled w then
    let method := method_as_str (req_method req) in
    let url := uri_path (req_uri req) in
    let user_agent := default "" (hm_get_str (req_headers req) "user-agent") in
    let parent := extract_parent (req_headers req) (ol_propagators l) in
    let (response, w) := inner req w in
    let status := res_status response in
    let route := default "__unknown" (res_matched_path response) in
    (response, end_span (mkOtelSpan (ol_service_name l) method url user_agent parent status route
       (if is_server_error status then Some ("HTTP " +:+ to_dec status) else None)) w)
  else inner req w.

(** ** Facts *)

Definition extract_by (p : Propagation) (headers : HeaderMap) : option SpanContext :=
  match p with
  | PropTraceContext => extract_trace_context headers
  | PropB3 => extract_b3 headers
  | PropJaeger => extract_jaeger headers
  end.

(** The first configured format that gives a context wins. *)
Lemma extract_parent_first headers ps c : extract_parent headers ps = Some c <->
  exists before p after, ps = before ++ p :: after /\ extract_by p headers = Some c /\
    Forall (fun q => extract_by q headers = None) before.
Proof.
  induction ps as [|p ps IH]; cbn.
  - split; [done|]. intros ([|? ?] & ? & ? & [=] & _).
  - fold (extract_by p headers). destruct (extract_by p headers) as [d|] eqn:E.
    + split.
      * intros [= <-]. exists [], p, ps. split_and!; [done..|constructor].
      * intros ([|q before] & p' & after & [= -> ->] & Hp & Hf); [by rewrite Hp in E|].
        inversion Hf. congruence.
    + rewrite IH. split.
      * intros (before & p' & after & -> & Hp & Hf). exists (p :: before), p', after.
        split_and!; [done..|by constructor].
      * intros ([|q before] & p' & after & [= -> ->] & Hp & Hf); [congruence|].
        inversion Hf; subst. by exists before, p', after.
Qed.

(** Only valid contexts become parents. *)
Lemma make_remote_context_valid t s b st c : make_remote_context t s b st = Some c ->
  sc_trace_id c <> 0%Z /\ sc_span_id c <> 0%Z.
Proof.
  unfold make_remote_context. destruct (trace_id_from_hex t) as [tid|], (span_id_from_hex s) as [sid|]; try done.
  destruct (tid =? 0)%Z eqn:Et; [done|]. destruct (sid =? 0)%Z eqn:Es; [done|].
  intros [= <-]. bool_hyps. done.
Qed.
End Extraction.

(** ** Fixed-width hexadecimal *)

Fixpoint hex_fixed (n : nat) (z : Z) : string :=
  match n with
  | O => ""
  | S n => hex_fixed n (z / 16) +:+ String (digit_char (z mod 16)) ""
  end.

Lemma hex_fixed_len n z : str_len (hex_fixed n z) = Z.of_nat n.
Proof.
  revert z; induction n as [|n IH]; intros z; [done|]. cbn [hex_fixed].
  rewrite str_len_app, IH. unfold str_len. cbn [String.length]. lia.
Qed.

Lemma digit_char_not (c : ascii) d : (0 <= d < 16)%Z -> is_ascii_hexdigit c = false ->
  Ascii.eqb c (digit_char d) = false.
Proof.
  intros Hd Hc. destruct (Ascii.eqb_spec c (digit_char d)) as [->|]; [|done].
  assert (Hall : forallb (fun d => is_ascii_hexdigit (digit_char (Z.of_nat d))) (seq 0 16) = true) by reflexivity.
  rewrite forallb_forall in Hall. specialize (Hall (Z.to_nat d)).
  rewrite Z2Nat.id in Hall by lia. rewrite Hall in Hc; [done|]. apply in_seq. lia.
Qed.

Lemma hex_fixed_free c n z : is_ascii_hexdigit c = false -> contains_char c (hex_fixed n z) = false.
Proof.
  intros Hc. revert z; induction n as [|n IH]; intros z; [done|]. cbn [hex_fixed].
  unfold contains_char in *. rewrite str_exists_app, IH. cbn [str_exists].
  rewrite digit_char_not; [done| |done]. apply Z.mod_pos_bound. lia.
Qed.

(** The sampled bit of a flags byte, and of its single digit. *)
Lemma sampled_flag_byte n : (0 <= n < 256)%Z -> sampled_flag (hex_fixed 2 n) = Z.odd n.
Proof.
  intros Hn.
  assert (Hall : forallb (fun n => Bool.eqb (sampled_flag (hex_fixed 2 (Z.of_nat n))) (Z.odd (Z.of_nat n)))
                   (seq 0 256) = true) by (vm_compute; reflexivity).
  rewrite forallb_forall in Hall. specialize (Hall (Z.to_nat n)). rewrite Z2Nat.id in Hall by lia.
  apply Bool.eqb_prop, Hall, in_seq. lia.
Qed.

(** The documented behaviour of [TraceId::from_hex] and [SpanId::from_hex] on
    full-width hexadecimal. *)
Class OtelIdsLaws `(O : OtelIds) : Prop := {
  trace_id_hex t : (0 <= t < 2 ^ 128)%Z -> trace_id_from_hex (hex_fixed 32 t) = Some t;
  span_id_hex s : (0 <= s < 2 ^ 64)%Z -> span_id_from_hex (hex_fixed 16 s) = Some s }.

Lemma split_fields c l : l <> [] -> Forall (fun w => contains_char c w = false) l ->
  str_split c (str_join (String c "") l) = l.
Proof. intros Hne Hf. apply str_split_join; [done|]. by apply Forall_forall. Qed.

Lemma contains_join c v w ws : contains_char c (str_join (String c "") (v :: w :: ws)) = true.
Proof.
  rewrite str_join_cons, contains_char_app by done. cbn [String.append].
  rewrite contains_char_cons, Ascii.eqb_refl. apply orb_true_r.
Qed.

(** ** Property *)

(** The header a client of each format sends for a context with a flags byte. *)
Definition traceparent (t s n : Z) : string :=
  str_join "-" ["00"; hex_fixed 32 t; hex_fixed 16 s; hex_fixed 2 n].
Definition b3_single (t s : Z) (sampled : bool) : string :=
  str_join "-" [hex_fixed 32 t; hex_fixed 16 s; if sampled then "1" else "0"].
Definition uber_trace_id (t s p n : Z) : string :=
  str_join ":" [hex_fixed 32 t; hex_fixed 16 s; hex_fixed 16 p; hex_fixed 2 n].

(** C36. A propagated context is read back: the header of each format, in its
    single-header form with identifiers of full width, for valid identifiers,
    gives the parent with these identifiers and the sampled bit of its flags, and
    it is the parent extracted for the span when no earlier configured format
    gives one. *)
Theorem propagation_roundtrip `{HttpCrate} `{OL : OtelIdsLaws} (headers : HeaderMap) t s n before p after :
  (0 < t < 2 ^ 128)%Z -> (0 < s < 2 ^ 64)%Z -> (0 <= n < 256)%Z ->
  match p with
  | PropTraceContext => hm_get_str headers "traceparent" = Some (traceparent t s n)
  | PropB3 => hm_get_str headers "b3" = Some (b3_single t s (Z.odd n))
  | PropJaeger => exists parent, hm_get_str headers "uber-trace-id" = Some (uber_trace_id t s parent n)
  end ->
  Forall (fun q => extract_by q headers = None) before ->
  exists state, extract_parent headers (before ++ p :: after) = Some (mkSpanContext t s (Z.odd n) state) /\
    (p <> PropTraceContext -> state = trace_state_default).
Proof.
  intros Ht Hs Hn Hh Hb.
  assert (Hm : forall b st, make_remote_context (hex_fixed 32 t) (hex_fixed 16 s) b st
                            = Some (mkSpanContext t s b st)).
  { intros b st. unfold make_remote_context. rewrite trace_id_hex, span_id_hex by lia.
    by rewrite !(proj2 (Z.eqb_neq _ _)) by lia. }
  assert (He : exists state, extract_by p headers = Some (mkSpanContext t s (Z.odd n) state) /\
    (p <> PropTraceContext -> state = trace_state_default)).
  { destruct p; cbn [extract_by].
    - unfold extract_trace_context. rewrite Hh. unfold traceparent. rewrite split_fields
        by (done || (repeat constructor; try done; by apply hex_fixed_free)).
      rewrite !hex_fixed_len, sampled_flag_byte by done. cbn [negb orb Z.eqb]. cbn. rewrite Hm.
      by eexists.
    - unfold extract_b3. rewrite Hh. unfold b3_single. rewrite split_fields
        by (done || (repeat constructor; try done; by (apply hex_fixed_free || destruct (Z.odd n)))).
      replace (contains_char "-" _) with true; [|symmetry; apply contains_join].
      rewrite Hm. eexists. split; [|done]. by destruct (Z.odd n).
    - destruct Hh as [parent Hh]. unfold extract_jaeger. rewrite Hh. unfold uber_trace_id. rewrite split_fields
        by (done || (repeat constructor; by apply hex_fixed_free)).
      rewrite Hm, sampled_flag_byte by done. by eexists. }
  destruct He as (state & He & Hst). exists state. split; [|done].
  apply extract_parent_first. by exists before, p, after.
Qed.

(** ** Witness *)

Lemma hex_value_digit d : (0 <= d < 16)%Z -> hex_value (digit_char d) = Some d.
Proof.
  intros Hd.
  assert (Hall : forallb (fun d => bool_decide (hex_value (digit_char (Z.of_nat d)) = Some (Z.of_nat d)))
                   (seq 0 16) = true) by (vm_compute; reflexivity).
  rewrite forallb_forall in Hall. specialize (Hall (Z.to_nat d)). rewrite Z2Nat.id in Hall by lia.
  assert (Hin : In (Z.to_nat d) (seq 0 16)) by (apply in_seq; lia).
  specialize (Hall Hin). by apply bool_decide_eq_true in Hall.
Qed.

Lemma parse_hex_fixed max n z acc rest : (0 <= acc)%Z -> (0 <= z < 16 ^ Z.of_nat n)%Z ->
  (acc * 16 ^ Z.of_nat n + z <= max)%Z ->
  parse_hex_digits max acc (hex_fixed n z +:+ rest)
    = parse_hex_digits max (acc * 16 ^ Z.of_nat n + z) rest.
Proof.
  revert z acc rest; induction n as [|n IH]; intros z acc rest Ha Hz Hm.
  - cbn in *. f_equal. lia.
  - rewrite Nat2Z.inj_succ, Z.pow_succ_r in * by lia.
    pose proof (Z.div_mod z 16 ltac:(lia)) as Hdm. pose proof (Z.mod_pos_bound z 16 ltac:(lia)).
    cbn [hex_fixed]. rewrite <- sapp_assoc. set (P := (16 ^ Z.of_nat n)%Z) in *.
    rewrite IH; [|done|split; [apply Z.div_pos; lia|apply Z.div_lt_upper_bound; lia]|nia].
    cbn [String.append parse_hex_digits]. rewrite hex_value_digit by done. fold P.
    assert (0 <= acc * P)%Z by (unfold P; apply Z.mul_nonneg_nonneg; lia).
    assert (0 <= z / 16)%Z by (apply Z.div_pos; lia).
    rewrite (proj2 (Z.ltb_ge max ((acc * P + z / 16) * 16))) by lia. cbn zeta.
    rewrite (proj2 (Z.ltb_ge max ((acc * P + z / 16) * 16 + z mod 16))) by lia.
    f_equal. lia.
Qed.

Module Demo.
#[export] Instance ids : OtelIds := {
  trace_id_from_hex := parse_hex_digits (2 ^ 128 - 1) 0;
  span_id_from_hex := parse_hex_digits (2 ^ 64 - 1) 0;
  TraceState := string;
  trace_state_default := "";
  trace_state_from_str := Some }.
#[export] Instance ids_laws : OtelIdsLaws ids.
Proof.
  split; intros z Hz; cbn [trace_id_from_hex span_id_from_hex ids].
  - pose proof (parse_hex_fixed (2 ^ 128 - 1) 32 z 0 "" ltac:(lia) Hz ltac:(lia)) as E.
    by rewrite sapp_nil_r in E.
  - pose proof (parse_hex_fixed (2 ^ 64 - 1) 16 z 0 "" ltac:(lia) Hz ltac:(lia)) as E.
    by rewrite sapp_nil_r in E.
Qed.
End Demo.

Lemma propagation_roundtrip_witness :
  exists state, extract_parent (H := ListHttp) (H0 := Demo.ids)
    [("uber-trace-id", "0000000000000000000000000000002a:0000000000000007:0000000000000000:01")]
    propagation_all = Some (mkSpanContext (H0 := Demo.ids) 42 7 true state).
Proof.
  destruct (propagation_roundtrip (H := ListHttp) (OL := Demo.ids_laws)
    [("uber-trace-id", "0000000000000000000000000000002a:0000000000000007:0000000000000000:01")]
    42 7 1 [PropTraceContext; PropB3] PropJaeger [] ltac:(lia) ltac:(lia) ltac:(lia)
    (ex_intro _ 0%Z eq_refl) ltac:(repeat constructor)) as (state & Hs & _).
  exists state. exact Hs.
Defined.
