(* ===== verification/Stack.v ===== *)
(** * Layers in a stack

    What the layers of [arvik-middleware] and [arvik-observe] do together:
    [Router::layer] and [Router::route_layer] of [arvik-router/src/router.rs] put
    them around the routes, the last added outermost ([Http.apply_layers]).

    The interface between a layer and the stack it is in is [OnePass]: for each
    request a layer answers by itself, or passes one request on and works on the
    answer.  The layers of [PassLayer] are instances; the client's theorems, on
    stacks of any of them, use nothing else.  No instances are [from_fn], whose
    function may run a clone of [Next] as often as it likes, and the layers that
    race or observe their service: [timeout], which answers 408 for a service it
    has started, [catch_panic] and the metrics.  Their models are in [RequestId],
    [Adapters] and [Metrics]. *)
From S2P Require Import Prelude RustStr HttpCrate Body Http MethodFilter MethodRouter RouterPath Router.
From S2P Require Import Accept Cors Auth Csrf BodyLimit IpAddr F64 RateLimit Compression SecurityHeaders.
From S2P Require Import RequestId Responses Adapters Logging TraceContext.
From stdpp Require Import base list strings sets gmap.
From Stdlib Require Import ZArith Lia Ascii String Morphisms FunctionalExtensionality.
Open Scope string_scope.
Open Scope list_scope.

(** ** The interface *)

Section Interface.
Context `{HttpCrate} {W : Type}.

(** What a layer does with a request. *)
Inductive Pass :=
| Answer (res : Response) (w : W)
| Forward (req : Request) (w : W) (after : Response -> W -> Response * W).

Definition run_pass (p : Pass) (svc : Service W) : Response * W :=
  match p with
  | Answer res w => (res, w)
  | Forward req w after => let '(res, w) := svc req w in after res w
  end.

(** The request passed on is related by [R] to the one received, and any answer
    made from the service's by [Q] to it. *)
Definition pass_within (R : relation Request) (Q : relation Response) (req : Request) (p : Pass) : Prop :=
  match p with
  | Answer _ _ => True
  | Forward req' _ after => R req req' /\ forall res w, Q res (fst (after res w))
  end.

(** What a layer promises: the plan does not depend on the service it wraps. *)
Class OnePass (R : relation Request) (Q : relation Response) (L : LayerFn W) : Prop :=
  one_pass req w : exists p, pass_within R Q req p /\ forall svc, L svc req w = run_pass p svc.

Lemma one_pass_weaken (R R' : relation Request) (Q Q' : relation Response) L :
  (forall x y, R x y -> R' x y) -> (forall x y, Q x y -> Q' x y) -> OnePass R Q L -> OnePass R' Q' L.
Proof.
  intros HR HQ HL req w. destruct (HL req w) as ([res w'|req' w' after] & Hp & Hr).
  - by exists (Answer res w').
  - exists (Forward req' w' after). split; [|done]. destruct Hp. split; auto.
Qed.

(** Services that answer alike, world included. *)
Definition svc_equiv : relation (Service W) := fun f g => forall req w, f req w = g req w.

#[export] Instance svc_equiv_equivalence : Equivalence svc_equiv.
Proof.
  split; [intros f req w; done|intros f g Hfg req w; by rewrite Hfg|].
  intros f g h Hfg Hgh req w. by rewrite Hfg, Hgh.
Qed.

#[export] Instance run_pass_proper p : Proper (svc_equiv ==> eq) (run_pass p).
Proof. intros f g Hfg. destruct p as [res w|req w after]; cbn; [done|]. by rewrite Hfg. Qed.

#[export] Instance one_pass_proper R Q L : OnePass R Q L -> Proper (svc_equiv ==> svc_equiv) L.
Proof. intros HL f g Hfg req w. destruct (HL req w) as (p & _ & Hp). by rewrite !Hp, Hfg. Qed.

(** *** Stacks *)

(** What the layers inside do, and then the outer layer's work on the answer. *)
Definition and_then (p : Pass) (after : Response -> W -> Response * W) : Pass :=
  match p with
  | Answer res w => let '(res, w) := after res w in Answer res w
  | Forward req w after' =>
      Forward req w (fun res w => let '(res, w) := after' res w in after res w)
  end.

Lemma and_then_run p after svc :
  run_pass (and_then p after) svc = let '(res, w) := run_pass p svc in after res w.
Proof.
  destruct p as [res w|req w after1]; cbn; [by destruct (after res w)|]. by destruct (svc req w).
Qed.

Context (R : relation Request) (Q : relation Response) `{!PreOrder R} `{!PreOrder Q}.

Lemma and_then_within req req1 p after :
  R req req1 -> pass_within R Q req1 p -> (forall res w, Q res (fst (after res w))) ->
  pass_within R Q req (and_then p after).
Proof.
  intros Hr Hp Hq. destruct p as [res w|req2 w2 after2]; cbn in *; [by destruct (after res w)|].
  destruct Hp as [Hr2 Hq2]. split; [by trans req1|]. intros res w. specialize (Hq2 res w).
  destruct (after2 res w) as [res3 w3]. etrans; [exact Hq2|apply Hq].
Qed.

#[export] Instance one_pass_id : OnePass R Q (fun svc => svc).
Proof.
  intros req w. exists (Forward req w pair). split; [by split|]. intros svc. cbn. by destruct (svc req w).
Qed.

(** A stack of layers is a layer. *)
Lemma one_pass_stack ls : Forall (OnePass R Q) ls -> OnePass R Q (fun svc => apply_layers svc ls).
Proof.
  induction ls as [|L ls IH] using rev_ind; intros Hls.
  - apply one_pass_id.
  - apply Forall_app in Hls as [Hls HL]. apply Forall_cons in HL as [HL _]. specialize (IH Hls). intros req w.
    destruct (HL req w) as ([res w1|req1 w1 after] & Hp & Hrun).
    + exists (Answer res w1). split; [done|]. intros svc. by rewrite apply_layers_snoc, Hrun.
    + destruct Hp as [Hr Hq]. destruct (IH req1 w1) as (p & Hp & Hin). exists (and_then p after). split.
      * by eapply and_then_within.
      * intros svc. rewrite apply_layers_snoc, Hrun. cbn. by rewrite Hin, and_then_run.
Qed.
End Interface.

Arguments Pass {_} W.
Arguments Answer {_ W}.
Arguments Forward {_ W}.

(** ** The layers of the framework *)

(** The layers below do not change the method or the target of a request they
    pass on, or the status of the answer they get. *)
Definition same_target `{HttpCrate} : relation Request := fun r r' =>
  req_method r' = req_method r /\ req_uri r' = req_uri r.
Definition same_status `{HttpCrate} : relation Response := fun r r' => res_status r' = res_status r.

#[export] Instance same_target_preorder `{HttpCrate} : PreOrder same_target.
Proof. split; [by split|]. intros x y z [? ?] [? ?]. split; congruence. Qed.
#[export] Instance same_status_preorder `{HttpCrate} : PreOrder same_status.
Proof. split; [done|]. intros x y z. unfold same_status. congruence. Qed.

Section Layers.
Context `{HttpCrate} {HI : HeaderIter} {W0 : Type}.

(** The rate limiter keeps its store in the world. *)
Notation W := (BucketStore * W0)%type.

Context `{!Base64} `{!Hasher} `{!Codecs} `{!CsrfDeps W} `{!UuidV4 W} `{!Tracing W} `{!OtelIds}.
Context (uri_to_string : Uri -> string) (version : Request -> string) (format_secs : Z -> string).
Context (clock : W0 -> Clock) (info_enabled : W -> bool) (end_span : OtelSpan -> W -> W).

(** The closures of [map_request] and [map_response] are taken to keep the target
    and the status, which the framework cannot know. *)
Inductive PassLayer : LayerFn W -> Prop :=
| fl_cors cfg : PassLayer (cors_layer cfg)
| fl_authorization s : PassLayer (require_authorization_layer s)
| fl_csrf c : PassLayer (csrf_layer c)
| fl_request_body_limit n : PassLayer (request_body_limit_layer n)
| fl_default_body_limit n : PassLayer (default_body_limit_layer n)
| fl_rate_limit l : PassLayer (rate_limit_layer clock l)
| fl_compression c : PassLayer (compression_layer c)
| fl_decompression : PassLayer decompression_layer
| fl_set_response_header s : PassLayer (set_response_header_layer s)
| fl_set_request_header s : PassLayer (set_request_header_layer s)
| fl_sensitive_headers names : PassLayer (sensitive_headers_layer names)
| fl_security_headers l : PassLayer (security_headers_layer l)
| fl_request_id : PassLayer request_id_layer
| fl_propagate_request_id : PassLayer propagate_request_id_layer
| fl_structured_logging l : PassLayer (structured_logging_layer uri_to_string l)
| fl_trace l : PassLayer (trace_layer version format_secs l)
| fl_otel l : PassLayer (otel_layer info_enabled end_span l)
| fl_map_request_body f : PassLayer (map_request_body_layer f)
| fl_map_response_body f : PassLayer (map_response_body_layer f)
| fl_map_request f :
    (forall req w, same_target req (fst (f req w))) -> PassLayer (map_request_layer f)
| fl_map_response {Res} {IR : IntoResponse Res} (f : Response -> W -> Res * W) :
    (forall res w, same_status res (response_of (fst (f res w)))) -> PassLayer (map_response_layer f).

Notation Safe := (OnePass (W := W) same_target same_status).

(** Each layer on its own: a layer that answers by itself, one that passes the
    request on and hands the answer back, and one that works on the answer. *)
Definition planned (req : Request) (f : Service W -> Response * W) : Prop :=
  exists p, pass_within same_target same_status req p /\ forall svc, f svc = run_pass p svc.

Lemma answers req res w : planned req (fun _ => (res, w)).
Proof. by exists (Answer res w). Qed.
Lemma works_on req req1 w1 after :
  same_target req req1 -> (forall res w, same_status res (fst (after res w))) ->
  planned req (fun svc => let '(res, w) := svc req1 w1 in after res w).
Proof. intros Hr Hq. by exists (Forward req1 w1 after). Qed.
Lemma forwards req req1 w1 : same_target req req1 -> planned req (fun svc => svc req1 w1).
Proof.
  intros Hr. exists (Forward req1 w1 pair). split; [by split|]. intros svc. cbn. by destruct (svc req1 w1).
Qed.
Lemma planned_safe (L : LayerFn W) : (forall req w, planned req (fun svc => L svc req w)) -> Safe L.
Proof. intros HL req w. apply HL. Qed.

Lemma cors_one_pass cfg : Safe (cors_layer cfg).
Proof.
  apply planned_safe. intros req w. unfold cors_layer. destruct (hm_get _ _) as [o|]; [|by apply forwards].
  destruct (is_preflight req); [apply answers|].
  apply (works_on req req w (fun res w => (apply_response_headers cfg o res, w))); [done|].
  intros res w1. cbn. unfold apply_response_headers. by case_match.
Qed.

Lemma authorization_one_pass s : Safe (require_authorization_layer s).
Proof.
  apply planned_safe. intros req w. unfold require_authorization_layer.
  destruct (negb _); [apply answers|by apply forwards].
Qed.

Lemma csrf_one_pass c : Safe (csrf_layer c).
Proof.
  apply planned_safe. intros req w. unfold csrf_layer.
  destruct (match extract_csrf_cookie _ _ with Some _ => _ | None => _ end) as [[t new] w1].
  assert (forall w, planned req (fun svc =>
    let '(response, w) := svc (set_req_ext (ext_with_csrf t (req_ext req)) req) w in
    (if new then
       match hv_from_str (cookie_to_string (cookie_name c) t (secure c) (same_site c) "/") with
       | Some val => set_res_headers (hm_append (res_headers response) SET_COOKIE val) response
       | None => response
       end
     else response, w))) as Hrun.
  { intros w2. apply works_on; [done|]. intros res w3. cbn. destruct new; [|done]. by case_match. }
  destruct (is_state_changing _); [|apply Hrun]. destruct new; [apply answers|].
  destruct (_ ≫= _) as [h|]; [|apply answers]. destruct (secret_eq _ _); [apply Hrun|apply answers].
Qed.

Lemma request_body_limit_one_pass n : Safe (request_body_limit_layer n).
Proof.
  apply planned_safe. intros req w. unfold request_body_limit_layer.
  destruct (match declared_length req with Some _ => _ | None => _ end); [apply answers|by apply forwards].
Qed.

Lemma rate_limit_one_pass l : Safe (rate_limit_layer clock l).
Proof.
  apply planned_safe. intros req [st w]. unfold rate_limit_layer.
  destruct (extract_key _ _ _); [|apply answers].
  destruct (store_try_consume _ _ _ _ _) as [[|retry] st1]; [by apply forwards|apply answers].
Qed.

Lemma compression_one_pass c : Safe (compression_layer c).
Proof.
  apply planned_safe. intros req w. apply works_on; [done|]. intros res w1. cbn.
  unfold compress_response. by repeat case_match.
Qed.

Lemma decompression_one_pass : Safe decompression_layer.
Proof.
  apply planned_safe. intros req w. unfold decompression_layer.
  destruct (hm_get_str _ _) as [e|]; [|by apply forwards].
  destruct (to_bytes _) as [bytes|err]; [|apply answers].
  destruct (_ ≫= _) as [data|]; by apply forwards.
Qed.

Lemma request_id_one_pass : Safe request_id_layer.
Proof.
  apply planned_safe. intros req w. unfold request_id_layer.
  destruct (match hm_get_str _ _ with Some _ => _ | None => _ end) as [id w1].
  apply works_on; [by case_match|]. intros res w2. cbn. by destruct (hv_from_str id).
Qed.

Lemma structured_logging_one_pass l : Safe (structured_logging_layer uri_to_string l).
Proof.
  apply planned_safe. intros req w. unfold structured_logging_layer.
  destruct (request_id _ _ _) as [id w1]. apply works_on.
  - unfold identified. by case_match.
  - intros res w2. cbn. by case_match.
Qed.

Lemma trace_one_pass l : Safe (trace_layer version format_secs l).
Proof.
  apply planned_safe. intros req w. unfold trace_layer. apply works_on; [done|].
  intros res w1. cbn. by case_match.
Qed.

Lemma otel_one_pass l : Safe (otel_layer info_enabled end_span l).
Proof.
  apply planned_safe. intros req w. unfold otel_layer. destruct (info_enabled w); [|by apply forwards].
  by apply works_on.
Qed.

Lemma framework_one_pass L : PassLayer L -> Safe L.
Proof.
  destruct 1.
  - apply cors_one_pass.
  - apply authorization_one_pass.
  - apply csrf_one_pass.
  - apply request_body_limit_one_pass.
  - apply planned_safe. intros req w. by apply forwards.
  - apply rate_limit_one_pass.
  - apply compression_one_pass.
  - apply decompression_one_pass.
  - apply planned_safe. intros req w. by apply works_on.
  - apply planned_safe. intros req w. by apply forwards.
  - apply planned_safe. intros req w. by apply forwards.
  - apply planned_safe. intros req w. by apply works_on.
  - apply request_id_one_pass.
  - apply planned_safe. intros req w. apply works_on; [done|]. intros res w1. cbn. unfold set_response_id. by case_match.
  - apply structured_logging_one_pass.
  - apply trace_one_pass.
  - apply otel_one_pass.
  - apply planned_safe. intros req w. unfold map_request_body_layer.
    destruct (f _ w) as [t w1]. by apply forwards.
  - apply planned_safe. intros req w. apply works_on; [done|]. intros res w1. by destruct (f _ w1).
  - apply planned_safe. intros req w. unfold map_request_layer.
    match goal with Hf : forall req w, same_target _ _ |- _ => specialize (Hf req w) end.
    destruct (f req w). by apply forwards.
  - apply planned_safe. intros req w. apply works_on; [done|]. intros res w1.
    match goal with Hf : forall res w, same_status _ _ |- _ => specialize (Hf res w1) end.
    by destruct (f res w1).
Qed.

(** C6. One pass. Any stack, in any order, of the layers of [PassLayer] (CORS,
    authorization, CSRF, the body limits, rate limiting, compression and
    decompression, the header layers, request ids, logging, tracing, the body
    maps, and the request and response maps whose closure keeps the target and the
    status; not [timeout], [catch_panic], [from_fn] and the metrics) does with each
    request one of two things: it answers without running the service, or it runs
    the service once, on a request with the same method and target, and hands
    back the answer with its status. Which of the two, on which request, and what
    happens to the answer, does not depend on the service: so two services that
    answer alike behave alike in the stack, a router and its specification for
    one. *)
Theorem stack_calls_once ls req w :
  Forall PassLayer ls ->
  ((exists res w1, forall svc, apply_layers svc ls req w = (res, w1)) \/
   (exists req1 w1 after, req_method req1 = req_method req /\ req_uri req1 = req_uri req /\
      (forall res w, res_status (fst (after res w)) = res_status res) /\
      forall svc, apply_layers svc ls req w = let '(res, w2) := svc req1 w1 in after res w2)) /\
  Proper (svc_equiv ==> svc_equiv) (fun svc => apply_layers svc ls).
Proof.
  intros Hls. assert (OnePass same_target same_status (fun svc => apply_layers svc ls)) as Hs.
  { apply one_pass_stack; [apply _..|]. eapply Forall_impl; [exact Hls|]. apply framework_one_pass. }
  split; [|by eapply one_pass_proper].
  destruct (Hs req w) as ([res w1|req1 w1 after] & Hp & Hrun); [left; by exists res, w1|].
  right. exists req1, w1, after. destruct Hp as [[Hm Hu] Hq]. by split_and!.
Qed.
End Layers.

(** ** Stacks over a router *)

Section Routing.
Context `{HttpCrate} `{ML : MatchitLaws} `{Base64} {W S : Type}.

(** The last layer of a router is outside everything else it does. *)
Lemma into_service_layer (L : LayerFn W) (r : Router W unit) :
  into_service (layer L r) = L (into_service r).
Proof. apply apply_layers_snoc. Qed.

(** The last route layer is outside whatever else a matched route does. *)
Lemma router_core_route_layer (L : LayerFn W) (r : Router W unit) req w :
  router_core (route_layer L r) req w =
    match trie_at (r_trie r) (uri_path (req_uri req)) with
    | Some (idx, ps) =>
        match r_routes r !! idx with
        | Some e =>
            let '(res, w) := L (apply_layers (mr_spec (re_method_router e) tt) (r_route_layers r))
                               (entered (re_pattern e) ps req) w in
            (set_matched_path (re_pattern e) res, w)
        | None => (internal_error_response, w)
        end
    | None => router_core r req w
    end.
Proof.
  unfold router_core. cbn. destruct (trie_at _ _) as [[idx ps]|]; [|done].
  destruct (r_routes r !! idx) as [e|]; [|done]. by rewrite apply_layers_snoc.
Qed.

(** What a route behind an authorization layer answers: a matched route is
    refused without credentials, anything else is as before. *)
Definition guarded (s : AuthStrategy) (r : Router W unit) : Service W := fun req w =>
  match trie_at (r_trie r) (uri_path (req_uri req)) ≫= (fun ip => option_map (fun e => (e, snd ip)) (r_routes r !! fst ip)) with
  | Some (e, ps) =>
      if is_authorized s (entered (re_pattern e) ps req) then router_core r req w
      else (set_matched_path (re_pattern e) (unauthorized s), w)
  | None => router_core r req w
  end.

Lemma guarded_core s (r : Router W unit) :
  router_wf r -> router_core (route_layer (require_authorization_layer s) r) = guarded s r.
Proof.
  intros [Ht _]. extensionality req. extensionality w. rewrite router_core_route_layer. unfold guarded.
  destruct (trie_at _ _) as [[idx ps]|] eqn:E; cbn; [|done].
  destruct (Ht _ _ _ E) as (e & He & _). rewrite He. cbn. unfold require_authorization_layer.
  destruct (is_authorized _ _); cbn; [|done]. unfold router_core. by rewrite E, He.
Qed.
End Routing.

(** ** Properties *)

(** C7. CORS outside authorization, as its documentation orders them. Around any
    router, a preflight is answered by the policy alone, without credentials and
    without running anything; any other request of another origin is answered by
    the guarded routes, refusals included, with the policy's headers added, so
    the page can read them. The other way round a request without credentials,
    which every preflight is, gets a 401 no page may read. *)
Theorem cors_outside_authorization `{HL : HttpLaws} `{ML : MatchitLaws} `{Base64} {W S}
    (r : Router W S) (st : S) cfg s origin req w :
  built r -> hm_get (req_headers req) ORIGIN = Some origin ->
  let auth := require_authorization_layer s in
  let app := layer (cors_layer cfg) (route_layer auth r) in
  let swapped := layer auth (route_layer (cors_layer cfg) r) in
  into_service (with_state st app) req w =
    (if is_preflight req then (build_preflight cfg origin req, w)
     else let '(res, w) := apply_layers (guarded s (with_state st r)) (r_layers r) req w in
          (apply_response_headers cfg origin res, w)) /\
  (is_authorized s req = false ->
   into_service (with_state st swapped) req w = (unauthorized s, w) /\
   hm_get_all (res_headers (unauthorized s)) ACCESS_CONTROL_ALLOW_ORIGIN = []).
Proof.
  intros Hb Ho. cbn zeta. split.
  - change (with_state st (layer ?L ?r)) with (layer L (with_state st r)).
    rewrite into_service_layer. unfold cors_layer. rewrite Ho. destruct (is_preflight req); [done|].
    rewrite (into_service_core (with_state st (route_layer _ r))) by by apply with_state_wf, router_wf_parts, built_wf.
    change (with_state st (route_layer ?L ?r)) with (route_layer L (with_state st r)).
    by rewrite guarded_core by by apply with_state_wf, built_wf.
  - intros Ha. change (with_state st (layer ?L ?r)) with (layer L (with_state st r)).
    rewrite into_service_layer. unfold require_authorization_layer. rewrite Ha. split; [done|].
    unfold unauthorized, rb_header_str. rewrite hv_from_str_visible by done. cbn. by headers.
Qed.

(** Nesting takes a CORS layer's preflights away. A sub-router with the layer
    answers them; nested under a prefix, its routes without an OPTIONS handler
    answer 405 with nothing a browser reads as leave, and the request the
    preflight was for is never made. *)
Theorem nested_cors_loses_preflight `{HL : HttpLaws} `{ML : MatchitLaws} {W S} prefix
    (other r r' : Router W S) (st : S) cfg j e origin req ps w :
  built other -> built r -> nest prefix (layer (cors_layer cfg) other) r = Some r' ->
  r_layers r = [] -> r_route_layers r = [] ->
  r_routes other !! j = Some e -> has_methodb (re_method_router e) OPTIONS = false ->
  hm_get (req_headers req) ORIGIN = Some origin -> is_preflight req = true ->
  trie_at (r_trie r') (uri_path (req_uri req)) = Some ((List.length (r_routes r) + j)%nat, ps) ->
  into_service (with_state st (layer (cors_layer cfg) other)) req w = (build_preflight cfg origin req, w) /\
  exists res, into_service (with_state st r') req w = (res, w) /\ res_status res = 405%Z /\
    hm_get_all (res_headers res) ACCESS_CONTROL_ALLOW_ORIGIN = [].
Proof.
  intros Ho Hr Hn Hl Hrl Hj Hh Hor Hp Hat. split.
  { change (with_state st (layer ?L ?r)) with (layer L (with_state st r)).
    rewrite into_service_layer. unfold cors_layer. by rewrite Hor, Hp. }
  pose proof (built_wf _ (built_nest prefix _ _ _ (built_layer (cors_layer cfg) other Ho) Hr Hn)) as Hw.
  rewrite (into_service_core (with_state st r')) by by apply with_state_wf.
  unfold nest in Hn. cbn [layer r_fallback] in Hn. destruct (r_fallback other); [done|].
  destruct (nest_loop_spec (trim_end_matches "/" prefix) (sub_layers (layer (cors_layer cfg) other))
    (r_routes other) r r' (built_wf _ Hr) (wf_entries other (built_wf _ Ho)) Hn)
    as (_ & Hro & Hl' & Hrl' & _).
  cbn [with_state r_layers]. rewrite Hl', Hl. change (apply_layers ?s []) with s.
  unfold router_core. cbn [with_state r_trie r_routes r_route_layers]. rewrite Hat, Hrl', Hrl, Hro.
  rewrite list_lookup_fmap, lookup_app_r, Nat.add_comm, Nat.add_sub, list_lookup_fmap by lia.
  cbn [r_routes layer]. rewrite Hj. cbn [fmap option_fmap option_map re_method_router re_pattern entry_new].
  change (apply_layers ?s []) with s. rewrite mr_spec_with_state, mr_spec_extend_none.
  - eexists. split; [reflexivity|]. unfold method_not_allowed, rb_header_string.
    rewrite hv_from_string_visible by apply allow_header_visible. cbn. split; [done|]. by headers.
  - unfold is_preflight in Hp. apply andb_prop in Hp as [Hm _]. cbn.
    unfold method_eqb in Hm. apply bool_decide_eq_true in Hm. rewrite Hm. exact Hh.
Qed.

(** C21. Decompression and the body limit. Inside a decompression layer the limit is
    that of the decoded body: what is longer is refused with 413 before the
    service runs, and what is not reaches it whole. Outside, it is that of the
    encoded body: one within the limit is decoded, to whatever length. *)
Theorem decompression_and_limit `{HL : HttpLaws} `{Codecs} {W} limit (inner : Service W) req w e c bytes data :
  in_u64 limit -> (str_len data <= usize_max)%Z ->
  hm_get_str (req_headers req) CONTENT_ENCODING = Some e -> decoder_of (to_ascii_lowercase e) = Some c ->
  to_bytes (req_body req) = Ok bytes -> Compression.decode c bytes = Some data ->
  (if (limit <? str_len data)%Z
   then decompression_layer (request_body_limit_layer limit inner) req w = (payload_too_large limit, w)
   else exists req1, decompression_layer (request_body_limit_layer limit inner) req w = inner req1 w /\
     to_bytes (req_body req1) = Ok data) /\
  ((data_len (body_frames (req_body req)) <= u64_max)%Z -> (str_len bytes <= limit)%Z ->
   (forall n, declared_length req = Some n -> (n <= limit)%Z) ->
   exists req1, request_body_limit_layer limit (decompression_layer inner) req w = inner req1 w /\
     to_bytes (req_body req1) = Ok data).
Proof.
  intros Hl Hd He Hc Hb Hdec. pose proof (str_len_nonneg data) as Hn. split.
  - unfold decompression_layer. rewrite He, Hb, Hc. cbn [mbind option_bind]. rewrite Hdec.
    unfold request_body_limit_layer, declared_length. cbn [req_headers set_req_headers set_req_body]. headers.
    unfold mbind, option_bind. rewrite hv_to_str_visible by by apply to_dec_visible.
    unfold parse_usize. rewrite parse_unsigned_to_dec by lia.
    destruct (limit <? str_len data)%Z eqn:E; [done|]. eexists. split; [reflexivity|]. cbn [req_body set_req_body].
    rewrite (limited_body_bytes limit _ data); [by rewrite E|done| |apply to_bytes_from_bytes].
    pose proof (collect_frames_len _ _ (to_bytes_from_bytes data)). unfold usize_max in Hd. cbn -[body_from_bytes]. lia.
  - intros Hlen Hle Hdecl. unfold request_body_limit_layer.
    assert (match declared_length req with Some n => (limit <? n)%Z | None => false end = false) as ->.
    { destruct (declared_length req) as [n|]; [|done]. apply Z.ltb_ge. by apply Hdecl. }
    unfold decompression_layer. cbn [req_headers req_body set_req_body].
    rewrite He, (limited_body_bytes limit _ bytes) by done. rewrite (proj2 (Z.ltb_ge _ _)) by done.
    rewrite Hc. cbn [mbind option_bind]. rewrite Hdec. eexists. split; [reflexivity|]. apply to_bytes_from_bytes.
Qed.

(** Structured logging outside the request id layer: the service, the client and
    the log see one id. *)
Theorem logged_id_is_answered `{HL : HttpLaws} {HI : HeaderIter} {W} `{Tracing W} `{UuidV4 W}
    uri_to_string l (inner : Service W) req w :
  (forall w, is_valid_request_id (fst (uuid_v4 w)) = true) -> request_id_header l = X_REQUEST_ID ->
  let '(response, w') := structured_logging_layer uri_to_string l (request_id_layer inner) req w in
  exists id req1 w1 res w2 span level route latency,
    is_valid_request_id id = true /\ inner req1 w1 = (res, w2) /\
    ext_request_id (req_ext req1) = Some id /\
    hm_get_all (req_headers req1) X_REQUEST_ID = [id] /\ hm_get_all (res_headers response) X_REQUEST_ID = [id] /\
    w' = record_event (RequestCompleted span level (res_status res) route latency) w2 /\
    (forall s, span = Some s -> sp_request_id s = id).
Proof.
  intros Hu Hx. unfold structured_logging_layer. rewrite Hx.
  destruct (request_id_spec Hu req X_REQUEST_ID w) as [Hv _].
  destruct (request_id req X_REQUEST_ID w) as [id w1]. cbn [fst] in Hv.
  destruct (identified_headers l id req Hv) as (Hh & _). rewrite Hx in Hh.
  pose proof (hv_from_str_visible id (valid_id_visible id Hv)) as Hid. unfold request_id_layer.
  assert (hm_get_str (req_headers (identified l id req)) X_REQUEST_ID = Some id) as ->.
  { unfold hm_get_str. rewrite hm_get_head, Hh. by apply hv_to_str_visible, valid_id_visible. }
  rewrite Hid. destruct (inner _ w1) as [res w2] eqn:Ei.
  eexists id, _, w1, res, w2, _, _, _, _. split; [done|]. split; [exact Ei|].
  split; [done|]. split; [by cbn; headers|]. split; [by cbn; headers|]. split; [reflexivity|].
  unfold open_span. intros s. destruct (enabled INFO w); [|done]. by intros [= <-].
Qed.

(** Inside it, they part on an id the logging layer does not take, one that is
    too long for it, say: the log has a fresh id, the client its own. *)
Theorem unlogged_id_is_answered `{HL : HttpLaws} {HI : HeaderIter} {W} `{Tracing W} `{UuidV4 W}
    uri_to_string l (inner : Service W) req w id :
  (forall w, is_valid_request_id (fst (uuid_v4 w)) = true) -> request_id_header l = X_REQUEST_ID ->
  hm_get_str (req_headers req) X_REQUEST_ID = Some id -> is_valid_request_id id = false ->
  let '(response, w') := request_id_layer (structured_logging_layer uri_to_string l inner) req w in
  hm_get_all (res_headers response) X_REQUEST_ID = [id] /\
  exists req1 res w2 span level route latency,
    inner req1 (snd (uuid_v4 w)) = (res, w2) /\ ext_request_id (req_ext req1) = Some (fst (uuid_v4 w)) /\
    w' = record_event (RequestCompleted span level (res_status res) route latency) w2 /\
    (forall s, span = Some s -> sp_request_id s = fst (uuid_v4 w)) /\ fst (uuid_v4 w) <> id.
Proof.
  intros Hu Hx Hg Hn. unfold request_id_layer. rewrite Hg.
  assert (hv_from_str id = Some id) as Hid.
  { unfold hm_get_str in Hg. destruct (hm_get _ _) as [v|]; [|done]. cbn in Hg.
    pose proof (hv_to_str_id _ _ Hg) as ->. by eapply hv_str_roundtrip. }
  rewrite Hid. unfold structured_logging_layer, request_id. rewrite Hx. cbn [req_headers req_ext set_req_headers set_req_ext].
  unfold hm_get_str at 1. headers. cbn [mbind option_bind].
  destruct (hv_to_str id) as [v|] eqn:Ev.
  2:{ exfalso. pose proof (hm_get_str_some _ _ _ Hg) as Hm. unfold hm_get_str in Hg. rewrite Hm in Hg. cbn in Hg. congruence. }
  pose proof (hv_to_str_id _ _ Ev) as ->. rewrite Hn. cbn [ext_request_id ext_with_request_id]. rewrite Hn.
  specialize (Hu w). destruct (uuid_v4 w) as [fresh w1]. cbn [fst snd] in *.
  destruct (inner _ w1) as [res w2] eqn:Ei. split.
  - cbn [set_response_id res_headers set_res_headers]. by headers.
  - eexists _, res, w2, _, _, _, _. split; [exact Ei|]. split.
    { unfold identified. by case_match. }
    split; [reflexivity|]. split; [|congruence].
    unfold open_span. intros s. destruct (enabled INFO w); [|done]. by intros [= <-].
Qed.

(** ** Witnesses *)

(** Layers over the list-based header map, in a world of the limiter's store and
    a log; an API with one route behind a bearer token. *)
Module DemoStack.
Definition World : Type := (list Shard * list string).
#[export] Instance deps : CsrfDeps World := {
  new_uuid w := ("token", (fst w, snd w ++ ["uuid"]));
  cookie_to_string n v _ _ _ := n +:+ "=" +:+ v }.
#[export] Instance uuid : UuidV4 World := { uuid_v4 w := ("id-1", w) }.
#[export] Instance tracing : Tracing World := {
  now _ := 0%Z; enabled _ _ := true; record_event _ w := (fst w, snd w ++ ["logged"]) }.
Definition service (status : Z) : Service World :=
  fun req '(st, w) => (Http.Demo.respond status "h", (st, w ++ ["h " +:+ uri_path (req_uri req)])).
Definition layers : list (LayerFn World) :=
  [request_body_limit_layer 10; csrf_layer csrf_new;
   rate_limit_layer (fun _ => DemoLimit.at_time 0) (mkRateLimit 1 3600000000000 ByIpAddress Never);
   structured_logging_layer uri_path logging_layer_new; security_headers_layer security_headers_new].

Definition api : option (Router (list string) unit) :=
  route "/items" (mr_get (DemoRoute.h "items") mr_new) router_new.
Definition root : option (Router (list string) unit) :=
  route "/" (mr_get (DemoRoute.h "home") mr_new) router_new.
Definition preflight (path : string) : Request :=
  Http.Demo.with_header ACCESS_CONTROL_REQUEST_METHOD "GET"
    (Http.Demo.with_header ORIGIN "https://a.example" (Http.Demo.request OPTIONS path)).
Definition without_token : Request :=
  Http.Demo.with_header ORIGIN "https://a.example" (Http.Demo.request GET "/items").
Definition seen (rw : Response * list string) : Z * list string :=
  (res_status (fst rw), hm_get_all (res_headers (fst rw)) ACCESS_CONTROL_ALLOW_ORIGIN).
Lemma route_built path h :
  match route path (mr_get (DemoRoute.h h) mr_new) (router_new (W := list string) (S := unit)) with
  | Some r => built r /\ r_layers r = [] /\ r_route_layers r = [] /\
      r_routes r = [entry_new path (mr_get (DemoRoute.h h) mr_new)]
  | None => True end.
Proof.
  destruct (route _ _ _) as [r|] eqn:E; [|done]. split.
  - eapply built_route; [apply Router.built_new|apply wf_on, wf_new|exact E].
  - unfold route in E. destruct (trie_insert _ _ _); [|discriminate E]. by injection E as <-.
Qed.
Lemma api_built : match api with Some r => built r | None => True end.
Proof. pose proof (route_built "/items" "items") as H. unfold api. destruct (route _ _ _); [apply H|done]. Qed.
Lemma root_built : match root with Some r => built r | None => True end.
Proof. pose proof (route_built "/" "home") as H. unfold root. destruct (route _ _ _); [apply H|done]. Qed.
Lemma shape :
  match api, root with
  | Some other, Some r =>
      match nest "/api" (Router.layer (cors_layer cors_permissive) other) r with
      | Some r' => r_layers r = [] /\ r_route_layers r = [] /\
          (exists e, r_routes other !! 0%nat = Some e /\ has_methodb (re_method_router e) OPTIONS = false) /\
          trie_at (r_trie r') "/api/items" = Some ((List.length (r_routes r) + 0)%nat, [])
      | None => False
      end
  | _, _ => False
  end.
Proof.
  assert (Hc : match api, root with
    | Some other, Some r => option_map (fun r' => trie_at (r_trie r') "/api/items")
        (nest "/api" (Router.layer (cors_layer cors_permissive) other) r)
    | _, _ => None end = Some (Some (1%nat, []))) by (vm_compute; reflexivity).
  pose proof (route_built "/items" "items") as Ha. pose proof (route_built "/" "home") as Hr.
  fold api in Ha. fold root in Hr. destruct api as [other|]; [|discriminate Hc].
  destruct root as [r|]; [|discriminate Hc]. destruct Ha as (_ & _ & _ & Ha). destruct Hr as (_ & Hl & Hrl & Hr).
  destruct (nest _ _ _) as [r'|]; [|discriminate Hc]. rewrite Ha, Hr, Hl, Hrl.
  split; [reflexivity|]. split; [reflexivity|]. split; [|by injection Hc]. eexists. split; reflexivity.
Qed.
Definition encoded (bytes : string) : Request :=
  set_req_body (body_from_bytes bytes) (Http.Demo.with_header CONTENT_ENCODING "gzip" (Http.Demo.request POST "/up")).
End DemoStack.
Import DemoStack TraceContext.Demo.

Lemma stack_calls_once_witness :
  exists req1 w1 after, req_uri req1 = mkUri None None "/x" None /\
    forall svc, apply_layers svc DemoStack.layers (Http.Demo.request GET "/x") (store_new, []) =
      let '(res, w2) := svc req1 w1 in after res w2.
Proof.
  destruct (stack_calls_once (H := ListHttp) uri_path (fun _ => "HTTP/1.1") to_dec (fun _ => DemoLimit.at_time 0)
    (fun _ => true) (fun _ w => w) DemoStack.layers (Http.Demo.request GET "/x") (store_new, [])) as [[Hl|Hr] _].
  - repeat constructor.
  - exfalso. destruct Hl as (res & w1 & Hs).
    pose proof (eq_trans (Hs (DemoStack.service 200)) (eq_sym (Hs (DemoStack.service 201)))) as E.
    apply (f_equal (fun rw => res_status (fst rw))) in E. vm_compute in E. discriminate E.
  - destruct Hr as (req1 & w1 & after & _ & Hu & _ & Hs). exists req1, w1, after. split; [exact Hu|exact Hs].
Defined.

(** The preflight is answered, the request without a token refused, in both
    cases with the headers that let the page see it; the other order hides it. *)
Lemma cors_outside_authorization_witness :
  exists r, DemoStack.api = Some r /\
    let app := with_state tt (Router.layer (cors_layer cors_permissive)
                 (route_layer (require_authorization_layer (Bearer "t")) r)) in
    let swapped := with_state tt (Router.layer (require_authorization_layer (Bearer "t"))
                     (route_layer (cors_layer cors_permissive) r)) in
    DemoStack.seen (into_service app (DemoStack.preflight "/items") []) = (204%Z, ["*"]) /\
    DemoStack.seen (into_service app DemoStack.without_token []) = (401%Z, ["*"]) /\
    into_service swapped (DemoStack.preflight "/items") [] = (unauthorized (Bearer "t"), []).
Proof.
  pose proof DemoStack.api_built as Hb.
  assert (Hc : option_map (fun r => DemoStack.seen
      (let '(res, w) := apply_layers (guarded (Bearer "t") (with_state tt r)) (r_layers r)
                          DemoStack.without_token [] in
       (apply_response_headers cors_permissive "https://a.example" res, w))) DemoStack.api
    = Some (401%Z, ["*"])) by (vm_compute; reflexivity).
  destruct DemoStack.api as [r|]; [|discriminate Hc]. apply (f_equal (default (0%Z, []))) in Hc.
  exists r. split; [reflexivity|]. cbn zeta.
  destruct (cors_outside_authorization r tt cors_permissive (Bearer "t") "https://a.example"
    (DemoStack.preflight "/items") [] Hb eq_refl) as [H1 H2].
  destruct (cors_outside_authorization r tt cors_permissive (Bearer "t") "https://a.example"
    DemoStack.without_token [] Hb eq_refl) as [H3 _].
  split; [rewrite H1; vm_compute; reflexivity|]. split; [rewrite H3; exact Hc|].
  apply H2. vm_compute. reflexivity.
Defined.

(** The same preflight before and after the API is nested under [/api]. *)
Lemma nested_cors_loses_preflight_witness :
  exists other r r', DemoStack.api = Some other /\ DemoStack.root = Some r /\
    nest "/api" (Router.layer (cors_layer cors_permissive) other) r = Some r' /\
    into_service (with_state tt (Router.layer (cors_layer cors_permissive) other)) (DemoStack.preflight "/api/items") []
      = (build_preflight cors_permissive "https://a.example" (DemoStack.preflight "/api/items"), []) /\
    exists res, into_service (with_state tt r') (DemoStack.preflight "/api/items") [] = (res, []) /\
      res_status res = 405%Z /\ hm_get_all (res_headers res) ACCESS_CONTROL_ALLOW_ORIGIN = [].
Proof.
  pose proof DemoStack.api_built as Ho. pose proof DemoStack.root_built as Hr.
  pose proof DemoStack.shape as Hs.
  destruct DemoStack.api as [other|]; [|destruct Hs]. destruct DemoStack.root as [r|]; [|destruct Hs].
  destruct (nest "/api" (Router.layer (cors_layer cors_permissive) other) r) as [r'|] eqn:En; [|destruct Hs].
  destruct Hs as (Hl & Hrl & (e & Hj & Hh) & Hat).
  exists other, r, r'. split; [reflexivity|]. split; [reflexivity|]. split; [exact En|].
  exact (nested_cors_loses_preflight "/api" other r r' tt cors_permissive 0 e "https://a.example"
    (DemoStack.preflight "/api/items") [] [] Ho Hr En Hl Hrl Hj Hh eq_refl eq_refl Hat).
Defined.

(** Nine bytes that decode to eight, under a limit of four inside the
    decompression and of nine outside. *)
Lemma decompression_and_limit_witness :
  decompression_layer (request_body_limit_layer 4 (Http.Demo.handler "h")) (DemoStack.encoded "Gabcdefgh") []
    = (payload_too_large 4, []) /\
  exists req1, request_body_limit_layer 9 (decompression_layer (Http.Demo.handler "h")) (DemoStack.encoded "Gabcdefgh") []
    = Http.Demo.handler "h" req1 [] /\ to_bytes (req_body req1) = Ok "abcdefgh".
Proof.
  split.
  - destruct (decompression_and_limit 4 (Http.Demo.handler "h") (DemoStack.encoded "Gabcdefgh") [] "gzip" Gzip
      "Gabcdefgh" "abcdefgh" ltac:(split; vm_compute; discriminate) ltac:(vm_compute; discriminate)
      eq_refl eq_refl eq_refl eq_refl) as [H _]. exact H.
  - destruct (decompression_and_limit 9 (Http.Demo.handler "h") (DemoStack.encoded "Gabcdefgh") [] "gzip" Gzip
      "Gabcdefgh" "abcdefgh" ltac:(split; vm_compute; discriminate) ltac:(vm_compute; discriminate)
      eq_refl eq_refl eq_refl eq_refl) as [_ H].
    apply H; [vm_compute; discriminate|vm_compute; discriminate|]. intros n Hn. vm_compute in Hn. discriminate Hn.
Defined.

(** A readable id with a space, which the logging layer does not take. *)
Lemma logged_id_is_answered_witness :
  exists id, is_valid_request_id id = true /\
    hm_get_all (res_headers (fst (structured_logging_layer uri_path logging_layer_new
      (request_id_layer (DemoStack.service 200))
      (Http.Demo.with_header X_REQUEST_ID "my id" (Http.Demo.request GET "/x")) (store_new, []))))
      X_REQUEST_ID = [id].
Proof.
  pose proof (logged_id_is_answered uri_path logging_layer_new (DemoStack.service 200)
    (Http.Demo.with_header X_REQUEST_ID "my id" (Http.Demo.request GET "/x")) (store_new, [])
    (fun _ => eq_refl) eq_refl) as H.
  destruct (structured_logging_layer _ _ _ _ _) as [response w'].
  destruct H as (id & req1 & w1 & res & w2 & span & level & route & latency & Hv & _ & _ & _ & Hh & _).
  exists id. split; [exact Hv|exact Hh].
Defined.

Lemma unlogged_id_is_answered_witness :
  hm_get_all (res_headers (fst (request_id_layer
    (structured_logging_layer uri_path logging_layer_new (DemoStack.service 200))
    (Http.Demo.with_header X_REQUEST_ID "my id" (Http.Demo.request GET "/x")) (store_new, []))))
    X_REQUEST_ID = ["my id"].
Proof.
  pose proof (unlogged_id_is_answered uri_path logging_layer_new (DemoStack.service 200)
    (Http.Demo.with_header X_REQUEST_ID "my id" (Http.Demo.request GET "/x")) (store_new, []) "my id"
    (fun _ => eq_refl) eq_refl eq_refl eq_refl) as H.
  destruct (request_id_layer _ _ _) as [response w']. exact (proj1 H).
Defined.
