(* ===== verification/Macros.v ===== *)
(** * The attribute macros

    [arvik-macros/src/lib.rs]: the arguments of the attributes, the checks of
    [#[debug_handler]] and [#[handler]], the routes that [#[get(..)]] and its
    siblings emit, [collect_routes!], and the entry points of the macros.

    [syn] and [quote] are the ground: a parsed item is the part of [syn]'s tree
    the code looks at, and an expansion is what its tokens declare.  A parse
    error is [Some] message of the code's own, or [None] for [syn]'s. *)
From S2P Require Import Prelude RustStr HttpCrate Body Http MethodFilter MethodRouter RouterPath Router.
From stdpp Require Import base list strings sets.
From Stdlib Require Import ZArith Lia Ascii String.
Open Scope string_scope.
Open Scope list_scope.

(** ** What [syn] parses *)

(** A path segment; [seg_arguments] is the tokens of its generic arguments. *)
Record Segment := mkSegment { seg_ident : string; seg_arguments : option string }.
Definition SynPath := list Segment.
#[export] Instance segment_eq_dec : EqDecision Segment.
Proof. solve_decision. Defined.

Inductive Ty := TyPath (p : SynPath) | TyReference (elem : Ty) | TyOther (tokens : string).

(** [self], with whether it is [&self] and whether it is [mut]; or a pattern
    with its type. *)
Inductive FnArg := Receiver (reference mutable : bool) | Typed (ty : Ty).

Record FnSig := mkSig {
  sig_async : bool;
  sig_ident : string;
  sig_generic : bool;   (* generic parameters or a where clause *)
  sig_inputs : list FnArg }.

(** An [impl] block: its type, whether it implements a trait, whether it is
    generic, and its functions. *)
Record ItemImpl := mkImpl {
  impl_ty : Ty; impl_trait : bool; impl_generic : bool; impl_fns : list FnSig }.

Inductive Token := TkIdent (s : string) | TkEq | TkComma | TkLitStr (s : string) | TkType (t : Ty) | TkOther.

Definition ParseResult (T : Type) : Type := result T (option string).

(** The optional comma that may end the arguments. *)
Definition end_of_args (msg : string) (rest : list Token) : ParseResult unit :=
  match rest with
  | [] | [TkComma] => Ok tt
  | TkComma :: _ :: _ => Err (Some msg)
  | _ => Err None
  end.

(** [DebugHandlerArgs::parse]. *)
Definition parse_debug_handler_args (input : list Token) : ParseResult (option Ty) :=
  match input with
  | [] => Ok None
  | TkIdent i :: rest =>
      if negb (i =? "state")%string then Err (Some "expected `state = Type`")
      else match rest with
           | TkEq :: TkType t :: rest =>
               match end_of_args "unexpected debug_handler argument" rest with
               | Ok _ => Ok (Some t)
               | Err e => Err e
               end
           | _ => Err None
           end
  | _ => Err None
  end.

(** [RouteArgs::parse], [ShorthandRouteArgs::parse]. *)
Definition parse_route_args (input : list Token) : ParseResult (string * string) :=
  match input with
  | TkIdent m :: TkComma :: TkLitStr p :: rest =>
      match end_of_args "unexpected route argument" rest with Ok _ => Ok (m, p) | Err e => Err e end
  | _ => Err None
  end.
Definition parse_shorthand_route_args (input : list Token) : ParseResult string :=
  match input with
  | TkLitStr p :: rest =>
      match end_of_args "unexpected route argument" rest with Ok _ => Ok p | Err e => Err e end
  | _ => Err None
  end.

(** ** Looking at types *)

Fixpoint last_type_segment_ident (ty : Ty) : option string :=
  match ty with
  | TyPath p => seg_ident <$> last p
  | TyReference elem => last_type_segment_ident elem
  | TyOther _ => None
  end.
Definition type_named (names : list string) (ty : Ty) : bool :=
  match last_type_segment_ident ty with
  | Some i => existsb (fun n => (i =? n)%string) names
  | None => false
  end.
Definition is_state_type : Ty -> bool := type_named ["State"].
Definition is_request_type : Ty -> bool := type_named ["Request"].
Definition is_builtin_body_type : Ty -> bool :=
  type_named ["Json"; "Form"; "Multipart"; "Body"; "Bytes"; "String"; "Request"].

(** ** [#[debug_handler]] *)

(** What the emitted function asserts. *)
Inductive Assertion :=
| AssertFromRequestParts (ty : Ty) (state : option Ty)
| AssertFromRequest (ty : Ty) (state : option Ty)
| AssertHandler (f : string) (state : option Ty).

Definition arg_types (inputs : list FnArg) : list Ty :=
  omap (fun a => match a with Typed t => Some t | Receiver _ _ => None end) inputs.

(** [enumerate] and [filter_map]. *)
Definition body_positions (tys : list Ty) : list nat :=
  omap (fun it => if is_builtin_body_type (snd it) then Some (fst it) else None)
    (imap (fun i t => (i, t)) tys).

Definition when (b : bool) (msg : string) : list string := if b then [msg] else [].

(** The errors [expand_debug_handler] collects, in order. *)
Definition debug_handler_errors (state : option Ty) (sig : FnSig) : list string :=
  let tys := arg_types (sig_inputs sig) in
  let positions := body_positions tys in
  when (negb (sig_async sig)) "#[debug_handler] requires an async function" ++
  when (sig_generic sig) "#[debug_handler] does not support generic handler functions" ++
  when (16 <? List.length (sig_inputs sig))%nat "Arvik handlers support at most 16 extractors" ++
  omap (fun a => match a with
                 | Receiver _ _ => Some "#[debug_handler] can only be used on free functions"
                 | Typed _ => None
                 end) (sig_inputs sig) ++
  when (existsb is_state_type tys && match state with None => true | Some _ => false end)
    "handlers using State<T> must declare #[debug_handler(state = AppState)]" ++
  when (1 <? List.length positions)%nat "handlers can have only one body-consuming extractor" ++
  match List.length tys with
  | O => []
  | Datatypes.S last_index =>
      omap (fun idx => if (idx =? last_index)%nat then None
                       else Some "body-consuming extractors must be the last handler argument") positions
  end.

(** [expand_debug_handler]: the errors, or the assertions; [None] is the unit
    state. *)
Definition expand_debug_handler (state : option Ty) (sig : FnSig) : result (list Assertion) (list string) :=
  match debug_handler_errors state sig with
  | [] =>
      let tys := arg_types (sig_inputs sig) in
      Ok (map (fun t => AssertFromRequestParts t state) (take (List.length tys - 1) tys) ++
          match last tys with Some t => [AssertFromRequest t state] | None => [] end ++
          [AssertHandler (sig_ident sig) state])
  | errors => Err errors
  end.

(** ** [#[handler]] *)

(** [validate_handler_call]. *)
Definition validate_handler_call (call : FnSig) : list string :=
  when (negb (sig_async call)) "#[handler] call method must be async" ++
  when (sig_generic call) "#[handler] call method must not be generic" ++
  match sig_inputs call with
  | [a; b] =>
      match a with
      | Receiver true false => []
      | _ => ["#[handler] call method must take &self as the first argument"]
      end ++
      match b with
      | Typed t => if is_request_type t then []
                   else ["#[handler] call method second argument must be arvik::Request"]
      | Receiver _ _ => ["#[handler] call method second argument must be arvik::Request"]
      end
  | _ => ["#[handler] call method must have signature call(&self, req: arvik::Request)"]
  end.

(** [expand_handler]: the errors, or the type that gets the [Handler] impl. *)
Definition expand_handler (input : ItemImpl) : result Ty (list string) :=
  let errors :=
    when (impl_trait input) "#[handler] must be used on an inherent impl block" ++
    when (impl_generic input) "#[handler] does not support generic impl blocks yet" ++
    match List.filter (fun f => (sig_ident f =? "call")%string) (impl_fns input) with
    | [] => ["#[handler] requires an async fn call(&self, req: arvik::Request)"]
    | [call] => validate_handler_call call
    | _ => ["#[handler] requires exactly one method named call"]
    end in
  match errors with [] => Ok (impl_ty input) | _ => Err errors end.

(** ** Routes *)

Inductive RouteMethod := RmGet | RmPost | RmPut | RmDelete | RmPatch | RmHead | RmOptions | RmTrace | RmAny.

Definition to_ascii_uppercase_char (a : ascii) : ascii :=
  if in_range 97 122 a then byte_of_val (byte_val a - 32) else a.
Definition to_ascii_uppercase : string -> string := str_map to_ascii_uppercase_char.

Definition parse_route_method (method : string) : result RouteMethod string :=
  let m := to_ascii_uppercase method in
  if (m =? "GET")%string then Ok RmGet else if (m =? "POST")%string then Ok RmPost
  else if (m =? "PUT")%string then Ok RmPut else if (m =? "DELETE")%string then Ok RmDelete
  else if (m =? "PATCH")%string then Ok RmPatch else if (m =? "HEAD")%string then Ok RmHead
  else if (m =? "OPTIONS")%string then Ok RmOptions else if (m =? "TRACE")%string then Ok RmTrace
  else if (m =? "ANY")%string then Ok RmAny else Err "unsupported HTTP method".

(** [method_filter_ident], as the filter it names. *)
Definition method_filter_ident (m : RouteMethod) : MethodFilter.t :=
  match m with
  | RmGet => MethodFilter.GET | RmPost => MethodFilter.POST | RmPut => MethodFilter.PUT
  | RmDelete => MethodFilter.DELETE | RmPatch => MethodFilter.PATCH | RmHead => MethodFilter.HEAD
  | RmOptions => MethodFilter.OPTIONS | RmTrace => MethodFilter.TRACE | RmAny => MethodFilter.ANY
  end.

(** [constructor_ident], as the function of [arvik_router] it names. *)
Definition constructor_ident {W S} `{HttpCrate} (m : RouteMethod) (h : Handler S W) : MethodRouter W S :=
  match m with
  | RmGet => mr_get h mr_new | RmPost => mr_post h mr_new | RmPut => mr_put h mr_new
  | RmDelete => mr_delete h mr_new | RmPatch => mr_patch h mr_new | RmHead => mr_head h mr_new
  | RmOptions => mr_options h mr_new | RmTrace => on MethodFilter.TRACE h | RmAny => any h
  end.

Definition normalize_route_path (path : string) : result string string :=
  if str_is_empty path then Err "route path must not be empty"
  else if negb (starts_with "/" path) then Err "route path must start with `/`"
  else if contains_char "?" path || contains_char "#" path
  then Err "route path must not contain a query string or fragment"
  else if existsb (starts_with ":") (str_split "/" path)
  then Err "route parameters must use `{name}` syntax, not `:name`"
  else Ok path.

(** How [format_ident!] writes an [Ident]: without the prefix of a raw one. *)
Definition ident_fragment (ident : string) : string := default ident (str_strip_prefix "r#" ident).
Definition route_helper_ident (ident : string) : string := "__arvik_route_" +:+ ident_fragment ident.
Definition route_meta_ident (ident : string) : string := "__ARVIK_ROUTE_META_" +:+ to_ascii_uppercase ident.

(** What [expand_route] declares beside the function: the helper that registers
    the handler, and the constant. *)
Record RouteExpansion := mkRouteExpansion {
  rx_helper : string;
  rx_meta : string;
  rx_path : string;
  rx_method : RouteMethod }.
Definition expand_route (method path fn_ident : string) : result RouteExpansion string :=
  match parse_route_method method with
  | Err e => Err e
  | Ok route =>
      match normalize_route_path path with
      | Err e => Err e
      | Ok path => Ok (mkRouteExpansion (route_helper_ident fn_ident) (route_meta_ident fn_ident) path route)
      end
  end.

(** [replace_last_path_ident]. *)
Definition replace_last_path_ident (path : SynPath) (make : string -> string) : result SynPath string :=
  match last path with
  | None => Err "expected route handler path"
  | Some seg =>
      match seg_arguments seg with
      | Some _ => Err "collect_routes! does not support generic route paths"
      | None => Ok (removelast path ++ [mkSegment (make (seg_ident seg)) None])
      end
  end.
Definition route_paths (path : SynPath) : result (SynPath * SynPath) string :=
  match replace_last_path_ident path route_helper_ident with
  | Err e => Err e
  | Ok helper => match replace_last_path_ident path route_meta_ident with
                 | Err e => Err e
                 | Ok meta => Ok (helper, meta)
                 end
  end.

(** [expand_collect_routes]: the loop over the paths, with those before. *)
Fixpoint collect_loop (previous paths : list SynPath) : list (SynPath * SynPath) * list string :=
  match paths with
  | [] => ([], [])
  | path :: paths =>
      let (pairs, errors) := collect_loop (previous ++ [path]) paths in
      let dup := when (existsb (fun p => bool_decide (p = path)) previous) "duplicate route in collect_routes!" in
      match route_paths path with
      | Ok hm => (hm :: pairs, dup ++ errors)
      | Err e => (pairs, dup ++ e :: errors)
      end
  end.
Definition expand_collect_routes (paths : list SynPath) : result (list (SynPath * SynPath)) (list string) :=
  match collect_loop [] paths with
  | (pairs, []) => Ok pairs
  | (_, errors) => Err errors
  end.

(** ** The macros

    From the tokens of the arguments, and of the item or [syn]'s error for it, to
    what is generated or the errors that are; [None] is an error of [syn]. *)
Definition CompileErrors := list (option string).

(** [parse_macro_input!]. *)
Definition parse_input {T R} (args : ParseResult T) (expand : T -> result R CompileErrors)
  : result R CompileErrors :=
  match args with Err e => Err [e] | Ok a => expand a end.
Definition compile_errors {R} (r : result R (list string)) : result R CompileErrors :=
  match r with Ok x => Ok x | Err es => Err (map Some es) end.

Definition macro_debug_handler (attr : list Token) (item : ParseResult FnSig)
  : result (list Assertion) CompileErrors :=
  parse_input (parse_debug_handler_args attr) (fun state =>
    parse_input item (fun sig => compile_errors (expand_debug_handler state sig))).

Definition route_item (method path : string) (item : ParseResult FnSig)
  : result RouteExpansion CompileErrors :=
  parse_input item (fun sig =>
    match expand_route method path (sig_ident sig) with Ok x => Ok x | Err e => Err [Some e] end).
Definition macro_route (attr : list Token) (item : ParseResult FnSig) : result RouteExpansion CompileErrors :=
  parse_input (parse_route_args attr) (fun '(method, path) => route_item method path item).
Definition expand_shorthand_route (method : string) (attr : list Token) (item : ParseResult FnSig)
  : result RouteExpansion CompileErrors :=
  parse_input (parse_shorthand_route_args attr) (fun path => route_item method path item).
Definition macro_get := expand_shorthand_route "GET".
Definition macro_post := expand_shorthand_route "POST".
Definition macro_put := expand_shorthand_route "PUT".
Definition macro_delete := expand_shorthand_route "DELETE".
Definition macro_patch := expand_shorthand_route "PATCH".
Definition macro_head := expand_shorthand_route "HEAD".
Definition macro_options := expand_shorthand_route "OPTIONS".
Definition macro_trace := expand_shorthand_route "TRACE".
Definition macro_any := expand_shorthand_route "ANY".

Definition macro_handler (attr : list Token) (item : ParseResult ItemImpl) : result Ty CompileErrors :=
  match attr with
  | [] => parse_input item (fun input => compile_errors (expand_handler input))
  | _ => Err [Some "#[handler] does not accept arguments"]
  end.

(** ** Collected routes at run time *)

Section Collected.
Context `{HttpCrate} `{Matchit} {W S : Type}.

(** A function with a route attribute. *)
Record Annotated := mkAnnotated { an_method : RouteMethod; an_path : string; an_handler : Handler S W }.

(** The emitted constant, and the emitted helper. *)
Definition route_meta (a : Annotated) : RouteMeta :=
  mkRouteMeta (an_path a) (MethodFilter.bits (method_filter_ident (an_method a))).
Definition route_helper (a : Annotated) (router : Router W S) : option (Router W S) :=
  route_collected (an_path a) (constructor_ident (an_method a) (an_handler a)) router.

(** The array type of [__ARVIK_NO_DUPLICATE_ROUTES], whose length must be 1. *)
Definition no_duplicate_routes (l : list Annotated) : bool :=
  (1 - route_conflict_count (map route_meta l) =? 1)%Z.

(** The closure: each helper in turn; [None] is a panic. *)
Fixpoint collected_routes (l : list Annotated) (router : Router W S) : option (Router W S) :=
  match l with
  | [] => Some router
  | a :: l => route_helper a router ≫= collected_routes l
  end.

(** ** Facts *)

(** The methods registered for a path. *)
Definition allow_of (path : string) (routes : list (RouteEntry W S)) : option Z :=
  mr_allow ∘ re_method_router <$> List.find (fun e => (re_pattern e =? path)%string) routes.

Lemma constructor_allow m (h : Handler S W) : mr_allow (constructor_ident m h) = method_filter_ident m.
Proof. by destruct m. Qed.

Lemma allow_of_cons p (e : RouteEntry W S) l : allow_of p (e :: l)
  = if (re_pattern e =? p)%string then Some (mr_allow (re_method_router e)) else allow_of p l.
Proof. unfold allow_of. cbn. by destruct (re_pattern e =? p)%string. Qed.

Lemma merge_existing_allow path mr (routes : list (RouteEntry W S)) :
  match merge_existing path mr routes with
  | None => allow_of path routes = None
  | Some None => exists a, allow_of path routes = Some a /\ Z.land a (mr_allow mr) <> 0%Z
  | Some (Some routes') =>
      (exists a, allow_of path routes = Some a /\ allow_of path routes' = Some (Z.lor a (mr_allow mr))) /\
      forall p, p <> path -> allow_of p routes' = allow_of p routes
  end.
Proof.
  induction routes as [|e rest IH]; [done|]. cbn [merge_existing].
  destruct (re_pattern e =? path)%string eqn:Ee.
  - unfold mr_merge. destruct (Z.land _ _ =? 0)%Z eqn:El; cbn [negb option_map].
    + split.
      * exists (mr_allow (re_method_router e)). rewrite !allow_of_cons. cbn [re_pattern re_method_router mr_allow]. by rewrite Ee.
      * intros p Hp. rewrite !allow_of_cons. cbn [re_pattern]. apply String.eqb_eq in Ee as ->.
        by rewrite (proj2 (String.eqb_neq path p)) by congruence.
    + exists (mr_allow (re_method_router e)). rewrite allow_of_cons, Ee. bool_hyps. done.
  - destruct (merge_existing path mr rest) as [[routes'|]|]; cbn [option_map].
    + destruct IH as [(a & Ha & Ha') Hne]. split.
      * exists a. rewrite !allow_of_cons, Ee. done.
      * intros p Hp. rewrite !allow_of_cons. destruct (re_pattern e =? p)%string; [done|by apply Hne].
    + destruct IH as (a & Ha & Hn). exists a. by rewrite allow_of_cons, Ee.
    + by rewrite allow_of_cons, Ee.
Qed.

(** The methods [l] annotates for a path. *)
Definition masks_of (path : string) (l : list Annotated) : option Z :=
  fold_left (fun m a => if (an_path a =? path)%string
                        then Some (Z.lor (default 0%Z m) (method_filter_ident (an_method a))) else m) l None.

Lemma masks_of_snoc path l a : masks_of path (l ++ [a])
  = if (an_path a =? path)%string
    then Some (Z.lor (default 0%Z (masks_of path l)) (method_filter_ident (an_method a)))
    else masks_of path l.
Proof. unfold masks_of. by rewrite fold_left_app. Qed.

(** No annotation of [l] shares a path and a method with [a]. *)
Lemma masks_of_disjoint l a m : (forall b, b ∈ l -> an_path b = an_path a ->
    Z.land (method_filter_ident (an_method b)) (method_filter_ident (an_method a)) = 0%Z) ->
  masks_of (an_path a) l = Some m -> Z.land m (method_filter_ident (an_method a)) = 0%Z.
Proof.
  revert m; induction l as [|b l IH] using rev_ind; intros m Hd; [done|].
  rewrite masks_of_snoc. destruct (String.eqb_spec (an_path b) (an_path a)) as [Hp|Hp].
  - intros [= <-]. rewrite Z.land_lor_distr_l, (Hd b) by (done || set_solver). rewrite Z.lor_0_r.
    destruct (masks_of (an_path a) l) as [m0|]; [|done]. apply IH; [set_solver|done].
  - apply IH. set_solver.
Qed.

Lemma route_allow path mr (r r' : Router W S) : route path mr r = Some r' ->
  allow_of path (r_routes r) = None ->
  allow_of path (r_routes r') = Some (mr_allow mr) /\
  forall p, p <> path -> allow_of p (r_routes r') = allow_of p (r_routes r).
Proof.
  unfold route. destruct (trie_insert _ _ _) as [t|]; [|done]. intros [= <-] Hn. cbn [r_routes].
  assert (Happ : forall p, allow_of p (r_routes r ++ [entry_new path mr])
    = match allow_of p (r_routes r) with Some a => Some a
      | None => if (path =? p)%string then Some (mr_allow mr) else None end).
  { clear Hn. intros p. induction (r_routes r) as [|e l IH].
    - rewrite app_nil_l, allow_of_cons. unfold entry_new. cbn [re_pattern re_method_router].
      by destruct (path =? p)%string.
    - rewrite <- app_comm_cons, !allow_of_cons. by destruct (re_pattern e =? p)%string. }
  split; [by rewrite Happ, Hn, String.eqb_refl|].
  intros p Hp. rewrite Happ, (proj2 (String.eqb_neq path p)) by congruence. by destruct (allow_of p _).
Qed.

(** One helper, on a router that holds what [l] annotates. *)
Lemma helper_step l a (r : Router W S) :
  (forall p, allow_of p (r_routes r) = masks_of p l) ->
  (forall b, b ∈ l -> an_path b = an_path a ->
    Z.land (method_filter_ident (an_method b)) (method_filter_ident (an_method a)) = 0%Z) ->
  match route_helper a r with
  | Some r' => forall p, allow_of p (r_routes r') = masks_of p (l ++ [a])
  | None => masks_of (an_path a) l = None /\
            trie_insert (r_trie r) (an_path a) (List.length (r_routes r)) = None
  end.
Proof.
  intros Hi Hd. unfold route_helper, route_collected.
  pose proof (merge_existing_allow (an_path a) (constructor_ident (an_method a) (an_handler a)) (r_routes r)) as Hm.
  rewrite constructor_allow in Hm.
  destruct (merge_existing _ _ _) as [[routes'|]|].
  - destruct Hm as [(m & Ha & Ha') Hne]. cbn [r_routes]. intros p. rewrite masks_of_snoc.
    destruct (String.eqb_spec (an_path a) p) as [<-|Hp]; [|rewrite Hne by congruence; apply Hi].
    by rewrite Ha', <- Hi, Ha.
  - destruct Hm as (m & Ha & Hn). destruct Hn. rewrite Hi in Ha. by eapply masks_of_disjoint.
  - destruct (route _ _ r) as [r'|] eqn:Er.
    + apply route_allow in Er as [Ha Hne]; [|done]. intros p. rewrite masks_of_snoc.
      destruct (String.eqb_spec (an_path a) p) as [<-|Hp]; [|rewrite Hne by congruence; apply Hi].
      by rewrite Ha, <- Hi, Hm, constructor_allow.
    + split; [by rewrite <- Hi|]. unfold route in Er. by destruct (trie_insert _ _ _).
Qed.
End Collected.

Section CollectedFacts.
Context `{HttpCrate} `{Matchit} {W S : Type}.

Lemma no_duplicates_disjoint (l1 l2 : list (Annotated (W := W) (S := S))) a b :
  no_duplicate_routes (l1 ++ a :: l2) = true -> b ∈ l1 -> an_path b = an_path a ->
  Z.land (method_filter_ident (an_method b)) (method_filter_ident (an_method a)) = 0%Z.
Proof.
  unfold no_duplicate_routes. intros Hc%Z.eqb_eq Hb Hp.
  destruct (route_conflict_count_spec (map route_meta (l1 ++ a :: l2))) as [H1 _].
  destruct (decide (Z.land (method_filter_ident (an_method b)) (method_filter_ident (an_method a)) = 0%Z))
    as [|Hn]; [done|].
  apply list_elem_of_lookup in Hb as [i Hi].
  assert (route_conflict_count (map route_meta (l1 ++ a :: l2)) = 1%Z) as Hone; [|lia].
  apply H1. exists i, (List.length l1), (route_meta b), (route_meta a).
  pose proof (lookup_lt_Some _ _ _ Hi).
  split_and!; [done| | |done|done]; rewrite list_lookup_fmap.
  - by rewrite lookup_app_l, Hi.
  - by rewrite list_lookup_middle.
Qed.

Lemma collected_routes_from (l2 l1 : list (Annotated (W := W) (S := S))) r1 :
  no_duplicate_routes (l1 ++ l2) = true ->
  (forall p, allow_of p (r_routes r1) = masks_of p l1) ->
  match collected_routes l2 r1 with
  | Some r => forall p, allow_of p (r_routes r) = masks_of p (l1 ++ l2)
  | None => exists la a lb r', l2 = la ++ a :: lb /\ collected_routes la r1 = Some r' /\
      masks_of (an_path a) (l1 ++ la) = None /\
      trie_insert (r_trie r') (an_path a) (List.length (r_routes r')) = None
  end.
Proof.
  revert l1 r1; induction l2 as [|a l2 IH]; intros l1 r1 Hd Hi; cbn [collected_routes].
  - by rewrite app_nil_r.
  - pose proof (helper_step l1 a r1 Hi (fun b => no_duplicates_disjoint l1 l2 a b Hd)) as Hs.
    destruct (route_helper a r1) as [r2|] eqn:Ea; cbn [mbind option_bind].
    + specialize (IH (l1 ++ [a]) r2). rewrite <- app_assoc in IH. specialize (IH Hd Hs).
      destruct (collected_routes l2 r2) as [r|]; [done|].
      destruct IH as (la & a' & lb & r' & -> & Hla & Hm & Ht).
      exists (a :: la), a', lb, r'. split_and!; [done|cbn; by rewrite Ea| |done].
      by rewrite <- app_assoc in Hm.
    + destruct Hs as [Hm Ht]. exists [], a, l2, r1. rewrite app_nil_r. done.
Qed.
End CollectedFacts.

(** ** Facts on the checks *)

Lemma when_nil b msg : when b msg = [] -> b = false.
Proof. by destruct b. Qed.

Lemma omap_nil_inv {A B} (f : A -> option B) l : omap f l = [] -> forall x, x ∈ l -> f x = None.
Proof.
  intros Hn x Hx. destruct (f x) as [y|] eqn:E; [|done].
  assert (y ∈ omap f l) as Hy by (apply list_elem_of_omap; by exists x). rewrite Hn in Hy. set_solver.
Qed.

Lemma no_receivers inputs :
  omap (fun a => match a with
                 | Receiver _ _ => Some "#[debug_handler] can only be used on free functions"
                 | Typed _ => None
                 end) inputs = [] -> inputs = map Typed (arg_types inputs).
Proof.
  unfold arg_types. induction inputs as [|[r m|t] l IH]; cbn; [done|done|]. intros Hn. by rewrite <- IH.
Qed.

Lemma body_positions_complete tys i t : tys !! i = Some t -> is_builtin_body_type t = true ->
  i ∈ body_positions tys.
Proof.
  intros Hi Hb. unfold body_positions. apply list_elem_of_omap. exists (i, t). cbn. rewrite Hb.
  split; [|done]. apply list_elem_of_lookup. exists i. by rewrite list_lookup_imap, Hi.
Qed.

(** ** Properties *)

(** C33. The compile-time check of [collect_routes!] is sound: annotated routes
    whose constant has its declared type never panic over a method two of them
    share. Registered on a new router they give every path exactly the methods
    annotated for it, and the only panic left is the trie's own, at a path seen
    for the first time. *)
Theorem collected_routes_merge `{HttpCrate} `{Matchit} {W S} (l : list (Annotated (W := W) (S := S))) :
  no_duplicate_routes l = true ->
  match collected_routes l router_new with
  | Some r => forall p, allow_of p (r_routes r) = masks_of p l
  | None => exists la a lb r', l = la ++ a :: lb /\ collected_routes la router_new = Some r' /\
      (forall b, b ∈ la -> an_path b <> an_path a) /\
      trie_insert (r_trie r') (an_path a) (List.length (r_routes r')) = None
  end.
Proof.
  intros Hd. pose proof (collected_routes_from l [] router_new Hd (fun _ => eq_refl)) as Hc.
  cbn [app] in Hc. destruct (collected_routes l router_new); [done|].
  destruct Hc as (la & a & lb & r' & Hl & Hla & Hm & Ht). exists la, a, lb, r'. split_and!; try done.
  clear -Hm. induction la as [|b la IH] using rev_ind; [set_solver|].
  rewrite masks_of_snoc in Hm. destruct (String.eqb_spec (an_path b) (an_path a)); [done|].
  specialize (IH Hm). set_solver.
Qed.

(** [#[debug_handler]] accepts only signatures the handler trait is implemented
    for, as far as names tell: async, not generic, at most 16 arguments and no
    [self], a declared state when one is extracted, and no body extractor before
    the last argument. Then each argument but the last is
    asserted to be extractable from parts, the last from the request, and the
    function to be a handler, all at the declared state. *)
Theorem debug_handler_accepts state sig :
  match expand_debug_handler state sig with
  | Ok assertions =>
      sig_async sig = true /\ sig_generic sig = false /\ (List.length (sig_inputs sig) <= 16)%nat /\
      exists tys, sig_inputs sig = map Typed tys /\
        (existsb is_state_type tys = true -> state <> None) /\
        (forall i t, tys !! i = Some t -> is_builtin_body_type t = true -> i = (List.length tys - 1)%nat) /\
        assertions = map (fun t => AssertFromRequestParts t state) (removelast tys) ++
          match last tys with Some t => [AssertFromRequest t state] | None => [] end ++
          [AssertHandler (sig_ident sig) state]
  | Err errors => errors <> []
  end.
Proof.
  unfold expand_debug_handler. destruct (debug_handler_errors state sig) as [|e es] eqn:E; [|done].
  unfold debug_handler_errors in E.
  apply app_nil in E as [Ha E]. apply app_nil in E as [Hg E]. apply app_nil in E as [Hl E].
  apply app_nil in E as [Hr E]. apply app_nil in E as [Hs E]. apply app_nil in E as [_ Hp].
  apply when_nil in Ha, Hg, Hl, Hs. apply Nat.ltb_ge in Hl.
  split_and!; [by destruct (sig_async sig)|done|done|].
  exists (arg_types (sig_inputs sig)). apply no_receivers in Hr. split_and!; [done| | |].
  - intros Hst ->. by rewrite Hst in Hs.
  - intros i t Hi Hb. pose proof (body_positions_complete _ _ _ Hi Hb) as Hin.
    destruct (arg_types (sig_inputs sig)) as [|u tys] eqn:Et; [done|].
    change (List.length (u :: tys)) with (S (List.length tys)) in *. cbn match in Hp.
    pose proof (omap_nil_inv _ _ Hp _ Hin) as Hx. cbn in Hx.
    destruct (Nat.eqb_spec i (List.length tys)); [lia|done].
  - by rewrite removelast_firstn_len, Nat.sub_1_r.
Qed.

(** Handlers whose names differ in case only get the same constant, though
    their helpers differ: two such handlers of one module do not compile. *)
Lemma route_meta_case_collision : route_meta_ident "getItem" = route_meta_ident "getitem" /\
  route_helper_ident "getItem" <> route_helper_ident "getitem".
Proof. split; [reflexivity|discriminate]. Qed.

(** The path of a raw identifier keeps its prefix in the constant's name, which
    is then no identifier. *)
(** A shorthand attribute is [#[route]] with its method, which may be written in
    any case. *)
Theorem shorthand_is_route method m rest item :
  to_ascii_uppercase m = method ->
  (method, expand_shorthand_route method) ∈
    [("GET", macro_get); ("POST", macro_post); ("PUT", macro_put); ("DELETE", macro_delete);
     ("PATCH", macro_patch); ("HEAD", macro_head); ("OPTIONS", macro_options); ("TRACE", macro_trace);
     ("ANY", macro_any)] ->
  macro_route (TkIdent m :: TkComma :: rest) item = expand_shorthand_route method rest item.
Proof.
  intros Hm Hin. unfold macro_route, expand_shorthand_route, parse_route_args, parse_shorthand_route_args.
  assert (forall path, route_item m path item = route_item method path item) as Hr.
  { intros path. unfold route_item, expand_route, parse_route_method. rewrite Hm.
    assert (to_ascii_uppercase method = method) as ->; [|done].
    repeat (apply elem_of_cons in Hin as [[= ->]|Hin]; [reflexivity|]). by apply elem_of_nil in Hin. }
  destruct rest as [|[] rest]; try done. destruct (end_of_args _ rest); [|done]. cbn. by rewrite Hr.
Qed.

Lemma raw_ident_meta : route_meta_ident "r#type" = "__ARVIK_ROUTE_META_R#TYPE".
Proof. reflexivity. Qed.

Lemma collected_routes_merge_witness :
  exists r, collected_routes (H := ListHttp) (H0 := ListMatchitI) (W := unit) (S := unit)
    [mkAnnotated RmGet "/users" (fun _ _ w => (method_not_allowed 0%Z, w));
     mkAnnotated RmPost "/users" (fun _ _ w => (method_not_allowed 1%Z, w))] router_new = Some r /\
    allow_of "/users" (r_routes r) = Some 3%Z.
Proof.
  pose proof (collected_routes_merge (H := ListHttp) (H0 := ListMatchitI) (W := unit) (S := unit)
    [mkAnnotated RmGet "/users" (fun _ _ w => (method_not_allowed 0%Z, w));
     mkAnnotated RmPost "/users" (fun _ _ w => (method_not_allowed 1%Z, w))] eq_refl) as W.
  destruct (collected_routes _ router_new) as [r|] eqn:E; [|discriminate E].
  exists r. split; [done|]. exact (W "/users").
Defined.
