(* ===== verification/TestClient.v ===== *)
(** * The test client

    [arvik-test/src/lib.rs]: a client that dispatches requests to a service in
    the process, with a cookie jar its clones share.

    The [cookie] crate is the class [ClientCookies] with the laws of a jar, a
    map from names to cookies; [httpdate], [serde_urlencoded] and [serde_json]
    enter as what they produce.  A panic of [expect] is [None].  The client's
    constructors, the accessors of a response and the web socket are in
    [TestSession]. *)
From S2P Require Import Prelude RustStr HttpCrate Body Http PathDe.
From stdpp Require Import base list strings sets.
From Stdlib Require Import ZArith Lia Ascii String.
Open Scope string_scope.
Open Scope list_scope.

Class ClientCookies : Type := {
  CkCookie : Type;
  ck_name : CkCookie -> string;
  ck_value : CkCookie -> string;
  ck_parse : string -> option CkCookie;
  CkJar : Type;
  ckjar_new : CkJar;
  ckjar_get : CkJar -> string -> option CkCookie;
  ckjar_add : CkJar -> CkCookie -> CkJar;
  ckjar_remove : CkJar -> CkCookie -> CkJar;
  ckjar_iter : CkJar -> list CkCookie }.

Class ClientCookiesLaws `(C : ClientCookies) : Prop := {
  ckjar_get_add_eq j c : ckjar_get (ckjar_add j c) (ck_name c) = Some c;
  ckjar_get_add_ne j c n : n <> ck_name c -> ckjar_get (ckjar_add j c) n = ckjar_get j n;
  ckjar_get_remove_eq j c : ckjar_get (ckjar_remove j c) (ck_name c) = None;
  ckjar_get_remove_ne j c n : n <> ck_name c -> ckjar_get (ckjar_remove j c) n = ckjar_get j n;
  ckjar_iter_get j c : c ∈ ckjar_iter j <-> ckjar_get j (ck_name c) = Some c }.

Section Client.
Context `{HttpCrate} `{ClientCookies} {W : Type}.
Context (now : W -> Z) (parse_http_date : string -> option Z) (uri_parse : string -> option Uri).

(** ** Cookies *)

Definition cookie_pair (c : CkCookie) : string := ck_name c +:+ "=" +:+ ck_value c.

(** [cookie_header]. *)
Definition jar_cookie_header (jar : CkJar) : option string :=
  let header := str_join "; " (map cookie_pair (ckjar_iter jar)) in
  if str_is_empty header then None else hv_from_str header.

(** [strip_prefix(a).or_else(strip_prefix(b))]. *)
Definition strip_either (a b s : string) : option string :=
  match str_strip_prefix a s with Some v => Some v | None => str_strip_prefix b s end.

Fixpoint first_some {A B} (f : A -> option B) (l : list A) : option B :=
  match l with
  | [] => None
  | a :: l => match f a with Some b => Some b | None => first_some f l end
  end.

(** [set_cookie_is_expired], at the time it is asked. *)
Definition set_cookie_is_expired (raw : string) (time : Z) : bool :=
  let attributes := map trim (skipn 1 (str_split ";" raw)) in
  match first_some (strip_either "Max-Age=" "max-age=") attributes with
  | Some v => match parse_int (mkInt true PathDe.W64) (trim v) with Some secs => (secs <=? 0)%Z | None => false end
  | None =>
      match first_some (strip_either "Expires=" "expires=") attributes with
      | Some v => match parse_http_date (trim v) with Some t => (t <=? time)%Z | None => false end
      | None => false
      end
  end.

(** One [Set-Cookie] value of [store_response_cookies], and its loop. *)
Definition store_cookie (time : Z) (jar : CkJar) (value : string) : CkJar :=
  match hv_to_str value with
  | None => jar
  | Some value =>
      match ck_parse value with
      | None => jar
      | Some cookie => if set_cookie_is_expired value time then ckjar_remove jar cookie
                       else ckjar_add jar cookie
      end
  end.
Definition store_response_cookies (time : Z) (headers : HeaderMap) (jar : CkJar) : CkJar :=
  fold_left (store_cookie time) (hm_get_all headers SET_COOKIE) jar.

(** ** The request builder *)

Record TestRequestBuilder := mkTestRequest {
  tr_method : Method;
  tr_uri : string;
  tr_headers : HeaderMap;
  tr_body : Body;
  tr_extra_cookies : list CkCookie }.
#[export] Instance rebuild_test_request : Rebuild TestRequestBuilder := fun r =>
  mkTestRequest (tr_method r) (tr_uri r) (tr_headers r) (tr_body r) (tr_extra_cookies r).

Definition test_request (method : Method) (path : string) : TestRequestBuilder :=
  mkTestRequest method path hm_empty body_empty [].

Definition tr_header (key value : string) (r : TestRequestBuilder) : TestRequestBuilder :=
  (r <| tr_headers := hm_insert (tr_headers r) key value |>)%rust.

(** [query], of the serialized parameters. *)
Definition tr_query (query : string) (r : TestRequestBuilder) : TestRequestBuilder :=
  if str_is_empty query then r
  else (r <| tr_uri := tr_uri r +:+ (if contains_char "?" (tr_uri r) then "&" else "?") +:+ query |>)%rust.

(** [json] and [form], of the serialized value. *)
Definition tr_json (bytes : string) (r : TestRequestBuilder) : TestRequestBuilder :=
  mkTestRequest (tr_method r) (tr_uri r) (hm_insert (tr_headers r) CONTENT_TYPE "application/json")
    (body_from_bytes bytes) (tr_extra_cookies r).
Definition tr_form (body : string) (r : TestRequestBuilder) : TestRequestBuilder :=
  mkTestRequest (tr_method r) (tr_uri r)
    (hm_insert (tr_headers r) CONTENT_TYPE "application/x-www-form-urlencoded")
    (body_from_bytes body) (tr_extra_cookies r).
Definition tr_set_body (body : Body) (r : TestRequestBuilder) : TestRequestBuilder :=
  (r <| tr_body := body |>)%rust.
Definition tr_cookie (c : CkCookie) (r : TestRequestBuilder) : TestRequestBuilder :=
  (r <| tr_extra_cookies := tr_extra_cookies r ++ [c] |>)%rust.

(** The jar's header, merged with one set explicitly. *)
Definition merge_jar_header (jar : CkJar) (headers : HeaderMap) : HeaderMap :=
  match jar_cookie_header jar ≫= hv_to_str with
  | Some jar_header =>
      let merged := match hm_get_str headers COOKIE with
                    | Some existing => existing +:+ "; " +:+ jar_header
                    | None => jar_header
                    end in
      match hv_from_str merged with
      | Some value => hm_insert headers COOKIE value
      | None => headers
      end
  | None => headers
  end.

(** The loop over the one-off cookies. *)
Definition push_cookie (header : string) (c : CkCookie) : string :=
  (if str_is_empty header then header else header +:+ "; ") +:+ cookie_pair c.
Definition add_extra_cookies (extra : list CkCookie) (headers : HeaderMap) : option HeaderMap :=
  match extra with
  | [] => Some headers
  | _ =>
      let header := fold_left push_cookie extra (default "" (hm_get_str headers COOKIE)) in
      match hv_from_str header with
      | Some value => Some (hm_insert headers COOKIE value)
      | None => None
      end
  end.

(** The request [send] dispatches. The headers were inserted, so each name has
    one value, and appending them to the new request gives the same map. *)
Definition build_request (jar : CkJar) (r : TestRequestBuilder) : option Request :=
  match add_extra_cookies (tr_extra_cookies r) (merge_jar_header jar (tr_headers r)) with
  | None => None
  | Some headers =>
      match uri_parse (tr_uri r) with
      | None => None
      | Some uri => Some (mkRequest (tr_method r) uri headers no_ext (tr_body r))
      end
  end.

(** [send]: the response, the jar and the world. *)
Definition send (service : Service W) (jar : CkJar) (r : TestRequestBuilder) (w : W)
  : option (Response * CkJar * W) :=
  match build_request jar r with
  | None => None
  | Some req =>
      let (response, w) := oneshot service req w in
      Some (response, store_response_cookies (now w) (res_headers response) jar, w)
  end.

(** ** Facts *)

(** The cookie a name has after a value is stored. *)
Definition stored (time : Z) (n : string) (old : option CkCookie) (value : string) : option CkCookie :=
  match hv_to_str value ≫= ck_parse with
  | Some c => if (ck_name c =? n)%string
              then if set_cookie_is_expired (default "" (hv_to_str value)) time then None else Some c
              else old
  | None => old
  end.

Lemma store_cookie_get {CL : ClientCookiesLaws _} time jar value n :
  ckjar_get (store_cookie time jar value) n = stored time n (ckjar_get jar n) value.
Proof.
  unfold store_cookie, stored. destruct (hv_to_str value) as [v|]; [|done]. cbn.
  destruct (ck_parse v) as [c|]; [|done].
  destruct (String.eqb_spec (ck_name c) n) as [<-|Hn];
    destruct (set_cookie_is_expired v time);
    by rewrite ?ckjar_get_add_eq, ?ckjar_get_remove_eq, ?ckjar_get_add_ne, ?ckjar_get_remove_ne by congruence.
Qed.

Lemma store_response_cookies_get {CL : ClientCookiesLaws _} time headers jar n :
  ckjar_get (store_response_cookies time headers jar) n
    = fold_left (stored time n) (hm_get_all headers SET_COOKIE) (ckjar_get jar n).
Proof.
  unfold store_response_cookies. revert jar.
  induction (hm_get_all headers SET_COOKIE) as [|v l IH]; intros jar; [done|].
  cbn [fold_left]. by rewrite IH, store_cookie_get.
Qed.
End Client.

Lemma cookie_pair_nonempty `{ClientCookies} c rest : str_is_empty (cookie_pair c +:+ rest) = false.
Proof. unfold cookie_pair. by destruct (ck_name c). Qed.

Lemma join_pairs_empty `{ClientCookies} l :
  str_is_empty (str_join "; " (map cookie_pair l)) = match l with [] => true | _ => false end.
Proof.
  destruct l as [|c l]; [done|]. destruct l as [|c' l]; cbn [map].
  - cbn [str_join]. pose proof (cookie_pair_nonempty c "") as E. by rewrite sapp_nil_r in E.
  - rewrite str_join_cons by done. apply cookie_pair_nonempty.
Qed.

Lemma join_pairs_visible `{ClientCookies} l :
  Forall (fun c => str_forall visible_ascii (cookie_pair c) = true) l ->
  str_forall visible_ascii (str_join "; " (map cookie_pair l)) = true.
Proof.
  induction 1 as [|c l Hc Hl IH]; [done|]. destruct l as [|c' l]; [done|].
  change (map cookie_pair (c :: c' :: l)) with (cookie_pair c :: map cookie_pair (c' :: l)).
  rewrite str_join_cons, !str_forall_app, Hc, IH by done. done.
Qed.

(** ** Property *)

(** The client keeps a session. After a request, its jar holds under each name
    the last cookie the response set and did not expire, or what it held if
    the response set none of that name; and the next request, unless it sets
    the header itself, carries exactly the jar's cookies, and none when the jar
    is empty. *)
Theorem client_keeps_session `{HL : HttpLaws} `{CL : ClientCookiesLaws} {W} now parse_http_date uri_parse
    (service : Service W) jar r w response jar' w' r2 req2 :
  send now parse_http_date uri_parse service jar r w = Some (response, jar', w') ->
  Forall (fun c => str_forall visible_ascii (cookie_pair c) = true) (ckjar_iter jar') ->
  hm_get_all (tr_headers r2) COOKIE = [] -> tr_extra_cookies r2 = [] ->
  build_request uri_parse jar' r2 = Some req2 ->
  (forall n, ckjar_get jar' n
     = fold_left (stored parse_http_date (now w') n) (hm_get_all (res_headers response) SET_COOKIE)
         (ckjar_get jar n)) /\
  exists cookies, (forall c, c ∈ cookies <-> ckjar_get jar' (ck_name c) = Some c) /\
    hm_get_all (req_headers req2) COOKIE
      = match cookies with [] => [] | _ => [str_join "; " (map cookie_pair cookies)] end.
Proof.
  intros Hs Hv Hno Hx Hb. split.
  - unfold send in Hs. destruct (build_request uri_parse jar r) as [req|]; [|done].
    destruct (oneshot service req w) as [resp w1]. injection Hs as <- <- <-.
    intros n. exact (store_response_cookies_get parse_http_date _ _ _ n).
  - exists (ckjar_iter jar'). split; [intros c; apply ckjar_iter_get|].
    unfold build_request in Hb. rewrite Hx in Hb. cbn [add_extra_cookies] in Hb.
    destruct (uri_parse (tr_uri r2)) as [uri|]; [|done]. injection Hb as <-. cbn [req_headers].
    pose proof (join_pairs_visible _ Hv) as Hvis.
    unfold merge_jar_header, jar_cookie_header. rewrite join_pairs_empty.
    destruct (ckjar_iter jar') as [|c l]; [done|].
    rewrite hv_from_str_visible by done. cbn [mbind option_bind]. rewrite hv_to_str_visible by done.
    assert (hm_get_str (tr_headers r2) COOKIE = None) as ->.
    { unfold hm_get_str. by rewrite hm_get_head, Hno. }
    rewrite hv_from_str_visible by done. by rewrite hm_all_insert_eq.
Qed.

(** Attribute names are matched in two spellings only. *)
Lemma max_age_spelling parse_http_date time :
  set_cookie_is_expired parse_http_date "a=1; Max-Age=0" time = true /\
  set_cookie_is_expired parse_http_date "a=1; MAX-AGE=0" time = false.
Proof. split; reflexivity. Qed.

(** ** Witness *)

Module Demo.
(** A cookie is its name and value, a jar an association list. *)
Definition parse (s : string) : option (string * string) :=
  match str_split ";" s with
  | nv :: _ => split_once "=" nv
  | [] => None
  end.
Definition without (n : string) (j : list (string * string)) : list (string * string) :=
  List.filter (fun c => negb (fst c =? n)%string) j.
#[export] Instance cookies : ClientCookies := {
  CkCookie := string * string; ck_name := fst; ck_value := snd; ck_parse := parse;
  CkJar := list (string * string); ckjar_new := [];
  ckjar_get j n := List.find (fun c => (fst c =? n)%string) j;
  ckjar_add j c := c :: without (fst c) j;
  ckjar_remove j c := without (fst c) j;
  ckjar_iter j := omap (fun c => if bool_decide (List.find (fun d => (fst d =? fst c)%string) j = Some c)
                                 then Some c else None) j }.
Lemma find_without n m (j : list (string * string)) : m <> n ->
  List.find (fun c => (fst c =? m)%string) (without n j) = List.find (fun c => (fst c =? m)%string) j.
Proof.
  intros Hm. induction j as [|[k v] j IH]; [done|]. cbn.
  destruct (String.eqb_spec k n) as [->|]; cbn.
  - by rewrite (proj2 (String.eqb_neq n m)) by congruence.
  - by destruct (k =? m)%string.
Qed.
Lemma find_without_eq n (j : list (string * string)) :
  List.find (fun c => (fst c =? n)%string) (without n j) = None.
Proof.
  induction j as [|[k v] j IH]; [done|]. cbn. destruct (k =? n)%string eqn:E; cbn; [done|by rewrite E].
Qed.
#[export] Instance cookies_laws : ClientCookiesLaws cookies.
Proof.
  split; cbn [ckjar_get ckjar_add ckjar_remove ckjar_iter ck_name cookies].
  - intros j c. cbn. by rewrite String.eqb_refl.
  - intros j c n Hn. cbn. rewrite (proj2 (String.eqb_neq (fst c) n)) by congruence. by apply find_without.
  - intros j c. apply find_without_eq.
  - intros j c n Hn. by apply find_without.
  - intros j c. rewrite list_elem_of_omap. split.
    + intros (d & _ & Hd). case_bool_decide; [|done]. by injection Hd as ->.
    + intros Hf. exists c. rewrite bool_decide_true by done. split; [|done].
      apply find_some in Hf as [Hin _]. by apply list_elem_of_In.
Qed.

Definition login : Service (H := ListHttp) unit := fun _ w =>
  (mkResponse (H := ListHttp) 200 [(SET_COOKIE, "sid=42; Path=/"); (SET_COOKIE, "old=1; Max-Age=0")] None body_empty, w).
Definition uri (s : string) : option Uri := Some (mkUri None None s None).
End Demo.

Lemma client_keeps_session_witness :
  exists response jar' req2,
    send (H := ListHttp) (H0 := Demo.cookies) (fun _ => 0%Z) (fun _ => None) Demo.uri Demo.login [("old", "1")]
      (test_request (H := ListHttp) POST "/login") tt = Some (response, jar', tt) /\
    build_request (H := ListHttp) (H0 := Demo.cookies) Demo.uri jar' (test_request (H := ListHttp) GET "/") = Some req2 /\
    hm_get_all (req_headers req2) COOKIE = ["sid=42"].
Proof.
  do 3 eexists. split; [reflexivity|]. split; [reflexivity|].
  destruct (client_keeps_session (H := ListHttp) (CL := Demo.cookies_laws) (fun _ => 0%Z) (fun _ => None) Demo.uri
    Demo.login [("old", "1")] (test_request (H := ListHttp) POST "/login") tt _ _ _
    (test_request (H := ListHttp) GET "/") _ eq_refl ltac:(repeat constructor) eq_refl eq_refl eq_refl)
    as (_ & cookies & Hc & Hall).
  vm_compute. reflexivity.
Defined.
