(* ===== verification/Telemetry.v ===== *)
(** * Installing loggers and tracers

    The installers of [arvik-observe/src/logging.rs] ([ArvikLoggerBuilder::init],
    [init_with_otel]) and [arvik-observe/src/trace.rs] ([OtelConfig], [OtelGuard]):
    what they do to the process, and who shuts a tracer provider down.

    The process has one global subscriber, which can be set once, and one global
    tracer provider.  The crates that parse filters, build exporters and run
    providers are parameters: whether each refuses.  A provider is shut down by a
    call, or when its last handle is dropped. *)
From S2P Require Import Prelude RustStr HttpCrate Body Http Logging.
From stdpp Require Import base list strings sets.
From Stdlib Require Import ZArith Lia Ascii String.
Open Scope string_scope.
Open Scope list_scope.

(** ** The tracer configuration *)

Inductive Exporter :=
| Stdout
| OtlpGrpc (endpoint : option string)
| OtlpHttp (endpoint : option string).

Record OtelConfig := mkOtelConfig {
  otel_service_name : string;
  otel_exporter : Exporter;
  otel_resource_attrs : list (string * string) }.
#[export] Instance rebuild_otel_config : Rebuild OtelConfig := fun r =>
  mkOtelConfig (otel_service_name r) (otel_exporter r) (otel_resource_attrs r).

Definition otel_config_new (service_name : string) : OtelConfig := mkOtelConfig service_name Stdout [].
Definition otel_stdout (c : OtelConfig) : OtelConfig := (c <| otel_exporter := Stdout |>)%rust.
Definition otel_stdout_json (c : OtelConfig) : OtelConfig := otel_stdout c.
(** [(!endpoint.is_empty()).then_some(endpoint)]. *)
Definition some_nonempty (s : string) : option string := if str_is_empty s then None else Some s.
Definition otel_otlp_grpc (endpoint : string) (c : OtelConfig) : OtelConfig :=
  (c <| otel_exporter := OtlpGrpc (some_nonempty endpoint) |>)%rust.
Definition otel_otlp_http (endpoint : string) (c : OtelConfig) : OtelConfig :=
  (c <| otel_exporter := OtlpHttp (some_nonempty endpoint) |>)%rust.
Definition otel_resource_attr (key value : string) (c : OtelConfig) : OtelConfig :=
  (c <| otel_resource_attrs := otel_resource_attrs c ++ [(key, value)] |>)%rust.

Inductive OtelError :=
| ExporterError (e : string)
| SubscriberError (e : string)
| ShutdownError (e : string).
Definition otel_error_text (e : OtelError) : string :=
  match e with
  | ExporterError e => "failed to build OpenTelemetry exporter: " +:+ e
  | SubscriberError e => "failed to install OpenTelemetry tracing subscriber: " +:+ e
  | ShutdownError e => "failed to shut down OpenTelemetry tracer provider: " +:+ e
  end.

(** [LoggerError], a boxed error. *)
Inductive LoggerError :=
| FilterError (e : string)
| InitError (e : string)
| OtelFailed (e : OtelError).

(** ** The process *)

(** What the global subscriber does: logs with the resolved settings, spans for
    a provider, or both. *)
Inductive Installed :=
| Logs (format : LogFormat) (directive : string) (with_target with_thread_ids : bool)
| Spans (provider : nat)
| LogsAndSpans (format : LogFormat) (directive : string) (with_target with_thread_ids : bool)
    (provider : nat).

(** [global_provider]: [None] is a provider without an exporter.  [shutdowns]:
    for each provider built, in order, how often it was shut down. *)
Record Process := mkProcess {
  subscriber : option Installed;
  global_provider : option nat;
  shutdowns : list nat }.

Definition process_start : Process := mkProcess None None [].

Definition provider_shutdown (id : nat) (p : Process) : Process :=
  mkProcess (subscriber p) (global_provider p) (alter S id (shutdowns p)).
Definition set_tracer_provider (o : option nat) (p : Process) : Process :=
  mkProcess (subscriber p) o (shutdowns p).

(** [try_init]: the global subscriber is set once. *)
Definition TAKEN : string := "a global default trace dispatcher has already been set".
Definition try_init (s : Installed) (p : Process) : result unit string * Process :=
  match subscriber p with
  | Some _ => (Err TAKEN, p)
  | None => (Ok tt, mkProcess (Some s) (global_provider p) (shutdowns p))
  end.

Section Install.
Context (env : string -> option string)
        (env_filter_new : string -> option string)          (* the error, if it refuses *)
        (exporter_build : Exporter -> option string)
        (shutdown_error : nat -> option string).

(** [build_provider]: the standard output needs no building. *)
Definition build_provider (c : OtelConfig) (p : Process) : result nat OtelError * Process :=
  let built := (Ok (List.length (shutdowns p)),
                mkProcess (subscriber p) (global_provider p) (shutdowns p ++ [0%nat])) in
  match otel_exporter c with
  | Stdout => built
  | e => match exporter_build e with
         | Some err => (Err (ExporterError err), p)
         | None => built
         end
  end.

(** The end both installers share: the provider is shut down and the global
    reference overwritten on failure, published on success. *)
Definition publish (id : nat) (s : Installed) (p : Process) : result nat OtelError * Process :=
  match try_init s p with
  | (Err e, p) => (Err (SubscriberError e), set_tracer_provider None (provider_shutdown id p))
  | (Ok _, p) => (Ok id, set_tracer_provider (Some id) p)
  end.

(** [OtelConfig::install]; the guard is the provider it owns. *)
Definition otel_install (c : OtelConfig) (p : Process) : result nat OtelError * Process :=
  match build_provider c p with
  | (Err e, p) => (Err e, p)
  | (Ok id, p) => publish id (Spans id) p
  end.

(** [ArvikLoggerBuilder::init]. *)
Definition logger_init (b : ArvikLoggerBuilder) (p : Process) : result unit LoggerError * Process :=
  let format := resolve_with env (log_format b) in
  let directive := env_filter_directive_with env b in
  match env_filter_new directive with
  | Some e => (Err (FilterError e), p)
  | None =>
      match try_init (Logs format directive (log_with_target b) (log_with_thread_ids b)) p with
      | (Err e, p) => (Err (InitError e), p)
      | (Ok _, p) => (Ok tt, p)
      end
  end.

(** [init_with_otel]: a filter that is refused drops the only handle of the
    provider. *)
Definition init_with_otel (b : ArvikLoggerBuilder) (c : OtelConfig) (p : Process)
  : result nat LoggerError * Process :=
  match build_provider c p with
  | (Err e, p) => (Err (OtelFailed e), p)
  | (Ok id, p) =>
      let format := resolve_with env (log_format b) in
      let directive := env_filter_directive_with env b in
      match env_filter_new directive with
      | Some e => (Err (FilterError e), provider_shutdown id p)
      | None =>
          match publish id (LogsAndSpans format directive (log_with_target b) (log_with_thread_ids b) id) p with
          | (Err e, p) => (Err (OtelFailed e), p)
          | (Ok id, p) => (Ok id, p)
          end
      end
  end.

(** [OtelGuard]: it holds its provider until it is taken. [shutdown] takes it,
    and the drop that follows finds nothing. *)
Definition OtelGuard := option nat.
Definition otel_guard_drop (g : OtelGuard) (p : Process) : Process :=
  match g with Some id => provider_shutdown id p | None => p end.
Definition otel_guard_shutdown (g : OtelGuard) (p : Process) : result unit OtelError * Process :=
  match g with
  | Some id =>
      let r := match shutdown_error id with Some e => Err (ShutdownError e) | None => Ok tt end in
      (r, otel_guard_drop None (provider_shutdown id p))
  | None => (Ok tt, otel_guard_drop None p)
  end.

(** ** A program that installs *)

Inductive TelemetryOp :=
| OpInit (b : ArvikLoggerBuilder)
| OpInstall (c : OtelConfig)
| OpInitWithOtel (b : ArvikLoggerBuilder) (c : OtelConfig)
| OpShutdown (i : nat)
| OpDrop (i : nat).

(** The process, the guards the program holds, and how often an installer
    succeeded. *)
Record Telemetry := mkTelemetry { process : Process; guards : list nat; successes : nat }.
Definition telemetry_start : Telemetry := mkTelemetry process_start [] 0.

Definition keep {E} (t : Telemetry) (out : result nat E * Process) : Telemetry :=
  match out with
  | (Ok id, p) => mkTelemetry p (guards t ++ [id]) (S (successes t))
  | (Err _, p) => mkTelemetry p (guards t) (successes t)
  end.

Definition telemetry_step (t : Telemetry) (op : TelemetryOp) : Telemetry :=
  match op with
  | OpInit b =>
      match logger_init b (process t) with
      | (Ok _, p) => mkTelemetry p (guards t) (S (successes t))
      | (Err _, p) => mkTelemetry p (guards t) (successes t)
      end
  | OpInstall c => keep t (otel_install c (process t))
  | OpInitWithOtel b c => keep t (init_with_otel b c (process t))
  | OpShutdown i =>
      match guards t !! i with
      | Some id => mkTelemetry (snd (otel_guard_shutdown (Some id) (process t))) (delete i (guards t)) (successes t)
      | None => t
      end
  | OpDrop i =>
      match guards t !! i with
      | Some id => mkTelemetry (otel_guard_drop (Some id) (process t)) (delete i (guards t)) (successes t)
      | None => t
      end
  end.
Definition telemetry_run (ops : list TelemetryOp) : Telemetry :=
  fold_left telemetry_step ops telemetry_start.

#[local] Arguments build_provider : simpl never.

(** ** The invariant *)

(** Every provider is shut down exactly once, unless a guard owns it: then it
    runs. *)
Definition accounted (p : Process) (gs : list nat) : Prop :=
  forall id n, shutdowns p !! id = Some n -> n = if bool_decide (id ∈ gs) then 0%nat else 1%nat.

Record telemetry_ok (t : Telemetry) : Prop := mkTelemetryOk {
  to_once : successes t = match subscriber (process t) with Some _ => 1%nat | None => 0%nat end;
  to_guard : guards t = [] \/
    exists g, guards t = [g] /\ (g < List.length (shutdowns (process t)))%nat /\ successes t = 1%nat;
  to_accounted : accounted (process t) (guards t) }.

Lemma lookup_snoc_inv {A} (l : list A) x i y :
  (l ++ [x]) !! i = Some y -> (i < List.length l)%nat /\ l !! i = Some y \/ i = List.length l /\ y = x.
Proof.
  intros [H|[Hl H]]%lookup_app_Some.
  - left. split; [by eapply lookup_lt_Some|done].
  - right. apply list_lookup_singleton_Some in H as [H ->]. split; [lia|done].
Qed.

(** A provider built and shut down again leaves the accounts in order. *)
Lemma accounted_released p gs s g :
  accounted p gs -> (forall x, x ∈ gs -> (x < List.length (shutdowns p))%nat) ->
  accounted (provider_shutdown (List.length (shutdowns p)) (mkProcess s g (shutdowns p ++ [0%nat]))) gs.
Proof.
  intros Ha Hg id n. cbn. rewrite alter_app_r_alt by lia. rewrite Nat.sub_diag. cbn.
  intros [[_ H]|[-> ->]]%lookup_snoc_inv; [by apply Ha|].
  rewrite bool_decide_eq_false_2; [done|]. intros Hin. specialize (Hg _ Hin). lia.
Qed.

(** A provider built and kept. *)
Lemma accounted_kept p s g :
  accounted p [] -> accounted (mkProcess s g (shutdowns p ++ [0%nat])) [List.length (shutdowns p)].
Proof.
  intros Ha id n. cbn. intros [[Hlt H]|[-> ->]]%lookup_snoc_inv.
  - rewrite (Ha _ _ H), bool_decide_eq_false_2 by apply not_elem_of_nil.
    rewrite bool_decide_eq_false_2; [done|]. intros ->%list_elem_of_singleton. lia.
  - rewrite bool_decide_eq_true_2; [done|]. by apply list_elem_of_singleton.
Qed.

Lemma accounted_dropped p g : accounted p [g] -> accounted (provider_shutdown g p) [].
Proof.
  intros Ha id n. cbn. rewrite list_lookup_alter. destruct (decide (g = id)) as [->|Hne].
  - destruct (shutdowns p !! id) as [m|] eqn:E; [|done]. rewrite (Ha _ _ E). cbn.
    rewrite bool_decide_eq_true_2 by (by apply list_elem_of_singleton). by intros [= <-].
  - intros H. rewrite (Ha _ _ H), bool_decide_eq_false_2; [done|]. by intros ->%list_elem_of_singleton.
Qed.

(** An installer that owns a provider keeps the invariant, whatever it installs:
    it fails before building one, releases the one it built, or keeps it. *)
Inductive outcome_of {E} (p : Process) : result nat E * Process -> Prop :=
| oc_nothing e : outcome_of p (Err e, p)
| oc_released e g : outcome_of p (Err e, provider_shutdown (List.length (shutdowns p))
    (mkProcess (subscriber p) g (shutdowns p ++ [0%nat])))
| oc_kept s : subscriber p = None -> outcome_of p (Ok (List.length (shutdowns p)),
    mkProcess (Some s) (Some (List.length (shutdowns p))) (shutdowns p ++ [0%nat])).

Lemma keep_ok {E} t (out : result nat E * Process) :
  telemetry_ok t -> outcome_of (process t) out -> telemetry_ok (keep t out).
Proof.
  intros [Ho Hg Ha] [e|e g|s Hs]; cbn.
  - by split.
  - split; cbn; [done| |].
    + destruct Hg as [Hg|(x & -> & Hx & Hn)]; [by left|right]. exists x. split_and!; [done| |done].
      rewrite length_alter, length_app. cbn. lia.
    + apply accounted_released; [done|]. destruct Hg as [->|(x & -> & Hx & _)]; set_solver.
  - rewrite Hs in Ho. destruct Hg as [Hg|(x & _ & _ & Hn)]; [|lia]. rewrite Hg in *.
    split; cbn; [by rewrite Ho| |by apply accounted_kept].
    right. eexists. split_and!; [done| |lia]. rewrite length_app. cbn. lia.
Qed.

Lemma build_provider_cases c p :
  (exists e, build_provider c p = (Err (ExporterError e), p)) \/
  build_provider c p = (Ok (List.length (shutdowns p)),
    mkProcess (subscriber p) (global_provider p) (shutdowns p ++ [0%nat])).
Proof.
  unfold build_provider. destruct (otel_exporter c) as [|e|e]; [by right|..];
    destruct (exporter_build _); eauto.
Qed.

Lemma publish_outcome p s :
  outcome_of p (publish (List.length (shutdowns p)) s
    (mkProcess (subscriber p) (global_provider p) (shutdowns p ++ [0%nat]))).
Proof.
  unfold publish, try_init. cbn. destruct (subscriber p) as [x|] eqn:E.
  - rewrite <- E. exact (oc_released p _ None).
  - by apply oc_kept.
Qed.

Lemma otel_install_outcome c p : outcome_of p (otel_install c p).
Proof.
  unfold otel_install. destruct (build_provider_cases c p) as [[e ->]| ->]; [apply oc_nothing|].
  apply publish_outcome.
Qed.

Lemma init_with_otel_outcome b c p : outcome_of p (init_with_otel b c p).
Proof.
  unfold init_with_otel. destruct (build_provider_cases c p) as [[e ->]| ->]; [apply oc_nothing|].
  destruct (env_filter_new _); [apply oc_released|].
  pose proof (publish_outcome p (LogsAndSpans (resolve_with env (log_format b))
    (env_filter_directive_with env b) (log_with_target b) (log_with_thread_ids b)
    (List.length (shutdowns p)))) as Ho.
  inversion Ho; [apply oc_nothing|apply oc_released|by apply oc_kept].
Qed.

(** A guard that goes, shut down or dropped, releases its provider. *)
Lemma guard_gone_ok t i g :
  guards t !! i = Some g -> telemetry_ok t ->
  telemetry_ok (mkTelemetry (provider_shutdown g (process t)) (delete i (guards t)) (successes t)).
Proof.
  intros Hi [Ho Hg Ha]. destruct Hg as [Hg|(x & Hg & Hx & Hn)]; rewrite Hg in *; [done|].
  destruct i as [|i]; [|done]. injection Hi as ->. split; cbn; [done|by left|].
  by apply accounted_dropped.
Qed.

Lemma telemetry_step_ok t op : telemetry_ok t -> telemetry_ok (telemetry_step t op).
Proof.
  intros Ht. destruct op as [b|c|b c|i|i]; cbn.
  - unfold logger_init, try_init. destruct (env_filter_new _); [by destruct t|].
    destruct (subscriber (process t)) eqn:E; [by destruct t|].
    destruct Ht as [Ho Hg Ha]. rewrite E in Ho. split; cbn; [by rewrite Ho| |exact Ha].
    destruct Hg as [Hg|(x & _ & _ & Hn)]; [by left|lia].
  - apply keep_ok; [done|]. apply otel_install_outcome.
  - apply keep_ok; [done|]. apply init_with_otel_outcome.
  - destruct (guards t !! i) eqn:E; [|done]. by apply guard_gone_ok.
  - destruct (guards t !! i) eqn:E; [|done]. by apply guard_gone_ok.
Qed.

(** ** Properties *)

(** Tracer providers are released exactly once. In any program of logger
    initializations, tracer installations, combined installations, guard
    shutdowns and guard drops, whatever refuses: at most one installer ever
    succeeds, there is at most one guard, and every provider that was built has
    been shut down exactly once, except the one a guard still owns, which is
    running. *)
Theorem telemetry_lifecycle ops :
  let t := telemetry_run ops in
  (successes t <= 1)%nat /\ (successes t = 0%nat <-> subscriber (process t) = None) /\
  (List.length (guards t) <= 1)%nat /\
  (forall id n, shutdowns (process t) !! id = Some n ->
    (id ∈ guards t -> n = 0%nat) /\ (id ∉ guards t -> n = 1%nat)).
Proof.
  assert (forall t, telemetry_ok t -> telemetry_ok (fold_left telemetry_step ops t)) as H.
  { induction ops as [|op ops IH]; intros t Ht; [done|]. apply IH. by apply telemetry_step_ok. }
  destruct (H telemetry_start) as [Ho Hg Ha].
  { split; [done|by left|]. by intros id n. }
  unfold telemetry_run. cbn zeta. split_and!.
  - rewrite Ho. by destruct (subscriber _); lia.
  - rewrite Ho. by destruct (subscriber _).
  - destruct Hg as [->|(g & -> & _)]; cbn; lia.
  - intros id n Hn. specialize (Ha _ _ Hn). split; intros Hin; rewrite Ha.
    + by rewrite bool_decide_eq_true_2.
    + by rewrite bool_decide_eq_false_2.
Qed.

(** A tracer installation that fails because another has succeeded takes that
    one's provider out of the global slot, which it never held itself: code that
    asks for the global tracer stops exporting, while the first guard lives. *)
Theorem failed_install_unpublishes c c' p :
  subscriber p = None ->
  match otel_install c p with
  | (Ok id, p1) =>
      global_provider p1 = Some id /\
      match otel_install c' p1 with
      | (Err (SubscriberError _), p2) =>
          global_provider p2 = None /\ shutdowns p2 !! id = Some 0%nat
      | (Err _, p2) => p2 = p1
      | (Ok _, _) => False
      end
  | (Err _, p1) => p1 = p
  end.
Proof.
  intros Hs. unfold otel_install. destruct (build_provider_cases c p) as [[e ->]| ->]; [done|].
  unfold publish at 1, try_init. cbn. rewrite Hs. cbn. split; [done|].
  set (p1 := set_tracer_provider _ _).
  destruct (build_provider_cases c' p1) as [[e He]|He]; rewrite He; [done|].
  cbn. split; [done|]. rewrite list_lookup_alter_ne by (rewrite length_app; cbn; lia).
  rewrite lookup_app_l by (rewrite length_app; cbn; lia). by rewrite lookup_app_r, Nat.sub_diag.
Qed.

(** Logging and tracing installed one after the other: the second always fails,
    as documented; installed together they succeed when nothing refuses. *)
Theorem logger_then_tracer b c p p' :
  logger_init b p = (Ok tt, p') -> match fst (otel_install c p') with Ok _ => False | Err _ => True end.
Proof.
  unfold logger_init, try_init. destruct (env_filter_new _); [done|].
  destruct (subscriber p); [done|]. intros [= <-]. unfold otel_install.
  destruct (build_provider_cases c (mkProcess (Some (Logs (resolve_with env (log_format b))
    (env_filter_directive_with env b) (log_with_target b) (log_with_thread_ids b)))
    (global_provider p) (shutdowns p))) as [[e ->]| ->]; done.
Qed.
End Install.

(** ** At concrete programs *)

Example install_twice_then_drop :
  let t := telemetry_run (fun _ => None) (fun _ => None) (fun _ => None) (fun _ => None)
    [OpInstall (otel_config_new "a"); OpInstall (otel_config_new "b"); OpDrop 0] in
  (shutdowns (process t), global_provider (process t), guards t) = ([1; 1], None, [])%nat.
Proof. reflexivity. Qed.
