(* ===== verification/Serve.v ===== *)
(** * Serving: from a bound server to the requests a service gets

    [arvik-hyper/src/serve.rs], and of [arvik-hyper/src/server.rs] the [serve_*]
    methods, [HandlerService], [MethodRouterService] and what [run_connection]
    does with a request, with [Request::from_hyper].

    Serving never returns while connections come, so an entry point is known by
    what it starts: a [Serving], the bound server with the acceptor it runs, the
    service, the shutdown signal and the shutdown settings.  [AcceptWorkers] and
    [Server] say what runs from there, and [connection_service] what answers a
    request.  The futures that signal a shutdown and the [native-tls]
    configuration are abstract. *)
From S2P Require Import Prelude RustStr HttpCrate Body Http MethodFilter MethodRouter RouterPath Router.
From S2P Require Import IpAddr F64 RateLimit Responses Extract Extractors Tls ServerConfig Server AcceptWorkers.
From stdpp Require Import base list strings sets relations.
From Stdlib Require Import ZArith Lia Ascii String.
Open Scope string_scope.
Open Scope list_scope.

(** ** A request from the wire *)

Section Requests.
Context `{HttpCrate} {W : Type}.

(** [hyper::Request<Incoming>]; the incoming body yields frames. *)
Record HyperRequest := mkHyperRequest {
  hr_method : Method;
  hr_uri : Uri;
  hr_headers : HeaderMap;
  hr_frames : list FrameResult;
  hr_hint : list FrameResult -> SizeHint }.

(** [Request::from_hyper]: the extensions start empty. *)
Definition from_hyper (req : HyperRequest) : Request :=
  mkRequest (hr_method req) (hr_uri req) (hr_headers req) no_ext
    (BBoxed (hr_frames req) (hr_hint req)).

(** The [service_fn] of [run_connection] for a peer: a clone of the service
    answers each request.  [peer_addr] is only logged, when the connection
    fails. *)
Definition connection_service (service : Service W) (peer_addr : SocketAddr) (req : HyperRequest) (w : W)
  : Response * W :=
  service (from_hyper req) w.

(** The requests of all connections, in the order their calls take effect. *)
Fixpoint serve_requests (service : Service W) (reqs : list (SocketAddr * HyperRequest)) (w : W)
  : list Response * W :=
  match reqs with
  | [] => ([], w)
  | (peer_addr, req) :: reqs =>
      let '(res, w) := connection_service service peer_addr req w in
      let '(ress, w) := serve_requests service reqs w in
      (res :: ress, w)
  end.

(** [HandlerService::call] and [MethodRouterService::call]: a clone is called
    with the unit state. *)
Definition handler_service_call (h : Handler unit W) : Service W := fun req w => h req tt w.
Definition method_router_service_call (router : MethodRouter W unit) : Service W :=
  fun req w => fst (mr_call (mr_clone router) req tt w).
End Requests.

(** The protocol settings of a connection, and whether it can be upgraded. *)
Definition connection_builder (c : ServerConfig) : list HyperCall * bool :=
  (auto_builder c, negb (http2_only c)).

(** ** Entry points *)

Inductive Signal (F : Type) := Pending | Until (f : F).
Arguments Pending {F}.
Arguments Until {F} f.

(** [struct Server]. *)
Record BoundServer := mkBoundServer {
  listeners : list Listener;
  server_addr : SocketAddr;
  server_config : ServerConfig }.

Inductive Acceptor (Native : Type) :=
| AcceptPlain
| AcceptTls (c : RustlsConfig)
| AcceptNativeTls (c : Native).
Arguments AcceptPlain {Native}.
Arguments AcceptTls {Native} c.
Arguments AcceptNativeTls {Native} c.

Definition transport_of {Native} (a : Acceptor Native) : Transport :=
  match a with AcceptPlain => Server.Plain | _ => Server.Tls end.

Inductive Outcome (A : Type) :=
| Started (a : A)
| NotBound (e : IoError)
| StartPanicked.
Arguments Started {A} a.
Arguments NotBound {A} e.
Arguments StartPanicked {A}.

Definition obind {A B} (x : Outcome A) (f : A -> Outcome B) : Outcome B :=
  match x with Started a => f a | NotBound e => NotBound e | StartPanicked => StartPanicked end.

Section Entry.
Context `{HttpCrate} `{MatchitC : Matchit} {W F Native : Type}.
Context (os : list SockCall -> SockCall -> option IoError)
        (tokio_bind : string -> option IoError)
        (lookup_host : string -> result (list SocketAddr) IoError)
        (local_addr : Listener -> result SocketAddr IoError).

Record Serving := mkServing {
  sg_server : BoundServer;
  sg_acceptor : Acceptor Native;
  sg_service : Service W;
  sg_signal : Signal F;
  sg_shutdown : ShutdownConfig }.

(** What the acceptor of a serving reaches. *)
Definition serving_reachable (g : Serving) (s : Served) : Prop :=
  served_reachable (server_addr (sg_server g)) (server_config (sg_server g)) (sg_shutdown g)
    (listeners (sg_server g)) s.

Definition server_bind_with_config (addr : string) (c : ServerConfig) : Outcome BoundServer :=
  match bind_with_config os tokio_bind lookup_host local_addr addr c with
  | Bound ls a => Started (mkBoundServer ls a c)
  | BindFailed e => NotBound e
  | BindPanicked => StartPanicked
  end.
Definition server_bind (addr : string) : Outcome BoundServer :=
  server_bind_with_config addr server_config_default.

Implicit Types (self : BoundServer) (service : Service W) (signal : Signal F) (sd : ShutdownConfig).

Definition srv_accept_plain service signal sd self : Outcome Serving :=
  Started (mkServing self AcceptPlain service signal sd).
Definition srv_accept_tls service tls signal sd self : Outcome Serving :=
  Started (mkServing self (AcceptTls tls) service signal sd).
Definition srv_accept_native_tls service tls signal sd self : Outcome Serving :=
  Started (mkServing self (AcceptNativeTls tls) service signal sd).

(** *** The methods of [Server] *)

Definition srv_serve_service_with_graceful_shutdown service signal sd self : Outcome Serving :=
  srv_accept_plain service signal sd self.
Definition srv_serve_service service self : Outcome Serving :=
  srv_serve_service_with_graceful_shutdown service Pending shutdown_config_default self.
Definition srv_serve_app (router : Router W unit) self : Outcome Serving :=
  srv_serve_service (into_service router) self.
Definition srv_serve_app_with_graceful_shutdown (router : Router W unit) signal sd self
  : Outcome Serving :=
  srv_serve_service_with_graceful_shutdown (into_service router) signal sd self.
Definition srv_serve (handler : Handler unit W) self : Outcome Serving :=
  srv_serve_service (handler_service_call handler) self.
Definition srv_serve_with_graceful_shutdown (handler : Handler unit W) signal sd self
  : Outcome Serving :=
  srv_serve_service_with_graceful_shutdown (handler_service_call handler) signal sd self.
Definition srv_serve_method_router (router : MethodRouter W unit) self : Outcome Serving :=
  srv_serve_service (method_router_service_call router) self.
Definition srv_serve_method_router_with_graceful_shutdown (router : MethodRouter W unit) signal sd self
  : Outcome Serving :=
  srv_serve_service_with_graceful_shutdown (method_router_service_call router) signal sd self.
Definition srv_serve_tls_service_with_graceful_shutdown service tls signal sd self : Outcome Serving :=
  srv_accept_tls service tls signal sd self.
Definition srv_serve_tls_service service tls self : Outcome Serving :=
  srv_serve_tls_service_with_graceful_shutdown service tls Pending shutdown_config_default self.
Definition srv_serve_tls_app (router : Router W unit) tls self : Outcome Serving :=
  srv_serve_tls_service (into_service router) tls self.
Definition srv_serve_tls_app_with_graceful_shutdown (router : Router W unit) tls signal sd self
  : Outcome Serving :=
  srv_serve_tls_service_with_graceful_shutdown (into_service router) tls signal sd self.
Definition srv_serve_native_tls_service_with_graceful_shutdown service tls signal sd self
  : Outcome Serving :=
  srv_accept_native_tls service tls signal sd self.
Definition srv_serve_native_tls_service service tls self : Outcome Serving :=
  srv_serve_native_tls_service_with_graceful_shutdown service tls Pending shutdown_config_default self.
Definition srv_serve_native_tls_app (router : Router W unit) tls self : Outcome Serving :=
  srv_serve_native_tls_service (into_service router) tls self.
Definition srv_serve_native_tls_app_with_graceful_shutdown (router : Router W unit) tls signal sd self
  : Outcome Serving :=
  srv_serve_native_tls_service_with_graceful_shutdown (into_service router) tls signal sd self.

(** *** The functions of [serve.rs] *)

Definition serve (addr : string) (handler : Handler unit W) : Outcome Serving :=
  obind (server_bind addr) (srv_serve handler).
Definition serve_handler_with_config (addr : string) (handler : Handler unit W) (config : ServerConfig)
  : Outcome Serving :=
  obind (server_bind_with_config addr config) (srv_serve handler).
Definition serve_handler_with_config_and_graceful_shutdown (addr : string) (handler : Handler unit W)
    (config : ServerConfig) sd signal : Outcome Serving :=
  obind (server_bind_with_config addr config) (srv_serve_with_graceful_shutdown handler signal sd).
Definition serve_handler_with_graceful_shutdown (addr : string) (handler : Handler unit W) signal
  : Outcome Serving :=
  serve_handler_with_config_and_graceful_shutdown addr handler server_config_default
    shutdown_config_default signal.

Definition serve_router (addr : string) (router : MethodRouter W unit) : Outcome Serving :=
  obind (server_bind addr) (srv_serve_method_router router).
Definition serve_router_with_config (addr : string) (router : MethodRouter W unit)
    (config : ServerConfig) : Outcome Serving :=
  obind (server_bind_with_config addr config) (srv_serve_method_router router).
Definition serve_router_with_config_and_graceful_shutdown (addr : string) (router : MethodRouter W unit)
    (config : ServerConfig) sd signal : Outcome Serving :=
  obind (server_bind_with_config addr config)
    (srv_serve_method_router_with_graceful_shutdown router signal sd).
Definition serve_router_with_graceful_shutdown (addr : string) (router : MethodRouter W unit) signal
  : Outcome Serving :=
  serve_router_with_config_and_graceful_shutdown addr router server_config_default
    shutdown_config_default signal.

Definition serve_app (addr : string) (router : Router W unit) : Outcome Serving :=
  obind (server_bind addr) (srv_serve_app router).
Definition serve_with_config (router : Router W unit) (addr : string) (config : ServerConfig)
  : Outcome Serving :=
  obind (server_bind_with_config addr config) (srv_serve_app router).
Definition serve_with_config_and_graceful_shutdown (router : Router W unit) (addr : string)
    (config : ServerConfig) sd signal : Outcome Serving :=
  obind (server_bind_with_config addr config) (srv_serve_app_with_graceful_shutdown router signal sd).
Definition serve_with_graceful_shutdown (router : Router W unit) (addr : string) signal
  : Outcome Serving :=
  serve_with_config_and_graceful_shutdown router addr server_config_default
    shutdown_config_default signal.

Definition serve_service (addr : string) service : Outcome Serving :=
  obind (server_bind addr) (srv_serve_service service).
Definition serve_service_with_config (addr : string) service (config : ServerConfig)
  : Outcome Serving :=
  obind (server_bind_with_config addr config) (srv_serve_service service).
Definition serve_service_with_config_and_graceful_shutdown (addr : string) service
    (config : ServerConfig) sd signal : Outcome Serving :=
  obind (server_bind_with_config addr config)
    (srv_serve_service_with_graceful_shutdown service signal sd).
Definition serve_service_with_graceful_shutdown (addr : string) service signal : Outcome Serving :=
  serve_service_with_config_and_graceful_shutdown addr service server_config_default
    shutdown_config_default signal.

Definition serve_tls_with_config (router : Router W unit) (addr : string) (tls : RustlsConfig)
    (config : ServerConfig) : Outcome Serving :=
  obind (server_bind_with_config addr config) (srv_serve_tls_app router tls).
Definition serve_tls (router : Router W unit) (addr : string) (tls : RustlsConfig) : Outcome Serving :=
  serve_tls_with_config router addr tls server_config_default.
Definition serve_tls_with_config_and_graceful_shutdown (router : Router W unit) (addr : string)
    (tls : RustlsConfig) (config : ServerConfig) sd signal : Outcome Serving :=
  obind (server_bind_with_config addr config)
    (srv_serve_tls_app_with_graceful_shutdown router tls signal sd).
Definition serve_tls_with_graceful_shutdown (router : Router W unit) (addr : string)
    (tls : RustlsConfig) signal : Outcome Serving :=
  serve_tls_with_config_and_graceful_shutdown router addr tls server_config_default
    shutdown_config_default signal.

Definition serve_native_tls_with_config (router : Router W unit) (addr : string) (tls : Native)
    (config : ServerConfig) : Outcome Serving :=
  obind (server_bind_with_config addr config) (srv_serve_native_tls_app router tls).
Definition serve_native_tls (router : Router W unit) (addr : string) (tls : Native) : Outcome Serving :=
  serve_native_tls_with_config router addr tls server_config_default.
Definition serve_native_tls_with_config_and_graceful_shutdown (router : Router W unit) (addr : string)
    (tls : Native) (config : ServerConfig) sd signal : Outcome Serving :=
  obind (server_bind_with_config addr config)
    (srv_serve_native_tls_app_with_graceful_shutdown router tls signal sd).
Definition serve_native_tls_with_graceful_shutdown (router : Router W unit) (addr : string)
    (tls : Native) signal : Outcome Serving :=
  serve_native_tls_with_config_and_graceful_shutdown router addr tls server_config_default
    shutdown_config_default signal.

(** HTTP/2 with prior knowledge: the protocol of the configuration is
    overridden. *)
Definition serve_h2c_with_config (router : Router W unit) (addr : string) (config : ServerConfig)
  : Outcome Serving :=
  obind (server_bind_with_config addr (set_http2_only true config)) (srv_serve_app router).
Definition serve_h2c (router : Router W unit) (addr : string) : Outcome Serving :=
  serve_h2c_with_config router addr server_config_default.
Definition serve_h2c_with_config_and_graceful_shutdown (router : Router W unit) (addr : string)
    (config : ServerConfig) sd signal : Outcome Serving :=
  obind (server_bind_with_config addr (set_http2_only true config))
    (srv_serve_app_with_graceful_shutdown router signal sd).
Definition serve_h2c_with_graceful_shutdown (router : Router W unit) (addr : string) signal
  : Outcome Serving :=
  serve_h2c_with_config_and_graceful_shutdown router addr server_config_default
    shutdown_config_default signal.
End Entry.

(** ** The default shutdown signal

    [default_shutdown_signal] of [graceful.rs], on Unix: when it resolves, given
    when [SIGTERM] comes, if a handler could be installed for it, and what
    [ctrl_c] does: it resolves at the interrupt, or at once with an error. *)
Definition ctrl_c_resolves (ctrl_c : result (option Z) string) : option Z :=
  match ctrl_c with Ok t => t | Err _ => Some 0%Z end.
Definition earliest (a b : option Z) : option Z :=
  match a, b with
  | Some a, Some b => Some (Z.min a b)
  | Some a, None => Some a
  | None, b => b
  end.
Definition default_shutdown_signal (terminate : result (option Z) string) (ctrl_c : result (option Z) string)
  : option Z :=
  match terminate with
  | Ok t => earliest (ctrl_c_resolves ctrl_c) t
  | Err _ => ctrl_c_resolves ctrl_c
  end.

(** With both handlers in place it is the first of the two signals; but an
    interrupt handler that cannot be installed counts as the signal, and the
    server shuts down at once. *)
Theorem default_signal_first terminate ctrl_c t c :
  terminate = Ok t -> ctrl_c = Ok c ->
  (default_shutdown_signal terminate ctrl_c = None <-> t = None /\ c = None) /\
  (forall x, default_shutdown_signal terminate ctrl_c = Some x ->
    (t = Some x \/ c = Some x) /\ (forall y, t = Some y \/ c = Some y -> (x <= y)%Z)).
Proof.
  intros -> ->. cbn. destruct c as [c|], t as [t|]; cbn; (split; [naive_solver|]); intros x Hx;
    simplify_eq; split; try naive_solver lia.
  destruct (Z.min_spec c t) as [[_ ->]|[_ ->]]; auto.
Qed.

Theorem failed_handler_shuts_down terminate e :
  (forall t, terminate = Ok (Some t) -> (0 <= t)%Z) ->
  default_shutdown_signal terminate (Err e) = Some 0%Z.
Proof.
  intros Ht. destruct terminate as [[t|]|]; cbn; [|done..]. f_equal. apply Z.min_l. by apply Ht.
Qed.

(** ** Properties *)

Section Served.
Context `{HttpCrate} `{ML : MatchitLaws} {W F Native : Type}.
Context (os : list SockCall -> SockCall -> option IoError)
        (tokio_bind : string -> option IoError)
        (lookup_host : string -> result (list SocketAddr) IoError)
        (local_addr : Listener -> result SocketAddr IoError).

Local Notation Serves := (Router W unit -> Outcome (Serving (W := W) (F := F) (Native := Native))).

(** Every entry point that serves a router. *)
Definition router_entries (addr : string) (c : ServerConfig) (tls : RustlsConfig) (native : Native)
    (signal : Signal F) (sd : ShutdownConfig) : list Serves :=
  [fun r => serve_app os tokio_bind lookup_host local_addr addr r;
   fun r => serve_with_config os tokio_bind lookup_host local_addr r addr c;
   fun r => serve_with_graceful_shutdown os tokio_bind lookup_host local_addr r addr signal;
   fun r => serve_with_config_and_graceful_shutdown os tokio_bind lookup_host local_addr r addr c sd signal;
   fun r => serve_tls os tokio_bind lookup_host local_addr r addr tls;
   fun r => serve_tls_with_config os tokio_bind lookup_host local_addr r addr tls c;
   fun r => serve_tls_with_graceful_shutdown os tokio_bind lookup_host local_addr r addr tls signal;
   fun r => serve_tls_with_config_and_graceful_shutdown os tokio_bind lookup_host local_addr r addr tls c sd signal;
   fun r => serve_native_tls os tokio_bind lookup_host local_addr r addr native;
   fun r => serve_native_tls_with_config os tokio_bind lookup_host local_addr r addr native c;
   fun r => serve_native_tls_with_graceful_shutdown os tokio_bind lookup_host local_addr r addr native signal;
   fun r => serve_native_tls_with_config_and_graceful_shutdown os tokio_bind lookup_host local_addr r addr
              native c sd signal;
   fun r => serve_h2c os tokio_bind lookup_host local_addr r addr;
   fun r => serve_h2c_with_config os tokio_bind lookup_host local_addr r addr c;
   fun r => serve_h2c_with_graceful_shutdown os tokio_bind lookup_host local_addr r addr signal;
   fun r => serve_h2c_with_config_and_graceful_shutdown os tokio_bind lookup_host local_addr r addr c sd signal].

(** What every entry point does: it binds under some configuration, the given
    one or the default, and serves the router as a service. *)
Lemma router_entry_started addr c tls native signal sd (e : Serves) r g :
  e ∈ router_entries addr c tls native signal sd -> e r = Started g ->
  sg_service g = into_service r /\
  max_connections (server_config (sg_server g)) ∈ [max_connections c; None] /\
  bind_with_config os tokio_bind lookup_host local_addr addr (server_config (sg_server g)) =
    Bound (listeners (sg_server g)) (server_addr (sg_server g)).
Proof.
  assert (forall c' f, max_connections c' ∈ [max_connections c; None] ->
    (forall self g', f self = Started g' -> sg_server g' = self /\ sg_service g' = into_service r) ->
    obind (server_bind_with_config os tokio_bind lookup_host local_addr addr c') f = Started g ->
    sg_service g = into_service r /\
    max_connections (server_config (sg_server g)) ∈ [max_connections c; None] /\
    bind_with_config os tokio_bind lookup_host local_addr addr (server_config (sg_server g)) =
      Bound (listeners (sg_server g)) (server_addr (sg_server g))) as Hobind.
  { intros c' f Hc Hf. unfold server_bind_with_config.
    destruct (bind_with_config _ _ _ _ addr c') as [ls a| |] eqn:Eb; try done.
    intros Hg. cbn in Hg. apply Hf in Hg as [Hs ->]. by rewrite Hs. }
  unfold router_entries. intros He Hg. repeat (apply elem_of_cons in He as [->|He];
    [refine (Hobind _ _ _ _ Hg); [set_solver|by intros ? ? [= <-]]|]).
  by apply elem_of_nil in He.
Qed.

Lemma serve_requests_spec (service spec : Service W) reqs w :
  service = spec -> serve_requests service reqs w = spec_all spec (map (fun pr => from_hyper (snd pr)) reqs) w.
Proof.
  intros ->. revert w; induction reqs as [|[peer req] reqs IH]; intros w; [done|]. cbn.
  unfold connection_service. destruct (spec _ w) as [res w1]. by rewrite IH.
Qed.

(** C3. Serving a router, end to end. Whatever entry point is used, over plain TCP,
    either TLS backend or HTTP/2 with prior knowledge, when it starts for a
    router built by public operations and bound to its state: the requests of
    all connections, in whatever order their calls take effect and whoever sent
    them, are answered as the router's specification inside its layers answers
    them, which never panics, so that none panics in the dispatch; and under a connection limit, given in
    the configuration, at no moment are there more connection tasks than the
    limit, however workers, loop and tasks interleave. *)
Theorem serve_router_end_to_end {S} (r : Router W S) (st : S) addr c tls native signal sd (e : Serves) g :
  built r -> e ∈ router_entries addr c tls native signal sd -> e (with_state st r) = Started g ->
  (forall reqs w, serve_requests (sg_service g) reqs w =
    spec_all (apply_layers (router_core (with_state st r)) (r_layers r))
      (map (fun pr => from_hyper (snd pr)) reqs) w) /\
  (forall m s, max_connections (server_config (sg_server g)) = Some m -> in_u64 m ->
    serving_reachable g s -> max_connections c = Some m /\ live (loop s) <= m)%Z.
Proof.
  intros Hb He Hg. destruct (router_entry_started _ _ _ _ _ _ _ _ _ He Hg) as (Hs & Hm & _). split.
  - intros reqs w. apply serve_requests_spec. rewrite Hs.
    rewrite into_service_core by by apply with_state_wf, built_wf. done.
  - intros m s Hmax Hm64 Hr%served_reachable_ok. destruct (so_run _ _ _ _ _ Hr) as (ls & Hrun & _).
    apply run_reachable, (reachable_inv _ _ _ (loop s)) in Hrun as [leaked Hc]; [|naive_solver].
    assert (0 <= pending (phase (loop s)))%Z by (by destruct (phase (loop s))).
    pose proof (counted_max _ _ _ _ Hc m Hmax ltac:(apply Hm64)).
    split; [|lia]. rewrite Hmax in Hm. set_solver.
Qed.

(** A served method router answers as its specification. *)
Theorem served_method_router_refines (mr : MethodRouter W unit) reqs w :
  mr_built unit mr ->
  serve_requests (method_router_service_call mr) reqs w =
    spec_all (mr_spec mr tt) (map (fun pr => from_hyper (snd pr)) reqs) w.
Proof.
  intros Hb%mr_built_wf. apply serve_requests_spec. by apply method_router_service_spec.
Qed.

(** The server gives no request the address of its peer: the [ConnectInfo]
    extractor rejects every request with 500. *)
Theorem served_connect_info_rejected {T} (get : Extensions -> option T) req :
  get no_ext = None ->
  connect_info_of get (fst (into_request_parts (from_hyper req))) = Err NoConnectInfo.
Proof. intros Hg. unfold connect_info_of. cbn. by rewrite Hg. Qed.
End Served.

(** And a rate limit by address, whatever proxies it trusts, counts all clients
    of the server in one bucket: the call depends on the peer in nothing, and
    takes its token from the bucket of the key [unknown]. *)
Theorem served_clients_share_bucket `{HttpCrate} {W} `{Hasher} (clock : W -> Clock) l
    (inner : Service (BucketStore * W)) peer req st w :
  rl_extractor l = ByIpAddress ->
  connection_service (rate_limit_layer clock l inner) peer req (st, w) =
    let '(o, st') := store_try_consume "unknown" (rl_capacity l) (rl_window l) (clock w) st in
    match o with
    | Allowed => connection_service inner peer req (st', w)
    | Limited retry => (too_many_requests (ceil_as_u64 retry) (rl_capacity l), (st', w))
    end.
Proof.
  intros Hk. unfold connection_service, rate_limit_layer. rewrite Hk. cbn.
  by destruct (store_try_consume _ _ _ _ _) as [[] ?].
Qed.

(** ** At a concrete server *)

Module DemoServe.
Definition sa (octets : list Z) (port : Z) : SocketAddr := mkAddr (V4 octets) port.
Definition alice : SocketAddr := sa [203; 0; 113; 1]%Z 4001.
Definition bob : SocketAddr := sa [198; 51; 100; 7]%Z 4002.
Definition get (path : string) : HyperRequest :=
  let req := Demo.request GET path in
  mkHyperRequest (req_method req) (req_uri req) (req_headers req) [] (fun _ => mkHint 0 None).
Definition config : ServerConfig := set_max_connections 2 server_config_default.
(** A service in front of which one request an hour is allowed. *)
Definition limited (l : RateLimitLayer) : Service (BucketStore * list string) :=
  rate_limit_layer (fun _ => DemoLimit.at_time 0) l
    (fun req '(st, w) => let '(r, w) := Demo.handler "h" req w in (r, (st, w))).
Definition start (r : Router (list string) unit)
  : Outcome (Serving (W := list string) (F := unit) (Native := unit)) :=
  serve_with_config_and_graceful_shutdown (fun _ _ => None) (fun _ => None) (fun _ => Ok [sa [0;0;0;0]%Z 80])
    (fun _ => Ok (sa [0;0;0;0]%Z 80)) r "0.0.0.0:80" config shutdown_config_default (Until tt).
End DemoServe.

(** Bob is refused because Alice was served. *)
Example bob_pays_for_alice :
  match DemoLimit.once_an_hour with
  | Some l =>
      map res_status (fst (serve_requests (DemoServe.limited l)
        [(DemoServe.alice, DemoServe.get "/"); (DemoServe.bob, DemoServe.get "/")] (store_new, [])))
      = [200; 429]%Z
  | None => False
  end.
Proof. vm_compute. reflexivity. Qed.

Lemma served_clients_share_bucket_witness :
  match DemoLimit.once_an_hour with
  | Some l => fst (connection_service (DemoServe.limited l) DemoServe.bob (DemoServe.get "/") (store_new, [])) =
      fst (connection_service (DemoServe.limited l) DemoServe.alice (DemoServe.get "/") (store_new, []))
  | None => False
  end.
Proof.
  destruct DemoLimit.once_an_hour as [l|] eqn:E; [|discriminate E].
  assert (rl_extractor l = ByIpAddress) as Hl by (injection E as <-; reflexivity).
  unfold DemoServe.limited.
  rewrite (served_clients_share_bucket _ _ _ DemoServe.bob _ _ _ Hl).
  rewrite (served_clients_share_bucket _ _ _ DemoServe.alice _ _ _ Hl). reflexivity.
Defined.

Lemma serve_router_end_to_end_witness :
  exists home g, DemoApp.home = Some home /\ DemoServe.start (with_state tt home) = Started g /\
    (let out := serve_requests (sg_service g)
       [(DemoServe.alice, DemoServe.get "/"); (DemoServe.bob, DemoServe.get "/no")] [] in
     (map res_status (fst out), snd out)) = ([200; 404]%Z, ["home /"]).
Proof.
  pose proof DemoApp.home_built as Hh.
  assert (Hc : option_map (fun h => let out := spec_all (apply_layers (router_core (with_state tt h)) (r_layers h))
                 [from_hyper (DemoServe.get "/"); from_hyper (DemoServe.get "/no")] [] in
                 (map res_status (fst out), snd out)) DemoApp.home = Some ([200; 404]%Z, ["home /"]))
    by (vm_compute; reflexivity).
  destruct DemoApp.home as [home|] eqn:E; [|destruct Hh].
  exists home. eexists. split; [reflexivity|]. split; [reflexivity|].
  match goal with |- context [sg_service ?g] => pose (g0 := g) end.
  assert (DemoServe.start ∈ router_entries (W := list string) (F := unit) (Native := unit)
    (fun _ _ => None) (fun _ => None) (fun _ => Ok [DemoServe.sa [0;0;0;0]%Z 80])
    (fun _ => Ok (DemoServe.sa [0;0;0;0]%Z 80)) "0.0.0.0:80" DemoServe.config 0%nat tt (Until tt)
    shutdown_config_default) as He
    by (do 3 (apply elem_of_cons; right); apply elem_of_cons; left; reflexivity).
  destruct (serve_router_end_to_end _ _ _ _ home tt _ _ _ _ _ _ _ g0 Hh He eq_refl) as [Hr _].
  injection Hc as Hc1 Hc2. fold g0. rewrite Hr. cbn zeta. f_equal; [exact Hc1|exact Hc2].
Defined.
