(* ===== verification/TestSession.v ===== *)
(** * The test client's entry points, responses and web socket

    [arvik-test/src/lib.rs]: making a client of a router or a service, the request
    methods, the accessors of a response, and [TestWebSocket], a server of its own
    with the handle that stops it.  [TestClient] has the cookies and [send].

    [serde_json], [tokio-tungstenite] and the test server's task enter as what they
    answer. *)
From S2P Require Import Prelude RustStr HttpCrate Body Http MethodRouter Router IpAddr ServerConfig Server.
From S2P Require Import AcceptWorkers Serve WebSocket TestClient.
From stdpp Require Import base list strings sets.
From Stdlib Require Import ZArith Lia Ascii String.
Open Scope string_scope.
Open Scope list_scope.

Section Client.
Context `{HttpCrate} `{ClientCookies} {W : Type}.

(** [TestClient]: a clone of the service and the jar its clones share. *)
Definition client_from_service (service : Service W) : Service W * CkJar := (service, ckjar_new).
Definition client_new `{Matchit} (router : Router W unit) : Service W * CkJar :=
  client_from_service (into_service router).

Definition client_get (path : string) : TestRequestBuilder := test_request GET path.
Definition client_post (path : string) : TestRequestBuilder := test_request POST path.
Definition client_put (path : string) : TestRequestBuilder := test_request PUT path.
Definition client_delete (path : string) : TestRequestBuilder := test_request DELETE path.
Definition client_patch (path : string) : TestRequestBuilder := test_request PATCH path.

(** ** Responses *)

Definition response_bytes (r : Response) : result string BoxError := to_bytes (res_body r).
Definition response_text (utf8_error : string -> string) (r : Response) : result string BoxError :=
  to_string utf8_error (res_body r).
(** [json]: a body that cannot be read is an I/O error of the parser. *)
Definition response_json {T E} (from_slice : string -> result T E) (io_error : BoxError -> E) (r : Response)
  : result T E :=
  match to_bytes (res_body r) with
  | Ok bytes => from_slice bytes
  | Err e => Err (io_error e)
  end.
End Client.

(** ** [TestWebSocket] *)

(** [SocketAddr]'s [Display]. *)
Definition show_addr (a : SocketAddr) : string :=
  match sa_ip a with
  | V4 _ => show_ip (sa_ip a) +:+ ":" +:+ to_dec (sa_port a)
  | V6 _ => "[" +:+ show_ip (sa_ip a) +:+ "]:" +:+ to_dec (sa_port a)
  end.

(** The address [connect] dials. *)
Definition ws_url (a : SocketAddr) (path : string) : string :=
  let path := if starts_with "/" path then path else "/" +:+ path in
  "ws://" +:+ show_addr a +:+ path.

(** The handles on the server's task: whether the shutdown sender is still
    there, whether the shutdown was signalled, whether the task was aborted. *)
Record TestServer := mkTestServer { has_shutdown : bool; signalled : bool; server_aborted : bool }.
Record TestWebSocket (Inner : Type) := mkTestWebSocket { ws_inner : Inner; ws_server : TestServer }.
Arguments mkTestWebSocket {Inner} ws_inner ws_server.
Arguments ws_inner {Inner} t.
Arguments ws_server {Inner} t.

Definition server_started : TestServer := mkTestServer true false false.

(** The settings of the server behind a test web socket. *)
Definition test_shutdown_config : ShutdownConfig := set_drain_timeout (1 * SECOND)%Z shutdown_config_default.

Section Socket.
Context `{TsCode} {Inner Failure : Type}.
Context (dial : string -> result Inner Failure)             (* connect_async *)
        (sink : Inner -> TMessage -> option Failure * Inner)
        (source : Inner -> option (result TMessage Failure) * Inner)
        (close_inner : Inner -> option Failure).

(** [connect], on the address the server was bound to. When dialling fails, the
    sender is dropped, which signals the shutdown, and the task goes on to it. *)
Definition ws_connect (bound : Outcome BoundServer) (path : string)
  : Outcome (result (TestWebSocket Inner) Failure * TestServer) :=
  obind bound (fun server =>
    Started match dial (ws_url (server_addr server) path) with
            | Ok inner => (Ok (mkTestWebSocket inner server_started), server_started)
            | Err e => (Err e, mkTestServer false true false)
            end).

Definition tws_send (m : Message) (t : TestWebSocket Inner) : option Failure * TestWebSocket Inner :=
  let (r, inner) := sink (ws_inner t) (message_to_ts m) in (r, mkTestWebSocket inner (ws_server t)).
Definition tws_send_text (text : string) : TestWebSocket Inner -> option Failure * TestWebSocket Inner :=
  tws_send (Text text).
Definition tws_recv (t : TestWebSocket Inner)
  : option (result (option Message) Failure) * TestWebSocket Inner :=
  let (r, inner) := source (ws_inner t) in
  (option_map (fun r => match r with Ok m => Ok (message_of_ts m) | Err e => Err e end) r,
   mkTestWebSocket inner (ws_server t)).

(** [stop_server]: the sender is taken and used once, the task aborted. *)
Definition stop_server (s : TestServer) : TestServer :=
  mkTestServer false (signalled s || has_shutdown s) true.
Definition tws_drop (t : TestWebSocket Inner) : TestServer := stop_server (ws_server t).
(** [close]: the server is stopped whatever the close gives, and the drop of the
    socket stops it again. *)
Definition tws_close (t : TestWebSocket Inner) : option Failure * TestServer :=
  match close_inner (ws_inner t) with
  | None => (None, tws_drop (mkTestWebSocket (ws_inner t) (stop_server (ws_server t))))
  | Some e => (Some e, tws_drop (mkTestWebSocket (ws_inner t) (stop_server (ws_server t))))
  end.
End Socket.

(** ** Properties *)

(** A test sees what the server would send: a request sent by the client is
    answered as the same request coming over a connection, from any peer, and
    the client's response, jar and world are that answer's. *)
Theorem client_sends_as_served `{HttpCrate} `{ClientCookies} {W} now parse_http_date uri_parse
    (service : Service W) peer jar r w frames hint uri headers :
  tr_body r = BBoxed frames hint -> uri_parse (tr_uri r) = Some uri ->
  add_extra_cookies (tr_extra_cookies r) (merge_jar_header jar (tr_headers r)) = Some headers ->
  let answer := connection_service service peer (mkHyperRequest (tr_method r) uri headers frames hint) w in
  send now parse_http_date uri_parse service jar r w =
    Some (fst answer,
          store_response_cookies parse_http_date (now (snd answer)) (res_headers (fst answer)) jar,
          snd answer).
Proof.
  intros Hb Hu Hh. unfold send, build_request. rewrite Hh, Hu, Hb. unfold connection_service, from_hyper.
  cbn. unfold oneshot. by destruct (service _ w).
Qed.

(** However a test web socket ends, and however often it is stopped, its server
    has been told to shut down and aborted. *)
Theorem test_server_stopped {Inner Failure} (close_inner : Inner -> option Failure) t n :
  ws_server t = server_started ->
  let stopped := mkTestServer false true true in
  tws_drop t = stopped /\ snd (tws_close close_inner t) = stopped /\
  Nat.iter n stop_server stopped = stopped.
Proof.
  intros Hs. cbn zeta. unfold tws_drop, tws_close. rewrite Hs. split_and!; [done| |].
  - by destruct (close_inner _).
  - induction n as [|n IH]; [done|]. rewrite Nat.iter_succ, IH. done.
Qed.

Example ws_url_of_relative :
  ws_url (mkAddr (V4 [127; 0; 0; 1]%Z) 4000) "chat" = "ws://127.0.0.1:4000/chat".
Proof. reflexivity. Qed.
